(* ===== verification/_CoqProject ===== *)
-Q . S2P
Prelude.v
Ballot.v
Proto.v
Util.v
Storage.v
Random.v
TimerList.v
Counter.v
NodeState.v
AcceptorModel.v
ProposerModel.v
LearnerModel.v
LogModel.v
InstanceModel.v
Traces.v
Consensus.v
System.v
Simulation.v
AcceptorSim.v
ProposerSim.v
LearnerSim.v
Refinement.v
Recovery.v
Restarts.v
Progress.v
Catchup.v
MachinesModel.v
Machines.v
CheckpointModel.v
Checkpoints.v
NetworkModel.v
Loops.v
Runtime.v
ProposeQueue.v
Proposals.v
GroupModel.v
Groups.v
Reference.v
Runs.v
RestartRuns.v
Witnesses.v
MachineWitnesses.v
Logging.v
Replication.v
Notifications.v
Contexts.v
Answers.v
TransferRuns.v
FileModel.v
Files.v
FileSpecs.v
CheckpointFileModel.v
CheckpointFiles.v
ReceiverFiles.v
TransferFiles.v
CleanFiles.v
MachineFileModel.v
MachineFiles.v
SenderFileModel.v
SenderFiles.v
NodeModel.v
Nodes.v
FileRuns.v
NodeRuns.v
ReplicationRuns.v
JourneyModel.v
JourneyPrograms.v
Journey.v
JourneyService.v
JourneyClients.v
JourneyRuns.v
