(* ===== verification/Prelude.v ===== *)
(** * Verification of Skywalker

    Skywalker (src/) is a C++ library of replicated state machines.  A node
    takes part in several groups; in each group the nodes agree by Paxos on the
    value of instance 1, 2, 3, ... and execute the values in order on their state
    machines.  Values are stored in LevelDB, old ones are deleted once a
    checkpoint of the machines covers them, and a node that is too far behind is
    sent a checkpoint.  Sockets, CRC and integer coding come from the library
    voyager, messages from protobuf.

    ** The parts of the program and the files that model them

    - paxos/ballot_number.h: [Ballot].  proto/paxos.proto, options.h, status: [Proto].
      slice.h, node_util.cc: [Util].  storage/: [Storage].  util/random.h: [Random].
      util/timerlist: [TimerList].  paxos/counter: [Counter].
    - [NodeState]: the state of one group on one node, with the fields of Instance,
      Acceptor, Proposer, Learner, LogManager, LogCleaner and of their loops; the primitives
      of network/messager.cc.  A handler of the code is a function [node -> node]; what it
      hands to the network, to the machines, to its caller or to another thread is
      appended to [out_] or to a queue, a failed assertion too.
    - [AcceptorModel], [ProposerModel], [LearnerModel], [LogModel], [InstanceModel]: the
      methods of paxos/acceptor.cc, proposer.cc, learner.cc, instance.cc and of
      log/log_manager.cc, log_cleaner.cc under their names, class name first where two
      classes share a method name.  [InstanceModel.Event] and [handle]: what the io, learn
      and clean loops of a node can do next.
    - [MachinesModel]: machine/: checkpoint files, the membership and master machines, and
      MachineManager with its checkpoints.
    - [CheckpointModel]: log/checkpoint_sender.cc, checkpoint_receiver.cc and
      checkpoint_manager.cc.
    - [NetworkModel]: network/network.cc.  [Loops]: util/runloop.cc as its thread runs it;
      [Runtime]: its queue as other threads see it, runloop_thread.cc, paxos/threadpool.cc.
      [Logging]: util/logging.cc, timeops.cc.  [ProposeQueue]: paxos/propose_queue.cc.  [GroupModel]:
      paxos/group.cc, over all of the above.
    - [FileModel]: util/file.cc, over a model of the system and stdio calls it makes, each of which
      may fail or be cut short.  [CheckpointFileModel]: the directories of a group and their use in
      machine/machine_manager.cc, machine/state_machine.cc and log/checkpoint_receiver.cc on
      that file system.  [MachineFileModel]: making checkpoints and recovering from them there; [SenderFileModel]:
      log/checkpoint_sender.cc there.
    - [NodeModel]: options.h and options.cc, paxos/config.cc, DB::Open, Group::Recover and
      Start, paxos/node_impl.cc: from the options to a running node, and its interface.
      [Notifications]: the callbacks that tell the user of a new membership or master.
    - [JourneyModel]: examples/journey, a replicated key-value store: its database, its state
      machine, which all groups of a node share, and its RPC service over the node.
      [JourneyPrograms]: the interactive client, and what the servers of journey and of
      examples/echo start.

    ** What is proved

    - Agreement.  [Consensus] is an abstract multi-instance Paxos with its safety proof.
      [System] composes nodes into a group whose messages may be lost, repeated and
      reordered, and defines when a run is [clean].  [Traces], [Simulation], [AcceptorSim],
      [ProposerSim], [LearnerSim] and [Refinement] show that every clean run of the code's
      handlers is a run of the abstract protocol; hence nodes that execute an instance
      execute the same value, and their sequences of executed instances are prefixes of
      one another.  The conditions of [clean] are those the code does not enforce: replies
      to an older proposal are not counted, one ballot does not carry two values, an
      acceptor that infers from a request of the next instance that its value was
      chosen is right, counters do not overflow and the membership does not change.
      [Runs] shows for each of the first three a run in which only it fails and nodes
      execute different values: these are defects of the code.  Beyond [clean], these
      theorems and those on progress, restarts and replication assume that every write to LevelDB
      succeeds (the class [LevelDBReliable]): the code ignores a failed write of an acceptor's
      record and answers as if it were stored.
    - Progress.  [Progress]: a proposal in a state of a clean run succeeds when a majority is in its
      instance, has promised nothing higher and its machines execute the value; the schedule is
      exactly the messages of the round, each delivered once, and the theorem covers runs with
      and without a prepare phase.  [Catchup]: a node that is behind reaches the instance of
      another one by exactly the events of one exchange of the learners, one message for each
      missing value, and has then executed what the other has.
    - Restarts.  [Recovery]: a node of a clean run that is started again on its database replays
      what it had executed after its checkpoint, all of it if there is a record of its last instance,
      in which case it also has its promise and vote back, and all but the last value
      otherwise.  [Restarts]: runs in which nodes stop and start again, any number of times, refine
      the same protocol and agree, as long as no restart loses the promise or the record of the
      instance it goes back to ([restart_fine]); a node that has answered in its instance loses
      neither.  The simulation is shared: the class [Simulation.RestartMode] says whether nodes may
      have restarted.  [RestartRuns]: the record of a learned value can take a promise away, and a
      checkpoint can turn an accepted value into a learned one; agreement is lost in
      both cases.  These are defects of the code too.
    - Replication.  [Replication]: every handler drives the machines by the executions it reports and
      by nothing else; each node executes instance after instance, in every run; in a clean run
      nodes that have executed as many instances have the same machines, provided the
      application's are deterministic.  A value for a machine that is not registered stops the
      group.  [Notifications]: the internal machines call the user's callbacks for each change of
      the membership or the master and for nothing else.
    - Proposals.  [ProposeQueue] refines an abstract queue; [Proposals] shows that the
      instance completes each proposal once, although timers are removed by reusable
      addresses; [Groups] puts the two together: no assertion of this path fails and every
      accepted proposal is completed once; [Answers]: its callback is called once, in order, with the
      result a step of the instance gave to the value it proposed.  [Contexts]: the machines
      never see a client's context after its callback.  [Groups] also says when two nodes
      can both hold the lease of the master.
    - The key-value store.  [Journey]: the data is a function of the values executed, replaying a
      log on data that has seen it is harmless, and the groups of a node do not disturb each
      other; [JourneyService]: every request is answered once, and nodes that have executed the
      same values hold the same data.  [JourneyClients]: the client's functions end, and what a
      command asks for.
    - Log and storage.  The largest stored instance and the smallest chosen one are found
      again, replay is in order, garbage collection deletes only what is old and covered by a
      checkpoint.
    - Machines and checkpoints.  [Machines]: membership changes, dispatch, rounds of
      checkpoints; defects in cleaning, in recovery and in GetMaster.  [Checkpoints]: what a
      receiver installs is what was sent, within one transfer (nothing is sent for an empty file); [TransferRuns]: two ways in
      which the code fails at this.
    - Files.  [Files]: a program logic for the monad of file operations, and the invariant of the
      file system that all of them keep.  [FileSpecs]: whole files are written and read back,
      failed writes are harmless elsewhere, bounds of mapped reads.  [CheckpointFiles],
      [ReceiverFiles], [TransferFiles], [CleanFiles], [MachineFiles]: receiving, cleaning, making
      and recovering checkpoints on the disk refine the operations of [CheckpointModel] and
      [MachinesModel]; [SenderFiles]: so does sending them, and a transfer from the sender's disk to
      the receiver's; what the membership and master machines store, and that a recovered
      lease is far too long.  [FileRuns]: runs in which data is lost or mixed.
    - Start.  [Nodes]: the directories of groups, and that a node starts on empty storage with
      groups that are the initial nodes of the agreement theorem.
    - Infrastructure.  Ballots are totally ordered, counters count majorities, timers fire
      in order, loops serve their queues, an iteration of a loop ends and leaves no timer due, frames survive a byte stream, slices are strings,
      statuses and ids round-trip, log lines have a bounded length.

    ** Interfaces

    Code outside src/ is a type class whose laws state documented behaviour: [FixedCoding],
    [LevelDB], [LevelDBOpen], [ProtoCodec], [Crc32c], [Inet], [Allocator] (operator new),
    [UserMachines], [Posix] (what the operating system may answer; [Quiet] when nothing fails, a condition of the
    theorems of [CleanFiles], [MachineFiles], [SenderFiles] and [Nodes]),
    [Hash] and [StringUtil] (voyager).  [BytewiseLaws] is LevelDB with its own comparator.
    Components meet at classes too: [MachineManager] and [CheckpointManager] are what
    Instance needs; [MachineManagerLaws] and [CheckpointManagerLaws] are what its proofs
    need, discharged by [Machines.manager_laws] and
    [CheckpointModel.checkpoint_manager_laws].  [DeterministicMachines] is what replication
    asks of the application, and [Journey.journey_deterministic] the store's answer.  [Reference]
    implements every class, and [Witnesses], [MachineWitnesses], [Runs], [RestartRuns],
    [TransferRuns], [FileRuns], [NodeRuns], [ReplicationRuns] and [JourneyRuns] evaluate the
    theorems there.

    ** Integers, time and recursion

    Machine integers are [Z] with the wrap of their type written out ([+64]).  A clock
    reading is a field or an argument; it may go back.  OnPaxosMessage calls itself through
    the handlers: [call_depth] bounds the depth and [OnPaxosMessage_fuel_enough] shows that
    the bound never matters.  Loops over ids (GCLoop, ReplayLog, ASyncSend) take the number
    of ids as fuel, [SendFile_loop] the length of the file, [OnMessage_loop] the length of
    the buffer; the theorems on them hold at these values.  Enumerations of messages have a
    constructor for the values protobuf passes through unknown, so that the default branches of the
    code are there; a read past the end of a vector gives an arbitrary word ([env_past_end],
    [px_past_end]).  [ReadFileToString] takes the number of
    reads as fuel; [FileSpecs.reads] is enough for a file, and [fuel_enough] says so of all files.
    [RunTimerProcs] takes the number of callbacks as fuel; the number of due timers is enough
    ([Loops.Loop_iteration_ends]).  [client_Propose] takes the depth of the client's calls as fuel; the
    lines of input are enough ([JourneyClients.client_terminates]).

    ** Not modelled

    The creation of threads and condition variables; sockets; the text of printf conversions; the
    test programs.  On the file system: links, permissions, and a crash in the middle of an
    operation.  Handlers are atomic: the code runs them in one loop per group.  A process stops between
    two events, and what it has written to LevelDB is there afterwards.  The agreement
    theorems are for a fixed membership.

    The progress theorems give a schedule under which the work is done; how long
    it takes, and so whether the timeout of a proposal passes first, depends on the network.
    Declarations in headers, accessors and destructors that only free memory
    have no definition of their own. *)

From stdpp Require Export base gmap sets list strings numbers relations pretty sorting.
From Stdlib Require Export ZArith Lia.

#[global] Open Scope Z_scope.

(** * Machine integers

    The C++ code computes on [uint64_t], [uint32_t] and [uint8_t].  Values are
    kept as [Z]; every operation that can overflow is written with the wrap of
    its type. *)

Declare Scope sky_scope.
Delimit Scope sky_scope with sky.
#[global] Open Scope sky_scope.

Definition u64_max : Z := 2 ^ 64 - 1.
Definition wrap64 (z : Z) : Z := z mod 2 ^ 64.
Definition wrap32 (z : Z) : Z := z mod 2 ^ 32.
Definition wrap16 (z : Z) : Z := z mod 2 ^ 16.
Definition wrap8 (z : Z) : Z := z mod 2 ^ 8.

Definition add64 (x y : Z) : Z := wrap64 (x + y).
Definition sub64 (x y : Z) : Z := wrap64 (x - y).

Notation "x +64 y" := (add64 x y) (at level 50, left associativity) : sky_scope.
Notation "x -64 y" := (sub64 x y) (at level 50, left associativity) : sky_scope.

Definition in_u64 (z : Z) : Prop := 0 <= z < 2 ^ 64.
Definition in_u32 (z : Z) : Prop := 0 <= z < 2 ^ 32.
Definition in_u16 (z : Z) : Prop := 0 <= z < 2 ^ 16.

(** * Field update

    [r <| f := v |>] and [r <| f ::= g |>] are the assignments [r.f = v] and
    [r.f = g(r.f)]; an instance of [Setter] says how a field is replaced. *)

Class Setter {R T : Type} (get : R -> T) := set_field : (T -> T) -> R -> R.
Arguments set_field {R T} get {_} _ _ /.

Notation "r <| f ::= g |>" := (set_field f g r)
  (at level 12, left associativity, format "r  <|  f  ::=  g  |>").
Notation "r <| f := v |>" := (set_field f (fun _ => v) r)
  (at level 12, left associativity, format "r  <|  f  :=  v  |>").

(** * Automation *)

Create HintDb sky.

(** Turns the boolean tests of the code into propositions. *)
Ltac reflect_bools :=
  repeat match goal with
  | H : (_ && _)%bool = true |- _ => apply andb_prop in H; destruct H
  | H : (_ || _)%bool = false |- _ => apply orb_false_elim in H; destruct H
  | H : negb _ = true |- _ => apply negb_true_iff in H
  | H : negb _ = false |- _ => apply negb_false_iff in H
  | H : (_ =? _)%Z = true |- _ => apply Z.eqb_eq in H
  | H : (_ =? _)%Z = false |- _ => apply Z.eqb_neq in H
  | H : (_ <? _)%Z = true |- _ => apply Z.ltb_lt in H
  | H : (_ <? _)%Z = false |- _ => apply Z.ltb_ge in H
  | H : (_ <=? _)%Z = true |- _ => apply Z.leb_le in H
  | H : (_ <=? _)%Z = false |- _ => apply Z.leb_gt in H
  end.

(** Case split on the test of the [if] that the goal is stuck on. *)
Ltac split_if :=
  match goal with
  | |- context [if ?b then _ else _] => destruct b eqn:?; reflect_bools
  | H : context [if ?b then _ else _] |- _ => destruct b eqn:?; reflect_bools
  end.

(** * Shared lemmas *)

Lemma wrap64_small z : in_u64 z -> wrap64 z = z.
Proof. intros H. apply Z.mod_small, H. Qed.

Lemma wrap64_range z : in_u64 (wrap64 z).
Proof. apply Z.mod_pos_bound. lia. Qed.

Lemma add64_range x y : in_u64 (add64 x y).
Proof. apply wrap64_range. Qed.

Lemma add64_small x y : 0 <= x + y < 2 ^ 64 -> add64 x y = x + y.
Proof. apply wrap64_small. Qed.

Lemma add64_succ x : in_u64 x -> x <> u64_max -> add64 x 1 = x + 1.
Proof. unfold in_u64, u64_max. intros ??. apply add64_small. lia. Qed.

Lemma sub64_small x y : 0 <= x - y < 2 ^ 64 -> sub64 x y = x - y.
Proof. apply wrap64_small. Qed.

#[export] Hint Resolve wrap64_range add64_range : sky.

(** Two majorities of one finite set have a common element. *)
Lemma majorities_intersect `{Countable A} (M Q1 Q2 : gset A) :
  Q1 ⊆ M -> Q2 ⊆ M ->
  (size M `div` 2 + 1 <= size Q1)%nat ->
  (size M `div` 2 + 1 <= size Q2)%nat ->
  exists x, x ∈ Q1 /\ x ∈ Q2.
Proof.
  intros H1 H2 S1 S2.
  destruct (decide (Q1 ∩ Q2 = ∅)) as [E|E].
  - exfalso.
    assert (Hu : size (Q1 ∪ Q2) = (size Q1 + size Q2)%nat)
      by (apply size_union; set_solver).
    assert (Hs : (size (Q1 ∪ Q2) <= size M)%nat)
      by (apply subseteq_size; set_solver).
    pose proof (Nat.div_mod_eq (size M) 2).
    pose proof (Nat.mod_upper_bound (size M) 2 ltac:(lia)). lia.
  - apply set_choose_L in E as [x Hx]. exists x. set_solver.
Qed.

Lemma elem_of_app_prefix {A} (x : A) l l' : l `prefix_of` l' -> x ∈ l -> x ∈ l'.
Proof. intros [k ->]. set_solver. Qed.

Lemma seqZ_snoc m n : 1 <= n -> seqZ m n = seqZ m (n - 1) ++ [m + n - 1].
Proof.
  intros H. replace n with (n - 1 + 1) at 1 by lia. rewrite seqZ_app by lia. f_equal.
  unfold seqZ. simpl. f_equal. lia.
Qed.

Lemma prefix_pointwise {A} (l1 l2 : list A) :
  (length l1 <= length l2)%nat ->
  (forall j x y, l1 !! j = Some x -> l2 !! j = Some y -> x = y) -> l1 `prefix_of` l2.
Proof.
  revert l2. induction l1 as [|x l1 IH]; intros l2 Hl H; [apply prefix_nil|].
  destruct l2 as [|y l2]; simpl in Hl; [lia|].
  rewrite (H 0%nat x y) by done. apply prefix_cons, IH; [lia|].
  intros j a b. apply (H (S j)).
Qed.
