(* ===== verification/Ballot.v ===== *)
(** Model of [paxos/ballot_number.h]: the ballots [(proposal_id, node_id)],
    their comparison operators, and the proof that the operators implement one
    total order, the lexicographic one. *)

From S2P Require Import Prelude.

(** * Data *)

Record BallotNumber := Ballot {
  GetProposalId : Z;
  GetNodeId : Z;
}.

#[export] Instance ballot_eq_dec : EqDecision BallotNumber.
Proof. solve_decision. Defined.

Definition Ballot_default : BallotNumber := Ballot 0 0.

Definition SetProposalId (id : Z) (b : BallotNumber) : BallotNumber :=
  Ballot id (GetNodeId b).

Definition SetNodeId (id : Z) (b : BallotNumber) : BallotNumber :=
  Ballot (GetProposalId b) id.

Definition Ballot_Reset (b : BallotNumber) : BallotNumber := Ballot 0 0.

(** * Operators *)

Definition ballot_eqb (x y : BallotNumber) : bool :=
  (GetProposalId x =? GetProposalId y) && (GetNodeId x =? GetNodeId y).

Definition ballot_neb (x y : BallotNumber) : bool := negb (ballot_eqb x y).

Definition ballot_ltb (x y : BallotNumber) : bool :=
  if GetProposalId x =? GetProposalId y then GetNodeId x <? GetNodeId y
  else GetProposalId x <? GetProposalId y.

Definition ballot_gtb (x y : BallotNumber) : bool :=
  if GetProposalId x =? GetProposalId y then GetNodeId y <? GetNodeId x
  else GetProposalId y <? GetProposalId x.

Definition ballot_leb (x y : BallotNumber) : bool :=
  ballot_eqb x y || ballot_ltb x y.

Definition ballot_geb (x y : BallotNumber) : bool :=
  ballot_eqb x y || ballot_gtb x y.

(** The order the operators are meant to decide. *)
Definition ballot_lt (x y : BallotNumber) : Prop :=
  GetProposalId x < GetProposalId y \/
  GetProposalId x = GetProposalId y /\ GetNodeId x < GetNodeId y.

Definition ballot_le (x y : BallotNumber) : Prop := x = y \/ ballot_lt x y.

Infix "<b" := ballot_lt (at level 70) : sky_scope.
Infix "<=b" := ballot_le (at level 70) : sky_scope.

(** * Lemmas *)

Lemma ballot_ext x y :
  GetProposalId x = GetProposalId y -> GetNodeId x = GetNodeId y -> x = y.
Proof. destruct x, y; simpl; congruence. Qed.

Lemma surjective_ballot b : b = Ballot (GetProposalId b) (GetNodeId b).
Proof. by destruct b. Qed.

(** Solves linear goals on ballots. *)
Ltac ballot_lia :=
  unfold ballot_le, ballot_lt in *;
  repeat match goal with
  | H : @eq BallotNumber ?x ?y |- _ =>
      first [ subst x | subst y
            | assert (GetProposalId x = GetProposalId y) by (rewrite H; reflexivity);
              assert (GetNodeId x = GetNodeId y) by (rewrite H; reflexivity);
              clear H ]
  | H : ?x <> ?y :> BallotNumber |- _ =>
      assert (GetProposalId x <> GetProposalId y \/ GetNodeId x <> GetNodeId y)
        by (destruct (Z.eq_dec (GetProposalId x) (GetProposalId y));
            destruct (Z.eq_dec (GetNodeId x) (GetNodeId y)); auto;
            exfalso; apply H; apply ballot_ext; assumption);
      clear H
  | H : _ \/ _ |- _ => destruct H
  | H : _ /\ _ |- _ => destruct H
  end; simpl in *; try lia;
  try (first [ left; apply ballot_ext; simpl; lia | right; lia
             | apply ballot_ext; simpl; lia ]).

Lemma ballot_eqb_spec x y : ballot_eqb x y = true <-> x = y.
Proof.
  unfold ballot_eqb. rewrite andb_true_iff, !Z.eqb_eq. split.
  - intros []. by apply ballot_ext.
  - by intros ->.
Qed.

Lemma ballot_ltb_spec x y : ballot_ltb x y = true <-> x <b y.
Proof.
  unfold ballot_ltb, ballot_lt. destruct (Z.eqb_spec (GetProposalId x) (GetProposalId y));
    rewrite Z.ltb_lt; lia.
Qed.

Lemma ballot_gtb_spec x y : ballot_gtb x y = true <-> y <b x.
Proof.
  unfold ballot_gtb, ballot_lt. destruct (Z.eqb_spec (GetProposalId x) (GetProposalId y));
    rewrite Z.ltb_lt; lia.
Qed.

Lemma ballot_leb_spec x y : ballot_leb x y = true <-> x <=b y.
Proof.
  unfold ballot_leb, ballot_le. by rewrite orb_true_iff, ballot_eqb_spec, ballot_ltb_spec.
Qed.

Lemma ballot_geb_spec x y : ballot_geb x y = true <-> y <=b x.
Proof.
  unfold ballot_geb, ballot_le. rewrite orb_true_iff, ballot_eqb_spec, ballot_gtb_spec.
  naive_solver.
Qed.

Lemma ballot_geb_false x y : ballot_geb x y = false <-> x <b y.
Proof.
  rewrite <- not_true_iff_false, ballot_geb_spec.
  split; [intros H|intros H Hle; ballot_lia].
  destruct (decide (x = y)); [subst; exfalso; apply H; by left|].
  unfold ballot_le, ballot_lt in *.
  destruct (Z.lt_trichotomy (GetProposalId x) (GetProposalId y)) as [|[|]];
    destruct (Z.lt_trichotomy (GetNodeId x) (GetNodeId y)) as [|[|]];
    try (exfalso; apply n; apply ballot_ext; assumption); intuition lia.
Qed.

Lemma ballot_gtb_false x y : ballot_gtb x y = false <-> x <=b y.
Proof.
  rewrite <- not_true_iff_false, ballot_gtb_spec.
  rewrite <- ballot_leb_spec. unfold ballot_leb.
  split.
  - intros H. destruct (ballot_eqb x y) eqn:E; [done|]. simpl.
    apply ballot_ltb_spec.
    destruct (ballot_geb x y) eqn:G; [|by apply ballot_geb_false].
    apply ballot_geb_spec in G as [->|]; [|done].
    rewrite (proj2 (ballot_eqb_spec x x)) in E by done. done.
  - rewrite orb_true_iff, ballot_eqb_spec, ballot_ltb_spec.
    intros [->|] ?; ballot_lia.
Qed.

Lemma ballot_le_refl x : x <=b x.
Proof. by left. Qed.

Lemma ballot_le_trans x y z : x <=b y -> y <=b z -> x <=b z.
Proof. intros [->|] [->|]; try (by left); right; ballot_lia. Qed.

Lemma ballot_lt_le_trans x y z : x <b y -> y <=b z -> x <b z.
Proof. intros ? [->|]; [done|ballot_lia]. Qed.

Lemma ballot_le_lt_trans x y z : x <=b y -> y <b z -> x <b z.
Proof. intros [->|] ?; [done|ballot_lia]. Qed.

Lemma ballot_lt_irrefl x : ~ x <b x.
Proof. intros ?. ballot_lia. Qed.

Lemma ballot_lt_le x y : x <b y -> x <=b y.
Proof. by right. Qed.

Lemma ballot_le_or_lt x y : x <=b y \/ y <b x.
Proof.
  destruct (ballot_gtb x y) eqn:E.
  - right. by apply ballot_gtb_spec.
  - left. by apply ballot_gtb_false.
Qed.

Lemma ballot_lt_trichotomy x y : x <b y \/ x = y \/ y <b x.
Proof. destruct (ballot_le_or_lt x y) as [[]|]; auto. Qed.

#[export] Hint Resolve ballot_le_refl ballot_lt_le : sky.

(** The six comparison operators of [ballot_number.h] are coherent: they
    decide one strict total order and its derived relations, so that any two
    ballots are related by exactly one of [<], [==], [>]. *)
Theorem ballot_operators_total_order : forall x y : BallotNumber,
  (ballot_eqb x y = true <-> x = y) /\
  ballot_neb x y = negb (ballot_eqb x y) /\
  ballot_gtb x y = ballot_ltb y x /\
  ballot_geb x y = ballot_leb y x /\
  ballot_leb x y = negb (ballot_gtb x y) /\
  ((ballot_ltb x y = true /\ ballot_eqb x y = false /\ ballot_gtb x y = false) \/
   (ballot_ltb x y = false /\ ballot_eqb x y = true /\ ballot_gtb x y = false) \/
   (ballot_ltb x y = false /\ ballot_eqb x y = false /\ ballot_gtb x y = true)) /\
  (forall z, ballot_ltb x y = true -> ballot_ltb y z = true -> ballot_ltb x z = true).
Proof.
  intros x y.
  assert (G : ballot_gtb x y = ballot_ltb y x).
  { apply eq_true_iff_eq. by rewrite ballot_gtb_spec, ballot_ltb_spec. }
  split_and!; [apply ballot_eqb_spec|done|done| | | |].
  - apply eq_true_iff_eq. by rewrite ballot_geb_spec, ballot_leb_spec.
  - apply eq_true_iff_eq. rewrite ballot_leb_spec, negb_true_iff. by rewrite ballot_gtb_false.
  - unfold ballot_ltb, ballot_eqb, ballot_gtb.
    destruct (Z.eqb_spec (GetProposalId x) (GetProposalId y));
      destruct (Z.ltb_spec (GetNodeId x) (GetNodeId y));
      destruct (Z.ltb_spec (GetNodeId y) (GetNodeId x));
      destruct (Z.eqb_spec (GetNodeId x) (GetNodeId y));
      destruct (Z.ltb_spec (GetProposalId x) (GetProposalId y));
      destruct (Z.ltb_spec (GetProposalId y) (GetProposalId x)); simpl; auto; lia.
  - intros z. rewrite !ballot_ltb_spec. intros. ballot_lia.
Qed.
