(* ===== verification/Proto.v ===== *)
(** Model of [proto/paxos.proto] (the messages nodes exchange and the records
    they store), of the option structures of [include/skywalker/options.h], and
    of [Status] ([include/skywalker/status.h], [util/status.cc]).

    A protobuf message is a record of its fields; an unset field has the proto3
    default.  [bytes] and [std::string] are [string].  The wire format is code
    of the protobuf library: it enters as the class [ProtoCodec]. *)

From S2P Require Import Prelude.

(** * Messages

    An enumeration of proto3 is open: a field may hold a number that names none of the
    constants, here the last constructor of each type. *)

Inductive PaxosMessageType :=
| PREPARE | PREPARE_REPLY | ACCEPT | ACCEPT_REPLY | NEW_CHOSEN_VALUE
| ASK_FOR_LEARN | SEND_LEARNED_VALUE | SEND_NOW_INSTANCE_ID
| COMFIRM_ASK_FOR_LEARN | ASK_FOR_CHECKPOINT
| PaxosMessageType_unknown (value : Z).

#[export] Instance paxos_message_type_eq_dec : EqDecision PaxosMessageType.
Proof. solve_decision. Defined.

Record PaxosValue := mkPaxosValue {
  value_id : Z;
  machine_id : Z;
  user_data : string;
}.

#[export] Instance paxos_value_eq_dec : EqDecision PaxosValue.
Proof. solve_decision. Defined.

Definition PaxosValue_default : PaxosValue := mkPaxosValue 0 0 "".

Record PaxosMessage := mkPaxosMessage {
  pm_type : PaxosMessageType;
  pm_node_id : Z;
  pm_instance_id : Z;
  pm_proposal_id : Z;
  pm_proposal_node_id : Z;
  pm_pre_accepted_id : Z;
  pm_pre_accepted_node_id : Z;
  pm_rejected_id : Z;
  pm_now_instance_id : Z;
  pm_min_chosen_instance_id : Z;
  pm_value : PaxosValue;
}.

Definition PaxosMessage_default : PaxosMessage :=
  mkPaxosMessage PREPARE 0 0 0 0 0 0 0 0 0 PaxosValue_default.

#[export] Instance paxos_message_eq_dec : EqDecision PaxosMessage.
Proof. solve_decision. Defined.

#[export] Instance set_pm_type : Setter pm_type := fun f m =>
  mkPaxosMessage (f (pm_type m)) (pm_node_id m) (pm_instance_id m) (pm_proposal_id m)
    (pm_proposal_node_id m) (pm_pre_accepted_id m) (pm_pre_accepted_node_id m)
    (pm_rejected_id m) (pm_now_instance_id m) (pm_min_chosen_instance_id m) (pm_value m).
#[export] Instance set_pm_node_id : Setter pm_node_id := fun f m =>
  mkPaxosMessage (pm_type m) (f (pm_node_id m)) (pm_instance_id m) (pm_proposal_id m)
    (pm_proposal_node_id m) (pm_pre_accepted_id m) (pm_pre_accepted_node_id m)
    (pm_rejected_id m) (pm_now_instance_id m) (pm_min_chosen_instance_id m) (pm_value m).
#[export] Instance set_pm_instance_id : Setter pm_instance_id := fun f m =>
  mkPaxosMessage (pm_type m) (pm_node_id m) (f (pm_instance_id m)) (pm_proposal_id m)
    (pm_proposal_node_id m) (pm_pre_accepted_id m) (pm_pre_accepted_node_id m)
    (pm_rejected_id m) (pm_now_instance_id m) (pm_min_chosen_instance_id m) (pm_value m).
#[export] Instance set_pm_proposal_id : Setter pm_proposal_id := fun f m =>
  mkPaxosMessage (pm_type m) (pm_node_id m) (pm_instance_id m) (f (pm_proposal_id m))
    (pm_proposal_node_id m) (pm_pre_accepted_id m) (pm_pre_accepted_node_id m)
    (pm_rejected_id m) (pm_now_instance_id m) (pm_min_chosen_instance_id m) (pm_value m).
#[export] Instance set_pm_proposal_node_id : Setter pm_proposal_node_id := fun f m =>
  mkPaxosMessage (pm_type m) (pm_node_id m) (pm_instance_id m) (pm_proposal_id m)
    (f (pm_proposal_node_id m)) (pm_pre_accepted_id m) (pm_pre_accepted_node_id m)
    (pm_rejected_id m) (pm_now_instance_id m) (pm_min_chosen_instance_id m) (pm_value m).
#[export] Instance set_pm_pre_accepted_id : Setter pm_pre_accepted_id := fun f m =>
  mkPaxosMessage (pm_type m) (pm_node_id m) (pm_instance_id m) (pm_proposal_id m)
    (pm_proposal_node_id m) (f (pm_pre_accepted_id m)) (pm_pre_accepted_node_id m)
    (pm_rejected_id m) (pm_now_instance_id m) (pm_min_chosen_instance_id m) (pm_value m).
#[export] Instance set_pm_pre_accepted_node_id : Setter pm_pre_accepted_node_id := fun f m =>
  mkPaxosMessage (pm_type m) (pm_node_id m) (pm_instance_id m) (pm_proposal_id m)
    (pm_proposal_node_id m) (pm_pre_accepted_id m) (f (pm_pre_accepted_node_id m))
    (pm_rejected_id m) (pm_now_instance_id m) (pm_min_chosen_instance_id m) (pm_value m).
#[export] Instance set_pm_rejected_id : Setter pm_rejected_id := fun f m =>
  mkPaxosMessage (pm_type m) (pm_node_id m) (pm_instance_id m) (pm_proposal_id m)
    (pm_proposal_node_id m) (pm_pre_accepted_id m) (pm_pre_accepted_node_id m)
    (f (pm_rejected_id m)) (pm_now_instance_id m) (pm_min_chosen_instance_id m) (pm_value m).
#[export] Instance set_pm_now_instance_id : Setter pm_now_instance_id := fun f m =>
  mkPaxosMessage (pm_type m) (pm_node_id m) (pm_instance_id m) (pm_proposal_id m)
    (pm_proposal_node_id m) (pm_pre_accepted_id m) (pm_pre_accepted_node_id m)
    (pm_rejected_id m) (f (pm_now_instance_id m)) (pm_min_chosen_instance_id m) (pm_value m).
#[export] Instance set_pm_min_chosen_instance_id : Setter pm_min_chosen_instance_id := fun f m =>
  mkPaxosMessage (pm_type m) (pm_node_id m) (pm_instance_id m) (pm_proposal_id m)
    (pm_proposal_node_id m) (pm_pre_accepted_id m) (pm_pre_accepted_node_id m)
    (pm_rejected_id m) (pm_now_instance_id m) (f (pm_min_chosen_instance_id m)) (pm_value m).
#[export] Instance set_pm_value : Setter pm_value := fun f m =>
  mkPaxosMessage (pm_type m) (pm_node_id m) (pm_instance_id m) (pm_proposal_id m)
    (pm_proposal_node_id m) (pm_pre_accepted_id m) (pm_pre_accepted_node_id m)
    (pm_rejected_id m) (pm_now_instance_id m) (pm_min_chosen_instance_id m) (f (pm_value m)).

Inductive CheckpointMessageType :=
| CHECKPOINT_BEGIN | CHECKPOINT_FILE | CHECKPOINT_END | CHECKPOINT_COMFIRM
| CheckpointMessageType_unknown (value : Z).

#[export] Instance checkpoint_message_type_eq_dec : EqDecision CheckpointMessageType.
Proof. solve_decision. Defined.

Record CheckpointMessage := mkCheckpointMessage {
  cm_type : CheckpointMessageType;
  cm_node_id : Z;
  cm_instance_id : Z;
  cm_sequence_id : Z;
  cm_machine_id : Z;
  cm_file : string;
  cm_offset : Z;
  cm_data : string;
  cm_flag : bool;
}.

#[export] Instance checkpoint_message_eq_dec : EqDecision CheckpointMessage.
Proof. solve_decision. Defined.

Definition CheckpointMessage_default : CheckpointMessage :=
  mkCheckpointMessage CHECKPOINT_BEGIN 0 0 0 0 "" 0 "" false.

(** [Content]: the [type] field selects which of the two sub-messages is read. *)
Inductive ContentType := PAXOS_MESSAGE | CHECKPOINT_MESSAGE | ContentType_unknown (value : Z).

#[export] Instance content_type_eq_dec : EqDecision ContentType.
Proof. solve_decision. Defined.

Record Content := mkContent {
  ct_type : ContentType;
  ct_group_id : Z;
  ct_paxos_msg : PaxosMessage;
  ct_checkpoint_msg : CheckpointMessage;
}.

#[export] Instance content_eq_dec : EqDecision Content.
Proof. solve_decision. Defined.

Definition paxos_content (group : Z) (m : PaxosMessage) : Content :=
  mkContent PAXOS_MESSAGE group m CheckpointMessage_default.

Definition checkpoint_content (group : Z) (m : CheckpointMessage) : Content :=
  mkContent CHECKPOINT_MESSAGE group PaxosMessage_default m.

(** The log record of one instance. *)
Record PaxosInstance := mkPaxosInstance {
  pi_instance_id : Z;
  pi_promised_id : Z;
  pi_promised_node_id : Z;
  pi_accepted_id : Z;
  pi_accepted_node_id : Z;
  pi_accepted_value : PaxosValue;
}.

#[export] Instance paxos_instance_eq_dec : EqDecision PaxosInstance.
Proof. solve_decision. Defined.

Record MemberMessage := mkMemberMessage {
  mb_id : Z;
  mb_host : string;
  mb_port : Z;
  mb_context : string;
}.

#[export] Instance member_message_eq_dec : EqDecision MemberMessage.
Proof. solve_decision. Defined.

Inductive MemberChangeType := MEMBER_ADD | MEMBER_REMOVE | MemberChangeType_unknown (value : Z).

#[export] Instance member_change_type_eq_dec : EqDecision MemberChangeType.
Proof. solve_decision. Defined.

Record MemberChangeMessage := mkMemberChangeMessage {
  mc_member : list MemberMessage;
  mc_type : list MemberChangeType;
}.

Record Membership := mkMembership {
  ms_version : Z;
  ms_members : gmap Z MemberMessage;
}.

Record MasterState := mkMasterState {
  mst_version : Z;
  mst_node_id : Z;
  mst_lease_time : Z;
}.

#[export] Instance master_state_eq_dec : EqDecision MasterState.
Proof. solve_decision. Defined.

(** [struct Member] of [options.h]. *)
Record Member := mkMember {
  m_id : Z;
  m_host : string;
  m_port : Z;
  m_context : string;
}.

(** * Serialization

    [ParseFromString] returns its result and whatever is left in the message:
    several callers ignore the result and read the message. *)
Class ProtoCodec (A : Type) := {
  SerializeAsString : A -> string;
  ParseFromString : string -> bool * A;
}.

(** Documented behaviour of protobuf: parsing the serialization of a message
    succeeds and gives the message back. *)
Class ProtoCodecLaws (A : Type) `{!ProtoCodec A} :=
  parse_serialize : forall a : A, ParseFromString (SerializeAsString a) = (true, a).

(** * Status *)

Inductive Code :=
| kOk | kInvalidNode | kConflict | kMachineError | kTimeout | kIOError.

#[export] Instance code_eq_dec : EqDecision Code.
Proof. solve_decision. Defined.

(** The heap block behind [state_]: the message length, the code and the
    message bytes; the null pointer is [None]. *)
Record StatusState := mkStatusState {
  ss_size : nat;
  ss_code : Code;
  ss_msg : string;
}.

Definition Status : Type := option StatusState.

Definition Status_OK : Status := None.

(** [Status::Status(Code, const Slice&, const Slice&)] with its assertion that
    the code is not [kOk]: [None] when the assertion fails. *)
Definition Status_make (code : Code) (msg msg2 : string) : option Status :=
  if decide (code = kOk) then None
  else
    let len1 := String.length msg in
    let len2 := String.length msg2 in
    let size := if (len2 =? 0)%nat then len1 else (len1 + (2 + len2))%nat in
    let text := if (len2 =? 0)%nat then msg
                else (msg +:+ ":" +:+ " " +:+ msg2) in
    Some (Some (mkStatusState size code text)).

Definition Status_of (code : Code) (msg : string) : Status :=
  default Status_OK (Status_make code msg "").

Definition Status_ok (s : Status) : bool :=
  match s with None => true | Some _ => false end.

Definition Status_code (s : Status) : Code :=
  match s with None => kOk | Some st => ss_code st end.

Definition IsConflict (s : Status) : bool := bool_decide (Status_code s = kConflict).
Definition IsInvalidNode (s : Status) : bool := bool_decide (Status_code s = kInvalidNode).
Definition IsMachineError (s : Status) : bool := bool_decide (Status_code s = kMachineError).
Definition IsTimeout (s : Status) : bool := bool_decide (Status_code s = kTimeout).
Definition IsIOError (s : Status) : bool := bool_decide (Status_code s = kIOError).

Definition Status_type_text (c : Code) : string :=
  match c with
  | kOk => "OK"
  | kInvalidNode => "InvalidNode"
  | kConflict => "Conflict: "
  | kMachineError => "MachineError: "
  | kTimeout => "Timeout: "
  | kIOError => "IOError: "
  end.

Definition Status_ToString (s : Status) : string :=
  match s with
  | None => "OK"
  | Some st => Status_type_text (ss_code st) +:+ String.substring 0 (ss_size st) (ss_msg st)
  end.

(** * Lemmas *)

Lemma Status_of_code c msg : c <> kOk -> Status_code (Status_of c msg) = c.
Proof. intros H. unfold Status_of, Status_make. by rewrite decide_False. Qed.

Lemma Status_of_not_ok c msg : c <> kOk -> Status_ok (Status_of c msg) = false.
Proof. intros H. unfold Status_of, Status_make. by rewrite decide_False. Qed.

Lemma substring_all s : String.substring 0 (String.length s) s = s.
Proof. induction s; simpl; congruence. Qed.

Lemma string_length_app s t : String.length (s +:+ t) = (String.length s + String.length t)%nat.
Proof. induction s as [|a s IH]; [done|]. exact (f_equal S IH). Qed.

Lemma string_app_assoc s t u : (s +:+ t) +:+ u = s +:+ (t +:+ u).
Proof. induction s as [|c s IH]; [done|]. exact (f_equal (String c) IH). Qed.

Lemma string_app_empty s : s +:+ "" = s.
Proof. induction s as [|a s IH]; [done|]. exact (f_equal (String a) IH). Qed.

(** A status built from an error code keeps it: it is not ok, exactly the
    predicate of that code holds, and [ToString] prints the code's name followed
    by the message and, when there is one, the second message after [": "]. *)
Theorem Status_make_spec : forall c msg msg2, c <> kOk ->
  exists s, Status_make c msg msg2 = Some s /\
    Status_ok s = false /\
    Status_code s = c /\
    Status_ToString s =
      Status_type_text c +:+ msg +:+
        (if (String.length msg2 =? 0)%nat then "" else ": " +:+ msg2).
Proof.
  intros c msg msg2 H. unfold Status_make. rewrite decide_False by done.
  eexists. split; [done|]. split_and!; [done..|].
  unfold Status_ToString. cbn [ss_code ss_size ss_msg].
  destruct (String.length msg2 =? 0)%nat.
  - by rewrite substring_all, string_app_empty.
  - assert (E : (String.length msg + (2 + String.length msg2))%nat
                = String.length (msg +:+ ":" +:+ " " +:+ msg2))
      by (by rewrite !string_length_app).
    rewrite E. by rewrite substring_all.
Qed.

Lemma Status_make_spec_witness :
  kConflict <> kOk /\
  exists s, Status_make kConflict "a" "b" = Some s /\ Status_ok s = false /\
    Status_code s = kConflict /\
    Status_ToString s = Status_type_text kConflict +:+ "a" +:+
        (if (String.length "b" =? 0)%nat then "" else ": " +:+ "b").
Proof. split; [discriminate|]. apply (Status_make_spec kConflict "a" "b"). discriminate. Defined.
