(* ===== verification/Util.v ===== *)
(** Model of [include/skywalker/slice.h] and [paxos/node_util.cc].

    A slice is a pointer into bytes and a size; the bytes may go on beyond the
    size.  [memcmp] is that of the C library, of which only the sign is used.
    The conversions of addresses, [inet_addr] and [inet_ntoa], are a class. *)

From S2P Require Import Prelude Proto.
From Stdlib Require Import Ascii String.
#[local] Open Scope Z_scope.

(** * Slices *)

Record Slice := mkSlice { sl_data : string; sl_size : nat }.

(** The size is that of readable bytes. *)
Definition slice_ok (s : Slice) : Prop := (sl_size s <= String.length (sl_data s))%nat.

Definition Slice_empty : Slice := mkSlice "" 0.
Definition Slice_of (s : string) : Slice := mkSlice s (String.length s).
Definition is_empty (s : Slice) : bool := (sl_size s =? 0)%nat.

(** [None]: the assertion fails. *)
Definition Slice_at (n : nat) (s : Slice) : option ascii :=
  if (n <? sl_size s)%nat then String.get n (sl_data s) else None.

Fixpoint advance (n : nat) (d : string) : string :=
  match n, d with S n, String _ d => advance n d | _, _ => d end.

Definition remove_prefix (n : nat) (s : Slice) : option Slice :=
  if (n <=? sl_size s)%nat then Some (mkSlice (advance n (sl_data s)) (sl_size s - n)) else None.

Definition ToString (s : Slice) : string := String.substring 0 (sl_size s) (sl_data s).

Fixpoint memcmp (n : nat) (a b : string) : Z :=
  match n, a, b with
  | S n, String x a, String y b =>
      let x := Z.of_N (N_of_ascii x) in
      let y := Z.of_N (N_of_ascii y) in
      if x <? y then -1 else if y <? x then 1 else memcmp n a b
  | _, _, _ => 0
  end.

Definition Slice_compare (x y : Slice) : Z :=
  let min_len := if (sl_size x <? sl_size y)%nat then sl_size x else sl_size y in
  let r := memcmp min_len (sl_data x) (sl_data y) in
  if r =? 0 then
    if (sl_size x <? sl_size y)%nat then -1 else if (sl_size y <? sl_size x)%nat then 1 else r
  else r.

Definition starts_with (x s : Slice) : bool :=
  (sl_size s <=? sl_size x)%nat && (memcmp (sl_size s) (sl_data x) (sl_data s) =? 0).

Definition Slice_eqb (x y : Slice) : bool :=
  (sl_size x =? sl_size y)%nat && (memcmp (sl_size x) (sl_data x) (sl_data y) =? 0).

(** ** Their meaning on the bytes they cover *)

Definition sign (c : comparison) : Z := match c with Lt => -1 | Eq => 0 | Gt => 1 end.

Lemma ascii_compare_refl x : Ascii.compare x x = Eq.
Proof. apply N.compare_refl. Qed.

Lemma prefix_cons_cases n x a y b :
  memcmp (S n) (String x a) (String y b) =
    match Ascii.compare x y with Lt => -1 | Gt => 1 | Eq => memcmp n a b end.
Proof.
  cbn [memcmp]. unfold Ascii.compare. destruct (N.compare_spec (N_of_ascii x) (N_of_ascii y)) as [E|E|E];
    destruct (Z.ltb_spec (Z.of_N (N_of_ascii x)) (Z.of_N (N_of_ascii y)));
    destruct (Z.ltb_spec (Z.of_N (N_of_ascii y)) (Z.of_N (N_of_ascii x))); try done; lia.
Qed.

(** Only the first [n] bytes are read. *)
Lemma memcmp_prefix n k j a b :
  (n <= k)%nat -> (n <= j)%nat -> memcmp n (String.substring 0 k a) (String.substring 0 j b) = memcmp n a b.
Proof.
  revert k j a b. induction n as [|n IH]; intros k j a b Hk Hj; [done|].
  destruct k as [|k]; [lia|]. destruct j as [|j]; [lia|].
  destruct a as [|x a]; [done|]. destruct b as [|y b]; [done|].
  change (String.substring 0 (S k) (String x a)) with (String x (String.substring 0 k a)).
  change (String.substring 0 (S j) (String y b)) with (String y (String.substring 0 j b)).
  rewrite !prefix_cons_cases, IH by lia. done.
Qed.

Lemma substring_length_le n s : (n <= String.length s)%nat -> String.length (String.substring 0 n s) = n.
Proof.
  revert s. induction n as [|n IH]; intros s H; [by destruct s|].
  destruct s as [|x s]; simpl in *; [lia|]. f_equal. apply IH. lia.
Qed.

(** On whole strings. *)
Lemma compare_strings a b :
  sign (String.compare a b) =
    let r := memcmp (Nat.min (String.length a) (String.length b)) a b in
    if r =? 0 then
      if (String.length a <? String.length b)%nat then -1
      else if (String.length b <? String.length a)%nat then 1 else 0
    else r.
Proof.
  revert b. induction a as [|x a IH]; intros [|y b]; try done.
  cbn [String.length Nat.min String.compare]. rewrite prefix_cons_cases.
  destruct (Ascii.compare x y); [|done..]. rewrite IH. done.
Qed.

Lemma memcmp_zero n a b :
  (n <= String.length a)%nat -> (n <= String.length b)%nat ->
  memcmp n a b = 0 <-> String.substring 0 n a = String.substring 0 n b.
Proof.
  revert a b. induction n as [|n IH]; intros a b Ha Hb; [by destruct a, b|].
  destruct a as [|x a]; [simpl in Ha; lia|]. destruct b as [|y b]; [simpl in Hb; lia|].
  rewrite prefix_cons_cases. simpl in Ha, Hb. specialize (IH a b ltac:(lia) ltac:(lia)).
  destruct (Ascii.compare x y) eqn:E.
  - apply Ascii.compare_eq_iff in E as ->. rewrite IH. split; [intros H; exact (f_equal (String y) H)|].
    by intros [= H].
  - split; [done|]. intros [= -> _]. by rewrite ascii_compare_refl in E.
  - split; [done|]. intros [= -> _]. by rewrite ascii_compare_refl in E.
Qed.

Lemma substring_cut n k s :
  (n <= k)%nat ->
  String.substring 0 k s = String.substring 0 n s +:+ String.substring 0 (k - n) (advance n s).
Proof.
  revert k s. induction n as [|n IH]; intros k s H; [rewrite Nat.sub_0_r; by destruct s|].
  destruct k as [|k]; [lia|]. destruct s as [|x s]; [by destruct (S k - S n)%nat|].
  exact (f_equal (String x) (IH k s ltac:(lia))).
Qed.

Lemma advance_length n s : String.length (advance n s) = (String.length s - n)%nat.
Proof. revert s. induction n as [|n IH]; intros [|x s]; simpl; done. Qed.

Lemma app_same_length a b c d :
  String.length a = String.length c -> a +:+ b = c +:+ d -> a = c.
Proof.
  revert c. induction a as [|x a IH]; intros [|y c] L E; try done.
  injection E as -> E. f_equal. apply (IH c); [simpl in L; lia|done].
Qed.

(** Slices compare as the strings they stand for: [compare] is the lexicographic order of
    bytes, [==] is equality, [starts_with] is the prefix relation, and [remove_prefix] drops
    bytes, exactly when there are enough. *)
Theorem Slice_as_string : forall (x y : Slice) (n : nat),
  slice_ok x -> slice_ok y ->
  Slice_compare x y = sign (String.compare (ToString x) (ToString y)) /\
  (Slice_eqb x y = true <-> ToString x = ToString y) /\
  (starts_with x y = true <-> exists t, ToString x = ToString y +:+ t) /\
  (forall z, remove_prefix n x = Some z -> slice_ok z /\
     exists p, String.length p = n /\ ToString x = p +:+ ToString z) /\
  (remove_prefix n x = None <-> (String.length (ToString x) < n)%nat).
Proof.
  intros x y n Hx Hy. unfold slice_ok in *.
  assert (Lx := substring_length_le _ _ Hx). assert (Ly := substring_length_le _ _ Hy).
  split_and!.
  - rewrite compare_strings. unfold ToString, Slice_compare. rewrite Lx, Ly. cbv zeta.
    rewrite memcmp_prefix by lia.
    replace (Nat.min (sl_size x) (sl_size y))
      with (if (sl_size x <? sl_size y)%nat then sl_size x else sl_size y)
      by (destruct (Nat.ltb_spec (sl_size x) (sl_size y)); lia).
    destruct (Z.eqb_spec (memcmp (if (sl_size x <? sl_size y)%nat then sl_size x else sl_size y)
      (sl_data x) (sl_data y)) 0) as [->|]; done.
  - unfold Slice_eqb, ToString. rewrite andb_true_iff, Nat.eqb_eq, Z.eqb_eq. split.
    + intros [E H]. rewrite <- E. by apply memcmp_zero; [..|lia|].
    + intros E. assert (Es : sl_size x = sl_size y) by (by rewrite <- Lx, <- Ly, E). split; [done|].
      apply memcmp_zero; [lia|lia|]. by rewrite E, Es.
  - unfold starts_with, ToString. rewrite andb_true_iff, Nat.leb_le, Z.eqb_eq. split.
    + intros [Hle H]. apply memcmp_zero in H; [|lia..].
      exists (String.substring 0 (sl_size x - sl_size y) (advance (sl_size y) (sl_data x))).
      rewrite <- H. by apply substring_cut.
    + intros [t E]. assert (Hle : (sl_size y <= sl_size x)%nat).
      { rewrite <- Lx, <- Ly, E, string_length_app. lia. }
      split; [done|]. apply memcmp_zero; [lia|done|].
      rewrite (substring_cut (sl_size y) (sl_size x)) in E by done.
      apply app_same_length in E; [done|]. by rewrite Ly, substring_length_le by lia.
  - intros z. unfold remove_prefix. destruct (Nat.leb_spec n (sl_size x)); [|done]. intros [= <-]. simpl.
    rewrite advance_length. split; [lia|]. exists (String.substring 0 n (sl_data x)).
    split; [apply substring_length_le; lia|]. by apply substring_cut.
  - unfold ToString. rewrite Lx. unfold remove_prefix. destruct (Nat.leb_spec n (sl_size x)).
    + split; [done|lia].
    + done.
Qed.

(** * Node ids *)

Class Inet := { inet_addr : string -> Z; inet_ntoa : Z -> string }.

Section Ids.
Context {IN : Inet}.

Definition MakeId (ip : string) (port : Z) : Z :=
  Z.lor (wrap64 (Z.shiftl (inet_addr ip) 32)) port.

Definition ParseId (id : Z) : string * Z :=
  (inet_ntoa (wrap32 (Z.shiftr id 32)), wrap16 (Z.land id (2 ^ 32 - 1))).

Lemma MakeId_value ip port :
  in_u32 (inet_addr ip) -> in_u16 port -> MakeId ip port = inet_addr ip * 2 ^ 32 + port.
Proof.
  unfold in_u32, in_u16, MakeId. intros Hi Hp. rewrite Z.shiftl_mul_pow2 by lia.
  rewrite wrap64_small by (unfold in_u64; lia).
  rewrite <- Z.add_lor_land. rewrite (Z.bits_inj' (Z.land _ _) 0); [lia|].
  intros k Hk. rewrite Z.land_spec, Z.bits_0, Z.mul_pow2_bits by lia.
  destruct (Z.le_gt_cases 32 k).
  - rewrite (Z.bits_above_log2 port); [by rewrite andb_false_r|lia|].
    destruct (Z.eq_dec port 0) as [->|]; [simpl; lia|]. apply Z.log2_lt_pow2; [lia|].
    assert (2 ^ 32 <= 2 ^ k) by (apply Z.pow_le_mono_r; lia). lia.
  - by rewrite Z.testbit_neg_r by lia.
Qed.

(** Node ids: for an address that prints as it was written, [ParseId] gives back the
    address and the port [MakeId] was given, and the id is a 64-bit number different from
    zero, unless both are zero. *)
Theorem node_id_roundtrip : forall (ip : string) (port : Z),
  in_u32 (inet_addr ip) -> in_u16 port -> inet_ntoa (inet_addr ip) = ip ->
  ParseId (MakeId ip port) = (ip, port) /\ in_u64 (MakeId ip port) /\
  (MakeId ip port = 0 <-> inet_addr ip = 0 /\ port = 0).
Proof.
  intros ip port Hi Hp Hn. unfold ParseId. rewrite MakeId_value by done. unfold in_u32, in_u16, in_u64 in *.
  rewrite Z.shiftr_div_pow2 by lia. rewrite Z.div_add_l by lia. rewrite (Z.div_small port) by lia.
  replace (2 ^ 32 - 1) with (Z.ones 32) by done. rewrite Z.land_ones by lia.
  rewrite (Z.add_comm (_ * _) port), Z.mod_add, (Z.mod_small port) by lia. unfold wrap32, wrap16.
  rewrite Z.add_0_r, !Z.mod_small by lia. rewrite Hn. split_and!; [done|lia..].
Qed.

End Ids.
