(* ===== verification/Storage.v ===== *)
(** Model of [storage/db.cc], [storage/write_batch.cc] and [util/coding.h].

    LevelDB and the fixed-width coding of voyager are third-party code: they
    enter as the classes [LevelDB] and [FixedCoding], their documented
    behaviour as [LevelDBLaws] and [FixedCodingLaws].  The wrapper class [DB],
    its comparator and its reserved key are the program's own and are defined
    here. *)

From S2P Require Import Prelude Proto.
From Stdlib Require Import Sorted.

(** * Third-party interfaces *)

Class FixedCoding := {
  EncodeFixed32 : Z -> string;
  DecodeFixed32 : string -> Z;
  EncodeFixed64 : Z -> string;
  DecodeFixed64 : string -> Z;
}.

(** Decoding reads back what was encoded, whatever bytes follow it. *)
Class FixedCodingLaws `{!FixedCoding} := {
  decode_encode32 : forall z s, in_u32 z -> DecodeFixed32 (EncodeFixed32 z +:+ s) = z;
  decode_encode64 : forall z s, in_u64 z -> DecodeFixed64 (EncodeFixed64 z +:+ s) = z;
  encode32_length : forall z, String.length (EncodeFixed32 z) = 4%nat;
  encode64_length : forall z, String.length (EncodeFixed64 z) = 8%nat;
  decode64_range : forall s, in_u64 (DecodeFixed64 s);
}.

Inductive LStatus := LOk | LNotFound | LIOError.

(** The updates collected by a [leveldb::WriteBatch]. *)
Inductive BatchOp := BatchPut (key value : string) | BatchDelete (key : string).

Class LevelDB := {
  ldb : Type;
  ldb_Put : bool -> string -> string -> ldb -> ldb * LStatus;
  ldb_Delete : bool -> string -> ldb -> ldb * LStatus;
  ldb_Write : bool -> list BatchOp -> ldb -> ldb * LStatus;
  ldb_Get : string -> ldb -> LStatus * string;
  (** the keys an iterator visits from [SeekToFirst] on, in comparator order *)
  ldb_Keys : ldb -> list string;
}.

(** * The wrapper [DB] *)

Section DB.
Context {FC : FixedCoding} {LD : LevelDB}.

Definition kMinChosenKey : Z := u64_max.

(** [SComparator::Compare]. *)
Definition SComparator_Compare (a b : string) : Z :=
  let key := DecodeFixed64 a in
  let key2 := DecodeFixed64 b in
  if key =? key2 then 0 else if key2 <? key then 1 else -1.

Definition DB_Put (sync : bool) (instance_id : Z) (value : string) (db : ldb) : ldb * Z :=
  let key := EncodeFixed64 instance_id in
  match ldb_Put sync key value db with
  | (db', LOk) => (db', 0)
  | (db', _) => (db', -1)
  end.

Definition DB_Delete (sync : bool) (instance_id : Z) (db : ldb) : ldb * Z :=
  let key := EncodeFixed64 instance_id in
  match ldb_Delete sync key db with
  | (db', LOk) => (db', 0)
  | (db', _) => (db', -1)
  end.

(** [WriteBatch::Put], [WriteBatch::Delete], [WriteBatch::Clear]. *)
Definition WriteBatch_Put (instance_id : Z) (value : string) (b : list BatchOp) :=
  b ++ [BatchPut (EncodeFixed64 instance_id) value].

Definition WriteBatch_Delete (instance_id : Z) (b : list BatchOp) : list BatchOp :=
  b ++ [BatchDelete (EncodeFixed64 instance_id)].

Definition WriteBatch_Clear (b : list BatchOp) : list BatchOp := [].

Definition DB_Write (sync : bool) (updates : list BatchOp) (db : ldb) : ldb * Z :=
  match ldb_Write sync updates db with
  | (db', LOk) => (db', 0)
  | (db', _) => (db', -1)
  end.

(** The second component is [*value]; on failure the caller's empty string is
    left as it was. *)
Definition DB_Get (instance_id : Z) (db : ldb) : Z * string :=
  let key := EncodeFixed64 instance_id in
  match ldb_Get key db with
  | (LOk, v) => (0, v)
  | (LNotFound, _) => (1, ""%string)
  | (LIOError, _) => (-1, ""%string)
  end.

(** The loop of [GetMaxInstanceId] over the keys met by [Prev] from the last. *)
Fixpoint max_instance_loop (keys : list string) : option Z :=
  match keys with
  | [] => None
  | k :: rest =>
      let id := DecodeFixed64 k in
      if id =? kMinChosenKey then max_instance_loop rest else Some id
  end.

(** Returns the code and the new value of [*instance_id]. *)
Definition DB_GetMaxInstanceId (instance_id : Z) (db : ldb) : Z * Z :=
  match max_instance_loop (rev (ldb_Keys db)) with
  | Some id => (0, id)
  | None => (1, instance_id)
  end.

Definition DB_SetMinChosenInstanceId (id : Z) (db : ldb) : ldb * Z :=
  DB_Put true kMinChosenKey (EncodeFixed64 id) db.

Definition DB_GetMinChosenInstanceId (id : Z) (db : ldb) : Z * Z :=
  let '(ret, value) := DB_Get kMinChosenKey db in
  if ret =? 0 then (ret, DecodeFixed64 value) else (ret, id).

(** Two keys the comparator does not distinguish are one key of the database. *)
Definition same_key (a b : string) : bool := SComparator_Compare a b =? 0.

(** The last update a batch makes to a key, if any. *)
Fixpoint batch_last (ops : list BatchOp) (k : string) : option (option string) :=
  match ops with
  | [] => None
  | op :: rest =>
      match batch_last rest k with
      | Some r => Some r
      | None =>
          match op with
          | BatchPut k' v => if same_key k' k then Some (Some v) else None
          | BatchDelete k' => if same_key k' k then Some None else None
          end
      end
  end.

End DB.

(** Documented behaviour of LevelDB, for a database opened with [SComparator]. *)
Class LevelDBLaws `{!FixedCoding, !LevelDB} := {
  get_put : forall sync k v db db',
    ldb_Put sync k v db = (db', LOk) ->
    forall k', ldb_Get k' db' = if same_key k k' then (LOk, v) else ldb_Get k' db;
  get_delete : forall sync k db db',
    ldb_Delete sync k db = (db', LOk) ->
    forall k', ldb_Get k' db' = if same_key k k' then (LNotFound, ""%string) else ldb_Get k' db;
  get_write : forall sync ops db db',
    ldb_Write sync ops db = (db', LOk) ->
    forall k, ldb_Get k db' =
      match batch_last ops k with
      | Some (Some v) => (LOk, v)
      | Some None => (LNotFound, ""%string)
      | None => ldb_Get k db
      end;
  get_same_key : forall db k k', same_key k k' = true -> ldb_Get k db = ldb_Get k' db;
  keys_present : forall db k, k ∈ ldb_Keys db -> (ldb_Get k db).1 = LOk;
  keys_complete : forall db k, (ldb_Get k db).1 = LOk ->
    exists k', k' ∈ ldb_Keys db /\ same_key k k' = true;
  keys_sorted : forall db,
    StronglySorted (fun a b => SComparator_Compare a b = -1) (ldb_Keys db);
}.

(** Writes that are not refused by the disk.  LevelDB does not promise this: it is a condition of
    the agreement, progress and restart theorems, for the code answers a request although
    its record could not be written ([Acceptor::WriteToDB], whose result is ignored). *)
Class LevelDBReliable `{!LevelDB} := {
  put_ok : forall sync k v db, (ldb_Put sync k v db).2 = LOk;
  write_ok : forall sync ops db, (ldb_Write sync ops db).2 = LOk;
}.

(** * Properties of the wrapper *)

Section DBTheory.
Context {FC : FixedCoding} {FCL : FixedCodingLaws} {LD : LevelDB} {LDL : LevelDBLaws}.

Lemma decode_encode64' z : in_u64 z -> DecodeFixed64 (EncodeFixed64 z) = z.
Proof.
  intros H. rewrite <- (string_app_empty (EncodeFixed64 z)). by apply decode_encode64.
Qed.

Lemma same_key_spec a b : same_key a b = true <-> DecodeFixed64 a = DecodeFixed64 b.
Proof.
  unfold same_key, SComparator_Compare. rewrite Z.eqb_eq.
  destruct (Z.eqb_spec (DecodeFixed64 a) (DecodeFixed64 b)); [done|].
  by destruct (DecodeFixed64 b <? DecodeFixed64 a).
Qed.

Lemma same_key_refl a : same_key a a = true.
Proof. by apply same_key_spec. Qed.

Lemma same_key_encode x y :
  in_u64 x -> in_u64 y -> same_key (EncodeFixed64 x) (EncodeFixed64 y) = true <-> x = y.
Proof. intros Hx Hy. by rewrite same_key_spec, !decode_encode64'. Qed.

Lemma DB_Get_Put_eq sync i v db db' :
  DB_Put sync i v db = (db', 0) -> DB_Get i db' = (0, v).
Proof.
  unfold DB_Put, DB_Get.
  destruct (ldb_Put sync (EncodeFixed64 i) v db) as [db0 []] eqn:E; intros [=]; subst.
  by rewrite (get_put _ _ _ _ _ E), same_key_refl.
Qed.

Lemma DB_Get_Put_ne sync i j v db db' :
  in_u64 i -> in_u64 j -> i <> j ->
  DB_Put sync i v db = (db', 0) -> DB_Get j db' = DB_Get j db.
Proof.
  intros Hi Hj Hne. unfold DB_Put, DB_Get.
  destruct (ldb_Put sync (EncodeFixed64 i) v db) as [db0 []] eqn:E; intros [=]; subst.
  rewrite (get_put _ _ _ _ _ E).
  destruct (same_key (EncodeFixed64 i) (EncodeFixed64 j)) eqn:K; [|done].
  by apply same_key_encode in K.
Qed.

Lemma DB_Put_reliable {LDR : LevelDBReliable} sync i v db :
  exists db', DB_Put sync i v db = (db', 0).
Proof.
  unfold DB_Put. pose proof (put_ok sync (EncodeFixed64 i) v db) as H.
  destruct (ldb_Put _ _ _ _) as [db' []]; try discriminate H. by exists db'.
Qed.

Lemma DB_Write_reliable {LDR : LevelDBReliable} sync ops db :
  exists db', DB_Write sync ops db = (db', 0).
Proof.
  unfold DB_Write. pose proof (write_ok sync ops db) as H.
  destruct (ldb_Write _ _ _) as [db' []]; try discriminate H. by exists db'.
Qed.

Lemma DB_Get_ok_inv i db v : DB_Get i db = (0, v) -> ldb_Get (EncodeFixed64 i) db = (LOk, v).
Proof. unfold DB_Get. destruct (ldb_Get _ _) as [[] ?]; naive_solver. Qed.

Lemma max_loop_Some ks id :
  max_instance_loop ks = Some id ->
  exists pre k post, ks = pre ++ k :: post /\ DecodeFixed64 k = id /\ id <> kMinChosenKey /\
    forall k', k' ∈ pre -> DecodeFixed64 k' = kMinChosenKey.
Proof.
  induction ks as [|k ks IH]; simpl; [done|].
  destruct (Z.eqb_spec (DecodeFixed64 k) kMinChosenKey) as [E|E]; intros H.
  - destruct (IH H) as (pre & k0 & post & -> & H1 & H2 & H3).
    exists (k :: pre), k0, post. split_and!; [done..|].
    intros k' [->|]%elem_of_cons; auto.
  - injection H as <-. exists [], k, ks. split_and!; try done.
    intros k' Hk'. by apply elem_of_nil in Hk'.
Qed.

Lemma max_loop_None ks :
  max_instance_loop ks = None <-> forall k, k ∈ ks -> DecodeFixed64 k = kMinChosenKey.
Proof.
  induction ks as [|k ks IH]; simpl.
  - split; [|done]. intros _ k Hk. by apply elem_of_nil in Hk.
  - destruct (Z.eqb_spec (DecodeFixed64 k) kMinChosenKey) as [E|E].
    + rewrite IH. split; intros H k'; [intros [->|]%elem_of_cons; auto|].
      intros Hk'. apply H. by apply elem_of_cons; right.
    + split; [done|]. intros H. exfalso. apply E, H. apply elem_of_cons; by left.
Qed.

Lemma sorted_app_lt pre k post :
  StronglySorted (fun a b => SComparator_Compare a b = -1) (pre ++ k :: post) ->
  forall k', k' ∈ pre -> DecodeFixed64 k' < DecodeFixed64 k.
Proof.
  induction pre as [|a pre IH]; intros Hs k' Hk'; [by apply elem_of_nil in Hk'|].
  inversion Hs as [|? ? Hs' Hall]; subst.
  apply elem_of_cons in Hk' as [->|Hk']; [|by apply IH].
  rewrite Forall_forall in Hall. specialize (Hall k).
  unfold SComparator_Compare in Hall.
  assert (Hin : k ∈ pre ++ k :: post) by set_solver.
  specialize (Hall Hin). repeat split_if; lia.
Qed.

(** [GetMaxInstanceId] returns 0 with the largest stored instance id other
    than the reserved key of the minimum chosen id, and returns 1 leaving the
    argument unchanged exactly when no instance is stored. *)
Theorem GetMaxInstanceId_spec : forall (db : ldb) (id0 : Z),
  match DB_GetMaxInstanceId id0 db with
  | (ret, id) =>
      (ret = 0 /\ id <> kMinChosenKey /\
       (exists k, (ldb_Get k db).1 = LOk /\ DecodeFixed64 k = id) /\
       (forall k, (ldb_Get k db).1 = LOk -> DecodeFixed64 k <> kMinChosenKey ->
                  DecodeFixed64 k <= id)) \/
      (ret = 1 /\ id = id0 /\
       forall k, (ldb_Get k db).1 = LOk -> DecodeFixed64 k = kMinChosenKey)
  end.
Proof.
  intros db id0. unfold DB_GetMaxInstanceId.
  destruct (max_instance_loop (rev (ldb_Keys db))) as [id|] eqn:E.
  - left. apply max_loop_Some in E as (pre & k & post & Hl & Hk & Hne & Hpre).
    assert (HL : ldb_Keys db = rev post ++ k :: rev pre).
    { apply (f_equal (@rev _)) in Hl. rewrite rev_involutive in Hl. rewrite Hl.
      rewrite rev_app_distr. simpl. by rewrite <- app_assoc. }
    split_and!; [done|done| |].
    + exists k. split; [|done]. apply keys_present. rewrite HL. set_solver.
    + intros k0 Hk0 Hne0. apply keys_complete in Hk0 as (k' & Hk' & Heq%same_key_spec).
      rewrite Heq in *. rename Hne0 into Hne'. rewrite HL in Hk'.
      pose proof (keys_sorted db) as Hs. rewrite HL in Hs.
      apply elem_of_app in Hk' as [Hk'|[->|Hk']%elem_of_cons].
      * pose proof (sorted_app_lt _ _ _ Hs _ Hk'). lia.
      * lia.
      * exfalso. apply Hne', Hpre. rewrite <- (rev_involutive pre).
        apply list_elem_of_In. apply -> in_rev. by apply list_elem_of_In.
  - right. split_and!; [done..|]. intros k Hk.
    apply keys_complete in Hk as (k' & Hk' & ->%same_key_spec).
    rewrite max_loop_None in E. apply E.
    apply list_elem_of_In. apply -> in_rev. by apply list_elem_of_In.
Qed.

(** The stored minimum chosen id survives: after a successful
    [SetMinChosenInstanceId] it is what [GetMinChosenInstanceId] reads, no record
    of an ordinary instance is changed, and no later successful write of an
    ordinary instance changes it. *)
Theorem MinChosen_roundtrip : forall (id i : Z) (v : string) (sync : bool) (d0 : Z) (db db1 db2 : ldb),
  in_u64 id -> in_u64 i -> i <> kMinChosenKey ->
  DB_SetMinChosenInstanceId id db = (db1, 0) ->
  DB_Put sync i v db1 = (db2, 0) ->
  DB_GetMinChosenInstanceId d0 db1 = (0, id) /\
  DB_Get i db1 = DB_Get i db /\
  DB_GetMinChosenInstanceId d0 db2 = (0, id) /\
  DB_Get i db2 = (0, v).
Proof.
  intros id i v sync d0 db db1 db2 Hid Hi Hne H1 H2.
  unfold DB_SetMinChosenInstanceId in H1. unfold DB_GetMinChosenInstanceId.
  assert (Hk : in_u64 kMinChosenKey) by (unfold in_u64, kMinChosenKey, u64_max; lia).
  rewrite (DB_Get_Put_ne sync i kMinChosenKey v db1 db2) by done.
  rewrite (DB_Get_Put_eq _ _ _ _ _ H1). simpl.
  rewrite (DB_Get_Put_ne true kMinChosenKey i _ db db1) by (done || congruence).
  by rewrite decode_encode64', (DB_Get_Put_eq _ _ _ _ _ H2).
Qed.

End DBTheory.
