(* ===== verification/Random.v ===== *)
(** Model of [util/random.h]: the Lehmer generator that jitters the retry and
    learn timers, with the proof that its division-free step computes
    [16807 * seed mod (2^31 - 1)] and never leaves the valid seeds. *)

From S2P Require Import Prelude.
From Stdlib Require Import Znumtheory.

(** * The generator; the state is [seed_] *)

Definition rand_M : Z := 2147483647.
Definition rand_A : Z := 16807.

Definition Random_new (s : Z) : Z :=
  let seed := Z.land s 0x7fffffff in
  if (seed =? 0) || (seed =? 2147483647) then 1 else seed.

(** The new [seed_], which is also the result. *)
Definition Random_Next (seed : Z) : Z :=
  let product := wrap64 (seed * rand_A) in
  let seed' := wrap32 (Z.shiftr product 31 + Z.land product rand_M) in
  if rand_M <? seed' then seed' - rand_M else seed'.

(** Result and new [seed_]. *)
Definition Random_Uniform (n : Z) (seed : Z) : Z * Z :=
  let r := Random_Next seed in (r mod n, r).

Definition Random_OneIn (n : Z) (seed : Z) : bool * Z :=
  let r := Random_Next seed in (r mod n =? 0, r).

Definition Random_Skewed (max_log : Z) (seed : Z) : Z * Z :=
  let '(k, seed1) := Random_Uniform (max_log + 1) seed in
  Random_Uniform (Z.shiftl 1 k) seed1.

Definition seed_ok (seed : Z) : Prop := 1 <= seed < rand_M.

(** * Lemmas *)

Lemma Random_new_ok s : seed_ok (Random_new s).
Proof.
  unfold Random_new, seed_ok, rand_M.
  assert (H : 0 <= Z.land s 0x7fffffff < 2 ^ 31).
  { change 0x7fffffff with (Z.ones 31). rewrite Z.land_ones by lia.
    apply Z.mod_pos_bound. lia. }
  split_if; [lia|]. simpl in *. lia.
Qed.

Lemma mersenne_fold p :
  0 <= p -> p mod rand_M = (Z.shiftr p 31 + Z.land p rand_M) mod rand_M.
Proof.
  intros Hp. unfold rand_M. change 2147483647 with (Z.ones 31) at 2.
  rewrite Z.land_ones, Z.shiftr_div_pow2 by lia.
  rewrite (Z.div_mod p (2 ^ 31)) at 1 by lia.
  replace (2 ^ 31 * (p / 2 ^ 31) + p mod 2 ^ 31)
    with (p / 2 ^ 31 + p mod 2 ^ 31 + (p / 2 ^ 31) * 2147483647) by lia.
  apply Z.mod_add. lia.
Qed.

Lemma lehmer_nonzero seed : seed_ok seed -> (rand_A * seed) mod rand_M <> 0.
Proof.
  intros [H1 H2] H. apply Z.mod_divide in H; [|unfold rand_M; lia].
  assert (Hr : rel_prime rand_M rand_A).
  { apply Zgcd_1_rel_prime. vm_compute. reflexivity. }
  apply (Gauss _ _ _ H) in Hr. apply Z.divide_pos_le in Hr; lia.
Qed.

(** [Random::Next] computes the Lehmer recurrence exactly: on a valid seed
    the 64-bit product does not overflow, the result is [16807 * seed] modulo
    [2^31 - 1], and it is again a valid (nonzero) seed; constructing a generator
    always gives a valid seed. *)
Theorem Random_Next_spec : forall seed, seed_ok seed ->
  Random_Next seed = (rand_A * seed) mod rand_M /\ seed_ok (Random_Next seed).
Proof.
  intros seed H. pose proof (lehmer_nonzero seed H) as Hnz.
  assert (E : Random_Next seed = (rand_A * seed) mod rand_M).
  { unfold Random_Next. destruct H as [H1 H2].
    assert (Hp : 0 <= seed * rand_A < 2 ^ 47) by (unfold rand_A, rand_M in *; lia).
    rewrite wrap64_small by (unfold in_u64; lia).
    rewrite (Z.mul_comm rand_A), (mersenne_fold (seed * rand_A)) in * by lia.
    remember (Z.shiftr (seed * rand_A) 31) as hi.
    remember (Z.land (seed * rand_A) rand_M) as lo.
    assert (Hhi : 0 <= hi < 2 ^ 16).
    { subst hi. rewrite Z.shiftr_div_pow2 by lia. split.
      - apply Z.div_pos; lia.
      - apply Z.div_lt_upper_bound; lia. }
    assert (Hlo : 0 <= lo < 2 ^ 31).
    { subst lo. change rand_M with (Z.ones 31). rewrite Z.land_ones by lia.
      apply Z.mod_pos_bound. lia. }
    unfold wrap32. rewrite (Z.mod_small (hi + lo)) by lia.
    destruct (Z.ltb_spec rand_M (hi + lo)) as [L|L]; unfold rand_M in *.
    - rewrite <- (Z.mod_small (hi + lo - 2147483647) 2147483647) at 1 by lia.
      rewrite <- (Z.mod_add (hi + lo - 2147483647) 1) by lia. f_equal. lia.
    - destruct (Z.eq_dec (hi + lo) 2147483647) as [Q|Q].
      + rewrite Q in Hnz. exfalso. apply Hnz. reflexivity.
      + rewrite Z.mod_small; lia. }
  split; [done|]. rewrite E. unfold seed_ok.
  assert (0 <= (rand_A * seed) mod rand_M < rand_M)
    by (apply Z.mod_pos_bound; unfold rand_M; lia). lia.
Qed.

Lemma Random_Next_spec_witness :
  seed_ok 1 /\ Random_Next 1 = (rand_A * 1) mod rand_M /\ seed_ok (Random_Next 1).
Proof.
  split; [unfold seed_ok, rand_M; lia|]. apply Random_Next_spec. unfold seed_ok, rand_M; lia.
Defined.

Lemma Random_Uniform_bound n seed :
  0 < n -> 0 <= (Random_Uniform n seed).1 < n.
Proof. intros H. apply Z.mod_pos_bound, H. Qed.

#[export] Hint Resolve Random_new_ok Random_Uniform_bound : sky.
