(* ===== verification/TimerList.v ===== *)
(** Model of [util/timerlist.cc]: the deadline-ordered timers of a run loop.

    [std::set<TimerId>] is a strictly sorted list of pairs, [std::set<Timer*>]
    a set of addresses and the timers themselves a heap.  [new] is the class
    [Allocator]: it returns some address that is not in use, possibly one that
    was used before.  The clock reading [NowMillis()] is an argument.  A timer
    list belongs to one loop and is only used from it, so [RunInLoop] calls its
    argument directly. *)

From S2P Require Import Prelude.
From Stdlib Require Import Sorted.

(** * Data *)

Class Allocator := new_ptr : gset Z -> Z.
Class AllocatorLaws `{!Allocator} := new_ptr_fresh : forall s, new_ptr s ∉ s.

Record Timer (CB : Type) := mkTimer {
  ms_value : Z;
  ms_interval : Z;
  timerproc_cb : CB;
}.
Arguments mkTimer {CB}. Arguments ms_value {CB}. Arguments ms_interval {CB}.
Arguments timerproc_cb {CB}.

(** [typedef std::pair<uint64_t, Timer*> TimerId]. *)
Definition TimerId : Type := Z * Z.

Definition tid_lt (a b : TimerId) : Prop := a.1 < b.1 \/ a.1 = b.1 /\ a.2 < b.2.
Definition tid_ltb (a b : TimerId) : bool :=
  (a.1 <? b.1) || ((a.1 =? b.1) && (a.2 <? b.2)).

(** [std::set::insert] and [std::set::erase] on the sorted representation. *)
Fixpoint tid_insert (t : TimerId) (l : list TimerId) : list TimerId :=
  match l with
  | [] => [t]
  | u :: l' => if tid_ltb t u then t :: l
               else if tid_ltb u t then u :: tid_insert t l' else l
  end.

Fixpoint tid_erase (t : TimerId) (l : list TimerId) : list TimerId :=
  match l with
  | [] => []
  | u :: l' => if decide (u = t) then l' else u :: tid_erase t l'
  end.

Record TimerList (CB : Type) := mkTimerList {
  last_time_out : Z;
  timer_ptrs : gset Z;
  timers : list TimerId;
  timer_heap : gmap Z (Timer CB);
}.
Arguments mkTimerList {CB}. Arguments last_time_out {CB}. Arguments timer_ptrs {CB}.
Arguments timers {CB}. Arguments timer_heap {CB}.

Section TimerListOps.
Context {AL : Allocator} {CB : Type}.

Definition TimerList_new (now : Z) : TimerList CB := mkTimerList now ∅ [] ∅.

(** [new Timer(...)] followed by [InsertInLoop]. *)
Definition insert_timer (value interval : Z) (cb : CB) (tl : TimerList CB)
  : TimerList CB * TimerId :=
  let p := new_ptr (dom (timer_heap tl)) in
  let timer := (value, p) in
  (mkTimerList (last_time_out tl) ({[p]} ∪ timer_ptrs tl) (tid_insert timer (timers tl))
     (<[p := mkTimer value interval cb]> (timer_heap tl)), timer).

Definition RunAt (value : Z) (cb : CB) (tl : TimerList CB) := insert_timer value 0 cb tl.

Definition RunAfter (now delay : Z) (cb : CB) (tl : TimerList CB) :=
  insert_timer (add64 now delay) 0 cb tl.

Definition RunEvery (now interval : Z) (cb : CB) (tl : TimerList CB) :=
  insert_timer (add64 now interval) interval cb tl.

Definition Remove (timer : TimerId) (tl : TimerList CB) : TimerList CB :=
  if decide (timer.2 ∈ timer_ptrs tl) then
    match timer_heap tl !! timer.2 with
    | Some t =>
        mkTimerList (last_time_out tl) (timer_ptrs tl ∖ {[timer.2]})
          (tid_erase (ms_value t, timer.2) (timers tl)) (delete timer.2 (timer_heap tl))
    | None => tl
    end
  else tl.

Definition TimeoutMs (now : Z) (tl : TimerList CB) : Z :=
  match timers tl with
  | [] => u64_max
  | it :: _ =>
      if now <? last_time_out tl then 0
      else if it.1 <=? now then 0 else sub64 it.1 now
  end.

(** The clock went back: every deadline moves back by the same amount. *)
Definition shift_timer (diff : Z) (it : TimerId) : TimerId :=
  (if diff <? it.1 then it.1 - diff else 0, it.2).

Definition shift_heap (diff : Z) (l : list TimerId) (h : gmap Z (Timer CB)) : gmap Z (Timer CB) :=
  foldr (fun it h => alter (fun t => mkTimer (shift_timer diff it).1 (ms_interval t) (timerproc_cb t))
                           it.2 h) h l.

Definition shift_set (diff : Z) (l : list TimerId) : list TimerId :=
  foldl (fun acc it => tid_insert (shift_timer diff it) acc) [] l.

(** [RunTimerProcs] up to the loop. *)
Definition adjust_clock (ms_now : Z) (tl : TimerList CB) : TimerList CB :=
  match timers tl with
  | [] => tl
  | _ =>
      if ms_now <? last_time_out tl then
        let diff := last_time_out tl - ms_now in
        mkTimerList ms_now (timer_ptrs tl) (shift_set diff (timers tl))
          (shift_heap diff (timers tl) (timer_heap tl))
      else mkTimerList ms_now (timer_ptrs tl) (timers tl) (timer_heap tl)
  end.

(** One iteration of the loop: the expired timer with the smallest key leaves
    the set (a periodic one is inserted again) and its callback is returned, to
    be called next; [None] is the [break]. *)
Definition pop_expired (ms_now : Z) (tl : TimerList CB) : option (CB * TimerList CB) :=
  match timers tl with
  | [] => None
  | it :: rest =>
      if it.1 <=? ms_now then
        match timer_heap tl !! it.2 with
        | None => None
        | Some t =>
            if 0 <? ms_interval t then
              let v := add64 ms_now (ms_interval t) in
              Some (timerproc_cb t,
                    mkTimerList (last_time_out tl) (timer_ptrs tl) (tid_insert (v, it.2) rest)
                      (<[it.2 := mkTimer v (ms_interval t) (timerproc_cb t)]> (timer_heap tl)))
            else
              Some (timerproc_cb t,
                    mkTimerList (last_time_out tl) (timer_ptrs tl ∖ {[it.2]}) rest
                      (delete it.2 (timer_heap tl)))
        end
      else None
  end.

(** [RunTimerProcs] over a world [W] that contains the list and that the
    callbacks change; [fuel] bounds the number of callbacks run. *)
Fixpoint timer_loop {W : Type} (get : W -> TimerList CB) (put : TimerList CB -> W -> W)
    (call : CB -> W -> W) (fuel : nat) (ms_now : Z) (w : W) : W :=
  match fuel with
  | O => w
  | S fuel =>
      match pop_expired ms_now (get w) with
      | None => w
      | Some (cb, tl) => timer_loop get put call fuel ms_now (call cb (put tl w))
      end
  end.

(** The three containers describe the same timers. *)
Record timers_ok (tl : TimerList CB) : Prop := {
  tl_ptrs : timer_ptrs tl = dom (timer_heap tl);
  tl_sorted : StronglySorted tid_lt (timers tl);
  tl_set : forall v p, (v, p) ∈ timers tl <->
             exists t, timer_heap tl !! p = Some t /\ ms_value t = v;
}.

End TimerListOps.

(** * Properties *)

Section TimerListTheory.
Context {AL : Allocator} {ALL : AllocatorLaws} {CB : Type}.

Lemma tid_ltb_spec a b : tid_ltb a b = true <-> tid_lt a b.
Proof.
  unfold tid_ltb, tid_lt. rewrite orb_true_iff, andb_true_iff, Z.eqb_eq, !Z.ltb_lt. tauto.
Qed.

Lemma tid_lt_total a b : tid_ltb a b = false -> tid_ltb b a = false -> a = b.
Proof.
  rewrite <- !not_true_iff_false, !tid_ltb_spec. unfold tid_lt. destruct a, b; simpl.
  intros. f_equal; lia.
Qed.

Lemma tid_insert_elem t l x : x ∈ tid_insert t l <-> x = t \/ x ∈ l.
Proof.
  induction l as [|u l IH]; simpl; [set_solver|].
  destruct (tid_ltb t u) eqn:E1; [set_solver|].
  destruct (tid_ltb u t) eqn:E2; [set_solver|].
  rewrite (tid_lt_total t u) by done. set_solver.
Qed.

Lemma tid_lt_trans a b c : tid_lt a b -> tid_lt b c -> tid_lt a c.
Proof. unfold tid_lt. lia. Qed.

Lemma tid_insert_sorted t l : StronglySorted tid_lt l -> StronglySorted tid_lt (tid_insert t l).
Proof.
  induction 1 as [|u l Hs IH Hall]; simpl; [repeat constructor|].
  destruct (tid_ltb t u) eqn:E1; [|destruct (tid_ltb u t) eqn:E2].
  - apply tid_ltb_spec in E1. constructor; [by constructor|].
    constructor; [done|]. eapply Forall_impl; [done|]. eauto using tid_lt_trans.
  - apply tid_ltb_spec in E2. constructor; [done|].
    rewrite Forall_forall in *. intros x Hx. apply tid_insert_elem in Hx as [->|]; auto.
  - by constructor.
Qed.

Lemma tid_erase_sub t l x : x ∈ tid_erase t l -> x ∈ l.
Proof. induction l; simpl; [done|]. case_decide; set_solver. Qed.

Lemma tid_erase_sorted t l : StronglySorted tid_lt l -> StronglySorted tid_lt (tid_erase t l).
Proof.
  induction 1 as [|u l Hs IH Hall]; simpl; [constructor|].
  case_decide; [done|]. constructor; [done|].
  rewrite Forall_forall in *. intros x Hx. apply tid_erase_sub in Hx. auto.
Qed.

Lemma tid_lt_irrefl t : ~ tid_lt t t.
Proof. unfold tid_lt. lia. Qed.

Lemma tid_erase_elem t l x :
  StronglySorted tid_lt l -> x ∈ tid_erase t l <-> x ∈ l /\ x <> t.
Proof.
  induction 1 as [|u l Hs IH Hall]; simpl; [set_solver|].
  rewrite Forall_forall in Hall. case_decide as E.
  - subst u. split; [|set_solver].
    intros Hx. split; [set_solver|]. intros ->. by apply (tid_lt_irrefl t), Hall.
  - rewrite !elem_of_cons, IH. naive_solver.
Qed.

Lemma heap_keys_fresh (tl : TimerList CB) v p t :
  timers_ok tl -> timer_heap tl !! p = None -> timer_heap tl !! p = Some t -> (v, p) ∈ timers tl -> False.
Proof. congruence. Qed.

Lemma insert_timer_ok v i cb (tl : TimerList CB) :
  timers_ok tl -> timers_ok (insert_timer v i cb tl).1.
Proof.
  intros H. set (p := new_ptr (dom (timer_heap tl))).
  assert (Hp : timer_heap tl !! p = None) by (apply not_elem_of_dom, new_ptr_fresh).
  constructor; simpl; fold p.
  - rewrite dom_insert_L. by rewrite (tl_ptrs _ H).
  - apply tid_insert_sorted, H.
  - intros v' p'. rewrite tid_insert_elem, (tl_set _ H), lookup_insert.
    case_decide as E; [subst p'|].
    + split.
      * intros [[=]|(t & Ht & _)]; [subst; eauto|congruence].
      * intros (t & [= <-] & <-). by left.
    + split; [intros [[=]|]; [congruence|done]|by right].
Qed.

Lemma Remove_ok t (tl : TimerList CB) : timers_ok tl -> timers_ok (Remove t tl).
Proof.
  intros H. unfold Remove. case_decide; [|done].
  destruct (timer_heap tl !! t.2) as [tm|] eqn:E; [|done]. constructor; simpl.
  - rewrite dom_delete_L. by rewrite (tl_ptrs _ H).
  - apply tid_erase_sorted, H.
  - intros v p. rewrite tid_erase_elem by apply H. rewrite (tl_set _ H), lookup_delete.
    case_decide as D.
    + subst p. split; [|by intros (? & ? & _)].
      intros ((tm' & Htm & Hv) & Hne). exfalso. apply Hne. congruence.
    + split; [tauto|]. intros ?. split; [done|]. congruence.
Qed.

Lemma pop_expired_ok now (tl tl' : TimerList CB) cb :
  timers_ok tl -> pop_expired now tl = Some (cb, tl') -> timers_ok tl'.
Proof.
  intros H. unfold pop_expired. destruct (timers tl) as [|it rest] eqn:El; [done|].
  destruct (it.1 <=? now); [|done].
  destruct (timer_heap tl !! it.2) as [t|] eqn:Et; [|done].
  pose proof (tl_sorted _ H) as Hs. rewrite El in Hs.
  inversion Hs as [|? ? Hs' Hall]; subst. rewrite Forall_forall in Hall.
  assert (Hit : it = (ms_value t, it.2)).
  { destruct it as [v p]. simpl in *.
    destruct (proj1 (tl_set _ H v p)) as (t' & Ht' & <-); [rewrite El; set_solver|].
    congruence. }
  assert (Hrest : forall v p, (v, p) ∈ rest <->
            p <> it.2 /\ exists t, timer_heap tl !! p = Some t /\ ms_value t = v).
  { intros v p. rewrite <- (tl_set _ H), El, elem_of_cons. split.
    - intros Hin. split; [|by right]. intros ->.
      assert (Hv : exists t', timer_heap tl !! it.2 = Some t' /\ ms_value t' = v)
        by (apply (tl_set _ H); rewrite El; set_solver).
      destruct Hv as (t' & Ht' & Hv). apply (tid_lt_irrefl it).
      rewrite Hit at 2. apply Hall. by replace (ms_value t) with v by congruence.
    - intros [Hne [E|]]; [|done]. exfalso. apply Hne. by rewrite <- E. }
  destruct (0 <? ms_interval t); intros [= <- <-]; constructor; simpl.
  - rewrite dom_insert_L, (tl_ptrs _ H). apply elem_of_dom_2 in Et. set_solver.
  - by apply tid_insert_sorted.
  - intros v p. rewrite tid_insert_elem, Hrest, lookup_insert. case_decide as D.
    + subst p. split; [intros [[=]|[]]; [subst; eauto|done]|].
      intros (t' & [= <-] & <-). by left.
    + split; [intros [[=]|[]]; [congruence|done]|]. intros. right. by split.
  - rewrite dom_delete_L. by rewrite (tl_ptrs _ H).
  - done.
  - intros v p. rewrite Hrest, lookup_delete. case_decide as D.
    + subst p. split; [by intros []|by intros (? & ? & _)].
    + split; [by intros []|]. intros. by split.
Qed.

Lemma shift_heap_other diff l (h : gmap Z (Timer CB)) p :
  p ∉ l.*2 -> shift_heap diff l h !! p = h !! p.
Proof.
  induction l as [|it l IH]; [done|]. rewrite fmap_cons, not_elem_of_cons. intros [Hne Hni].
  simpl. rewrite lookup_alter_ne by congruence. by apply IH.
Qed.

Lemma shift_heap_lookup diff l (h : gmap Z (Timer CB)) it :
  NoDup l.*2 -> it ∈ l ->
  shift_heap diff l h !! it.2 =
    (fun t => mkTimer (shift_timer diff it).1 (ms_interval t) (timerproc_cb t)) <$> h !! it.2.
Proof.
  induction l as [|u l IH]; intros Hnd Hin; [set_solver|].
  rewrite fmap_cons in Hnd. apply NoDup_cons in Hnd as [Hni Hnd]. simpl.
  apply elem_of_cons in Hin as [->|Hin].
  - rewrite lookup_alter_eq. f_equal. by apply shift_heap_other.
  - rewrite lookup_alter_ne; [by apply IH|]. intros E. apply Hni. rewrite E.
    apply list_elem_of_fmap. eauto.
Qed.

Lemma shift_set_spec diff l acc :
  StronglySorted tid_lt acc ->
  StronglySorted tid_lt (foldl (fun acc it => tid_insert (shift_timer diff it) acc) acc l) /\
  forall x, x ∈ foldl (fun acc it => tid_insert (shift_timer diff it) acc) acc l <->
            x ∈ acc \/ exists it, it ∈ l /\ x = shift_timer diff it.
Proof.
  revert acc. induction l as [|it l IH]; intros acc Hs; simpl.
  - split; [done|]. set_solver.
  - destruct (IH (tid_insert (shift_timer diff it) acc)) as [H1 H2];
      [by apply tid_insert_sorted|].
    split; [done|]. intros x. rewrite H2, tid_insert_elem. set_solver.
Qed.

Lemma timers_ptrs_nodup (tl : TimerList CB) : timers_ok tl -> NoDup (timers tl).*2.
Proof.
  intros H. pose proof (tl_sorted _ H) as Hs.
  assert (Huniq : forall a b, a ∈ timers tl -> b ∈ timers tl -> a.2 = b.2 -> a = b).
  { intros [v1 p1] [v2 p2]. simpl. rewrite !(tl_set _ H).
    intros (t1 & ? & <-) (t2 & ? & <-) ->. congruence. }
  revert Hs Huniq. generalize (timers tl). induction l as [|it l IH]; intros Hs Hu; simpl.
  - constructor.
  - inversion Hs as [|? ? Hs' Hall]; subst. constructor.
    + intros (it' & E & Hin)%list_elem_of_fmap.
      rewrite Forall_forall in Hall. apply (tid_lt_irrefl it).
      rewrite (Hu it it') at 2; [by apply Hall|set_solver..].
    + apply IH; [done|]. intros a b ??. apply Hu; set_solver.
Qed.

Lemma adjust_clock_ok now (tl : TimerList CB) : timers_ok tl -> timers_ok (adjust_clock now tl).
Proof.
  intros H. unfold adjust_clock. destruct (timers tl) as [|it0 l0] eqn:El; [done|].
  rewrite <- El. destruct (now <? last_time_out tl); [|by destruct H; constructor].
  set (d := last_time_out tl - now).
  pose proof (timers_ptrs_nodup _ H) as Hnd.
  destruct (shift_set_spec d (timers tl) [] (SSorted_nil _)) as [Hs Hin].
  constructor; simpl; [|exact Hs|].
  - rewrite (tl_ptrs _ H). apply leibniz_equiv. intros p. rewrite !elem_of_dom.
    destruct (decide (p ∈ (timers tl).*2)) as [Hp|Hp]; [|by rewrite shift_heap_other].
    apply list_elem_of_fmap in Hp as (it & -> & Hit).
    by rewrite shift_heap_lookup, fmap_is_Some.
  - intros v p. unfold shift_set. rewrite Hin. split.
    + intros [?|(it & Hit & E)]; [set_solver|]. injection E as -> ->.
      rewrite shift_heap_lookup by done.
      destruct (proj1 (tl_set _ H it.1 it.2)) as (t & Ht & _); [by destruct it|].
      rewrite Ht. simpl. eauto.
    + destruct (decide (p ∈ (timers tl).*2)) as [Hp|Hp].
      * apply list_elem_of_fmap in Hp as (it & -> & Hit).
        rewrite shift_heap_lookup by done. intros (t & Ht & <-). right. exists it.
        split; [done|]. apply fmap_Some in Ht as (t' & _ & ->). simpl. by destruct it.
      * rewrite shift_heap_other by done. intros (t & Ht & _). exfalso. apply Hp.
        apply list_elem_of_fmap. exists (ms_value t, p). split; [done|].
        apply (tl_set _ H). eauto.
Qed.

#[local] Hint Resolve insert_timer_ok Remove_ok adjust_clock_ok : sky.

(** (C39) Every operation of [TimerList] keeps its three containers consistent:
    [timer_ptrs_] holds exactly the live timers and [timers_] holds, strictly
    ordered, exactly one entry per live timer, keyed by its deadline. *)
Theorem TimerList_invariant : forall (now v i : Z) (cb : CB) (id : TimerId) (tl : TimerList CB),
  timers_ok tl ->
  timers_ok (TimerList_new (CB := CB) now) /\
  timers_ok (RunAt v cb tl).1 /\
  timers_ok (RunAfter now v cb tl).1 /\
  timers_ok (RunEvery now i cb tl).1 /\
  timers_ok (Remove id tl) /\
  timers_ok (adjust_clock now tl) /\
  (forall cb' tl', pop_expired now tl = Some (cb', tl') -> timers_ok tl').
Proof.
  intros now v i cb id tl H. split_and!; eauto using insert_timer_ok, Remove_ok, adjust_clock_ok, pop_expired_ok.
  constructor; simpl; [by rewrite dom_empty_L|constructor|].
  intros v' p. rewrite lookup_empty. set_solver.
Qed.

(** Timers fire when due, earliest first: [RunTimerProcs] breaks out of its
    loop only when no live timer is due, the callback it runs belongs to a due
    timer that no live timer precedes, and a timer that was just added is
    cancelled by [Remove] with the id it returned. *)
Theorem TimerList_fires_in_order : forall (now : Z) (tl : TimerList CB), timers_ok tl ->
  (pop_expired now tl = None ->
     forall p t, timer_heap tl !! p = Some t -> now < ms_value t) /\
  (forall cb tl', pop_expired now tl = Some (cb, tl') ->
     exists p t, timer_heap tl !! p = Some t /\ timerproc_cb t = cb /\ ms_value t <= now /\
       forall p' t', timer_heap tl !! p' = Some t' -> ms_value t <= ms_value t') /\
  (forall delay cb, let '(tl', id) := RunAfter now delay cb tl in
     timer_heap (Remove id tl') = timer_heap tl /\ timer_ptrs (Remove id tl') = timer_ptrs tl).
Proof.
  intros now tl H. pose proof (tl_sorted _ H) as Hs. split_and!.
  - unfold pop_expired. destruct (timers tl) as [|it rest] eqn:El.
    + intros _ p t Hp. assert (Hin : (ms_value t, p) ∈ timers tl) by (apply (tl_set _ H); eauto).
      rewrite El in Hin. set_solver.
    + inversion Hs as [|? ? Hs' Hall]; subst. rewrite Forall_forall in Hall.
      destruct (it.1 <=? now) eqn:E.
      * destruct (timer_heap tl !! it.2) as [t|] eqn:Et; [by destruct (0 <? ms_interval t)|].
        intros _ p t Hp. destruct it as [v q]. simpl in *.
        destruct (proj1 (tl_set _ H v q)) as (t' & Ht' & _); [rewrite El; set_solver|]. congruence.
      * intros _ p t Hp. assert (Hin : (ms_value t, p) ∈ timers tl) by (apply (tl_set _ H); eauto).
        rewrite El in Hin. reflect_bools.
        apply elem_of_cons in Hin as [<-|Hin]; [done|].
        apply Hall in Hin. unfold tid_lt in Hin. simpl in Hin. lia.
  - intros cb tl'. unfold pop_expired. destruct (timers tl) as [|it rest] eqn:El; [done|].
    inversion Hs as [|? ? Hs' Hall]; subst. rewrite Forall_forall in Hall.
    destruct (it.1 <=? now) eqn:E; [|done]. reflect_bools.
    destruct (timer_heap tl !! it.2) as [t|] eqn:Et; [|done]. intros Hpop.
    assert (Hv : ms_value t = it.1).
    { destruct it as [v q]. destruct (proj1 (tl_set _ H v q)) as (t' & Ht' & <-);
        [rewrite El; set_solver|]. simpl in *. congruence. }
    exists it.2, t. split_and!; [done| |lia|].
    + destruct (0 <? ms_interval t); by injection Hpop.
    + intros p' t' Hp'. assert (Hin : (ms_value t', p') ∈ timers tl) by (apply (tl_set _ H); eauto).
      rewrite El in Hin. apply elem_of_cons in Hin as [<-|Hin]; [simpl in Hv; lia|].
      apply Hall in Hin. unfold tid_lt in Hin. simpl in Hin. lia.
  - intros delay cb. unfold RunAfter, insert_timer. set (p := new_ptr (dom (timer_heap tl))).
    assert (Hp : p ∉ dom (timer_heap tl)) by apply new_ptr_fresh.
    unfold Remove. simpl. rewrite decide_True by set_solver. rewrite lookup_insert_eq. simpl.
    split.
    + rewrite delete_insert_eq, delete_id; [done|]. by apply not_elem_of_dom.
    + rewrite (tl_ptrs _ H). set_solver.
Qed.

End TimerListTheory.
