(* ===== verification/Counter.v ===== *)
(** Model of [paxos/counter.cc]: the votes of one prepare or accept round. *)

From S2P Require Import Prelude.

(** * Data and operations; sizes of the membership are passed by the caller *)

Record Counter := mkCounter {
  received_nodes : gset Z;
  rejectors : gset Z;
  promisors_or_acceptors : gset Z;
}.

Definition Counter_new : Counter := mkCounter ∅ ∅ ∅.

Definition AddReceivedNode (node_id : Z) (c : Counter) : Counter :=
  mkCounter ({[node_id]} ∪ received_nodes c) (rejectors c) (promisors_or_acceptors c).

Definition AddRejector (node_id : Z) (c : Counter) : Counter :=
  mkCounter (received_nodes c) ({[node_id]} ∪ rejectors c) (promisors_or_acceptors c).

Definition AddPromisorOrAcceptor (node_id : Z) (c : Counter) : Counter :=
  mkCounter (received_nodes c) (rejectors c) ({[node_id]} ∪ promisors_or_acceptors c).

Definition IsPassedOnThisRound (majority : nat) (c : Counter) : bool :=
  (majority <=? size (promisors_or_acceptors c))%nat.

Definition IsRejectedOnThisRound (majority : nat) (c : Counter) : bool :=
  (majority <=? size (rejectors c))%nat.

Definition IsReceiveAllOnThisRound (node_size : nat) (c : Counter) : bool :=
  (node_size <=? size (received_nodes c))%nat.

Definition StartNewRound (c : Counter) : Counter := mkCounter ∅ ∅ ∅.

(** One reply as [Proposer] counts it. *)
Definition count_reply (node_id rejected_id : Z) (c : Counter) : Counter :=
  let c1 := AddReceivedNode node_id c in
  if rejected_id =? 0 then AddPromisorOrAcceptor node_id c1 else AddRejector node_id c1.

Definition count_replies (replies : list (Z * Z)) (c : Counter) : Counter :=
  foldl (fun c r => count_reply r.1 r.2 c) c replies.

(** * Properties *)

Lemma count_replies_sets replies c :
  (forall n, n ∈ promisors_or_acceptors (count_replies replies c) <->
     n ∈ promisors_or_acceptors c \/ (n, 0) ∈ replies) /\
  (forall n, n ∈ rejectors (count_replies replies c) <->
     n ∈ rejectors c \/ exists r, r <> 0 /\ (n, r) ∈ replies) /\
  (forall n, n ∈ received_nodes (count_replies replies c) <->
     n ∈ received_nodes c \/ exists r, (n, r) ∈ replies).
Proof.
  revert c. induction replies as [|[m r] l IH]; intros c; simpl; [set_solver|].
  destruct (IH (count_reply m r c)) as (H1 & H2 & H3).
  unfold count_reply in *. destruct (Z.eqb_spec r 0) as [->|Hr];
    (split_and!; intros n; [rewrite H1|rewrite H2|rewrite H3]); simpl; set_solver.
Qed.

Lemma size_at_least (k : nat) (X : gset Z) (P : Z -> Prop) :
  (forall n, n ∈ X <-> P n) ->
  (k <= size X)%nat <-> exists Q : gset Z, (k <= size Q)%nat /\ forall n, n ∈ Q -> P n.
Proof.
  intros HX. split.
  - intros H. exists X. split; [done|]. intros n. by apply HX.
  - intros (Q & HQ & HP). assert (Q ⊆ X) by (intros n Hn; by apply HX, HP).
    pose proof (subseteq_size Q X ltac:(done)). lia.
Qed.

(** What a round's counter decides, for any sequence of replies, duplicates
    included: the round passes (is rejected) exactly when a majority of distinct
    nodes answered without (with) a rejected id, it is complete exactly when as
    many distinct nodes as there are members answered, and when only members
    answer and none both promises and rejects, it is never both passed and
    rejected. *)
Theorem Counter_round : forall (members : gset Z) (replies : list (Z * Z)) (c : Counter),
  let c' := count_replies replies (StartNewRound c) in
  let majority := (size members `div` 2 + 1)%nat in
  (IsPassedOnThisRound majority c' = true <->
     exists Q : gset Z, (majority <= size Q)%nat /\ forall n, n ∈ Q -> (n, 0) ∈ replies) /\
  (IsRejectedOnThisRound majority c' = true <->
     exists Q : gset Z, (majority <= size Q)%nat /\
       forall n, n ∈ Q -> exists r, r <> 0 /\ (n, r) ∈ replies) /\
  (IsReceiveAllOnThisRound (size members) c' = true <->
     exists Q : gset Z, (size members <= size Q)%nat /\
       forall n, n ∈ Q -> exists r, (n, r) ∈ replies) /\
  ((forall n r, (n, r) ∈ replies -> n ∈ members) ->
   (forall n r, (n, 0) ∈ replies -> (n, r) ∈ replies -> r = 0) ->
   IsPassedOnThisRound majority c' && IsRejectedOnThisRound majority c' = false).
Proof.
  intros members replies c c' majority.
  destruct (count_replies_sets replies (StartNewRound c)) as (H1 & H2 & H3).
  fold c' in H1, H2, H3. simpl in H1, H2, H3.
  unfold IsPassedOnThisRound, IsRejectedOnThisRound, IsReceiveAllOnThisRound.
  rewrite !Nat.leb_le. split_and!.
  - apply size_at_least. intros n. rewrite H1. set_solver.
  - apply size_at_least. intros n. rewrite H2. set_solver.
  - apply size_at_least. intros n. rewrite H3. set_solver.
  - intros Hm Hc. apply not_true_iff_false. rewrite andb_true_iff, !Nat.leb_le. intros [Ha Hb].
    edestruct (majorities_intersect members) as (x & Hx1 & Hx2); [..|exact Ha|exact Hb|].
    + intros n Hn. apply H1 in Hn. set_solver.
    + intros n Hn. apply H2 in Hn. set_solver.
    + apply H1 in Hx1. apply H2 in Hx2. set_solver.
Qed.
