(* ===== verification/NodeState.v ===== *)
(** The state of one group on one node, as the class [Instance]
    ([paxos/instance.h]) and the objects it owns or reaches through [Config]
    hold it, and the message primitives of [network/messager.cc].

    A handler of the code is a function [node -> node].  What a handler hands to
    another thread, to the network, to the state machines or to the caller is
    appended to [out_], in order.  User code and the parts of the program with
    their own file system or threads are interfaces: [MachineManager] (what
    [Instance] needs of [machine/machine_manager.h]) and [CheckpointManager]
    ([log/checkpoint_manager.h]). *)

From S2P Require Import Prelude Ballot Proto Storage Random TimerList Counter.

(** * Interfaces *)

(** [MachineManager::Execute] may change the membership, the master and the
    user machines, whatever their state is.  [FinishMakeCheckpoint] is the function the
    manager queues into the io loop when a machine has made its checkpoint. *)
Class MachineManager := {
  mm : Type;
  mm_GetMembership : mm -> Membership;
  mm_Execute : Z (* now *) -> Z (* group *) -> Z (* instance *) -> PaxosValue ->
               Z (* context *) -> mm -> mm * bool;
  mm_GetLatestCheckpointInstanceId : mm -> Z;
  mm_GetOldestCheckpointInstanceId : mm -> Z;
  mm_FinishMakeCheckpoint : Z (* machine *) -> Z (* instance *) -> bool -> mm -> mm;
}.

(** [CheckpointManager::ReceiveCheckpoint]: the result, the messages it sends;
    [None] is the [_exit(2)] after a checkpoint has been installed. *)
Class CheckpointManager := {
  ckpt : Type;
  ckpt_ReceiveCheckpoint : CheckpointMessage -> ckpt -> option (ckpt * bool * list (Z * Content));
}.

(** The user's [Cluster] ([include/skywalker/cluster.h]). *)
Record Cluster := mkCluster {
  GetNewestMembership : Z -> list (Z * Member);
  GetFollowers : Z -> list (Z * Member);
}.

(** * Configuration *)

Record Config := mkConfig {
  cf_node_id : Z;
  cf_group_id : Z;
  cf_propose_timeout : Z;
  cf_log_sync : bool;
  cf_sync_interval : Z;
  cf_keep_log_count : Z;
  cf_cluster : option Cluster;
}.

(** * Closures *)

(** The callbacks a group puts into the timers of its io loop: the retry timer
    captures the instance id it was armed for. *)
Inductive TimerCb :=
| RetryTimer (id : Z)
| LearnTimer
| ProposeTimer.

(** The functions it queues into its learn loop. *)
Inductive LearnTask :=
| TaskSendMessage (node_id : Z) (content : Content)
| TaskASyncSend (node_id from to : Z)
| TaskSendCheckpoint (node_id : Z).

(** * Effects *)

Inductive Output :=
| OSend (dest : Z) (content : Content)
| OBroadcast (dests : list Z) (content : Content)
| OProposeComplete (instance_id : Z) (s : Status) (context : Z)
| OExecute (instance_id : Z) (v : PaxosValue) (result : bool)
| OSendCheckpoint (node_id : Z)
| OExit
| OAssertFail (expr : string).

(** * Components *)

Record Acceptor := mkAcceptor {
  acc_instance_id : Z;
  log_sync_count : Z;
  promised_ballot : BallotNumber;
  accepted_ballot : BallotNumber;
  accepted_value : PaxosValue;
}.

#[export] Instance set_acc_instance_id : Setter acc_instance_id := fun f r =>
  mkAcceptor (f (acc_instance_id r)) (log_sync_count r) (promised_ballot r)
    (accepted_ballot r) (accepted_value r).
#[export] Instance set_log_sync_count : Setter log_sync_count := fun f r =>
  mkAcceptor (acc_instance_id r) (f (log_sync_count r)) (promised_ballot r)
    (accepted_ballot r) (accepted_value r).
#[export] Instance set_promised_ballot : Setter promised_ballot := fun f r =>
  mkAcceptor (acc_instance_id r) (log_sync_count r) (f (promised_ballot r))
    (accepted_ballot r) (accepted_value r).
#[export] Instance set_accepted_ballot : Setter accepted_ballot := fun f r =>
  mkAcceptor (acc_instance_id r) (log_sync_count r) (promised_ballot r)
    (f (accepted_ballot r)) (accepted_value r).
#[export] Instance set_accepted_value : Setter accepted_value := fun f r =>
  mkAcceptor (acc_instance_id r) (log_sync_count r) (promised_ballot r) (accepted_ballot r)
    (f (accepted_value r)).

Record Proposer := mkProposer {
  counter_ : Counter;
  prop_instance_id : Z;
  proposal_id : Z;
  max_proposal_id : Z;
  max_ballot : BallotNumber;
  prop_value : PaxosValue;
  preparing : bool;
  accepting : bool;
  skip_prepare : bool;
  was_rejected_by_someone : bool;
  retry_timer : TimerId;
  prop_rand : Z;
}.

#[export] Instance set_counter : Setter counter_ := fun f r =>
  mkProposer (f (counter_ r)) (prop_instance_id r) (proposal_id r) (max_proposal_id r)
    (max_ballot r) (prop_value r) (preparing r) (accepting r) (skip_prepare r)
    (was_rejected_by_someone r) (retry_timer r) (prop_rand r).
#[export] Instance set_prop_instance_id : Setter prop_instance_id := fun f r =>
  mkProposer (counter_ r) (f (prop_instance_id r)) (proposal_id r) (max_proposal_id r)
    (max_ballot r) (prop_value r) (preparing r) (accepting r) (skip_prepare r)
    (was_rejected_by_someone r) (retry_timer r) (prop_rand r).
#[export] Instance set_proposal_id : Setter proposal_id := fun f r =>
  mkProposer (counter_ r) (prop_instance_id r) (f (proposal_id r)) (max_proposal_id r)
    (max_ballot r) (prop_value r) (preparing r) (accepting r) (skip_prepare r)
    (was_rejected_by_someone r) (retry_timer r) (prop_rand r).
#[export] Instance set_max_proposal_id : Setter max_proposal_id := fun f r =>
  mkProposer (counter_ r) (prop_instance_id r) (proposal_id r) (f (max_proposal_id r))
    (max_ballot r) (prop_value r) (preparing r) (accepting r) (skip_prepare r)
    (was_rejected_by_someone r) (retry_timer r) (prop_rand r).
#[export] Instance set_max_ballot : Setter max_ballot := fun f r =>
  mkProposer (counter_ r) (prop_instance_id r) (proposal_id r) (max_proposal_id r)
    (f (max_ballot r)) (prop_value r) (preparing r) (accepting r) (skip_prepare r)
    (was_rejected_by_someone r) (retry_timer r) (prop_rand r).
#[export] Instance set_prop_value : Setter prop_value := fun f r =>
  mkProposer (counter_ r) (prop_instance_id r) (proposal_id r) (max_proposal_id r)
    (max_ballot r) (f (prop_value r)) (preparing r) (accepting r) (skip_prepare r)
    (was_rejected_by_someone r) (retry_timer r) (prop_rand r).
#[export] Instance set_preparing : Setter preparing := fun f r =>
  mkProposer (counter_ r) (prop_instance_id r) (proposal_id r) (max_proposal_id r)
    (max_ballot r) (prop_value r) (f (preparing r)) (accepting r) (skip_prepare r)
    (was_rejected_by_someone r) (retry_timer r) (prop_rand r).
#[export] Instance set_accepting : Setter accepting := fun f r =>
  mkProposer (counter_ r) (prop_instance_id r) (proposal_id r) (max_proposal_id r)
    (max_ballot r) (prop_value r) (preparing r) (f (accepting r)) (skip_prepare r)
    (was_rejected_by_someone r) (retry_timer r) (prop_rand r).
#[export] Instance set_skip_prepare : Setter skip_prepare := fun f r =>
  mkProposer (counter_ r) (prop_instance_id r) (proposal_id r) (max_proposal_id r)
    (max_ballot r) (prop_value r) (preparing r) (accepting r) (f (skip_prepare r))
    (was_rejected_by_someone r) (retry_timer r) (prop_rand r).
#[export] Instance set_was_rejected_by_someone : Setter was_rejected_by_someone := fun f r =>
  mkProposer (counter_ r) (prop_instance_id r) (proposal_id r) (max_proposal_id r)
    (max_ballot r) (prop_value r) (preparing r) (accepting r) (skip_prepare r)
    (f (was_rejected_by_someone r)) (retry_timer r) (prop_rand r).
#[export] Instance set_retry_timer : Setter retry_timer := fun f r =>
  mkProposer (counter_ r) (prop_instance_id r) (proposal_id r) (max_proposal_id r)
    (max_ballot r) (prop_value r) (preparing r) (accepting r) (skip_prepare r)
    (was_rejected_by_someone r) (f (retry_timer r)) (prop_rand r).
#[export] Instance set_prop_rand : Setter prop_rand := fun f r =>
  mkProposer (counter_ r) (prop_instance_id r) (proposal_id r) (max_proposal_id r)
    (max_ballot r) (prop_value r) (preparing r) (accepting r) (skip_prepare r)
    (was_rejected_by_someone r) (retry_timer r) (f (prop_rand r)).

Record Learner := mkLearner {
  lrn_instance_id : Z;
  learn_timer : TimerId;
  lrn_rand : Z;
  is_learning : bool;
  has_learned : bool;
  learned_value : PaxosValue;
  is_receiving_checkpoint : bool;
}.

#[export] Instance set_lrn_instance_id : Setter lrn_instance_id := fun f r =>
  mkLearner (f (lrn_instance_id r)) (learn_timer r) (lrn_rand r) (is_learning r)
    (has_learned r) (learned_value r) (is_receiving_checkpoint r).
#[export] Instance set_learn_timer : Setter learn_timer := fun f r =>
  mkLearner (lrn_instance_id r) (f (learn_timer r)) (lrn_rand r) (is_learning r)
    (has_learned r) (learned_value r) (is_receiving_checkpoint r).
#[export] Instance set_lrn_rand : Setter lrn_rand := fun f r =>
  mkLearner (lrn_instance_id r) (learn_timer r) (f (lrn_rand r)) (is_learning r)
    (has_learned r) (learned_value r) (is_receiving_checkpoint r).
#[export] Instance set_is_learning : Setter is_learning := fun f r =>
  mkLearner (lrn_instance_id r) (learn_timer r) (lrn_rand r) (f (is_learning r))
    (has_learned r) (learned_value r) (is_receiving_checkpoint r).
#[export] Instance set_has_learned : Setter has_learned := fun f r =>
  mkLearner (lrn_instance_id r) (learn_timer r) (lrn_rand r) (is_learning r)
    (f (has_learned r)) (learned_value r) (is_receiving_checkpoint r).
#[export] Instance set_learned_value : Setter learned_value := fun f r =>
  mkLearner (lrn_instance_id r) (learn_timer r) (lrn_rand r) (is_learning r) (has_learned r)
    (f (learned_value r)) (is_receiving_checkpoint r).
#[export] Instance set_is_receiving_checkpoint : Setter is_receiving_checkpoint := fun f r =>
  mkLearner (lrn_instance_id r) (learn_timer r) (lrn_rand r) (is_learning r) (has_learned r)
    (learned_value r) (f (is_receiving_checkpoint r)).

Section Node.
Context {LD : LevelDB} {MM : MachineManager} {CM : CheckpointManager}.

Record node := mkNode {
  config_ : Config;
  now_ : Z;                          (* the last clock reading *)
  db_ : ldb;
  mm_ : mm;
  ckpt_ : ckpt;
  min_chosen_id : Z;                 (* LogManager *)
  max_chosen_id : Z;
  acceptor_ : Acceptor;
  learner_ : Learner;
  proposer_ : Proposer;
  instance_id_ : Z;                  (* Instance *)
  is_proposing : bool;
  context_ : Z;
  propose_value : PaxosValue;
  propose_timer : TimerId;
  seq_num : Z;
  io_timers : TimerList TimerCb;     (* io loop *)
  learn_queue : list LearnTask;      (* learn loop *)
  is_sending_checkpoint : bool;
  gc_started : bool;                 (* LogCleaner *)
  gc_timer : TimerId;
  clean_timers : TimerList unit;     (* clean loop *)
  out_ : list Output;
}.

#[global] Instance set_config : Setter config_ := fun f r =>
  mkNode (f (config_ r)) (now_ r) (db_ r) (mm_ r) (ckpt_ r) (min_chosen_id r)
    (max_chosen_id r) (acceptor_ r) (learner_ r) (proposer_ r) (instance_id_ r)
    (is_proposing r) (context_ r) (propose_value r) (propose_timer r) (seq_num r)
    (io_timers r) (learn_queue r) (is_sending_checkpoint r) (gc_started r) (gc_timer r)
    (clean_timers r) (out_ r).
#[global] Instance set_now : Setter now_ := fun f r =>
  mkNode (config_ r) (f (now_ r)) (db_ r) (mm_ r) (ckpt_ r) (min_chosen_id r)
    (max_chosen_id r) (acceptor_ r) (learner_ r) (proposer_ r) (instance_id_ r)
    (is_proposing r) (context_ r) (propose_value r) (propose_timer r) (seq_num r)
    (io_timers r) (learn_queue r) (is_sending_checkpoint r) (gc_started r) (gc_timer r)
    (clean_timers r) (out_ r).
#[global] Instance set_db : Setter db_ := fun f r =>
  mkNode (config_ r) (now_ r) (f (db_ r)) (mm_ r) (ckpt_ r) (min_chosen_id r)
    (max_chosen_id r) (acceptor_ r) (learner_ r) (proposer_ r) (instance_id_ r)
    (is_proposing r) (context_ r) (propose_value r) (propose_timer r) (seq_num r)
    (io_timers r) (learn_queue r) (is_sending_checkpoint r) (gc_started r) (gc_timer r)
    (clean_timers r) (out_ r).
#[global] Instance set_mm : Setter mm_ := fun f r =>
  mkNode (config_ r) (now_ r) (db_ r) (f (mm_ r)) (ckpt_ r) (min_chosen_id r)
    (max_chosen_id r) (acceptor_ r) (learner_ r) (proposer_ r) (instance_id_ r)
    (is_proposing r) (context_ r) (propose_value r) (propose_timer r) (seq_num r)
    (io_timers r) (learn_queue r) (is_sending_checkpoint r) (gc_started r) (gc_timer r)
    (clean_timers r) (out_ r).
#[global] Instance set_ckpt : Setter ckpt_ := fun f r =>
  mkNode (config_ r) (now_ r) (db_ r) (mm_ r) (f (ckpt_ r)) (min_chosen_id r)
    (max_chosen_id r) (acceptor_ r) (learner_ r) (proposer_ r) (instance_id_ r)
    (is_proposing r) (context_ r) (propose_value r) (propose_timer r) (seq_num r)
    (io_timers r) (learn_queue r) (is_sending_checkpoint r) (gc_started r) (gc_timer r)
    (clean_timers r) (out_ r).
#[global] Instance set_min_chosen_id : Setter min_chosen_id := fun f r =>
  mkNode (config_ r) (now_ r) (db_ r) (mm_ r) (ckpt_ r) (f (min_chosen_id r))
    (max_chosen_id r) (acceptor_ r) (learner_ r) (proposer_ r) (instance_id_ r)
    (is_proposing r) (context_ r) (propose_value r) (propose_timer r) (seq_num r)
    (io_timers r) (learn_queue r) (is_sending_checkpoint r) (gc_started r) (gc_timer r)
    (clean_timers r) (out_ r).
#[global] Instance set_max_chosen_id : Setter max_chosen_id := fun f r =>
  mkNode (config_ r) (now_ r) (db_ r) (mm_ r) (ckpt_ r) (min_chosen_id r)
    (f (max_chosen_id r)) (acceptor_ r) (learner_ r) (proposer_ r) (instance_id_ r)
    (is_proposing r) (context_ r) (propose_value r) (propose_timer r) (seq_num r)
    (io_timers r) (learn_queue r) (is_sending_checkpoint r) (gc_started r) (gc_timer r)
    (clean_timers r) (out_ r).
#[global] Instance set_acceptor : Setter acceptor_ := fun f r =>
  mkNode (config_ r) (now_ r) (db_ r) (mm_ r) (ckpt_ r) (min_chosen_id r) (max_chosen_id r)
    (f (acceptor_ r)) (learner_ r) (proposer_ r) (instance_id_ r) (is_proposing r)
    (context_ r) (propose_value r) (propose_timer r) (seq_num r) (io_timers r)
    (learn_queue r) (is_sending_checkpoint r) (gc_started r) (gc_timer r) (clean_timers r)
    (out_ r).
#[global] Instance set_learner : Setter learner_ := fun f r =>
  mkNode (config_ r) (now_ r) (db_ r) (mm_ r) (ckpt_ r) (min_chosen_id r) (max_chosen_id r)
    (acceptor_ r) (f (learner_ r)) (proposer_ r) (instance_id_ r) (is_proposing r)
    (context_ r) (propose_value r) (propose_timer r) (seq_num r) (io_timers r)
    (learn_queue r) (is_sending_checkpoint r) (gc_started r) (gc_timer r) (clean_timers r)
    (out_ r).
#[global] Instance set_proposer : Setter proposer_ := fun f r =>
  mkNode (config_ r) (now_ r) (db_ r) (mm_ r) (ckpt_ r) (min_chosen_id r) (max_chosen_id r)
    (acceptor_ r) (learner_ r) (f (proposer_ r)) (instance_id_ r) (is_proposing r)
    (context_ r) (propose_value r) (propose_timer r) (seq_num r) (io_timers r)
    (learn_queue r) (is_sending_checkpoint r) (gc_started r) (gc_timer r) (clean_timers r)
    (out_ r).
#[global] Instance set_instance_id : Setter instance_id_ := fun f r =>
  mkNode (config_ r) (now_ r) (db_ r) (mm_ r) (ckpt_ r) (min_chosen_id r) (max_chosen_id r)
    (acceptor_ r) (learner_ r) (proposer_ r) (f (instance_id_ r)) (is_proposing r)
    (context_ r) (propose_value r) (propose_timer r) (seq_num r) (io_timers r)
    (learn_queue r) (is_sending_checkpoint r) (gc_started r) (gc_timer r) (clean_timers r)
    (out_ r).
#[global] Instance set_is_proposing : Setter is_proposing := fun f r =>
  mkNode (config_ r) (now_ r) (db_ r) (mm_ r) (ckpt_ r) (min_chosen_id r) (max_chosen_id r)
    (acceptor_ r) (learner_ r) (proposer_ r) (instance_id_ r) (f (is_proposing r))
    (context_ r) (propose_value r) (propose_timer r) (seq_num r) (io_timers r)
    (learn_queue r) (is_sending_checkpoint r) (gc_started r) (gc_timer r) (clean_timers r)
    (out_ r).
#[global] Instance set_context : Setter context_ := fun f r =>
  mkNode (config_ r) (now_ r) (db_ r) (mm_ r) (ckpt_ r) (min_chosen_id r) (max_chosen_id r)
    (acceptor_ r) (learner_ r) (proposer_ r) (instance_id_ r) (is_proposing r)
    (f (context_ r)) (propose_value r) (propose_timer r) (seq_num r) (io_timers r)
    (learn_queue r) (is_sending_checkpoint r) (gc_started r) (gc_timer r) (clean_timers r)
    (out_ r).
#[global] Instance set_propose_value : Setter propose_value := fun f r =>
  mkNode (config_ r) (now_ r) (db_ r) (mm_ r) (ckpt_ r) (min_chosen_id r) (max_chosen_id r)
    (acceptor_ r) (learner_ r) (proposer_ r) (instance_id_ r) (is_proposing r) (context_ r)
    (f (propose_value r)) (propose_timer r) (seq_num r) (io_timers r) (learn_queue r)
    (is_sending_checkpoint r) (gc_started r) (gc_timer r) (clean_timers r) (out_ r).
#[global] Instance set_propose_timer : Setter propose_timer := fun f r =>
  mkNode (config_ r) (now_ r) (db_ r) (mm_ r) (ckpt_ r) (min_chosen_id r) (max_chosen_id r)
    (acceptor_ r) (learner_ r) (proposer_ r) (instance_id_ r) (is_proposing r) (context_ r)
    (propose_value r) (f (propose_timer r)) (seq_num r) (io_timers r) (learn_queue r)
    (is_sending_checkpoint r) (gc_started r) (gc_timer r) (clean_timers r) (out_ r).
#[global] Instance set_seq_num : Setter seq_num := fun f r =>
  mkNode (config_ r) (now_ r) (db_ r) (mm_ r) (ckpt_ r) (min_chosen_id r) (max_chosen_id r)
    (acceptor_ r) (learner_ r) (proposer_ r) (instance_id_ r) (is_proposing r) (context_ r)
    (propose_value r) (propose_timer r) (f (seq_num r)) (io_timers r) (learn_queue r)
    (is_sending_checkpoint r) (gc_started r) (gc_timer r) (clean_timers r) (out_ r).
#[global] Instance set_io_timers : Setter io_timers := fun f r =>
  mkNode (config_ r) (now_ r) (db_ r) (mm_ r) (ckpt_ r) (min_chosen_id r) (max_chosen_id r)
    (acceptor_ r) (learner_ r) (proposer_ r) (instance_id_ r) (is_proposing r) (context_ r)
    (propose_value r) (propose_timer r) (seq_num r) (f (io_timers r)) (learn_queue r)
    (is_sending_checkpoint r) (gc_started r) (gc_timer r) (clean_timers r) (out_ r).
#[global] Instance set_learn_queue : Setter learn_queue := fun f r =>
  mkNode (config_ r) (now_ r) (db_ r) (mm_ r) (ckpt_ r) (min_chosen_id r) (max_chosen_id r)
    (acceptor_ r) (learner_ r) (proposer_ r) (instance_id_ r) (is_proposing r) (context_ r)
    (propose_value r) (propose_timer r) (seq_num r) (io_timers r) (f (learn_queue r))
    (is_sending_checkpoint r) (gc_started r) (gc_timer r) (clean_timers r) (out_ r).
#[global] Instance set_is_sending_checkpoint : Setter is_sending_checkpoint := fun f r =>
  mkNode (config_ r) (now_ r) (db_ r) (mm_ r) (ckpt_ r) (min_chosen_id r) (max_chosen_id r)
    (acceptor_ r) (learner_ r) (proposer_ r) (instance_id_ r) (is_proposing r) (context_ r)
    (propose_value r) (propose_timer r) (seq_num r) (io_timers r) (learn_queue r)
    (f (is_sending_checkpoint r)) (gc_started r) (gc_timer r) (clean_timers r) (out_ r).
#[global] Instance set_gc_started : Setter gc_started := fun f r =>
  mkNode (config_ r) (now_ r) (db_ r) (mm_ r) (ckpt_ r) (min_chosen_id r) (max_chosen_id r)
    (acceptor_ r) (learner_ r) (proposer_ r) (instance_id_ r) (is_proposing r) (context_ r)
    (propose_value r) (propose_timer r) (seq_num r) (io_timers r) (learn_queue r)
    (is_sending_checkpoint r) (f (gc_started r)) (gc_timer r) (clean_timers r) (out_ r).
#[global] Instance set_gc_timer : Setter gc_timer := fun f r =>
  mkNode (config_ r) (now_ r) (db_ r) (mm_ r) (ckpt_ r) (min_chosen_id r) (max_chosen_id r)
    (acceptor_ r) (learner_ r) (proposer_ r) (instance_id_ r) (is_proposing r) (context_ r)
    (propose_value r) (propose_timer r) (seq_num r) (io_timers r) (learn_queue r)
    (is_sending_checkpoint r) (gc_started r) (f (gc_timer r)) (clean_timers r) (out_ r).
#[global] Instance set_clean_timers : Setter clean_timers := fun f r =>
  mkNode (config_ r) (now_ r) (db_ r) (mm_ r) (ckpt_ r) (min_chosen_id r) (max_chosen_id r)
    (acceptor_ r) (learner_ r) (proposer_ r) (instance_id_ r) (is_proposing r) (context_ r)
    (propose_value r) (propose_timer r) (seq_num r) (io_timers r) (learn_queue r)
    (is_sending_checkpoint r) (gc_started r) (gc_timer r) (f (clean_timers r)) (out_ r).
#[global] Instance set_out : Setter out_ := fun f r =>
  mkNode (config_ r) (now_ r) (db_ r) (mm_ r) (ckpt_ r) (min_chosen_id r) (max_chosen_id r)
    (acceptor_ r) (learner_ r) (proposer_ r) (instance_id_ r) (is_proposing r) (context_ r)
    (propose_value r) (propose_timer r) (seq_num r) (io_timers r) (learn_queue r)
    (is_sending_checkpoint r) (gc_started r) (gc_timer r) (clean_timers r) (f (out_ r)).

(** * Helpers of [Config] *)

Definition emit (o : Output) (n : node) : node := n <| out_ ::= (fun l => l ++ [o]) |>.

(** [assert(b)]: a failed assertion is recorded. *)
Definition assert_ (b : bool) (expr : string) (n : node) : node :=
  if b then n else emit (OAssertFail expr) n.

Definition GetMembership (n : node) : gmap Z MemberMessage :=
  ms_members (mm_GetMembership (mm_ n)).

Definition GetNodeSize (n : node) : nat := size (GetMembership n).
Definition GetMajoritySize (n : node) : nat := size (GetMembership n) `div` 2 + 1.

Definition IsValidNodeId (node_id : Z) (n : node) : bool :=
  bool_decide (is_Some (GetMembership n !! node_id)).

(** * [Messager] *)

(** [Network::SendMessage(m, content)] skips the sending node. *)
Definition others (n : node) (ids : list Z) : list Z :=
  filter (fun i => i <> cf_node_id (config_ n)) ids.

Definition SendMessage (node_id : Z) (content : Content) (n : node) : node :=
  let n := assert_ (negb (node_id =? 0)) "node_id != 0" n in
  let n := assert_ (negb (node_id =? cf_node_id (config_ n))) "node_id != GetNodeId()" n in
  emit (OSend node_id content) n.

Definition BroadcastMessage (content : Content) (n : node) : node :=
  let temp := (map_to_list (GetMembership n)).*1 in
  match temp with
  | [] => n
  | _ => emit (OBroadcast (others n temp) content) n
  end.

Definition BroadcastMessageForLearn (content : Content) (n : node) : node :=
  match cf_cluster (config_ n) with
  | Some c =>
      let temp := remove_dups ((fun it => m_id it.2) <$> GetNewestMembership c (cf_group_id (config_ n))) in
      match temp with
      | [] => n
      | _ => emit (OBroadcast (others n temp) content) n
      end
  | None => BroadcastMessage content n
  end.

Definition BroadcastMessageToFollower (content : Content) (n : node) : node :=
  match cf_cluster (config_ n) with
  | Some c =>
      let temp := remove_dups ((fun it => m_id it.2) <$> GetFollowers c (cf_group_id (config_ n))) in
      match temp with
      | [] => n
      | _ => emit (OBroadcast (others n temp) content) n
      end
  | None => n
  end.

(** The header fields every handler sets on the messages it sends. *)
Definition new_message (type : PaxosMessageType) (n : node) : PaxosMessage :=
  PaxosMessage_default <| pm_type := type |> <| pm_node_id := cf_node_id (config_ n) |>.

Definition content_of (n : node) (m : PaxosMessage) : Content :=
  paxos_content (cf_group_id (config_ n)) m.

(** [MachineManager::Execute], whose calls are recorded. *)
Definition Execute (instance_id : Z) (value : PaxosValue) (context : Z) (n : node) : node * bool :=
  let '(m, result) :=
    mm_Execute (now_ n) (cf_group_id (config_ n)) instance_id value context (mm_ n) in
  (emit (OExecute instance_id value result) (n <| mm_ := m |>), result).

(** * The io loop *)

Section IOLoop.
Context {AL : Allocator}.

Definition io_RunAfter (delay : Z) (cb : TimerCb) (n : node) : node * TimerId :=
  let '(tl, id) := RunAfter (now_ n) delay cb (io_timers n) in
  (n <| io_timers := tl |>, id).

Definition io_Remove (id : TimerId) (n : node) : node :=
  n <| io_timers ::= Remove id |>.

End IOLoop.

Definition learn_QueueInLoop (t : LearnTask) (n : node) : node :=
  n <| learn_queue ::= (fun q => q ++ [t]) |>.

End Node.
