(* ===== verification/AcceptorModel.v ===== *)
(** Model of [paxos/acceptor.cc].  [on_paxos_message] is the call
    [instance_->OnPaxosMessage]. *)

From S2P Require Import Prelude Ballot Proto Storage NodeState.

Section Acceptor.
Context {FC : FixedCoding} {LD : LevelDB} {MM : MachineManager} {CM : CheckpointManager}.
Context {PI : ProtoCodec PaxosInstance}.

(** * Durable state *)

(** The record [WriteToDB] serializes. *)
Definition acceptor_record (a : Acceptor) : PaxosInstance :=
  mkPaxosInstance (acc_instance_id a)
    (GetProposalId (promised_ballot a)) (GetNodeId (promised_ballot a))
    (GetProposalId (accepted_ballot a)) (GetNodeId (accepted_ballot a))
    (accepted_value a).

(** The [sync] option of the write and the new [log_sync_count_]. *)
Definition log_sync_step (log_sync : bool) (interval count : Z) : bool * Z :=
  if log_sync then
    let count := wrap32 (count + 1) in
    if interval <? count then (true, 0) else (false, count)
  else (false, count).

Definition Acceptor_WriteToDB (n : node) : node * bool :=
  let a := acceptor_ n in
  let '(sync, count) :=
    log_sync_step (cf_log_sync (config_ n)) (cf_sync_interval (config_ n)) (log_sync_count a) in
  let n := n <| acceptor_ := a <| log_sync_count := count |> |> in
  let '(db, ret) := DB_Put sync (acc_instance_id a) (SerializeAsString (acceptor_record a)) (db_ n) in
  (n <| db_ := db |>, ret =? 0).

Definition Acceptor_ReadFromDB (n : node) : node * bool :=
  let a := acceptor_ n in
  let '(res, id) := DB_GetMaxInstanceId (acc_instance_id a) (db_ n) in
  let a := a <| acc_instance_id := id |> in
  let n := n <| acceptor_ := a |> in
  if res =? 1 then (n, true)
  else if res =? -1 then (n, false)
  else
    let '(res, s) := DB_Get id (db_ n) in
    if negb (res =? 0) then (n, false)
    else
      let temp := (ParseFromString s).2 in
      (n <| acceptor_ := a
              <| promised_ballot := Ballot (pi_promised_id temp) (pi_promised_node_id temp) |>
              <| accepted_ballot := Ballot (pi_accepted_id temp) (pi_accepted_node_id temp) |>
              <| accepted_value := pi_accepted_value temp |> |>, true).

(** The second component is [*instance_id] when the call succeeds. *)
Definition Acceptor_Recover (n : node) : node * option Z :=
  let '(n, ok) := Acceptor_ReadFromDB n in
  (n, if ok then Some (acc_instance_id (acceptor_ n)) else None).

(** * Instances *)

Definition Acceptor_SetInstanceId (id : Z) (n : node) : node :=
  let a := acceptor_ n in
  if negb (acc_instance_id a =? id) then
    n <| acceptor_ := a <| acc_instance_id := id |>
                        <| accepted_ballot ::= Ballot_Reset |>
                        <| accepted_value := PaxosValue_default |> |>
  else n.

Definition Acceptor_NextInstance (n : node) : node :=
  Acceptor_SetInstanceId (acc_instance_id (acceptor_ n) +64 1) n.

(** * Messages *)

Section Handlers.
Variable on_paxos_message : PaxosMessage -> node -> node.

(** The tail of both handlers: the proposer of this node is called directly,
    another node is sent the reply. *)
Definition reply_to (dest : Z) (reply : PaxosMessage) (n : node) : node :=
  if dest =? cf_node_id (config_ n) then on_paxos_message reply n
  else SendMessage dest (content_of n reply) n.

Definition Acceptor_NewChosenValue (msg : PaxosMessage) (n : node) : node :=
  on_paxos_message
    (PaxosMessage_default <| pm_type := NEW_CHOSEN_VALUE |>
       <| pm_node_id := pm_node_id msg |>
       <| pm_instance_id := acc_instance_id (acceptor_ n) |>
       <| pm_proposal_id := pm_proposal_id msg |>) n.

Definition OnPrepare (msg : PaxosMessage) (n : node) : node :=
  let a := acceptor_ n in
  if pm_instance_id msg =? acc_instance_id a then
    let reply := new_message PREPARE_REPLY n
                   <| pm_instance_id := pm_instance_id msg |>
                   <| pm_proposal_id := pm_proposal_id msg |> in
    let b := Ballot (pm_proposal_id msg) (pm_node_id msg) in
    if ballot_geb b (promised_ballot a) then
      let n := n <| acceptor_ := a <| promised_ballot := b |> |> in
      let reply :=
        if 0 <? GetProposalId (accepted_ballot a) then
          reply <| pm_pre_accepted_id := GetProposalId (accepted_ballot a) |>
                <| pm_pre_accepted_node_id := GetNodeId (accepted_ballot a) |>
                <| pm_value := accepted_value a |>
        else reply in
      let n := (Acceptor_WriteToDB n).1 in
      reply_to (pm_node_id msg) reply n
    else
      reply_to (pm_node_id msg)
        (reply <| pm_rejected_id := GetProposalId (promised_ballot a) |>) n
  else if pm_instance_id msg =? acc_instance_id a +64 1 then
    Acceptor_NewChosenValue msg n
  else n.

Definition OnAccpet (msg : PaxosMessage) (n : node) : node :=
  let a := acceptor_ n in
  if pm_instance_id msg =? acc_instance_id a then
    let reply := new_message ACCEPT_REPLY n
                   <| pm_instance_id := pm_instance_id msg |>
                   <| pm_proposal_id := pm_proposal_id msg |> in
    let b := Ballot (pm_proposal_id msg) (pm_node_id msg) in
    if ballot_geb b (promised_ballot a) then
      let n := n <| acceptor_ := a <| promised_ballot := b |>
                                   <| accepted_ballot := b |>
                                   <| accepted_value := pm_value msg |> |> in
      let n := (Acceptor_WriteToDB n).1 in
      reply_to (pm_node_id msg) reply n
    else
      reply_to (pm_node_id msg)
        (reply <| pm_rejected_id := GetProposalId (promised_ballot a) |>) n
  else if pm_instance_id msg =? acc_instance_id a +64 1 then
    Acceptor_NewChosenValue msg n
  else n.

End Handlers.
End Acceptor.
