(* ===== verification/ProposerModel.v ===== *)
(** Model of [paxos/proposer.cc]. *)

From S2P Require Import Prelude Ballot Proto Storage Random TimerList Counter NodeState.

Section Proposer.
Context {LD : LevelDB} {MM : MachineManager} {CM : CheckpointManager} {AL : Allocator}.

(** * Timers *)

(** [AddRetryTimer]: the closure captures the current instance id. *)
Definition AddRetryTimer (timeout : Z) (n : node) : node :=
  let '(n, id) := io_RunAfter timeout (RetryTimer (prop_instance_id (proposer_ n))) n in
  n <| proposer_ ::= (fun p => p <| retry_timer := id |>) |>.

Definition retry_timeout : Z := 200000.

Definition RemoveRetryTimer (n : node) : node := io_Remove (retry_timer (proposer_ n)) n.

(** [AddRetryTimer(rand_.Uniform(15) + 15)]. *)
Definition AddJitteredRetryTimer (n : node) : node :=
  let '(r, seed) := Random_Uniform 15 (prop_rand (proposer_ n)) in
  AddRetryTimer (r + 15) (n <| proposer_ ::= (fun p => p <| prop_rand := seed |>) |>).

Definition QuitPropose (n : node) : node :=
  RemoveRetryTimer
    (n <| proposer_ ::= (fun p => p <| preparing := false |> <| accepting := false |>) |>).

(** * Instances *)

Definition Proposer_NextInstance (n : node) : node :=
  n <| proposer_ ::= (fun p => p <| prop_instance_id ::= (fun i => i +64 1) |>) |>.

Definition SetStartProposalId (id : Z) (n : node) : node :=
  n <| proposer_ ::= (fun p => p <| proposal_id := id |>) |>.

Definition SetNoSkipPrepare (n : node) : node :=
  n <| proposer_ ::= (fun p => p <| skip_prepare := false |>) |>.

Definition Proposer_SetInstanceId (id : Z) (n : node) : node :=
  n <| proposer_ ::= (fun p => p <| prop_instance_id := id |>) |>.

(** * Rounds *)

Definition SetMaxProposalId (msg : PaxosMessage) (n : node) : node :=
  n <| proposer_ ::= (fun p =>
         let p := if proposal_id p <=? pm_rejected_id msg
                  then p <| was_rejected_by_someone := true |> else p in
         if max_proposal_id p <? pm_rejected_id msg
         then p <| max_proposal_id := pm_rejected_id msg |> else p) |>.

Section Handlers.
Variable on_paxos_message : PaxosMessage -> node -> node.

(** The assignments at the head of [Prepare]. *)
Definition prepare_reset (need_new_proposal_id : bool) (p : Proposer) : Proposer :=
  let p := p <| preparing := true |> <| accepting := false |> <| skip_prepare := false |>
             <| was_rejected_by_someone := false |> <| max_ballot ::= Ballot_Reset |> in
  if need_new_proposal_id then
    let p := if proposal_id p <? max_proposal_id p
             then p <| proposal_id := max_proposal_id p |> else p in
    p <| proposal_id ::= (fun i => i +64 1) |>
  else p.

Definition Prepare (need_new_proposal_id : bool) (n : node) : node :=
  let n := n <| proposer_ ::= prepare_reset need_new_proposal_id |> in
  let msg := new_message PREPARE n
               <| pm_instance_id := prop_instance_id (proposer_ n) |>
               <| pm_proposal_id := proposal_id (proposer_ n) |> in
  let n := n <| proposer_ ::= (fun p => p <| counter_ ::= StartNewRound |>) |> in
  let n := AddRetryTimer retry_timeout n in
  let n := BroadcastMessage (content_of n msg) n in
  on_paxos_message msg n.

Definition Accept (n : node) : node :=
  let n := n <| proposer_ ::= (fun p => p <| preparing := false |> <| accepting := true |>) |> in
  let msg := new_message ACCEPT n
               <| pm_instance_id := prop_instance_id (proposer_ n) |>
               <| pm_proposal_id := proposal_id (proposer_ n) |>
               <| pm_value := prop_value (proposer_ n) |> in
  let n := n <| proposer_ ::= (fun p => p <| counter_ ::= StartNewRound |>) |> in
  let n := AddRetryTimer retry_timeout n in
  let n := BroadcastMessage (content_of n msg) n in
  on_paxos_message msg n.

Definition Proposer_NewChosenValue (n : node) : node :=
  let msg := new_message NEW_CHOSEN_VALUE n
               <| pm_instance_id := prop_instance_id (proposer_ n) |>
               <| pm_proposal_id := proposal_id (proposer_ n) |> in
  let n := BroadcastMessage (content_of n msg) n in
  on_paxos_message msg n.

Definition NewPropose (value : PaxosValue) (n : node) : node :=
  let n := n <| proposer_ ::= (fun p => p <| prop_value := value |>) |> in
  let p := proposer_ n in
  if skip_prepare p && negb (was_rejected_by_someone p) then Accept n
  else Prepare (was_rejected_by_someone p) n.

(** The counting part of [OnPrepareReply]. *)
Definition prepare_reply_count (msg : PaxosMessage) (p : Proposer) : Proposer :=
  let p := p <| counter_ ::= AddReceivedNode (pm_node_id msg) |> in
  if pm_rejected_id msg =? 0 then
    let p := p <| counter_ ::= AddPromisorOrAcceptor (pm_node_id msg) |> in
    let b := Ballot (pm_pre_accepted_id msg) (pm_pre_accepted_node_id msg) in
    if ballot_gtb b (max_ballot p)
    then p <| max_ballot := b |> <| prop_value := pm_value msg |> else p
  else p <| counter_ ::= AddRejector (pm_node_id msg) |>.

Definition OnPrepareReply (msg : PaxosMessage) (n : node) : node :=
  let n :=
    if preparing (proposer_ n) && (pm_instance_id msg =? prop_instance_id (proposer_ n)) then
      let n := n <| proposer_ ::= prepare_reply_count msg |> in
      let c := counter_ (proposer_ n) in
      if IsPassedOnThisRound (GetMajoritySize n) c then
        let n := n <| proposer_ ::= (fun p => p <| preparing := false |> <| skip_prepare := true |>) |> in
        Accept (RemoveRetryTimer n)
      else if IsRejectedOnThisRound (GetMajoritySize n) c
              || IsReceiveAllOnThisRound (GetNodeSize n) c then
        let n := n <| proposer_ ::= (fun p => p <| preparing := false |>) |> in
        AddJitteredRetryTimer (RemoveRetryTimer n)
      else n
    else n in
  SetMaxProposalId msg n.

Definition accept_reply_count (msg : PaxosMessage) (p : Proposer) : Proposer :=
  let p := p <| counter_ ::= AddReceivedNode (pm_node_id msg) |> in
  if pm_rejected_id msg =? 0
  then p <| counter_ ::= AddPromisorOrAcceptor (pm_node_id msg) |>
  else p <| counter_ ::= AddRejector (pm_node_id msg) |>.

Definition OnAccpetReply (msg : PaxosMessage) (n : node) : node :=
  let n :=
    if accepting (proposer_ n) && (pm_instance_id msg =? prop_instance_id (proposer_ n)) then
      let n := n <| proposer_ ::= accept_reply_count msg |> in
      let c := counter_ (proposer_ n) in
      if IsPassedOnThisRound (GetMajoritySize n) c then
        let n := n <| proposer_ ::= (fun p => p <| accepting := false |>) |> in
        Proposer_NewChosenValue (RemoveRetryTimer n)
      else if IsRejectedOnThisRound (GetMajoritySize n) c
              || IsReceiveAllOnThisRound (GetNodeSize n) c then
        let n := n <| proposer_ ::= (fun p => p <| accepting := false |>) |> in
        AddJitteredRetryTimer (RemoveRetryTimer n)
      else n
    else n in
  SetMaxProposalId msg n.

(** The closure of the retry timer. *)
Definition on_retry_timer (id : Z) (n : node) : node :=
  if id =? prop_instance_id (proposer_ n)
  then Prepare (was_rejected_by_someone (proposer_ n)) n else n.

End Handlers.
End Proposer.
