(* ===== verification/LearnerModel.v ===== *)
(** Model of [paxos/learner.cc]. *)

From S2P Require Import Prelude Ballot Proto Storage Random TimerList NodeState.

Section Learner.
Context {FC : FixedCoding} {LD : LevelDB} {MM : MachineManager} {CM : CheckpointManager}.
Context {AL : Allocator} {PI : ProtoCodec PaxosInstance}.

(** * Learning a value *)

Definition FinishLearnValue (value : PaxosValue) (n : node) : node :=
  n <| learner_ ::= (fun l => l <| learned_value := value |> <| has_learned := true |>) |>.

Definition Learner_BroadcastMessageToFollower (ballot : BallotNumber) (n : node) : node :=
  match cf_cluster (config_ n) with
  | Some c =>
      match GetFollowers c (cf_group_id (config_ n)) with
      | [] => n
      | _ =>
          let msg := new_message SEND_LEARNED_VALUE n
                       <| pm_instance_id := lrn_instance_id (learner_ n) |>
                       <| pm_proposal_id := GetProposalId ballot |>
                       <| pm_proposal_node_id := GetNodeId ballot |>
                       <| pm_value := learned_value (learner_ n) |> in
          BroadcastMessageToFollower (content_of n msg) n
      end
  | None => n
  end.

Definition OnNewChosenValue (msg : PaxosMessage) (n : node) : node :=
  if pm_instance_id msg =? lrn_instance_id (learner_ n) then
    let b := accepted_ballot (acceptor_ n) in
    if ballot_eqb (Ballot (pm_proposal_id msg) (pm_node_id msg)) b then
      Learner_BroadcastMessageToFollower b (FinishLearnValue (accepted_value (acceptor_ n)) n)
    else n
  else n.

(** [WriteToDB]: the record takes the sender of [msg] as the ballot's node. *)
Definition learner_record (msg : PaxosMessage) : PaxosInstance :=
  mkPaxosInstance (pm_instance_id msg) (pm_proposal_id msg) (pm_node_id msg)
    (pm_proposal_id msg) (pm_node_id msg) (pm_value msg).

Definition Learner_WriteToDB (msg : PaxosMessage) (n : node) : node * bool :=
  let '(db, res) :=
    DB_Put false (pm_instance_id msg) (SerializeAsString (learner_record msg)) (db_ n) in
  (n <| db_ := db |>, res =? 0).

Definition OnSendLearnedValue (msg : PaxosMessage) (n : node) : node :=
  if pm_instance_id msg =? lrn_instance_id (learner_ n) then
    let '(n, ok) := Learner_WriteToDB msg n in
    if ok then
      Learner_BroadcastMessageToFollower (Ballot (pm_proposal_id msg) (pm_node_id msg))
        (FinishLearnValue (pm_value msg) n)
    else n
  else n.

(** * Asking the others *)

Definition AddLearnTimer (timeout : Z) (n : node) : node :=
  let '(n, id) := io_RunAfter timeout LearnTimer n in
  n <| learner_ ::= (fun l => l <| learn_timer := id |>) |>.

Definition RemoveLearnTimer (n : node) : node := io_Remove (learn_timer (learner_ n)) n.

Definition AskForLearn (add_timer : bool) (n : node) : node :=
  let n := n <| learner_ ::= (fun l => l <| is_learning := false |>
                                         <| is_receiving_checkpoint := false |>) |> in
  let msg := new_message ASK_FOR_LEARN n <| pm_instance_id := lrn_instance_id (learner_ n) |> in
  let n := BroadcastMessageForLearn (content_of n msg) n in
  if add_timer then
    let '(r, seed) := Random_Uniform (10 * 1000) (lrn_rand (learner_ n)) in
    AddLearnTimer (30 * 1000 + r) (n <| learner_ ::= (fun l => l <| lrn_rand := seed |>) |>)
  else n.

Definition SendLearnedValue (node_id : Z) (p : PaxosInstance) (n : node) : node :=
  let msg := new_message SEND_LEARNED_VALUE n
               <| pm_instance_id := pi_instance_id p |>
               <| pm_proposal_id := pi_accepted_id p |>
               <| pm_proposal_node_id := pi_accepted_node_id p |>
               <| pm_value := pi_accepted_value p |> in
  SendMessage node_id (content_of n msg) n.

Definition SendNowInstanceId (msg : PaxosMessage) (n : node) : node :=
  let reply := new_message SEND_NOW_INSTANCE_ID n
                 <| pm_instance_id := pm_instance_id msg |>
                 <| pm_now_instance_id := lrn_instance_id (learner_ n) |>
                 <| pm_min_chosen_instance_id := min_chosen_id n |> in
  learn_QueueInLoop (TaskSendMessage (pm_node_id msg) (content_of n reply)) n.

Definition OnAskForLearn (msg : PaxosMessage) (n : node) : node :=
  if pm_instance_id msg <? lrn_instance_id (learner_ n) then
    if pm_instance_id msg =? lrn_instance_id (learner_ n) -64 1 then
      let '(res, s) := DB_Get (pm_instance_id msg) (db_ n) in
      if res =? 0 then SendLearnedValue (pm_node_id msg) (ParseFromString s).2 n else n
    else if negb (is_sending_checkpoint n) then SendNowInstanceId msg n
    else n
  else n.

Definition ComfirmAskForLearn (msg : PaxosMessage) (n : node) : node :=
  let reply := new_message COMFIRM_ASK_FOR_LEARN n
                 <| pm_instance_id := lrn_instance_id (learner_ n) |> in
  SendMessage (pm_node_id msg) (content_of n reply) n.

Definition AskForCheckpoint (msg : PaxosMessage) (n : node) : node :=
  let reply := new_message ASK_FOR_CHECKPOINT n
                 <| pm_instance_id := lrn_instance_id (learner_ n) |> in
  SendMessage (pm_node_id msg) (content_of n reply) n.

Definition OnSendNowInstanceId (msg : PaxosMessage) (n : node) : node :=
  let l := learner_ n in
  if (pm_instance_id msg =? lrn_instance_id l) && (lrn_instance_id l <? pm_now_instance_id msg) then
    if lrn_instance_id l <? pm_min_chosen_instance_id msg then
      if negb (is_receiving_checkpoint l) then
        (AskForCheckpoint msg n)
          <| learner_ ::= (fun l => l <| is_receiving_checkpoint := true |>) |>
      else n
    else
      if negb (is_receiving_checkpoint l) && negb (is_learning l) then
        (ComfirmAskForLearn msg n) <| learner_ ::= (fun l => l <| is_learning := true |>) |>
      else n
  else n.

(** * Answering *)

Definition OnComfirmAskForLearn (msg : PaxosMessage) (n : node) : node :=
  learn_QueueInLoop
    (TaskASyncSend (pm_node_id msg) (pm_instance_id msg) (lrn_instance_id (learner_ n))) n.

(** The loop of [ASyncSend]; [fuel] counts the ids left, [to - from]. *)
Fixpoint ASyncSend_loop (fuel : nat) (node_id from : Z) (n : node) : node :=
  match fuel with
  | O => n
  | S fuel =>
      let '(ret, s) := DB_Get from (db_ n) in
      if ret =? 0 then
        let temp := (ParseFromString s).2 in
        let msg := new_message SEND_LEARNED_VALUE n
                     <| pm_instance_id := pi_instance_id temp |>
                     <| pm_proposal_id := pi_accepted_id temp |>
                     <| pm_proposal_node_id := pi_accepted_node_id temp |>
                     <| pm_value := pi_accepted_value temp |> in
        ASyncSend_loop fuel node_id (from +64 1) (SendMessage node_id (content_of n msg) n)
      else n
  end.

Definition ASyncSend (node_id from to : Z) (n : node) : node :=
  ASyncSend_loop (Z.to_nat (to - from)) node_id from n.

Definition OnAskForCheckpoint (msg : PaxosMessage) (n : node) : node :=
  learn_QueueInLoop (TaskSendCheckpoint (pm_node_id msg)) n.

(** A message of the checkpoint transfer; the process may exit in it. *)
Definition OnSendCheckpoint (msg : CheckpointMessage) (n : node) : node :=
  match ckpt_ReceiveCheckpoint msg (ckpt_ n) with
  | None => emit OExit n
  | Some (c, success, packets) =>
      let n := n <| ckpt_ := c |> in
      let n := foldl (fun n p => SendMessage p.1 p.2 n) n packets in
      let timeout := if success then 180 * 1000 else 10 in
      AddLearnTimer timeout (RemoveLearnTimer n)
  end.

(** A function taken from the learn loop.  [SendCheckpoint] runs while the flag
    is set; its end is [finish_send_checkpoint]. *)
Definition run_learn_task (t : LearnTask) (n : node) : node :=
  match t with
  | TaskSendMessage node_id content => SendMessage node_id content n
  | TaskASyncSend node_id from to => ASyncSend node_id from to n
  | TaskSendCheckpoint node_id =>
      emit (OSendCheckpoint node_id) (n <| is_sending_checkpoint := true |>)
  end.

Definition finish_send_checkpoint (n : node) : node := n <| is_sending_checkpoint := false |>.

(** * Instances *)

Definition Learner_SetInstanceId (id : Z) (n : node) : node :=
  n <| learner_ ::= (fun l => l <| lrn_instance_id := id |>) |>.

Definition Learner_NextInstance (n : node) : node :=
  n <| max_chosen_id := lrn_instance_id (learner_ n) |>
    <| learner_ ::= (fun l => l <| has_learned := false |>
                                <| learned_value := PaxosValue_default |>
                                <| lrn_instance_id ::= (fun i => i +64 1) |>) |>.

End Learner.
