(* ===== verification/LogModel.v ===== *)
(** Model of [log/log_manager.cc] and [log/log_cleaner.cc]: replay of the log at
    start-up and removal of the records no one needs any more. *)

From S2P Require Import Prelude Proto Storage TimerList NodeState.

Section Log.
Context {FC : FixedCoding} {LD : LevelDB} {MM : MachineManager} {CM : CheckpointManager}.
Context {AL : Allocator} {PI : ProtoCodec PaxosInstance}.

(** * Replay *)

(** [for (instance_id = from; instance_id < to; ++instance_id)]; [fuel] is the
    number of ids left. *)
Fixpoint ReplayLog_loop (fuel : nat) (instance_id : Z) (n : node) : node * bool :=
  match fuel with
  | O => (n, true)
  | S fuel =>
      let '(res, s) := DB_Get instance_id (db_ n) in
      if negb (res =? 0) then (n, false)
      else
        let temp := (ParseFromString s).2 in
        let '(n, _) := Execute instance_id (pi_accepted_value temp) 0 n in
        ReplayLog_loop fuel (instance_id +64 1) n
  end.

Definition ReplayLog (from to : Z) (n : node) : node * bool :=
  ReplayLog_loop (Z.to_nat (to - from)) from n.

(** [LogManager::Recover(&instance_id)]: the new [*instance_id] and the result. *)
Definition LogManager_Recover (instance_id : Z) (n : node) : node * Z * bool :=
  let '(ret, min_chosen) := DB_GetMinChosenInstanceId 0 (db_ n) in
  if ret =? -1 then (n, instance_id, false)
  else
    let max_instance_id := instance_id in
    let checkpoint_id := mm_GetLatestCheckpointInstanceId (mm_ n) +64 1 in
    let instance_id := Z.max checkpoint_id max_instance_id in
    let n := n <| min_chosen_id := min_chosen |> <| max_chosen_id := instance_id |> in
    if checkpoint_id <? max_instance_id then
      let '(n, ok) := ReplayLog checkpoint_id max_instance_id n in (n, instance_id, ok)
    else (n, instance_id, true).

Definition SetMinChosenInstanceId (id : Z) (n : node) : node :=
  let '(db, res) := DB_SetMinChosenInstanceId id (db_ n) in
  let n := n <| db_ := db |> in
  if res =? 0 then n <| min_chosen_id := id |> else n.

Definition SetMaxChosenInstanceId (id : Z) (n : node) : node := n <| max_chosen_id := id |>.

(** * Cleaning *)

(** [int keep = config_->KeepLogCount()], then used as [uint64_t]. *)
Definition gc_keep (n : node) : Z :=
  let k := cf_keep_log_count (config_ n) in
  if k <? 2 ^ 31 then k else wrap64 (k - 2 ^ 32).

(** The [while] of [GCLoop]: the batch and the new [min_chosen_id]. *)
Fixpoint GC_loop (fuel : nat) (keep max_chosen checkpoint_id min_chosen : Z) (batch : list BatchOp)
  : list BatchOp * Z :=
  match fuel with
  | O => (batch, min_chosen)
  | S fuel =>
      if (min_chosen +64 keep <? max_chosen) && (min_chosen <? checkpoint_id) then
        GC_loop fuel keep max_chosen checkpoint_id (min_chosen +64 1)
          (WriteBatch_Delete min_chosen batch)
      else (batch, min_chosen)
  end.

Definition GCLoop (n : node) : node :=
  let keep := gc_keep n in
  let checkpoint_id := mm_GetOldestCheckpointInstanceId (mm_ n) +64 1 in
  let '(batch, min_chosen) :=
    GC_loop (Z.to_nat (checkpoint_id - min_chosen_id n)) keep (max_chosen_id n) checkpoint_id
      (min_chosen_id n) [] in
  if min_chosen =? min_chosen_id n then n
  else
    let '(db, res) := DB_Write false batch (db_ n) in
    let n := n <| db_ := db |> in
    if res =? 0 then SetMinChosenInstanceId min_chosen n else n.

(** [started_.compare_exchange_strong]. *)
Definition StartGC (n : node) : node :=
  if gc_started n then n
  else
    let '(tl, id) := RunEvery (now_ n) 3000 tt (clean_timers n) in
    n <| gc_started := true |> <| clean_timers := tl |> <| gc_timer := id |>.

Definition StopGC (n : node) : node :=
  if gc_started n then
    n <| gc_started := false |> <| clean_timers ::= Remove (gc_timer n) |>
  else n.

End Log.

(** * Properties *)

Section LogTheory.
Context {FC : FixedCoding} {FCL : FixedCodingLaws} {LD : LevelDB} {LDL : LevelDBLaws}.
Context {MM : MachineManager} {CM : CheckpointManager}.
Context {AL : Allocator} {PI : ProtoCodec PaxosInstance} {PIL : ProtoCodecLaws PaxosInstance}.

Lemma GC_loop_spec fuel keep max cp m batch :
  in_u64 m -> in_u64 cp -> (cp - m <= Z.of_nat fuel) ->
  exists m', GC_loop fuel keep max cp m batch
               = (batch ++ ((fun i => BatchDelete (EncodeFixed64 i)) <$> seqZ m (m' - m)), m') /\
    m <= m' /\ (m < m' -> m' <= cp) /\
    (forall i, m <= i < m' -> i +64 keep < max) /\
    ~ (m' +64 keep < max /\ m' < cp).
Proof.
  intros Hm Hcp. revert m batch Hm. induction fuel as [|fuel IH]; intros m batch Hm Hf; simpl.
  - exists m. rewrite Z.sub_diag. simpl. rewrite app_nil_r. split_and!; [done|lia..].
  - destruct (Z.ltb_spec (m +64 keep) max) as [L1|L1]; simpl;
      [destruct (Z.ltb_spec m cp) as [L2|L2]|].
    2, 3: exists m; rewrite Z.sub_diag; simpl; rewrite app_nil_r; split_and!; [done|lia..].
    assert (Hs : m +64 1 = m + 1) by (apply add64_small; unfold in_u64 in *; lia).
    rewrite Hs. destruct (IH (m + 1) (WriteBatch_Delete m batch)) as (m' & E & H1 & H2 & H3 & H4);
      [unfold in_u64 in *; lia|lia|].
    exists m'. rewrite E. split_and!; [|lia| | |done].
    + unfold WriteBatch_Delete. rewrite <- app_assoc. f_equal. f_equal.
      rewrite (seqZ_cons m (m' - m)) by lia. simpl.
      by replace (Z.pred (m' - m)) with (m' - (m + 1)) by lia.
    + intros ?. destruct (decide (m + 1 < m')); [auto|lia].
    + intros i Hi. destruct (decide (i = m)) as [->|]; [done|]. apply H3. lia.
Qed.

Lemma batch_last_delete ids i :
  in_u64 i -> (forall j, j ∈ ids -> in_u64 j) ->
  batch_last ((fun i => BatchDelete (EncodeFixed64 i)) <$> ids) (EncodeFixed64 i) =
    if bool_decide (i ∈ ids) then Some None else None.
Proof.
  intros Hi. induction ids as [|j ids IH]; intros Hids.
  - rewrite bool_decide_eq_false_2; [done|]. set_solver.
  - rewrite fmap_cons. cbn [batch_last]. rewrite IH by set_solver.
    destruct (bool_decide (i ∈ ids)) eqn:B.
    { apply bool_decide_eq_true in B. by rewrite bool_decide_eq_true_2 by set_solver. }
    apply bool_decide_eq_false in B.
    destruct (same_key (EncodeFixed64 j) (EncodeFixed64 i)) eqn:K.
    + apply same_key_encode in K; [|set_solver|done]. subst j.
      by rewrite bool_decide_eq_true_2 by set_solver.
    + rewrite bool_decide_eq_false_2; [done|]. intros [->|?]%elem_of_cons; [|done].
      by rewrite same_key_refl in K.
Qed.

Lemma DB_Get_Write_delete ids i db db' :
  in_u64 i -> (forall j, j ∈ ids -> in_u64 j) ->
  DB_Write false ((fun i => BatchDelete (EncodeFixed64 i)) <$> ids) db = (db', 0) ->
  DB_Get i db' = if bool_decide (i ∈ ids) then (1, ""%string) else DB_Get i db.
Proof.
  intros Hi Hids. unfold DB_Write, DB_Get.
  destruct (ldb_Write _ _ db) as [db0 []] eqn:E; intros [=]; subst.
  rewrite (get_write _ _ _ _ E), batch_last_delete by done.
  by destruct (bool_decide (i ∈ ids)).
Qed.

(** The whole effect of [GCLoop], when the writes succeed. *)
Lemma GCLoop_effect {LDR : LevelDBReliable} (n : node) :
  in_u64 (min_chosen_id n) ->
  let m := min_chosen_id n in
  let cp := mm_GetOldestCheckpointInstanceId (mm_ n) +64 1 in
  exists d m', GCLoop n = n <| db_ := d |> <| min_chosen_id := m' |> /\
    m <= m' /\ in_u64 m' /\
    (m < m' -> m' <= cp /\ DB_GetMinChosenInstanceId 0 d = (0, m')) /\
    (forall i, m <= i < m' -> i +64 gc_keep n < max_chosen_id n /\ DB_Get i d = (1, ""%string)) /\
    (forall i, in_u64 i -> i <> kMinChosenKey -> ~ (m <= i < m') -> DB_Get i d = DB_Get i (db_ n)).
Proof.
  intros Hm m cp. subst m. unfold GCLoop. fold cp.
  pose proof (add64_range (mm_GetOldestCheckpointInstanceId (mm_ n)) 1) as Hcp. fold cp in Hcp.
  destruct (GC_loop_spec (Z.to_nat (cp - min_chosen_id n)) (gc_keep n) (max_chosen_id n) cp
              (min_chosen_id n) []) as (m' & E & H1 & H2 & H3 & _); [done|done|lia|].
  rewrite E. simpl. destruct (Z.eqb_spec m' (min_chosen_id n)) as [->|Hne].
  { exists (db_ n), (min_chosen_id n). split; [by destruct n|].
    split_and!; try done; try lia. }
  set (ids := seqZ (min_chosen_id n) (m' - min_chosen_id n)).
  assert (Hids : forall j, j ∈ ids <-> min_chosen_id n <= j < m').
  { intros j. unfold ids. rewrite elem_of_seqZ. lia. }
  assert (Hm' : m' <= cp) by (apply H2; lia).
  assert (Hu : forall j, j ∈ ids -> in_u64 j) by (intros j ?%Hids; unfold in_u64 in *; lia).
  destruct (DB_Write_reliable false ((fun i => BatchDelete (EncodeFixed64 i)) <$> ids) (db_ n))
    as [db W]. rewrite W. simpl. unfold SetMinChosenInstanceId. simpl.
  destruct (DB_Put_reliable true kMinChosenKey (EncodeFixed64 m') db) as [db2 P].
  unfold DB_SetMinChosenInstanceId. rewrite P. simpl.
  assert (Hk : in_u64 kMinChosenKey) by (unfold in_u64, kMinChosenKey, u64_max; lia).
  assert (HG : forall i, in_u64 i -> i <> kMinChosenKey ->
                 DB_Get i db2 = if bool_decide (i ∈ ids) then (1, ""%string) else DB_Get i (db_ n)).
  { intros i Hi Hik. rewrite (DB_Get_Put_ne _ _ _ _ _ _ Hk Hi (not_eq_sym Hik) P).
    by apply DB_Get_Write_delete. }
  exists db2, m'. split; [done|]. split_and!; [lia|unfold in_u64 in *; lia..| | |].
  - intros _. split; [done|]. unfold DB_GetMinChosenInstanceId.
    rewrite (DB_Get_Put_eq _ _ _ _ _ P). simpl. f_equal. apply decode_encode64'.
    unfold in_u64 in *. lia.
  - intros i Hi. split; [by apply H3|].
    rewrite HG, bool_decide_eq_true_2; [done|by apply Hids|unfold in_u64 in *; lia|].
    unfold kMinChosenKey, u64_max. unfold in_u64 in *. lia.
  - intros i Hi Hik Hni. rewrite HG by done. rewrite bool_decide_eq_false_2; [done|]. by rewrite Hids.
Qed.

(** (C28) What cleaning may delete.  When the writes succeed, [GCLoop] removes a
    record of the log only when it is older than [keep_log_count] chosen instances
    and not newer than the oldest checkpoint: every other record reads as before,
    the new minimum chosen id is the first id not deleted, and it is the one
    stored. *)
Theorem GCLoop_deletes_only_old : forall (n : node),
  in_u64 (min_chosen_id n) -> LevelDBReliable ->
  let n' := GCLoop n in
  let m := min_chosen_id n in let m' := min_chosen_id n' in
  m <= m' /\
  (m < m' -> m' <= mm_GetOldestCheckpointInstanceId (mm_ n) +64 1 /\
             DB_GetMinChosenInstanceId 0 (db_ n') = (0, m')) /\
  (forall i, m <= i < m' -> i +64 gc_keep n < max_chosen_id n /\ DB_Get i (db_ n') = (1, ""%string)) /\
  (forall i, in_u64 i -> i <> kMinChosenKey -> ~ (m <= i < m') ->
     DB_Get i (db_ n') = DB_Get i (db_ n)).
Proof.
  intros n Hm LDR. destruct (GCLoop_effect n Hm) as (d & m' & E & H). rewrite E. simpl. tauto.
Qed.

(** What the log holds at an id. *)
Definition logged (db : ldb) (i : Z) (v : PaxosValue) : Prop :=
  exists r, DB_Get i db = (0, SerializeAsString r) /\ pi_accepted_value r = v.

Lemma ReplayLog_loop_spec fuel from vs (n : node) :
  length vs = fuel -> 0 <= from -> from + Z.of_nat fuel <= u64_max ->
  (forall k v, vs !! k = Some v -> logged (db_ n) (from + Z.of_nat k) v) ->
  exists rs, length rs = fuel /\
    (ReplayLog_loop fuel from n).2 = true /\
    db_ (ReplayLog_loop fuel from n).1 = db_ n /\
    out_ (ReplayLog_loop fuel from n).1 = out_ n ++
      zip_with (fun iv r => OExecute iv.1 iv.2 r) (zip (seqZ from (Z.of_nat fuel)) vs) rs.
Proof.
  unfold u64_max. revert from vs n. induction fuel as [|fuel IH]; intros from vs n Hl H0 Hb HL.
  - destruct vs; [|done]. exists []. simpl. by rewrite app_nil_r.
  - destruct vs as [|v vs]; [done|]. injection Hl as Hl.
    destruct (HL 0%nat v eq_refl) as (r & Hg & Hv). rewrite Z.add_0_r in Hg.
    simpl ReplayLog_loop. rewrite Hg. simpl negb. cbn iota.
    rewrite parse_serialize. cbn [snd]. rewrite Hv.
    unfold Execute. destruct (mm_Execute _ _ _ _ _ _) as [m b] eqn:Em.
    rewrite add64_small by lia.
    edestruct (IH (from + 1) vs) as (rs & H1 & H2 & H3 & H4); [done|lia|lia| |].
    2: { exists (b :: rs). split; [simpl; by rewrite H1|]. split; [exact H2|].
         split; [exact H3|]. rewrite H4. simpl.
         rewrite <- app_assoc. simpl. f_equal.
         rewrite (seqZ_cons from) by lia. simpl. by replace (Z.pred (Z.of_nat (S fuel))) with (Z.of_nat fuel) by lia. }
    intros k v' Hk. simpl. replace (from + 1 + Z.of_nat k) with (from + Z.of_nat (S k)) by lia.
    by apply HL.
Qed.

(** Replay executes the log in order: when every instance of [[from, to)]
    is logged, [ReplayLog] succeeds, leaves the log as it is, and hands exactly the
    logged values to the state machines, once each, in increasing order. *)
Theorem ReplayLog_in_order : forall (n : node) (from : Z) (vs : list PaxosValue),
  0 <= from -> from + Z.of_nat (length vs) <= u64_max ->
  (forall k v, vs !! k = Some v -> logged (db_ n) (from + Z.of_nat k) v) ->
  exists rs, length rs = length vs /\
    (ReplayLog from (from + Z.of_nat (length vs)) n).2 = true /\
    db_ (ReplayLog from (from + Z.of_nat (length vs)) n).1 = db_ n /\
    out_ (ReplayLog from (from + Z.of_nat (length vs)) n).1 = out_ n ++
      zip_with (fun iv r => OExecute iv.1 iv.2 r)
        (zip (seqZ from (Z.of_nat (length vs))) vs) rs.
Proof.
  intros n from vs H0 Hb HL. unfold ReplayLog.
  replace (Z.to_nat (from + Z.of_nat (length vs) - from)) with (length vs) by lia.
  by apply ReplayLog_loop_spec.
Qed.

End LogTheory.
