(* ===== verification/InstanceModel.v ===== *)
(** Model of [paxos/instance.cc]: the dispatcher that ties the acceptor, the
    proposer and the learner of a group together, proposals and their timeout,
    execution of learned values, recovery, and the events of the node's loops.

    [OnPaxosMessage] is recursive through the handlers: a node answers itself by
    a direct call.  [fuel] bounds the depth; [OnPaxosMessage_fuel_enough] shows
    that the bound used is never reached. *)

From S2P Require Import Prelude Ballot Proto Storage Random TimerList Counter NodeState.
From S2P Require Import AcceptorModel ProposerModel LearnerModel LogModel.

Section Instance.
Context {FC : FixedCoding} {LD : LevelDB} {MM : MachineManager} {CM : CheckpointManager}.
Context {AL : Allocator} {PI : ProtoCodec PaxosInstance}.

(** * Executing what was learned *)

Definition Instance_NextInstance (n : node) : node :=
  let n := n <| instance_id_ ::= (fun i => i +64 1) |> in
  let n := Acceptor_NextInstance n in
  let n := Proposer_NextInstance n in
  Learner_NextInstance n.

Definition MachineExecute (value : PaxosValue) (my : bool) (n : node) : node * bool :=
  let context := if my then context_ n else 0 in
  Execute (instance_id_ n) value context n.

(** [snprintf] into [char msg[64]]. *)
Definition machine_error_text (v : PaxosValue) : string :=
  String.substring 0 63
    ("machine(id=" +:+ pretty (machine_id v) +:+ ") execute value(id="
       +:+ pretty (value_id v) +:+ ") failed.").

Definition learn_status (success my : bool) (v : PaxosValue) : Status :=
  if success then
    if my then Status_OK else Status_of kConflict "another value has been chosen."
  else Status_of kMachineError (machine_error_text v).

Definition CheckLearn (n : node) : node :=
  if has_learned (learner_ n) then
    let v := learned_value (learner_ n) in
    let my := is_proposing n && (value_id (propose_value n) =? value_id v) in
    let n := if is_proposing n then io_Remove (propose_timer n) n else n in
    let '(n, success) := MachineExecute v my n in
    let n :=
      if is_proposing n then
        (emit (OProposeComplete (instance_id_ n) (learn_status success my v) (context_ n)) n)
          <| is_proposing := false |> <| context_ := 0 |>
      else n in
    if success then Instance_NextInstance n else SetNoSkipPrepare n
  else n.

(** * Messages *)

(** The [switch] of [OnPaxosMessage]. *)
Definition dispatch (on_paxos_message : PaxosMessage -> node -> node)
    (msg : PaxosMessage) (n : node) : node :=
  match pm_type msg with
  | PREPARE => OnPrepare on_paxos_message msg n
  | ACCEPT => OnAccpet on_paxos_message msg n
  | PREPARE_REPLY => OnPrepareReply on_paxos_message msg n
  | ACCEPT_REPLY => OnAccpetReply on_paxos_message msg n
  | NEW_CHOSEN_VALUE => OnNewChosenValue msg n
  | ASK_FOR_LEARN => OnAskForLearn msg n
  | SEND_LEARNED_VALUE => OnSendLearnedValue msg n
  | SEND_NOW_INSTANCE_ID => OnSendNowInstanceId msg n
  | COMFIRM_ASK_FOR_LEARN => OnComfirmAskForLearn msg n
  | ASK_FOR_CHECKPOINT => OnAskForCheckpoint msg n
  | PaxosMessageType_unknown _ => n          (* logged *)
  end.

Fixpoint OnPaxosMessage_fuel (fuel : nat) (msg : PaxosMessage) (n : node) : node :=
  match fuel with
  | O => n
  | S fuel =>
      if is_receiving_checkpoint (learner_ n) then n
      else CheckLearn (dispatch (OnPaxosMessage_fuel fuel) msg n)
  end.

(** A node calls itself at most along
    PREPARE, PREPARE_REPLY, ACCEPT, ACCEPT_REPLY, NEW_CHOSEN_VALUE. *)
Definition call_depth : nat := 5.

Definition OnPaxosMessage (msg : PaxosMessage) (n : node) : node :=
  OnPaxosMessage_fuel call_depth msg n.

Definition OnCheckpointMessage (msg : CheckpointMessage) (n : node) : node :=
  OnSendCheckpoint msg n.

Definition OnContent (content : Content) (n : node) : node :=
  match ct_type content with
  | PAXOS_MESSAGE => OnPaxosMessage (ct_paxos_msg content) n
  | CHECKPOINT_MESSAGE => OnCheckpointMessage (ct_checkpoint_msg content) n
  | ContentType_unknown _ => n               (* logged *)
  end.

(** * Proposals *)

(** [r] is the draw of the static random engine, between [1 << 8] and [1 << 22]. *)
Definition GetPaxosValueId (r : Z) (n : node) : node * Z :=
  let s := wrap8 (seq_num n + 1) in
  (n <| seq_num := s |>, Z.lor (Z.lor (wrap64 (Z.shiftl (now_ n) 22)) r) s).

Definition invalid_node_text : string :=
  "this node is not in the membership, please add it firstly.".
Definition timeout_text : string := "proposal time more than a second.".

Definition OnPropose (machine : Z) (value : string) (context : Z) (r : Z) (n : node) : node :=
  if negb (IsValidNodeId (cf_node_id (config_ n)) n) then
    emit (OProposeComplete (instance_id_ n) (Status_of kInvalidNode invalid_node_text) context) n
  else
    let n := assert_ (negb (is_proposing n)) "!is_proposing_" n in
    let n := n <| is_proposing := true |> in
    let n := assert_ (context_ n =? 0) "!context_" n in
    let n := n <| context_ := context |> in
    let '(n, id) := GetPaxosValueId r n in
    let n := n <| propose_value := mkPaxosValue id machine value |> in
    let '(n, t) := io_RunAfter (cf_propose_timeout (config_ n)) ProposeTimer n in
    let n := n <| propose_timer := t |> in
    NewPropose OnPaxosMessage (propose_value n) n.

(** The closure of the propose timer. *)
Definition on_propose_timer (n : node) : node :=
  let n := QuitPropose n in
  let n := n <| is_proposing := false |> in
  let n := emit (OProposeComplete (instance_id_ n) (Status_of kTimeout timeout_text) (context_ n)) n in
  n <| context_ := 0 |>.

Definition run_timer (cb : TimerCb) (n : node) : node :=
  match cb with
  | RetryTimer id => on_retry_timer OnPaxosMessage id n
  | LearnTimer => AskForLearn true n
  | ProposeTimer => on_propose_timer n
  end.

(** One turn of the io loop's [RunTimerProcs]. *)
Definition timers_turn (n : node) : node :=
  let n := n <| io_timers ::= adjust_clock (now_ n) |> in
  match pop_expired (now_ n) (io_timers n) with
  | None => n
  | Some (cb, tl) => run_timer cb (n <| io_timers := tl |>)
  end.

(** * Construction and recovery *)

(** The objects as their constructors leave them, over an opened database and a
    recovered machine manager. *)
Definition new_node (c : Config) (now : Z) (db : ldb) (m : mm) (ck : ckpt) : node :=
  mkNode c now db m ck 0 0
    (mkAcceptor 0 0 Ballot_default Ballot_default PaxosValue_default)
    (mkLearner 1 (0, 0) (Random_new (wrap32 now)) false false PaxosValue_default false)
    (mkProposer Counter_new 1 0 0 Ballot_default PaxosValue_default false false false false
       (0, 0) (Random_new (wrap32 now)))
    1 false 0 PaxosValue_default (0, 0) 0
    (TimerList_new now) [] false false (0, 0) (TimerList_new now) [].

Definition Instance_Recover (n : node) : node * bool :=
  match Acceptor_Recover n with
  | (n, None) => (n, false)
  | (n, Some id) =>
      let '(n, id, ok) := LogManager_Recover id n in
      let n := n <| instance_id_ := id |> in
      if negb ok then (n, false)
      else
        let n := Acceptor_SetInstanceId id n in
        let n := Learner_SetInstanceId id n in
        let n := Proposer_SetInstanceId id n in
        (SetStartProposalId (GetProposalId (promised_ballot (acceptor_ n)) +64 1) n, true)
  end.

(** * Events of a node: what its io, learn and clean loops can run next *)

Inductive Event :=
| EvContent (c : Content)
| EvPropose (machine : Z) (value : string) (context r : Z)
| EvTimer
| EvSyncData (add_timer : bool)
| EvLearnTask
| EvCheckpointSent
| EvGC
| EvFinishCheckpoint (machine instance_id : Z) (result : bool)
| EvClock (now : Z).

Definition is_exit (o : Output) : bool := match o with OExit => true | _ => false end.

Definition handle (e : Event) (n : node) : node :=
  if existsb is_exit (out_ n) then n
  else
    match e with
    | EvContent c => OnContent c n
    | EvPropose m v c r => OnPropose m v c r n
    | EvTimer => timers_turn n
    | EvSyncData t => AskForLearn t n
    | EvLearnTask =>
        match learn_queue n with
        | [] => n
        | t :: q => run_learn_task t (n <| learn_queue := q |>)
        end
    | EvCheckpointSent => finish_send_checkpoint n
    | EvGC => GCLoop n
    | EvFinishCheckpoint id i r => n <| mm_ ::= mm_FinishMakeCheckpoint id i r |>
    | EvClock now => n <| now_ := now |>
    end.

(** * The recursion is bounded *)

Definition msg_rank (m : PaxosMessage) : nat :=
  match pm_type m with
  | PREPARE => 4
  | PREPARE_REPLY => 3
  | ACCEPT => 2
  | ACCEPT_REPLY => 1
  | _ => 0
  end.

Lemma dispatch_ext f g m n :
  (forall m' n', (msg_rank m' < msg_rank m)%nat -> f m' n' = g m' n') ->
  dispatch f m n = dispatch g m n.
Proof.
  intros H. unfold dispatch. destruct (pm_type m) eqn:E; try done.
  - unfold OnPrepare, reply_to, Acceptor_NewChosenValue.
    repeat split_if; try done; apply H; unfold msg_rank; rewrite E; simpl; lia.
  - unfold OnPrepareReply, Accept.
    repeat split_if; try done; rewrite H; [done|unfold msg_rank; rewrite E; simpl; lia].
  - unfold OnAccpet, reply_to, Acceptor_NewChosenValue.
    repeat split_if; try done; apply H; unfold msg_rank; rewrite E; simpl; lia.
  - unfold OnAccpetReply, Proposer_NewChosenValue.
    repeat split_if; try done; rewrite H; [done|unfold msg_rank; rewrite E; simpl; lia].
Qed.

Lemma OnPaxosMessage_fuel_irrelevant f1 f2 m n :
  (msg_rank m < f1)%nat -> (msg_rank m < f2)%nat ->
  OnPaxosMessage_fuel f1 m n = OnPaxosMessage_fuel f2 m n.
Proof.
  revert f2 m n. induction f1 as [|f1 IH]; intros f2 m n H1 H2; [lia|].
  destruct f2 as [|f2]; [lia|]. simpl. split_if; [done|]. f_equal.
  apply dispatch_ext. intros m' n' Hr. apply IH; lia.
Qed.

(** (C23) The direct calls of a node to itself terminate: with the depth the
    model uses, [OnPaxosMessage] satisfies the recursive equation of the code on
    every message and every state, so the depth bound never cuts a call off. *)
Theorem OnPaxosMessage_fuel_enough : forall (msg : PaxosMessage) (n : node),
  OnPaxosMessage msg n =
    if is_receiving_checkpoint (learner_ n) then n
    else CheckLearn (dispatch OnPaxosMessage msg n).
Proof.
  intros msg n. unfold OnPaxosMessage at 1, call_depth.
  rewrite (OnPaxosMessage_fuel_irrelevant 5 6)
    by (unfold msg_rank; destruct (pm_type msg); lia).
  cbn [OnPaxosMessage_fuel]. split_if; [done|]. done.
Qed.

End Instance.
