(* ===== verification/Traces.v ===== *)
(** Relations that the handlers of a node maintain.

    [Frame R] says what a relation between a node's state before and after must
    allow: changes of fields it does not look at, quiet outputs, retry and learn
    timers, and the execution of a learned value.  Every handler is composed of
    these, so it maintains [R]; this is proved once and used for two relations:
    here, that the outputs of a node only grow (no handler retracts a message it
    sent, an execution or a completed proposal), and in [Proposals.v], that a
    proposal in progress stays in progress until it is completed. *)

From S2P Require Import Prelude Ballot Proto Storage Random TimerList Counter NodeState.
From S2P Require Import AcceptorModel ProposerModel LearnerModel LogModel InstanceModel.

Create HintDb frame.

Section Frames.
Context {FC : FixedCoding} {LD : LevelDB} {MM : MachineManager} {CM : CheckpointManager}.
Context {AL : Allocator} {PI : ProtoCodec PaxosInstance}.

(** What is emitted outside [OnPropose], [CheckLearn] and the propose timer. *)
Definition quiet_output (o : Output) : Prop :=
  match o with
  | OProposeComplete _ _ _ | OExecute _ _ _ => False
  | OAssertFail e => e <> "!is_proposing_"%string /\ e <> "!context_"%string
  | _ => True
  end.

(** The fields the relations look at are the same. *)
Definition same_view (n n' : node) : Prop :=
  out_ n' = out_ n /\ io_timers n' = io_timers n /\ propose_timer n' = propose_timer n /\
  is_proposing n' = is_proposing n /\ context_ n' = context_ n /\ mm_ n' = mm_ n /\ config_ n' = config_ n /\
  instance_id_ n' = instance_id_ n /\ propose_value n' = propose_value n.

Class Frame (R : relation node) := {
  fr_preorder :: PreOrder R;
  fr_view : forall n n', same_view n n' -> R n n';
  fr_emit : forall o n, quiet_output o -> R n (emit o n);
  fr_after : forall d cb n, cb <> ProposeTimer -> R n (io_RunAfter d cb n).1;
  fr_remove : forall id n, R n (io_Remove id n);
  fr_learn : forall n, R n (CheckLearn n);
  fr_finish : forall id i r n, R n (n <| mm_ ::= mm_FinishMakeCheckpoint id i r |>);
}.

Section Handlers.
Context (R : relation node) {FR : Frame R}.

Definition maintains (f : node -> node) : Prop := forall n, R n (f n).

Lemma chain f n n' : maintains f -> R n n' -> R n (f n').
Proof. intros H G. etrans; [exact G|apply H]. Qed.

Lemma chain_view n n1 n2 : same_view n1 n2 -> R n n1 -> R n n2.
Proof. intros H G. etrans; [exact G|by apply fr_view]. Qed.

Lemma chain_emit n n' o : quiet_output o -> R n n' -> R n (emit o n').
Proof. intros H G. etrans; [exact G|by apply fr_emit]. Qed.

Lemma assert_maintains b s : quiet_output (OAssertFail s) -> maintains (assert_ b s).
Proof. intros H n. unfold assert_. destruct b; [done|by apply fr_emit]. Qed.

(** Chains the lemmas through a composition of handlers. *)
Ltac frame :=
  repeat first
    [ reflexivity
    | assumption
    | match goal with
      | |- R _ (if ?b then _ else _) => destruct b
      | |- R ?n (set_field ?f ?g ?m) => apply (chain_view n m); [by split_and!|]
      | |- R _ (emit _ _) => apply chain_emit; [exact I|]
      | |- R ?n (let '(_, _) := ?x in _) => destruct x eqn:?
      end
    | (eapply chain; [solve [eauto with frame nocore]|]) ].

Lemma send_maintains d c : maintains (SendMessage d c).
Proof.
  intros n. unfold SendMessage. apply chain_emit; [exact I|].
  do 2 (eapply chain; [by apply assert_maintains|]). reflexivity.
Qed.
Lemma remove_maintains id : maintains (io_Remove id).
Proof. intros n. apply fr_remove. Qed.
#[local] Hint Resolve send_maintains remove_maintains : frame.

Lemma broadcast_maintains c : maintains (BroadcastMessage c).
Proof. intros n. unfold BroadcastMessage. case_match; frame. Qed.

Lemma broadcast_learn_maintains c : maintains (BroadcastMessageForLearn c).
Proof.
  intros n. unfold BroadcastMessageForLearn. case_match; [case_match|]; frame.
  apply broadcast_maintains.
Qed.

Lemma broadcast_follower_maintains b : maintains (Learner_BroadcastMessageToFollower b).
Proof.
  intros n. unfold Learner_BroadcastMessageToFollower, BroadcastMessageToFollower.
  case_match; [|done]. case_match; [done|]. cbv zeta. case_match; frame.
Qed.

Lemma after_maintains d cb n n' id :
  cb <> ProposeTimer -> io_RunAfter d cb n = (n', id) -> R n n'.
Proof. intros H E. pose proof (fr_after d cb n H) as G. by rewrite E in G. Qed.

Lemma retry_timer_maintains t : maintains (AddRetryTimer t).
Proof.
  intros n. unfold AddRetryTimer. destruct (io_RunAfter _ _ _) as [n' id] eqn:E.
  apply after_maintains in E; [|done]. frame.
Qed.

Lemma remove_retry_maintains : maintains RemoveRetryTimer.
Proof. intros n. apply fr_remove. Qed.
#[local] Hint Resolve retry_timer_maintains : frame.

Lemma jittered_timer_maintains : maintains AddJitteredRetryTimer.
Proof. intros n. unfold AddJitteredRetryTimer. destruct (Random_Uniform _ _). frame. Qed.

Lemma set_max_maintains m : maintains (SetMaxProposalId m).
Proof. intros n. unfold SetMaxProposalId. frame. Qed.

Lemma learn_timer_maintains t : maintains (AddLearnTimer t).
Proof.
  intros n. unfold AddLearnTimer. destruct (io_RunAfter _ _ _) as [n' id] eqn:E.
  apply after_maintains in E; [|done]. frame.
Qed.

Lemma acceptor_write_maintains : maintains (fun n => (Acceptor_WriteToDB n).1).
Proof.
  intros n. unfold Acceptor_WriteToDB. destruct (log_sync_step _ _ _) as [s c].
  destruct (DB_Put _ _ _ _) as [db r]. apply fr_view. by split_and!.
Qed.

#[local] Hint Resolve broadcast_maintains broadcast_learn_maintains broadcast_follower_maintains
  remove_retry_maintains jittered_timer_maintains set_max_maintains learn_timer_maintains : frame.

(** * The protocol *)

Section Rec.
Variable f : PaxosMessage -> node -> node.
Hypothesis f_maintains : forall m, maintains (f m).
#[local] Hint Resolve f_maintains : frame.

Lemma reply_maintains d m : maintains (reply_to f d m).
Proof. intros n. unfold reply_to. frame. Qed.
#[local] Hint Resolve reply_maintains : frame.

Lemma OnPrepare_maintains m : maintains (OnPrepare f m).
Proof.
  intros n. unfold OnPrepare, Acceptor_NewChosenValue. frame.
  apply (chain _ _ _ acceptor_write_maintains). frame.
Qed.

Lemma OnAccpet_maintains m : maintains (OnAccpet f m).
Proof.
  intros n. unfold OnAccpet, Acceptor_NewChosenValue. frame.
  apply (chain _ _ _ acceptor_write_maintains). frame.
Qed.

Lemma Prepare_maintains b : maintains (Prepare f b).
Proof. intros n. unfold Prepare. cbv zeta. frame. Qed.

Lemma Accept_maintains : maintains (Accept f).
Proof. intros n. unfold Accept. cbv zeta. frame. Qed.
#[local] Hint Resolve Prepare_maintains Accept_maintains : frame.

Lemma NewPropose_maintains v : maintains (NewPropose f v).
Proof. intros n. unfold NewPropose. frame. Qed.

Lemma NewChosen_maintains : maintains (Proposer_NewChosenValue f).
Proof. intros n. unfold Proposer_NewChosenValue. frame. Qed.
#[local] Hint Resolve NewChosen_maintains : frame.

Lemma OnPrepareReply_maintains m : maintains (OnPrepareReply f m).
Proof. intros n. unfold OnPrepareReply. frame. Qed.

Lemma OnAccpetReply_maintains m : maintains (OnAccpetReply f m).
Proof. intros n. unfold OnAccpetReply. frame. Qed.

Lemma on_retry_timer_maintains id : maintains (on_retry_timer f id).
Proof. intros n. unfold on_retry_timer. frame. Qed.
End Rec.

(** * Learning *)

Lemma OnNewChosenValue_maintains m : maintains (OnNewChosenValue m).
Proof. intros n. unfold OnNewChosenValue, FinishLearnValue. frame. Qed.

Lemma OnSendLearnedValue_maintains m : maintains (OnSendLearnedValue m).
Proof.
  intros n. unfold OnSendLearnedValue, FinishLearnValue, Learner_WriteToDB.
  destruct (_ =? _); [|done]. destruct (DB_Put _ _ _ _) as [db res]. frame.
Qed.

Lemma AskForLearn_maintains b : maintains (AskForLearn b).
Proof. intros n. unfold AskForLearn. cbv zeta. frame. Qed.

Lemma OnAskForLearn_maintains m : maintains (OnAskForLearn m).
Proof. intros n. unfold OnAskForLearn, SendLearnedValue, SendNowInstanceId, learn_QueueInLoop. frame. Qed.

Lemma OnSendNowInstanceId_maintains m : maintains (OnSendNowInstanceId m).
Proof. intros n. unfold OnSendNowInstanceId, AskForCheckpoint, ComfirmAskForLearn. cbv zeta. frame. Qed.

Lemma ASyncSend_maintains fuel d from : maintains (ASyncSend_loop fuel d from).
Proof.
  revert from. induction fuel as [|fuel IH]; intros from n; simpl; [done|]. frame.
Qed.

Lemma packets_maintain ps : maintains (fun n => foldl (fun n p => SendMessage p.1 p.2 n) n ps).
Proof.
  induction ps as [|p ps IH]; intros n; simpl; [done|]. etrans; [|apply IH]. apply send_maintains.
Qed.

Lemma OnSendCheckpoint_maintains m : maintains (OnSendCheckpoint m).
Proof.
  intros n. unfold OnSendCheckpoint. destruct (ckpt_ReceiveCheckpoint _ _) as [[[c b] ps]|].
  - cbv zeta. eapply chain; [apply learn_timer_maintains|]. unfold RemoveLearnTimer.
    eapply chain; [apply remove_maintains|].
    eapply (chain (fun n => foldl _ n ps)); [apply packets_maintain|]. frame.
  - frame.
Qed.

Lemma queue_maintains t : maintains (learn_QueueInLoop t).
Proof. intros n. unfold learn_QueueInLoop. frame. Qed.

Lemma dispatch_maintains f m : (forall m, maintains (f m)) -> maintains (dispatch f m).
Proof.
  intros Hf n. unfold dispatch. destruct (pm_type m);
    [apply OnPrepare_maintains|apply OnPrepareReply_maintains|apply OnAccpet_maintains
    |apply OnAccpetReply_maintains|apply OnNewChosenValue_maintains|apply OnAskForLearn_maintains
    |apply OnSendLearnedValue_maintains|apply OnSendNowInstanceId_maintains
    |apply queue_maintains|apply queue_maintains|done]; done.
Qed.

Lemma OnPaxosMessage_fuel_maintains fuel m : maintains (OnPaxosMessage_fuel fuel m).
Proof.
  revert m. induction fuel as [|fuel IH]; intros m n; simpl; [done|].
  destruct (is_receiving_checkpoint _); [done|].
  eapply chain; [exact fr_learn|]. by apply dispatch_maintains.
Qed.

Lemma OnPaxosMessage_maintains m : maintains (OnPaxosMessage m).
Proof. apply OnPaxosMessage_fuel_maintains. Qed.

Lemma OnContent_maintains c : maintains (OnContent c).
Proof.
  intros n. unfold OnContent. destruct (ct_type c);
    [apply OnPaxosMessage_maintains|apply OnSendCheckpoint_maintains|done].
Qed.

Lemma run_learn_task_maintains t : maintains (run_learn_task t).
Proof.
  intros n. destruct t; cbn [run_learn_task]; [apply send_maintains|apply ASyncSend_maintains|frame].
Qed.

Lemma GCLoop_maintains : maintains GCLoop.
Proof.
  intros n. apply fr_view. unfold GCLoop, SetMinChosenInstanceId.
  repeat case_match; simplify_eq; by split_and!.
Qed.

(** What an event does when it is neither a proposal nor a turn of the timers. *)
Lemma handle_maintains e :
  (match e with EvPropose _ _ _ _ | EvTimer => False | _ => True end) -> maintains (handle e).
Proof.
  intros He n. unfold handle. destruct (existsb _ _); [done|].
  destruct e as [c|mid v ctx r| | | | | |id i r|]; try done.
  - apply OnContent_maintains.
  - apply AskForLearn_maintains.
  - destruct (learn_queue n) as [|t q]; [done|].
    eapply chain; [apply run_learn_task_maintains|]. frame.
  - unfold finish_send_checkpoint. frame.
  - apply GCLoop_maintains.
  - apply fr_finish.
  - frame.
Qed.

End Handlers.

(** * Outputs only grow *)

Definition grows (n n' : node) : Prop := out_ n `prefix_of` out_ n'.
Definition keeps (f : node -> node) : Prop := maintains grows f.

#[global] Instance grows_preorder : PreOrder grows.
Proof. split; [by intros n; red|]. intros n1 n2 n3. unfold grows. apply transitivity. Qed.

Lemma grows_same n n' : out_ n' = out_ n -> grows n n'.
Proof. intros E. unfold grows. by rewrite E. Qed.

Lemma emit_grows n n' o : grows n n' -> grows n (emit o n').
Proof. intros H. etrans; [exact H|]. by exists [o]. Qed.

Lemma CheckLearn_keeps : keeps CheckLearn.
Proof.
  intros n. unfold CheckLearn, MachineExecute, Execute. destruct (has_learned _); [|done]. cbv zeta.
  destruct (mm_Execute _ _ _ _ _ _) as [m r]. set (n0 := if is_proposing n then _ else _).
  assert (H0 : grows n n0) by (unfold n0; split_if; by apply grows_same).
  set (n1 := emit _ _). assert (H1 : grows n n1) by by apply emit_grows.
  set (n2 := if is_proposing n1 then _ else _).
  assert (H2 : grows n n2) by (unfold n2; split_if; [by apply (emit_grows n n1)|done]).
  etrans; [exact H2|]. apply grows_same.
  unfold Instance_NextInstance, Acceptor_NextInstance, Acceptor_SetInstanceId. by repeat split_if.
Qed.

#[global] Instance grows_frame : Frame grows.
Proof.
  constructor; [apply _| | | | |apply CheckLearn_keeps|by intros; apply grows_same].
  - intros n n' (H & _). by apply grows_same.
  - intros o n _. by apply emit_grows.
  - intros d cb n _. apply grows_same. unfold io_RunAfter. by destruct (RunAfter _ _ _ _).
  - intros id n. by apply grows_same.
Qed.

Lemma OnPaxosMessage_fuel_keeps fuel m : keeps (OnPaxosMessage_fuel fuel m).
Proof. apply OnPaxosMessage_fuel_maintains, _. Qed.

Lemma OnPaxosMessage_keeps m : keeps (OnPaxosMessage m).
Proof. apply OnPaxosMessage_maintains, _. Qed.

Lemma ASyncSend_keeps fuel d from : keeps (ASyncSend_loop fuel d from).
Proof. apply ASyncSend_maintains, _. Qed.

Lemma OnPropose_keeps mid v c r : keeps (OnPropose mid v c r).
Proof.
  intros n. unfold OnPropose, GetPaxosValueId, io_RunAfter. split_if; [by apply emit_grows|].
  destruct (RunAfter _ _ _ _) as [tl t]. unfold assert_.
  etrans; [|apply (NewPropose_maintains grows); apply OnPaxosMessage_keeps].
  repeat split_if; repeat first [by apply grows_same|apply emit_grows].
Qed.

Lemma on_propose_timer_out n :
  out_ (on_propose_timer n)
    = out_ n ++ [OProposeComplete (instance_id_ n) (Status_of kTimeout timeout_text) (context_ n)].
Proof. done. Qed.

Lemma on_propose_timer_keeps : keeps on_propose_timer.
Proof. intros n. unfold grows. rewrite on_propose_timer_out. by eexists. Qed.

Lemma GCLoop_learner n : learner_ (GCLoop n) = learner_ n.
Proof. unfold GCLoop, SetMinChosenInstanceId. repeat case_match; simplify_eq; done. Qed.

(** Whatever a node does next, what it has sent, executed and reported stays part
    of its history. *)
Lemma handle_keeps : forall (e : Event) (n : node), out_ n `prefix_of` out_ (handle e n).
Proof.
  intros e n. change (grows n (handle e n)).
  destruct e as [c|mid v ctx r| | | | | |id i b|]; try (by apply (handle_maintains grows));
    unfold handle; (destruct (existsb _ _); [done|]).
  - apply OnPropose_keeps.
  - unfold timers_turn. cbv zeta. destruct (pop_expired _ _) as [[cb tl]|]; [|by apply grows_same].
    destruct cb; cbn [run_timer].
    + etrans; [|apply (on_retry_timer_maintains grows); apply OnPaxosMessage_keeps]. by apply grows_same.
    + etrans; [|apply (AskForLearn_maintains grows)]. by apply grows_same.
    + etrans; [|apply on_propose_timer_keeps]. by apply grows_same.
Qed.

End Frames.
