(* ===== verification/Consensus.v ===== *)
(** The abstract protocol the group implements: multi-instance Paxos over a
    fixed set of members, with one promise per node that covers every instance.

    The state records what has ever happened: the highest ballot each node has
    promised, the instance it has reached, the votes cast and the values proposed.
    A step is one action of one node; a node that is started again may go back to an
    earlier instance ([step_restart]), but not on its promise.  [agreement] is the safety of the protocol;
    the refinement of the code to it is in [Refinement.v]. *)

From S2P Require Import Prelude Ballot Proto.

Section Consensus.
Variable M : gset Z.

(** * The protocol *)

Definition quorum (Q : gset Z) : Prop := Q ⊆ M /\ (size M `div` 2 + 1 <= size Q)%nat.

Record astate := mkAstate {
  a_bal : Z -> BallotNumber;
  a_inst : Z -> Z;
  a_vote : Z -> Z -> BallotNumber -> PaxosValue -> Prop;
  a_prop : Z -> BallotNumber -> PaxosValue -> Prop;
  a_ask : Z -> BallotNumber -> Prop;
}.

Definition upd {A} (f : Z -> A) (k : Z) (x : A) : Z -> A :=
  fun i => if decide (i = k) then x else f i.

(** Node [n] has cast no vote in instance [i] below ballot [b]. *)
Definition no_vote_below (a : astate) (n i : Z) (b : BallotNumber) : Prop :=
  forall b' v, a_vote a n i b' v -> ~ b' <b b.

Definition chosen (a : astate) (i : Z) (v : PaxosValue) : Prop :=
  exists b Q, quorum Q /\ forall n, n ∈ Q -> a_vote a n i b v.

(** Phase 1 lets [v] be proposed in ballot [b]: a quorum has promised [b], and
    [v] is the value of the highest vote below [b] in that quorum, if any, or is
    known to be chosen. *)
Definition may_propose (a : astate) (i : Z) (b : BallotNumber) (v : PaxosValue) : Prop :=
  exists Q, quorum Q /\ (forall n, n ∈ Q -> a_bal a n = b \/ b <b a_bal a n) /\
    ((forall n, n ∈ Q -> no_vote_below a n i b) \/
     (exists bm n0, bm <b b /\ a_vote a n0 i bm v /\
       forall n b' v', n ∈ Q -> a_vote a n i b' v' -> b' <b b -> b' <=b bm) \/
     chosen a i v).

Inductive astep (me : Z) (a : astate) : astate -> Prop :=
| step_ask b :
    GetNodeId b = me ->
    astep me a (mkAstate (a_bal a) (a_inst a) (a_vote a) (a_prop a)
      (fun i' b' => a_ask a i' b' \/ (i' = a_inst a me /\ b' = b)))
| step_promise b :
    a_bal a me <=b b -> a_ask a (a_inst a me) b ->
    astep me a (mkAstate (upd (a_bal a) me b) (a_inst a) (a_vote a) (a_prop a) (a_ask a))
| step_propose b v :
    GetNodeId b = me -> 0 < GetProposalId b ->
    (forall v', a_prop a (a_inst a me) b v' -> v' = v) ->
    may_propose a (a_inst a me) b v ->
    astep me a (mkAstate (a_bal a) (a_inst a) (a_vote a)
      (fun i' b' v' => a_prop a i' b' v' \/ (i' = a_inst a me /\ b' = b /\ v' = v)) (a_ask a))
| step_vote b v :
    a_bal a me <=b b -> a_prop a (a_inst a me) b v ->
    astep me a (mkAstate (upd (a_bal a) me b) (a_inst a)
      (fun n i b' v' => a_vote a n i b' v' \/ (n = me /\ i = a_inst a me /\ b' = b /\ v' = v))
      (a_prop a) (a_ask a))
| step_advance i :
    a_inst a me <= i ->
    astep me a (mkAstate (a_bal a) (upd (a_inst a) me i) (a_vote a) (a_prop a) (a_ask a))
| step_restart b i :
    a_bal a me <=b b ->
    (forall j b' v, a_vote a me j b' v -> j <= i) ->
    (forall j b' v, a_prop a j b' v -> GetNodeId b' = me -> j <= i) ->
    (forall j b', a_ask a j b' -> GetNodeId b' = me -> j <= i) ->
    astep me a (mkAstate (upd (a_bal a) me b) (upd (a_inst a) me i) (a_vote a) (a_prop a) (a_ask a)).

Definition asteps (me : Z) : relation astate := rtc (astep me).

Definition astep_any (a a' : astate) : Prop := exists me, astep me a a'.

Definition ainit (a : astate) : Prop :=
  (forall n i b v, ~ a_vote a n i b v) /\ (forall i b v, ~ a_prop a i b v) /\
  (forall i b, ~ a_ask a i b).

(** A quorum has voted in ballot [b]. *)
Definition chosen_at (a : astate) (i : Z) (b : BallotNumber) : Prop :=
  exists Q, quorum Q /\ forall n, n ∈ Q -> exists v, a_vote a n i b v.

(** * Invariant *)

(** Below [b], a quorum that can vote no more rules out every value but [v]. *)
Definition safe_at (a : astate) (i : Z) (b : BallotNumber) (v : PaxosValue) : Prop :=
  forall b', b' <b b -> exists Q, quorum Q /\
    forall n, n ∈ Q -> b' <b a_bal a n /\ forall v', a_vote a n i b' v' -> v' = v.

Record ainv (a : astate) : Prop := {
  prop_functional : forall i b v v', a_prop a i b v -> a_prop a i b v' -> v = v';
  vote_proposed : forall n i b v, a_vote a n i b v -> a_prop a i b v;
  vote_bounds : forall n i b v, a_vote a n i b v -> b <=b a_bal a n /\ i <= a_inst a n;
  prop_safe : forall i b v, a_prop a i b v -> safe_at a i b v;
  prop_bounds : forall i b v, a_prop a i b v -> 0 < GetProposalId b /\ i <= a_inst a (GetNodeId b);
  ask_bounds : forall i b, a_ask a i b -> i <= a_inst a (GetNodeId b);
}.

(** What every step preserves: the past is kept, and a node adds votes only at
    or above its promise. *)
Record aext (a a' : astate) : Prop := {
  ext_bal : forall n, a_bal a n <=b a_bal a' n;
  ext_vote : forall n i b v, a_vote a n i b v -> a_vote a' n i b v;
  ext_prop : forall i b v, a_prop a i b v -> a_prop a' i b v;
  ext_ask : forall i b, a_ask a i b -> a_ask a' i b;
  ext_frozen : forall n i b v, a_vote a' n i b v ->
    a_vote a n i b v \/ a_bal a n <=b b;
}.

(** What the steps of [me] leave alone. *)
Record aframe (me : Z) (a a' : astate) : Prop := {
  fr_bal : forall n, n <> me -> a_bal a' n = a_bal a n;
  fr_inst : forall n, n <> me -> a_inst a' n = a_inst a n;
  fr_vote : forall n i b v, n <> me -> a_vote a' n i b v -> a_vote a n i b v;
  fr_prop : forall i b v, GetNodeId b <> me -> a_prop a' i b v -> a_prop a i b v;
  fr_ask : forall i b, GetNodeId b <> me -> a_ask a' i b -> a_ask a i b;
}.

(** * Lemmas *)

Lemma upd_eq {A} (f : Z -> A) k x : upd f k x k = x.
Proof. unfold upd. by rewrite decide_True. Qed.

Lemma upd_ne {A} (f : Z -> A) k x i : i <> k -> upd f k x i = f i.
Proof. intros. unfold upd. by rewrite decide_False. Qed.

Lemma quorums_intersect Q1 Q2 : quorum Q1 -> quorum Q2 -> exists n, n ∈ Q1 /\ n ∈ Q2.
Proof. intros [] []. by apply (majorities_intersect M). Qed.

Lemma quorum_nonempty Q : quorum Q -> exists n, n ∈ Q.
Proof. intros H. destruct (quorums_intersect Q Q H H) as (n & ? & _). eauto. Qed.

#[global] Instance aext_preorder : PreOrder aext.
Proof.
  split.
  - intros a. constructor; auto with sky.
  - intros a b c H1 H2. constructor.
    + intros n. eapply ballot_le_trans; [apply H1|apply H2].
    + intros. by apply (ext_vote _ _ H2), H1.
    + intros. by apply (ext_prop _ _ H2), H1.
    + intros. by apply (ext_ask _ _ H2), H1.
    + intros n i bb v Hv. apply (ext_frozen _ _ H2) in Hv as [Hv|Hb].
      * by apply (ext_frozen _ _ H1).
      * right. eapply ballot_le_trans; [apply H1|done].
Qed.

Lemma astep_ext me a a' : astep me a a' -> aext a a'.
Proof.
  destruct 1; constructor; simpl; auto with sky; try (intros; reflexivity).
  - intros n. unfold upd. case_decide; [by subst|apply ballot_le_refl].
  - intros n. unfold upd. case_decide; [by subst|apply ballot_le_refl].
  - intros n i b' v' [?|(-> & -> & -> & ->)]; [by left|]. by right.
  - intros n. unfold upd. case_decide; [by subst|apply ballot_le_refl].
Qed.

Lemma astep_frame me a a' : astep me a a' -> aframe me a a'.
Proof.
  destruct 1; constructor; simpl; try done; intros; try (by rewrite upd_ne); naive_solver.
Qed.

Lemma asteps_ext me a a' : asteps me a a' -> aext a a'.
Proof.
  induction 1 as [|a b c H1 _ IH]; [reflexivity|]. etrans; [by eapply astep_ext|done].
Qed.

Lemma asteps_frame me a a' : asteps me a a' -> aframe me a a'.
Proof.
  induction 1 as [|a b c H1 _ IH]; [by constructor|].
  apply astep_frame in H1. constructor; intros.
  - rewrite (fr_bal _ _ _ IH) by done. by apply H1.
  - rewrite (fr_inst _ _ _ IH) by done. by apply H1.
  - apply (fr_vote _ _ _ H1); [done|]. by apply (fr_vote _ _ _ IH).
  - apply (fr_prop _ _ _ H1); [done|]. by apply (fr_prop _ _ _ IH).
  - apply (fr_ask _ _ _ H1); [done|]. by apply (fr_ask _ _ _ IH).
Qed.

(** A vote below the promise is one of the past. *)
Lemma ext_vote_below a a' n i b v :
  aext a a' -> a_vote a' n i b v -> b <b a_bal a n -> a_vote a n i b v.
Proof.
  intros H Hv Hlt. destruct (ext_frozen _ _ H _ _ _ _ Hv) as [|Hle]; [done|].
  exfalso. eapply ballot_lt_irrefl, ballot_le_lt_trans; eauto.
Qed.

Lemma no_vote_below_ext a a' n i b :
  aext a a' -> b <=b a_bal a n -> no_vote_below a n i b -> no_vote_below a' n i b.
Proof.
  intros H Hb Hn b' v Hv Hlt. eapply (Hn b' v); [|done].
  eapply ext_vote_below; eauto using ballot_lt_le_trans.
Qed.

Lemma safe_at_ext a a' i b v : aext a a' -> safe_at a i b v -> safe_at a' i b v.
Proof.
  intros H Hs b' Hb. destruct (Hs b' Hb) as (Q & HQ & Hn). exists Q. split; [done|].
  intros n Hin. destruct (Hn n Hin) as [H1 H2]. split.
  - eapply ballot_lt_le_trans; [done|apply H].
  - intros v' Hv. apply H2. by eapply ext_vote_below.
Qed.

(** What is proposed above a ballot that chose [v] is [v]. *)
Lemma chosen_above a i b Q v b' v' :
  ainv a -> quorum Q -> (forall n, n ∈ Q -> a_vote a n i b v) -> b <b b' -> a_prop a i b' v' -> v = v'.
Proof.
  intros I HQ Hv Hlt Hp. destruct (prop_safe _ I _ _ _ Hp b Hlt) as (Q' & HQ' & H).
  destruct (quorums_intersect _ _ HQ HQ') as (n & Hn & Hn'). destruct (H n Hn') as [_ Hval].
  by apply Hval, Hv.
Qed.

Lemma may_propose_safe a i b v : ainv a -> may_propose a i b v -> safe_at a i b v.
Proof.
  intros I (Q & HQ & Hbal & Hcase) b' Hb'.
  assert (Hq : forall n, n ∈ Q -> b' <b a_bal a n).
  { intros n Hn. destruct (Hbal n Hn) as [->|?]; [done|].
    eapply ballot_lt_le_trans; eauto with sky. }
  destruct Hcase as [Hno|[(bm & n0 & Hbm & Hv0 & Hmax)|(b0 & Q0 & HQ0 & Hv0)]].
  - exists Q. split; [done|]. intros n Hn. split; [auto|].
    intros v' Hv. by destruct (Hno n Hn b' v' Hv).
  - apply (vote_proposed _ I) in Hv0.
    destruct (ballot_lt_trichotomy b' bm) as [Hlt|[->|Hgt]].
    + by apply (prop_safe _ I _ _ _ Hv0).
    + exists Q. split; [done|]. intros n Hn. split; [auto|].
      intros v' Hv. apply (vote_proposed _ I) in Hv. by eapply (prop_functional _ I).
    + exists Q. split; [done|]. intros n Hn. split; [auto|].
      intros v' Hv. exfalso. pose proof (Hmax n b' v' Hn Hv Hb').
      eapply ballot_lt_irrefl, ballot_lt_le_trans; eauto.
  - destruct (quorum_nonempty _ HQ0) as [n0 Hn0]. pose proof (Hv0 n0 Hn0) as Hp0.
    apply (vote_proposed _ I) in Hp0. destruct (ballot_lt_trichotomy b' b0) as [Hlt|[->|Hgt]].
    + by apply (prop_safe _ I _ _ _ Hp0).
    + exists Q. split; [done|]. intros n Hn. split; [auto|].
      intros v' Hv. apply (vote_proposed _ I) in Hv. by eapply (prop_functional _ I).
    + exists Q. split; [done|]. intros n Hn. split; [auto|].
      intros v' Hv. apply (vote_proposed _ I) in Hv. symmetry. by eapply (chosen_above a i b0 Q0).
Qed.

(** No step takes a node below what it has voted, proposed or asked in. *)
Lemma reached_step me a a' :
  ainv a -> astep me a a' ->
  (forall n i b v, a_vote a n i b v -> i <= a_inst a' n) /\
  (forall i b v, a_prop a i b v -> i <= a_inst a' (GetNodeId b)) /\
  (forall i b, a_ask a i b -> i <= a_inst a' (GetNodeId b)).
Proof.
  intros I S.
  assert (Hv : forall n i b v, a_vote a n i b v -> i <= a_inst a n) by (intros; by eapply vote_bounds).
  assert (Hp : forall i b v, a_prop a i b v -> i <= a_inst a (GetNodeId b)) by (intros; by eapply prop_bounds).
  pose proof (ask_bounds _ I) as Ha.
  destruct S as [| | | |k Hk|b k Hle H1 H2 H3]; simpl; try done.
  - assert (Hi : forall n, a_inst a n <= upd (a_inst a) me k n)
      by (intros n; unfold upd; case_decide; [by subst|done]).
    split_and!; intros; (etrans; [|apply Hi]); eauto.
  - unfold upd. split_and!; intros; case_decide as D; subst; eauto.
Qed.

Lemma ainv_step me a a' : ainv a -> astep me a a' -> ainv a'.
Proof.
  intros I S. pose proof (astep_ext _ _ _ S) as E.
  destruct (reached_step _ _ _ I S) as (Rv & Rp & Hab).
  assert (Hsafe : forall i b v, a_prop a i b v -> safe_at a' i b v).
  { intros. eapply safe_at_ext; [done|]. by apply (prop_safe _ I). }
  assert (Hb : forall n i b v, a_vote a n i b v -> b <=b a_bal a' n /\ i <= a_inst a' n).
  { intros n i b v Hv. destruct (vote_bounds _ I _ _ _ _ Hv). split.
    - eapply ballot_le_trans; [done|apply E].
    - by eapply Rv. }
  assert (Hpb : forall i b v, a_prop a i b v ->
            0 < GetProposalId b /\ i <= a_inst a' (GetNodeId b)).
  { intros i b v Hp. destruct (prop_bounds _ I _ _ _ Hp). split; [done|]. by eapply Rp. }
  destruct S as [b Hme|b Hle Ha|b v Hme Hp Hf Hm|b v Hle Hp|i Hadv|b i Hle _ _ _].
  - constructor; try apply I; try done.
    simpl. intros i b' [?|(-> & ->)]; [by apply Hab|]. by rewrite Hme.
  - constructor; try apply I; done.
  - constructor; try done.
    + simpl. intros i' b' v1 v2 [H1|(? & ? & ?)] [H2|(? & ? & ?)]; subst; auto.
      * by eapply (prop_functional _ I).
      * symmetry. auto.
    + simpl. intros. left. by eapply (vote_proposed _ I).
    + intros i' b' v' [?|(-> & -> & ->)]; [auto|].
      eapply safe_at_ext; [done|]. by apply may_propose_safe.
    + simpl. intros i' b' v' [?|(-> & -> & ->)]; [by eapply Hpb|]. by rewrite Hme.
  - constructor; try apply I; try done.
    + intros n i b' v' [?|(-> & -> & -> & ->)]; [by eapply (vote_proposed _ I)|done].
    + intros n i b' v' [?|(-> & -> & -> & ->)]; [by eapply Hb|].
      simpl. rewrite upd_eq. split; [apply ballot_le_refl|done].
  - constructor; try apply I; done.
  - constructor; try apply I; done.
Qed.

Lemma ainv_steps me a a' : ainv a -> asteps me a a' -> ainv a'.
Proof. intros I. induction 1; eauto using ainv_step. Qed.

Lemma ainv_init a : ainit a -> ainv a.
Proof. intros (Hv & Hp & Ha). constructor; intros; exfalso; naive_solver. Qed.

Lemma chosen_ext a a' i v : aext a a' -> chosen a i v -> chosen a' i v.
Proof. intros H (b & Q & HQ & Hv). exists b, Q. split; [done|]. intros. by apply H, Hv. Qed.

Lemma chosen_at_ext a a' i b : aext a a' -> chosen_at a i b -> chosen_at a' i b.
Proof.
  intros H (Q & HQ & Hv). exists Q. split; [done|]. intros n Hn.
  destruct (Hv n Hn) as [v ?]. exists v. by apply H.
Qed.

(** A value voted for in a chosen ballot is chosen. *)
Lemma chosen_at_value a i b n v :
  ainv a -> chosen_at a i b -> a_vote a n i b v -> chosen a i v.
Proof.
  intros I (Q & HQ & Hall) Hv. exists b, Q. split; [done|]. intros m Hm.
  destruct (Hall m Hm) as [v' Hv'].
  replace v with v'; [done|].
  eapply (prop_functional _ I); by eapply (vote_proposed _ I).
Qed.

Lemma chosen_unique_lt a i b1 b2 Q1 Q2 v1 v2 :
  ainv a -> quorum Q1 -> quorum Q2 -> b1 <b b2 ->
  (forall n, n ∈ Q1 -> a_vote a n i b1 v1) -> (forall n, n ∈ Q2 -> a_vote a n i b2 v2) -> v1 = v2.
Proof.
  intros I H1 H2 Hlt Hv1 Hv2. destruct (quorum_nonempty _ H2) as [m Hm].
  apply Hv2, (vote_proposed _ I) in Hm. by eapply (chosen_above a i b1 Q1).
Qed.

Lemma chosen_unique a i v1 v2 : ainv a -> chosen a i v1 -> chosen a i v2 -> v1 = v2.
Proof.
  intros I (b1 & Q1 & HQ1 & H1) (b2 & Q2 & HQ2 & H2).
  destruct (ballot_lt_trichotomy b1 b2) as [?|[->|?]].
  - by eapply chosen_unique_lt; [| apply HQ1 | apply HQ2 | | |].
  - destruct (quorums_intersect _ _ HQ1 HQ2) as (n & Hn1 & Hn2).
    eapply (prop_functional _ I); eapply (vote_proposed _ I); eauto.
  - symmetry. by eapply chosen_unique_lt; [| apply HQ2 | apply HQ1 | | |].
Qed.

(** Agreement of the protocol: in every execution, at most one value is chosen
    per instance. *)
Lemma agreement a0 a i v1 v2 :
  ainit a0 -> rtc astep_any a0 a -> chosen a i v1 -> chosen a i v2 -> v1 = v2.
Proof.
  intros H0 Hs. apply chosen_unique. apply ainv_init in H0.
  induction Hs as [|a b c [me S] _ IH]; [done|]. apply IH. by eapply ainv_step.
Qed.

End Consensus.
