(* ===== verification/System.v ===== *)
(** The replicated group: a node per member, an asynchronous network that may
    delay, reorder, duplicate and lose messages, and runs as sequences of events.

    Every message ever sent stays deliverable (the outputs of the nodes are the
    network), and nothing forces a delivery: that is loss, delay, reordering and
    duplication.  [run] executes a schedule; [clean_run] executes it only as long
    as the conditions named below hold, which are what the code's safety rests
    on. *)

From S2P Require Import Prelude Ballot Proto Storage Random TimerList Counter NodeState.
From S2P Require Import AcceptorModel ProposerModel LearnerModel LogModel InstanceModel.

(** * What a run's outputs show *)

(** A broadcast ACCEPT: its instance, proposal id and value. *)
Definition accept_of (o : Output) : option (Z * Z * PaxosValue) :=
  match o with
  | OBroadcast _ c =>
      if bool_decide (ct_type c = PAXOS_MESSAGE /\ pm_type (ct_paxos_msg c) = ACCEPT)
      then Some (pm_instance_id (ct_paxos_msg c), pm_proposal_id (ct_paxos_msg c),
                 pm_value (ct_paxos_msg c))
      else None
  | _ => None
  end.

(** A broadcast PREPARE: its instance and proposal id. *)
Definition prepare_of (o : Output) : option (Z * Z) :=
  match o with
  | OBroadcast _ c =>
      if bool_decide (ct_type c = PAXOS_MESSAGE /\ pm_type (ct_paxos_msg c) = PREPARE)
      then Some (pm_instance_id (ct_paxos_msg c), pm_proposal_id (ct_paxos_msg c))
      else None
  | _ => None
  end.

(** A broadcast NEW_CHOSEN_VALUE: its instance and proposal id. *)
Definition new_chosen_of (o : Output) : option (Z * Z) :=
  match o with
  | OBroadcast _ c =>
      if bool_decide (ct_type c = PAXOS_MESSAGE /\ pm_type (ct_paxos_msg c) = NEW_CHOSEN_VALUE)
      then Some (pm_instance_id (ct_paxos_msg c), pm_proposal_id (ct_paxos_msg c))
      else None
  | _ => None
  end.

(** An execution: its instance and value. *)
Definition exec_of (o : Output) : option (Z * PaxosValue) :=
  match o with OExecute i v _ => Some (i, v) | _ => None end.

(** What was handed to the state machines, in order. *)
Definition exec_log (out : list Output) : list (Z * PaxosValue) := omap exec_of out.

(** Two ACCEPTs of one node for the same instance and ballot with different values. *)
Definition ballot_reused (o1 o2 : Output) : bool :=
  match accept_of o1, accept_of o2 with
  | Some (i1, p1, v1), Some (i2, p2, v2) =>
      bool_decide (i1 = i2) && bool_decide (p1 = p2) && negb (bool_decide (v1 = v2))
  | _, _ => false
  end.

Definition no_ballot_reused (out : list Output) : bool :=
  forallb (fun o1 => forallb (fun o2 => negb (ballot_reused o1 o2)) out) out.

(** Machine id 1 is the membership machine. *)
Definition kMembershipMachine : Z := 1.

(** The executed values: the execution succeeded, it was not a membership change,
    and the instance counter is in the lower half of its range. *)
Definition execution_fine (o : Output) : bool :=
  match o with
  | OExecute i v r => r && negb (machine_id v =? kMembershipMachine) && (i <? 2 ^ 63)
  | _ => true
  end.

(** The proposal counter has not wrapped around to zero. *)
Definition proposal_id_fine (o : Output) : bool :=
  match o with
  | OBroadcast _ c =>
      if bool_decide (ct_type c = PAXOS_MESSAGE /\ pm_type (ct_paxos_msg c) = PREPARE)
      then negb (pm_proposal_id (ct_paxos_msg c) =? 0) else true
  | _ => true
  end.

Definition trace_fine (out : list Output) : bool :=
  no_ballot_reused out && forallb execution_fine out && forallb proposal_id_fine out.

Section System.
Context {FC : FixedCoding} {LD : LevelDB} {MM : MachineManager} {CM : CheckpointManager}.
Context {AL : Allocator} {PI : ProtoCodec PaxosInstance}.

(** * Runs *)

(** The output puts content [c] on its way to node [d]. *)
Definition carries (d : Z) (c : Content) (o : Output) : bool :=
  match o with
  | OSend d' c' => bool_decide (d' = d) && bool_decide (c' = c)
  | OBroadcast ds c' => bool_decide (d ∈ ds) && bool_decide (c' = c)
  | _ => false
  end.

Definition sent (s : gmap Z node) (d : Z) (c : Content) : bool :=
  existsb (fun kn => existsb (carries d c) (out_ kn.2)) (map_to_list s).

(** Contents come from the network; the other events are always possible. *)
Definition enabled (s : gmap Z node) (me : Z) (e : Event) : bool :=
  match e with EvContent c => sent s me c | _ => true end.

(** A schedule, stopped at the first event that [ok] refuses or that delivers what
    was never sent. *)
Definition checked_event (ok : gmap Z node -> node -> Event -> bool) (s : gmap Z node)
    (me : Z) (e : Event) : option (gmap Z node) :=
  match s !! me with
  | Some n => if enabled s me e && ok s n e then Some (<[me := handle e n]> s) else None
  | None => None
  end.

Fixpoint checked_run (ok : gmap Z node -> node -> Event -> bool) (evs : list (Z * Event))
    (s : gmap Z node) : option (gmap Z node) :=
  match evs with
  | [] => Some s
  | (me, e) :: evs =>
      match checked_event ok s me e with Some s' => checked_run ok evs s' | None => None end
  end.

Definition run : list (Z * Event) -> gmap Z node -> option (gmap Z node) :=
  checked_run (fun _ _ _ => true).

(** * Clean runs *)

(** (a) A reply that would be counted answers the round it is counted in. *)
Definition reply_current (n : node) (m : PaxosMessage) : bool :=
  match pm_type m with
  | PREPARE_REPLY =>
      negb (preparing (proposer_ n)) || negb (pm_instance_id m =? prop_instance_id (proposer_ n))
      || (pm_proposal_id m =? proposal_id (proposer_ n))
  | ACCEPT_REPLY =>
      negb (accepting (proposer_ n)) || negb (pm_instance_id m =? prop_instance_id (proposer_ n))
      || (pm_proposal_id m =? proposal_id (proposer_ n))
  | _ => true
  end.

(** (b) When a PREPARE or ACCEPT of the next instance makes the acceptor conclude
    that its accepted value is chosen, its sender did announce so. *)
Definition inference_backed (s : gmap Z node) (n : node) (m : PaxosMessage) : bool :=
  match pm_type m with
  | PREPARE | ACCEPT =>
      negb (pm_instance_id m =? acc_instance_id (acceptor_ n) +64 1)
      || negb (ballot_eqb (Ballot (pm_proposal_id m) (pm_node_id m)) (accepted_ballot (acceptor_ n)))
      || match s !! pm_node_id m with
         | Some n' => existsb (fun o => bool_decide (new_chosen_of o =
             Some (acc_instance_id (acceptor_ n), pm_proposal_id m))) (out_ n')
         | None => false
         end
  | _ => true
  end.

Definition replies_fine (s : gmap Z node) (n : node) (e : Event) : bool :=
  match e with
  | EvContent c =>
      match ct_type c with
      | PAXOS_MESSAGE => reply_current n (ct_paxos_msg c)
      | CHECKPOINT_MESSAGE | ContentType_unknown _ => true
      end
  | _ => true
  end.

Definition inferences_fine (s : gmap Z node) (n : node) (e : Event) : bool :=
  match e with
  | EvContent c =>
      match ct_type c with
      | PAXOS_MESSAGE => inference_backed s n (ct_paxos_msg c)
      | CHECKPOINT_MESSAGE | ContentType_unknown _ => true
      end
  | _ => true
  end.

(** (c) The outputs stay fine: no ballot is reused, executions and proposal ids are
    in order. *)
Definition ballots_fine (s : gmap Z node) (n : node) (e : Event) : bool :=
  no_ballot_reused (out_ (handle e n)).

Definition limits_fine (s : gmap Z node) (n : node) (e : Event) : bool :=
  forallb execution_fine (out_ (handle e n)) && forallb proposal_id_fine (out_ (handle e n)).

Definition clean (s : gmap Z node) (n : node) (e : Event) : bool :=
  replies_fine s n e && inferences_fine s n e && ballots_fine s n e && limits_fine s n e.

Definition clean_run : list (Z * Event) -> gmap Z node -> option (gmap Z node) :=
  checked_run clean.

(** * Initial systems *)

(** Members [M] start on empty logs without checkpoints; [keep_log_count] fits the
    [int] it is read into. *)
Definition fresh_node (M : gset Z) (me : Z) (n : node) : Prop :=
  exists c now db m ck,
    cf_node_id c = me /\ 0 <= cf_keep_log_count c < 2 ^ 31 /\ ldb_Keys db = [] /\ dom (ms_members (mm_GetMembership m)) = M /\
    mm_GetLatestCheckpointInstanceId m = 0 /\
    Instance_Recover (new_node c now db m ck) = (n, true).

Definition fresh_system (M : gset Z) (s : gmap Z node) : Prop :=
  dom s = M /\ forall me n, s !! me = Some n -> fresh_node M me n.

(** Value [v] was handed to the state machines of node [me] for instance [i]. *)
Definition executed (s : gmap Z node) (me i : Z) (v : PaxosValue) : Prop :=
  exists n r, s !! me = Some n /\ OExecute i v r ∈ out_ n.

(** The values a node has executed, in order, with their instances. *)
Definition executions (s : gmap Z node) (me : Z) : list (Z * PaxosValue) :=
  match s !! me with Some n => exec_log (out_ n) | None => [] end.

(** * Lemmas *)

Lemma checked_run_run ok evs s s' : checked_run ok evs s = Some s' -> run evs s = Some s'.
Proof.
  unfold run. revert s. induction evs as [|[me e] evs IH]; intros s; simpl; [done|].
  unfold checked_event. destruct (s !! me) as [n|]; [|done].
  destruct (enabled s me e); simpl; [|done]. destruct (ok s n e); [|done]. apply IH.
Qed.

Lemma clean_inv s n e :
  clean s n e = true ->
  replies_fine s n e = true /\ inferences_fine s n e = true /\ trace_fine (out_ (handle e n)) = true.
Proof.
  unfold clean, ballots_fine, limits_fine, trace_fine. rewrite !andb_true_iff. tauto.
Qed.

Lemma sent_inv s d c :
  sent s d c = true ->
  exists src n o, s !! src = Some n /\ o ∈ out_ n /\ carries d c o = true.
Proof.
  unfold sent. rewrite existsb_exists. intros ([k n] & Hin & Ho).
  apply existsb_exists in Ho as (o & Hin' & Hc).
  apply list_elem_of_In, elem_of_map_to_list in Hin. apply list_elem_of_In in Hin'. eauto 10.
Qed.

End System.

Lemma no_ballot_reused_spec out o1 o2 i p v1 v2 :
  no_ballot_reused out = true -> o1 ∈ out -> o2 ∈ out ->
  accept_of o1 = Some (i, p, v1) -> accept_of o2 = Some (i, p, v2) -> v1 = v2.
Proof.
  unfold no_ballot_reused. rewrite forallb_forall. intros H H1 H2 E1 E2.
  apply list_elem_of_In in H1, H2. specialize (H o1 H1). rewrite forallb_forall in H.
  specialize (H o2 H2). unfold ballot_reused in H. rewrite E1, E2 in H.
  rewrite !bool_decide_eq_true_2 in H by done. simpl in H.
  rewrite negb_involutive in H. by apply bool_decide_eq_true in H.
Qed.

Lemma trace_fine_prefix l l' : l `prefix_of` l' -> trace_fine l' = true -> trace_fine l = true.
Proof.
  intros [k ->]. unfold trace_fine, no_ballot_reused. rewrite !andb_true_iff, !forallb_forall.
  intros [[H1 H2] H3]. split_and!; intros o Ho.
  - specialize (H1 o ltac:(apply in_or_app; auto)).
    rewrite forallb_forall in *. intros o2 Ho2. apply H1, in_or_app. auto.
  - apply H2, in_or_app. auto.
  - apply H3, in_or_app. auto.
Qed.

Lemma trace_fine_execute l i v r :
  trace_fine l = true -> OExecute i v r ∈ l ->
  r = true /\ machine_id v <> kMembershipMachine /\ i < 2 ^ 63.
Proof.
  unfold trace_fine. rewrite !andb_true_iff, !forallb_forall. intros [[_ H] _] Hin.
  apply list_elem_of_In in Hin. specialize (H _ Hin). simpl in H.
  reflect_bools. auto.
Qed.

Lemma trace_fine_prepare l ds c :
  trace_fine l = true -> OBroadcast ds c ∈ l ->
  ct_type c = PAXOS_MESSAGE -> pm_type (ct_paxos_msg c) = PREPARE ->
  pm_proposal_id (ct_paxos_msg c) <> 0.
Proof.
  unfold trace_fine. rewrite !andb_true_iff, !forallb_forall. intros [_ H] Hin H1 H2.
  apply list_elem_of_In in Hin. specialize (H _ Hin). simpl in H.
  rewrite bool_decide_eq_true_2 in H by done. by reflect_bools.
Qed.

Lemma trace_fine_reuse l : trace_fine l = true -> no_ballot_reused l = true.
Proof. unfold trace_fine. rewrite !andb_true_iff. tauto. Qed.
