(* ===== verification/Simulation.v ===== *)
(** The relation between a node of the code and the abstract protocol of
    [Consensus.v], and how it moves under abstract steps and under the primitive
    state changes of the handlers. *)

From S2P Require Import Prelude Ballot Proto Storage Random TimerList Counter NodeState.
From S2P Require Import AcceptorModel ProposerModel LearnerModel LogModel InstanceModel.
From S2P Require Import Consensus System.

(** What the machine manager promises to [Instance]: only a value for the
    membership machine can change the membership. *)
Class MachineManagerLaws `{!MachineManager} := {
  membership_stable : forall now g i v ctx m,
    machine_id v <> kMembershipMachine ->
    mm_GetMembership (mm_Execute now g i v ctx m).1 = mm_GetMembership m;
  membership_finish : forall id i r m, mm_GetMembership (mm_FinishMakeCheckpoint id i r m) = mm_GetMembership m;
}.

(** Whether the nodes of the runs considered may have been started again on their
    databases.  It decides what is known of a node besides its own steps: the value it
    holds may then be one that a record of a learned value has put there, and what it has
    executed starts from a checkpoint. *)
Class RestartMode := may_restart : bool.

(** The instances executed, up to the last, [k]: all of them from the first on, or, after
    a restart, those after some checkpoint [B] again. *)
Definition ran `{!RestartMode} (ids : list Z) (k : Z) : Prop :=
  if may_restart then exists past B, ids = past ++ seqZ (B + 1) (k - B) /\ B <= k
  else ids = seqZ 1 k.

Section Simulation.
Context {FC : FixedCoding} {LD : LevelDB} {MM : MachineManager} {CM : CheckpointManager}.
Context {AL : Allocator} {PI : ProtoCodec PaxosInstance}.
Context {RM : RestartMode}.
Variable M : gset Z.

(** * Meaning of messages *)

(** A value held with ballot [b] is a vote of [src], or is chosen. *)
Definition held (a : astate) (src i : Z) (b : BallotNumber) (v : PaxosValue) : Prop :=
  a_vote a src i b v \/ (may_restart = true /\ chosen M a i v).

(** What a promise of [src] for ballot [b] in instance [i] says, [pre] and [v]
    being the ballot and the value it reports. *)
Definition promise_report (a : astate) (src i : Z) (b pre : BallotNumber) (v : PaxosValue) : Prop :=
  src ∈ M /\ b <=b a_bal a src /\
  (forall j, i < j -> no_vote_below a src j b) /\
  (forall b' v', a_vote a src i b' v' -> b' <b b -> b' <=b pre) /\
  (pre = Ballot_default \/ (0 < GetProposalId pre /\ pre <=b b /\ held a src i pre v)).

Definition msg_ok (a : astate) (dest : Z) (m : PaxosMessage) : Prop :=
  let i := pm_instance_id m in
  match pm_type m with
  | PREPARE => 1 <= pm_proposal_id m /\ a_ask a i (Ballot (pm_proposal_id m) (pm_node_id m))
  | PREPARE_REPLY =>
      a_ask a i (Ballot (pm_proposal_id m) dest) /\
      (pm_rejected_id m = 0 ->
       promise_report a (pm_node_id m) i (Ballot (pm_proposal_id m) dest)
         (Ballot (pm_pre_accepted_id m) (pm_pre_accepted_node_id m)) (pm_value m))
  | ACCEPT =>
      1 <= pm_proposal_id m /\
      a_prop a i (Ballot (pm_proposal_id m) (pm_node_id m)) (pm_value m)
  | ACCEPT_REPLY =>
      (exists v, a_prop a i (Ballot (pm_proposal_id m) dest) v) /\
      (pm_rejected_id m = 0 -> pm_node_id m ∈ M /\
       exists v, a_vote a (pm_node_id m) i (Ballot (pm_proposal_id m) dest) v)
  | NEW_CHOSEN_VALUE => chosen_at M a i (Ballot (pm_proposal_id m) (pm_node_id m))
  | SEND_LEARNED_VALUE => 0 < pm_proposal_id m /\ chosen M a i (pm_value m)
  | ASK_FOR_LEARN | COMFIRM_ASK_FOR_LEARN => in_u64 i
  | _ => True
  end.

(** A request of a round, which only its proposer broadcasts. *)
Definition is_request (m : PaxosMessage) : Prop := pm_type m = PREPARE \/ pm_type m = ACCEPT.

Definition output_ok (a : astate) (src : Z) (o : Output) : Prop :=
  match o with
  | OSend d c => ct_type c = PAXOS_MESSAGE ->
      msg_ok a d (ct_paxos_msg c) /\ ~ is_request (ct_paxos_msg c)
  | OBroadcast ds c => ct_type c = PAXOS_MESSAGE ->
      (forall d, msg_ok a d (ct_paxos_msg c)) /\ pm_node_id (ct_paxos_msg c) = src /\ ~ src ∈ ds
  | OExecute i v _ => chosen M a i v
  | _ => True
  end.

(** What the handlers require of a message given to node [me] in state [n]:
    besides its meaning, that a counted reply is current, that a request of [me]
    is of its present ballot, and that a conclusion about the acceptor's own value
    is justified. *)
Definition concluded (a : astate) (n : node) (m : PaxosMessage) : Prop :=
  let b := Ballot (pm_proposal_id m) (pm_node_id m) in
  b = accepted_ballot (acceptor_ n) -> chosen_at M a (acc_instance_id (acceptor_ n)) b.

Definition request_ok (a : astate) (me : Z) (n : node) (m : PaxosMessage) : Prop :=
  (pm_node_id m = me -> pm_proposal_id m = proposal_id (proposer_ n)) /\
  (pm_instance_id m = acc_instance_id (acceptor_ n) +64 1 -> concluded a n m).

Definition input_ok (a : astate) (me : Z) (n : node) (m : PaxosMessage) : Prop :=
  match pm_type m with
  | PREPARE | ACCEPT => msg_ok a me m /\ request_ok a me n m
  | PREPARE_REPLY | ACCEPT_REPLY => msg_ok a me m /\ reply_current n m = true
  | NEW_CHOSEN_VALUE => pm_instance_id m = acc_instance_id (acceptor_ n) -> concluded a n m
  | _ => msg_ok a me m
  end.

(** The checkpoint transfer of this node sends checkpoint messages only. *)
Class CheckpointManagerLaws :=
  checkpoint_packets : forall m c c' b ps,
    ckpt_ReceiveCheckpoint m c = Some (c', b, ps) ->
    forall d p, (d, p) ∈ ps -> ct_type p = CHECKPOINT_MESSAGE.

Definition task_ok (a : astate) (i : Z) (t : LearnTask) : Prop :=
  match t with
  | TaskSendMessage d c => output_ok a 0 (OSend d c)
  | TaskASyncSend _ from to => in_u64 from /\ to <= i
  | TaskSendCheckpoint _ => True
  end.

(** * Meaning of the state *)

Definition my_ballot (me : Z) (p : Proposer) : BallotNumber := Ballot (proposal_id p) me.

Definition accepted_rel (a : astate) (me : Z) (A : Acceptor) : Prop :=
  let i := acc_instance_id A in
  (accepted_ballot A = Ballot_default /\ forall b v, ~ a_vote a me i b v) \/
  (0 < GetProposalId (accepted_ballot A) /\ accepted_ballot A <=b a_bal a me /\
   held a me i (accepted_ballot A) (accepted_value A) /\
   forall b v, a_vote a me i b v -> b <=b accepted_ballot A).

(** The promises counted while preparing. *)
Definition preparing_rel (a : astate) (me : Z) (p : Proposer) : Prop :=
  let i := prop_instance_id p in let b := my_ballot me p in
  (forall n, n ∈ promisors_or_acceptors (counter_ p) ->
     n ∈ M /\ b <=b a_bal a n /\ (forall j, i < j -> no_vote_below a n j b) /\
     (forall b' v', a_vote a n i b' v' -> b' <b b -> b' <=b max_ballot p)) /\
  (max_ballot p = Ballot_default \/
   (0 < GetProposalId (max_ballot p) /\ max_ballot p <=b b /\
    exists n, held a n i (max_ballot p) (prop_value p))).

(** The quorum behind [skip_prepare_]: in every instance from the current one on,
    the ballot either has its proposal or is free to propose any value. *)
Definition skip_rel (a : astate) (me : Z) (p : Proposer) : Prop :=
  let b := my_ballot me p in
  exists Q, quorum M Q /\ (forall n, n ∈ Q -> b <=b a_bal a n) /\
    forall j, prop_instance_id p <= j ->
      (exists v, a_prop a j b v) \/ (forall n, n ∈ Q -> no_vote_below a n j b).

Definition accepting_rel (a : astate) (me : Z) (p : Proposer) : Prop :=
  forall n, n ∈ promisors_or_acceptors (counter_ p) ->
    n ∈ M /\ exists v, a_vote a n (prop_instance_id p) (my_ballot me p) v.

(** The log record of [i] is [r], and its value was accepted. *)
Definition log_record (db : ldb) (i : Z) (r : PaxosInstance) : Prop :=
  DB_Get i db = (0, SerializeAsString r) /\ pi_instance_id r = i /\ 0 < pi_accepted_id r.

(** A record on which [me] may be started again in instance [i]: when its promise covers
    that of [me], its vote covers the votes of [me]. *)
Definition record_sound (a : astate) (me i : Z) (r : PaxosInstance) : Prop :=
  let promised := Ballot (pi_promised_id r) (pi_promised_node_id r) in
  let accepted := Ballot (pi_accepted_id r) (pi_accepted_node_id r) in
  a_bal a me <=b promised ->
  accepted <=b promised /\ forall b v, a_vote a me i b v -> b <=b accepted.

(** The part that depends on what the node itself did in the abstract state.  A
    round may be left over from an earlier instance; then nothing has been asked or
    proposed in the current one. *)
Record exact_rel (me : Z) (n : node) (a : astate) : Prop := {
  r_inst : a_inst a me = instance_id_ n;
  r_bal : a_bal a me = promised_ballot (acceptor_ n);
  r_acc : accepted_rel a me (acceptor_ n);
  r_props : forall i b v, a_prop a i b v -> GetNodeId b = me ->
    exists o, o ∈ out_ n /\ accept_of o = Some (i, GetProposalId b, v);
  r_asks : forall i b, a_ask a i b -> GetNodeId b = me ->
    exists o, o ∈ out_ n /\ prepare_of o = Some (i, GetProposalId b);
  r_prev : has_learned (learner_ n) = false -> (DB_Get (instance_id_ n) (db_ n)).1 <> 0 ->
    forall r, DB_Get (instance_id_ n - 1) (db_ n) = (0, SerializeAsString r) ->
    record_sound a me (instance_id_ n - 1) r;
  r_preparing : preparing (proposer_ n) = true ->
    preparing_rel a me (proposer_ n) \/ ~ a_ask a (instance_id_ n) (my_ballot me (proposer_ n));
  r_accepting : accepting (proposer_ n) = true ->
    accepting_rel a me (proposer_ n) \/
    forall v, ~ a_prop a (instance_id_ n) (my_ballot me (proposer_ n)) v;
}.

(** The part that only gains from further steps. *)
Record mono_rel (me : Z) (n : node) (a : astate) : Prop := {
  r_id : cf_node_id (config_ n) = me;
  r_me : me ∈ M;
  r_keep : 0 <= cf_keep_log_count (config_ n) < 2 ^ 31;
  r_members : dom (GetMembership n) = M;
  r_acc_i : acc_instance_id (acceptor_ n) = instance_id_ n;
  r_prop_i : prop_instance_id (proposer_ n) = instance_id_ n;
  r_lrn_i : lrn_instance_id (learner_ n) = instance_id_ n;
  r_range : 1 <= instance_id_ n <= 2 ^ 63;
  r_chosen_ids : in_u64 (min_chosen_id n) /\ max_chosen_id n <= instance_id_ n;
  r_pid : 1 <= proposal_id (proposer_ n);
  r_phase : preparing (proposer_ n) = true -> accepting (proposer_ n) = false;
  r_skip : skip_prepare (proposer_ n) = true -> skip_rel a me (proposer_ n);
  r_db : forall j s, in_u64 j -> j < instance_id_ n -> DB_Get j (db_ n) = (0, s) ->
    exists r, s = SerializeAsString r /\ pi_instance_id r = j /\ 0 < pi_accepted_id r /\
      chosen M a j (pi_accepted_value r);
  r_db_cur : has_learned (learner_ n) = false ->
    0 < GetProposalId (accepted_ballot (acceptor_ n)) ->
    (DB_Get (instance_id_ n) (db_ n)).1 = 0;
  r_db_rec : has_learned (learner_ n) = false -> forall s, DB_Get (instance_id_ n) (db_ n) = (0, s) ->
    s = SerializeAsString (acceptor_record (acceptor_ n));
  r_db_top : forall j, in_u64 j -> j <> kMinChosenKey -> instance_id_ n < j -> (DB_Get j (db_ n)).1 <> 0;
  r_db_all : may_restart = false -> forall j, 1 <= j < instance_id_ n -> min_chosen_id n <= j -> (DB_Get j (db_ n)).1 = 0;
  r_out : forall o, o ∈ out_ n -> output_ok a me o;
  r_exec : has_learned (learner_ n) = false ->
    ran (exec_log (out_ n)).*1 (instance_id_ n - 1);
  r_tasks : forall t, t ∈ learn_queue n -> task_ok a (instance_id_ n) t;
}.

Definition node_rel (me : Z) (n : node) (a : astate) : Prop :=
  ainv M a /\ exact_rel me n a /\ mono_rel me n a.

(** Between two calls of [OnPaxosMessage] no learned value is pending. *)
Definition idle (n : node) : Prop := has_learned (learner_ n) = false.

(** A pending learned value is chosen and logged, and not yet executed. *)
Definition learned_rel (me : Z) (n : node) (a : astate) : Prop :=
  has_learned (learner_ n) = true ->
  chosen M a (instance_id_ n) (learned_value (learner_ n)) /\
  (exists r, log_record (db_ n) (instance_id_ n) r /\ pi_accepted_value r = learned_value (learner_ n) /\
     record_sound a me (instance_id_ n) r) /\
  ran (exec_log (out_ n)).*1 (instance_id_ n - 1).

(** State [n'] is, as long as its trace is fine, what some abstract steps of [me]
    from [a] allow. *)
Definition leads (me : Z) (a : astate) (n' : node) : Prop :=
  trace_fine (out_ n') = true -> exists a', asteps M me a a' /\ node_rel me n' a' /\ idle n'.

Definition leads_learned (me : Z) (a : astate) (n' : node) : Prop :=
  trace_fine (out_ n') = true ->
  exists a', asteps M me a a' /\ node_rel me n' a' /\ learned_rel me n' a'.

Lemma ran_snoc ids k : 1 <= k -> ran ids (k - 1) -> ran (ids ++ [k]) k.
Proof.
  unfold ran. intros Hk. destruct may_restart.
  - intros (past & B & -> & HB). exists past, B. split; [|lia]. rewrite <- app_assoc. f_equal.
    rewrite (seqZ_snoc (B + 1) (k - B)) by lia. f_equal; [f_equal; lia|f_equal; lia].
  - intros ->. rewrite (seqZ_snoc 1 k) by lia. do 2 f_equal. lia.
Qed.

(** * Stability under abstract steps *)

Lemma held_ext a a' src i b v : aext a a' -> held a src i b v -> held a' src i b v.
Proof. intros E [H|[H1 H2]]; [left; by apply E|right]. eauto using chosen_ext. Qed.

Lemma promise_report_ext a a' src i b pre v :
  aext a a' -> promise_report a src i b pre v -> promise_report a' src i b pre v.
Proof.
  intros E (H1 & H2 & H3 & H4 & H5). unfold promise_report. split_and!.
  - done.
  - eapply ballot_le_trans; [done|apply E].
  - intros j Hj. eapply no_vote_below_ext; eauto.
  - intros b' v' Hv Hlt. eapply (H4 b' v'); [|done].
    eapply ext_vote_below; eauto using ballot_lt_le_trans.
  - destruct H5 as [|(? & ? & Hv)]; [by left|right]. split_and!; [done..|]. by eapply held_ext.
Qed.

Lemma msg_ok_ext a a' d m : aext a a' -> msg_ok a d m -> msg_ok a' d m.
Proof.
  intros E. unfold msg_ok. destruct (pm_type m); try done.
  - intros [? ?]. split; [done|]. by apply E.
  - intros [Ha H]. split; [by apply E|]. intros. eapply promise_report_ext; eauto.
  - intros [? ?]. split; [done|]. by apply E.
  - intros [[v Hv] H]. split; [exists v; by apply E|]. intros Hr.
    destruct (H Hr) as [? [v' ?]]. split; [done|]. exists v'. by apply E.
  - by apply chosen_at_ext.
  - intros [? ?]. split; [done|]. by eapply chosen_ext.
Qed.

Lemma output_ok_ext a a' src o : aext a a' -> output_ok a src o -> output_ok a' src o.
Proof.
  intros E. destruct o; simpl; try done.
  - intros H T. destruct (H T). eauto using msg_ok_ext.
  - intros H T. destruct (H T) as (? & ? & ?). eauto using msg_ok_ext.
  - by apply chosen_ext.
Qed.

Lemma task_ok_ext a a' i t : aext a a' -> task_ok a i t -> task_ok a' i t.
Proof. intros E. destruct t; try done. by apply (output_ok_ext a a' 0 (OSend _ _)). Qed.

Lemma preparing_rel_ext a a' me p : aext a a' -> preparing_rel a me p -> preparing_rel a' me p.
Proof.
  intros E [H1 H2]. split.
  - intros n Hn. destruct (H1 n Hn) as (Ha & Hb & Hc & Hd). split_and!.
    + done.
    + eapply ballot_le_trans; [done|apply E].
    + intros j Hj. eapply no_vote_below_ext; eauto.
    + intros b' v' Hv Hlt. eapply (Hd b' v'); [|done].
      eapply ext_vote_below; eauto using ballot_lt_le_trans.
  - destruct H2 as [|(? & ? & n & Hv)]; [by left|right]. split_and!; [done..|].
    exists n. by eapply held_ext.
Qed.

Lemma skip_rel_ext a a' me p : aext a a' -> skip_rel a me p -> skip_rel a' me p.
Proof.
  intros E (Q & HQ & Hb & Hj). exists Q. split_and!; [apply HQ..| |].
  - intros n Hn. eapply ballot_le_trans; [by apply Hb|apply E].
  - intros j Hij. destruct (Hj j Hij) as [[v Hv]|Hno].
    + left. exists v. by apply E.
    + right. intros n Hn. eapply no_vote_below_ext; eauto.
Qed.

Lemma accepting_rel_ext a a' me p : aext a a' -> accepting_rel a me p -> accepting_rel a' me p.
Proof.
  intros E H n Hn. destruct (H n Hn) as [? [v ?]]. split; [done|]. exists v. by apply E.
Qed.

Lemma mono_rel_ext me n a a' : aext a a' -> mono_rel me n a -> mono_rel me n a'.
Proof.
  intros E []. constructor; eauto using skip_rel_ext, output_ok_ext, task_ok_ext.
  intros j s Hj Hlt Hg. destruct (r_db0 j s Hj Hlt Hg) as (r & ? & ? & ? & ?).
  exists r. eauto using chosen_ext.
Qed.

Lemma exact_rel_frame me me' n a a' :
  me' <> me -> aext a a' -> aframe me a a' -> exact_rel me' n a -> exact_rel me' n a'.
Proof.
  intros Hne E F []. constructor.
  - by rewrite (fr_inst _ _ _ F).
  - by rewrite (fr_bal _ _ _ F).
  - destruct r_acc0 as [[? Hno]|(? & Hb & Hv & Hmax)]; [left|right].
    + split; [done|]. intros b v Hv. eapply Hno, (fr_vote _ _ _ F); eauto.
    + split_and!; [done|by rewrite (fr_bal _ _ _ F)|by eapply held_ext|].
      intros b v Hv'. eapply Hmax, (fr_vote _ _ _ F); eauto.
  - intros i b v Hp Hb. eapply r_props0; [|done]. eapply (fr_prop _ _ _ F); [congruence|done].
  - intros i b Hp Hb. eapply r_asks0; [|done]. eapply (fr_ask _ _ _ F); [congruence|done].
  - intros Hl Hg r Hr. unfold record_sound. rewrite (fr_bal _ _ _ F) by done. cbv zeta. intros Hle.
    destruct (r_prev0 Hl Hg r Hr Hle) as [? Hmax]. split; [done|].
    intros b v Hv. eapply Hmax, (fr_vote _ _ _ F); eauto.
  - intros P. destruct (r_preparing0 P) as [|Hno]; [left; by eapply preparing_rel_ext|right].
    intros Ha. apply Hno, (fr_ask _ _ _ F); done.
  - intros P. destruct (r_accepting0 P) as [|Hno]; [left; by eapply accepting_rel_ext|right].
    intros v Ha. eapply Hno, (fr_prop _ _ _ F); done.
Qed.

(** The other nodes do not notice the steps of [me]. *)
Lemma node_rel_frame me me' n a a' :
  me' <> me -> asteps M me a a' -> node_rel me' n a -> node_rel me' n a'.
Proof.
  intros Hne S (I & X & Mo). split_and!.
  - by eapply ainv_steps.
  - eapply exact_rel_frame; eauto using asteps_ext, asteps_frame.
  - eauto using mono_rel_ext, asteps_ext.
Qed.

(** * Composition *)

Lemma leads_refl me a n : node_rel me n a -> idle n -> leads me a n.
Proof. intros H Hi _. exists a. by split_and!; [constructor| |]. Qed.

Lemma leads_trans me a n1 n2 :
  leads me a n1 -> out_ n1 `prefix_of` out_ n2 ->
  (forall a1, asteps M me a a1 -> node_rel me n1 a1 -> idle n1 -> leads me a1 n2) ->
  leads me a n2.
Proof.
  intros H1 P H2 T. destruct (H1 (trace_fine_prefix _ _ P T)) as (a1 & S1 & R1 & I1).
  destruct (H2 a1 S1 R1 I1 T) as (a2 & S2 & R2 & I2). exists a2. split_and!; [by etrans|done..].
Qed.

Lemma leads_step me a a1 n : asteps M me a a1 -> leads me a1 n -> leads me a n.
Proof.
  intros S H T. destruct (H T) as (a2 & S2 & R2). exists a2. split; [by etrans|done].
Qed.

(** The fields of the node, other than its proposer, that the relation reads. *)
Record same_rest (n n' : node) : Prop := {
  sc_config : config_ n' = config_ n;
  sc_mm : mm_ n' = mm_ n;
  sc_db : db_ n' = db_ n;
  sc_min : min_chosen_id n' = min_chosen_id n;
  sc_max : max_chosen_id n' = max_chosen_id n;
  sc_acc : acceptor_ n' = acceptor_ n;
  sc_inst : instance_id_ n' = instance_id_ n;
  sc_lrn_i : lrn_instance_id (learner_ n') = lrn_instance_id (learner_ n);
  sc_learned : has_learned (learner_ n') = has_learned (learner_ n);
  sc_value : learned_value (learner_ n') = learned_value (learner_ n);
  sc_tasks : learn_queue n' = learn_queue n;
  sc_out : out_ n' = out_ n;
}.

(** Proposer [p'] is [p] up to its timers, its random seed and what it remembers of
    rejections, with no flag raised. *)
Record same_round (p p' : Proposer) : Prop := {
  sr_counter : counter_ p' = counter_ p;
  sr_inst : prop_instance_id p' = prop_instance_id p;
  sr_pid : proposal_id p' = proposal_id p;
  sr_max : max_ballot p' = max_ballot p;
  sr_value : prop_value p' = prop_value p;
  sr_preparing : preparing p' = true -> preparing p = true;
  sr_accepting : accepting p' = true -> accepting p = true;
  sr_skip : skip_prepare p' = true -> skip_prepare p = true;
}.

Definition same_core (n n' : node) : Prop :=
  same_rest n n' /\ same_round (proposer_ n) (proposer_ n').

#[global] Instance same_core_preorder : PreOrder same_core.
Proof.
  split.
  - intros n. by split; constructor.
  - intros n1 n2 n3 [[] []] [[] []]. split; constructor; try congruence; auto.
Qed.

(** A change of the proposer needs only the proposer's clauses again. *)
Lemma node_rel_proposer me n n' a :
  same_rest n n' -> node_rel me n a ->
  prop_instance_id (proposer_ n') = instance_id_ n -> 1 <= proposal_id (proposer_ n') ->
  (preparing (proposer_ n') = true -> accepting (proposer_ n') = false) ->
  (preparing (proposer_ n') = true -> preparing_rel a me (proposer_ n') \/
     ~ a_ask a (instance_id_ n) (my_ballot me (proposer_ n'))) ->
  (accepting (proposer_ n') = true -> accepting_rel a me (proposer_ n') \/
     forall v, ~ a_prop a (instance_id_ n) (my_ballot me (proposer_ n')) v) ->
  (skip_prepare (proposer_ n') = true -> skip_rel a me (proposer_ n')) ->
  node_rel me n' a.
Proof.
  intros S (I & X & Mo) Hi Hp Hph H1 H2 H3. split; [done|]. destruct S, X, Mo. split.
  - constructor; rewrite ?sc_inst0, ?sc_acc0, ?sc_out0, ?sc_db0, ?sc_learned0; done.
  - constructor; unfold GetMembership in *;
      rewrite ?sc_config0, ?sc_mm0, ?sc_db0, ?sc_acc0, ?sc_inst0, ?sc_lrn_i0, ?sc_min0, ?sc_max0,
        ?sc_learned0, ?sc_tasks0, ?sc_out0; auto.
Qed.

Lemma same_core_rel me n n' a : same_core n n' -> node_rel me n a -> node_rel me n' a.
Proof.
  intros [S []] R. pose proof R as (_ & [] & []).
  apply (node_rel_proposer me n); try done;
    unfold preparing_rel, skip_rel, accepting_rel, my_ballot in *;
    rewrite ?sr_counter0, ?sr_inst0, ?sr_pid0, ?sr_max0, ?sr_value0; auto.
  intros P. destruct (accepting (proposer_ n')); [|done].
  specialize (sr_accepting0 eq_refl). specialize (r_phase0 (sr_preparing0 P)). congruence.
Qed.

Lemma same_core_idle n n' : same_core n n' -> idle n -> idle n'.
Proof. intros [S _] H. unfold idle. by rewrite (sc_learned _ _ S). Qed.

Lemma same_core_leads me n n' a : same_core n n' -> node_rel me n a -> idle n -> leads me a n'.
Proof. intros. apply leads_refl; eauto using same_core_rel, same_core_idle. Qed.

(** Adding an output whose meaning holds. *)
Lemma exec_log_other out o : exec_of o = None -> exec_log (out ++ [o]) = exec_log out.
Proof. intros E. unfold exec_log. rewrite omap_app. simpl. rewrite E. by rewrite app_nil_r. Qed.

Lemma node_rel_emit me n a o :
  output_ok a me o -> node_rel me n a ->
  (exec_of o <> None -> has_learned (learner_ n) = true) -> node_rel me (emit o n) a.
Proof.
  intros Ho (I & X & Mo) Hx. split; [done|]. destruct X, Mo. split; constructor; simpl; try done.
  - intros i b v Hp Hb. destruct (r_props0 i b v Hp Hb) as (o' & Hin & E).
    exists o'. split; [set_solver|done].
  - intros i b Hp Hb. destruct (r_asks0 i b Hp Hb) as (o' & Hin & E).
    exists o'. split; [set_solver|done].
  - intros o' [?|Ho'%list_elem_of_singleton]%elem_of_app; subst; auto.
  - intros Hl. destruct (exec_of o) eqn:E; [by rewrite Hx in Hl|].
    rewrite exec_log_other by done. auto.
Qed.

Lemma node_rel_assert me n a b s : node_rel me n a -> node_rel me (assert_ b s n) a.
Proof. unfold assert_. destruct b; [done|]. intros R. by apply node_rel_emit. Qed.

Lemma node_rel_send me n a d c :
  output_ok a me (OSend d c) -> node_rel me n a -> node_rel me (SendMessage d c n) a.
Proof. intros Hc H. apply node_rel_emit; [done| |done]. by do 2 apply node_rel_assert. Qed.

Lemma assert_learner b s n : learner_ (assert_ b s n) = learner_ n.
Proof. unfold assert_. by destruct b. Qed.

Lemma send_learner d c n : learner_ (SendMessage d c n) = learner_ n.
Proof. unfold SendMessage, emit. simpl. by rewrite !assert_learner. Qed.

Lemma send_leads me n a d c :
  output_ok a me (OSend d c) -> node_rel me n a -> idle n -> leads me a (SendMessage d c n).
Proof.
  intros. apply leads_refl; [by apply node_rel_send|]. unfold idle. by rewrite send_learner.
Qed.

Lemma others_not_me n ids : ~ cf_node_id (config_ n) ∈ others n ids.
Proof. unfold others. rewrite list_elem_of_filter. tauto. Qed.

Lemma broadcast_form me n n' a c :
  node_rel me n a -> config_ n' = config_ n -> mm_ n' = mm_ n ->
  exists ds, BroadcastMessage c n' = emit (OBroadcast ds c) n' /\ ~ me ∈ ds.
Proof.
  intros (_ & _ & Mo) Ec Em. unfold BroadcastMessage, GetMembership. rewrite Em.
  pose proof (r_id _ _ _ Mo) as Hid. rewrite <- Ec in Hid.
  destruct ((map_to_list (ms_members (mm_GetMembership (mm_ n)))).*1) as [|x l] eqn:E.
  2: { eexists. split; [done|]. rewrite <- Hid at 1. apply others_not_me. }
  exfalso. pose proof (r_me _ _ _ Mo) as Hme. rewrite <- (r_members _ _ _ Mo) in Hme.
  apply elem_of_dom in Hme as [x Hx]. apply elem_of_map_to_list in Hx.
  assert (Hin : me ∈ (map_to_list (GetMembership n)).*1)
    by (apply list_elem_of_fmap; by exists (me, x)).
  unfold GetMembership in Hin. rewrite E in Hin. set_solver.
Qed.

(** A change the relation does not see, after code that simulates. *)
Lemma leads_core me a n n' : leads me a n -> same_core n n' -> leads me a n'.
Proof.
  intros H C T. pose proof C as [S _]. rewrite (sc_out _ _ S) in T.
  destruct (H T) as (a' & ? & ? & ?). exists a'. eauto using same_core_rel, same_core_idle.
Qed.

End Simulation.
