(* ===== verification/AcceptorSim.v ===== *)
(** The acceptor's handlers simulate the abstract protocol: a promise is a step
    [step_promise], an acceptance a step [step_vote]. *)

From S2P Require Import Prelude Ballot Proto Storage Random TimerList Counter NodeState.
From S2P Require Import AcceptorModel ProposerModel LearnerModel LogModel InstanceModel.
From S2P Require Import Traces Consensus System Simulation.

Section AcceptorSim.
Context {FC : FixedCoding} {FCL : FixedCodingLaws} {LD : LevelDB} {LDL : LevelDBLaws}.
Context {LDR : LevelDBReliable} {MM : MachineManager} {CM : CheckpointManager}.
Context {AL : Allocator} {PI : ProtoCodec PaxosInstance}.
Context {RM : RestartMode}.
Variable M : gset Z.
Variable me : Z.

(** What the recursive call of a handler guarantees. *)
Definition rec_ok (f : PaxosMessage -> node -> node) : Prop :=
  forall m n a, node_rel M me n a -> idle n -> input_ok M a me n m -> leads M me a (f m n).

(** * Durable updates *)

Lemma acceptor_write_form A (n : node) :
  exists c d sync,
    DB_Put sync (acc_instance_id A) (SerializeAsString (acceptor_record A)) (db_ n) = (d, 0) /\
    (Acceptor_WriteToDB (n <| acceptor_ := A |>)).1 =
      n <| acceptor_ := A <| log_sync_count := c |> |> <| db_ := d |>.
Proof.
  unfold Acceptor_WriteToDB. cbv zeta. simpl.
  destruct (log_sync_step _ _ _) as [sync c].
  destruct (DB_Put_reliable sync (acc_instance_id A) (SerializeAsString (acceptor_record A)) (db_ n))
    as [d P].
  rewrite P. exists c, d, sync. done.
Qed.

Lemma instance_u64 n a : node_rel M me n a -> in_u64 (instance_id_ n).
Proof. intros (_ & _ & Mo). pose proof (r_range _ _ _ _ Mo). unfold in_u64. lia. Qed.

(** Replacing the acceptor together with its log record, along abstract steps
    that propose and ask nothing. *)
Lemma acceptor_update n a a1 A :
  node_rel M me n a -> idle n -> asteps M me a a1 ->
  acc_instance_id A = instance_id_ n -> a_inst a1 me = a_inst a me ->
  a_bal a1 me = promised_ballot A -> accepted_rel M a1 me A ->
  a_prop a1 = a_prop a -> a_ask a1 = a_ask a ->
  node_rel M me (Acceptor_WriteToDB (n <| acceptor_ := A |>)).1 a1.
Proof.
  intros R Hi S Ei Einst Eb Ha Ep Ek. pose proof (instance_u64 _ _ R) as Hu.
  destruct (acceptor_write_form A n) as (c & d & sync & P & ->). rewrite Ei in P.
  destruct R as (I & X & Mo). apply asteps_ext in S as E.
  split; [by eapply ainv_steps|]. pose proof (mono_rel_ext _ _ _ _ _ E Mo) as [].
  destruct X. split; constructor; simpl; try done.
  - by rewrite Einst.
  - by rewrite Ep.
  - by rewrite Ek.
  - intros _ Hg. by rewrite (DB_Get_Put_eq _ _ _ _ _ P) in Hg.
  - intros H. rewrite Ek. destruct (r_preparing H); [|by right]. left. by eapply preparing_rel_ext.
  - intros H. rewrite Ep. destruct (r_accepting H); [|by right]. left. by eapply accepting_rel_ext.
  - intros j s Hj Hlt Hg. apply r_db; [done..|].
    rewrite <- Hg. symmetry. eapply DB_Get_Put_ne; [apply Hu|done|lia|done].
  - intros _ _. by rewrite (DB_Get_Put_eq _ _ _ _ _ P).
  - intros _ s. rewrite (DB_Get_Put_eq _ _ _ _ _ P). by intros [= <-].
  - intros j Hj Hk Hlt. rewrite (DB_Get_Put_ne _ _ _ _ _ _ Hu Hj ltac:(lia) P). by apply r_db_top.
  - intros Hm j Hj Hmin. rewrite (DB_Get_Put_ne _ _ j _ _ _ Hu ltac:(unfold in_u64 in *; lia) ltac:(lia) P).
    by apply r_db_all.
Qed.

(** * Replies *)

Lemma reply_leads f n a dest reply :
  rec_ok f -> node_rel M me n a -> idle n -> msg_ok M a dest reply ->
  pm_type reply = PREPARE_REPLY \/ pm_type reply = ACCEPT_REPLY ->
  (dest = me -> reply_current n reply = true) ->
  leads M me a (reply_to f dest reply n).
Proof.
  intros Hf R Hi Hm Ht Hc. unfold reply_to. pose proof R as (_ & _ & Mo).
  rewrite (r_id _ _ _ _ Mo). destruct (Z.eqb_spec dest me) as [->|Hne].
  - apply Hf; [done..|]. unfold input_ok. destruct Ht as [E|E]; rewrite E; auto.
  - apply send_leads; [|done..]. intros _. split; [done|].
    unfold is_request. simpl. destruct Ht as [->| ->]; naive_solver.
Qed.

(** A reply to this node's own request is one of its current round. *)
Lemma own_reply_current n t m :
  pm_proposal_id m = proposal_id (proposer_ n) ->
  pm_type m = t -> t = PREPARE_REPLY \/ t = ACCEPT_REPLY -> reply_current n m = true.
Proof.
  intros E <- [T|T]; unfold reply_current; rewrite T, E, Z.eqb_refl; by rewrite orb_true_r.
Qed.

Lemma no_future_votes a n j b : node_rel M me n a -> instance_id_ n < j -> no_vote_below a me j b.
Proof.
  intros (I & X & _) Hj b' v Hv. apply (vote_bounds _ _ I) in Hv as [_ Hi].
  rewrite (r_inst _ _ _ _ X) in Hi. lia.
Qed.

(** What the acceptor reports of its last vote. *)
Definition reported (A : Acceptor) : BallotNumber :=
  if 0 <? GetProposalId (accepted_ballot A) then accepted_ballot A else Ballot_default.

Lemma promise_report_ok n a b :
  node_rel M me n a -> b <=b a_bal a me ->
  (0 < GetProposalId (accepted_ballot (acceptor_ n)) -> accepted_ballot (acceptor_ n) <=b b) ->
  promise_report M a me (instance_id_ n) b (reported (acceptor_ n)) (accepted_value (acceptor_ n)).
Proof.
  intros R Hb Hmax. pose proof R as (I & X & Mo). unfold promise_report.
  pose proof (r_acc _ _ _ _ X) as Ha. unfold accepted_rel in Ha. rewrite (r_acc_i _ _ _ _ Mo) in Ha.
  unfold reported. split_and!; [apply Mo|done| | |].
  - intros j Hj. by eapply no_future_votes.
  - intros b' v Hv _. destruct Ha as [[_ Hno]|(Hp & _ & Hv' & Hm)]; [by destruct (Hno b' v)|].
    rewrite (proj2 (Z.ltb_lt _ _) Hp). by eapply Hm.
  - destruct Ha as [[E _]|(Hp & _ & Hv' & _)].
    + rewrite E. by left.
    + rewrite (proj2 (Z.ltb_lt _ _) Hp). right. split_and!; auto.
Qed.

Lemma NewChosen_from_next f n a m :
  rec_ok f -> node_rel M me n a -> idle n -> concluded M a n m ->
  leads M me a (Acceptor_NewChosenValue f m n).
Proof. intros Hf R Hi Hc. apply Hf; [done..|]. intros _. exact Hc. Qed.

(** A rejection: nothing changes and the reply names the promise. *)
Lemma reject_leads f n a t m :
  rec_ok f -> node_rel M me n a -> idle n ->
  (t = PREPARE_REPLY /\ a_ask a (pm_instance_id m) (Ballot (pm_proposal_id m) (pm_node_id m)) \/
   t = ACCEPT_REPLY /\
     exists v, a_prop a (pm_instance_id m) (Ballot (pm_proposal_id m) (pm_node_id m)) v) ->
  1 <= pm_proposal_id m ->
  (pm_node_id m = me -> pm_proposal_id m = proposal_id (proposer_ n)) ->
  Ballot (pm_proposal_id m) (pm_node_id m) <b promised_ballot (acceptor_ n) ->
  leads M me a (reply_to f (pm_node_id m)
    (new_message t n <| pm_instance_id := pm_instance_id m |>
       <| pm_proposal_id := pm_proposal_id m |>
       <| pm_rejected_id := GetProposalId (promised_ballot (acceptor_ n)) |>) n).
Proof.
  intros Hf R Hi Ht Hp Hc Hlt. apply reply_leads; try done.
  - assert (GetProposalId (promised_ballot (acceptor_ n)) <> 0) by ballot_lia.
    unfold msg_ok. simpl. by destruct Ht as [[-> ?]|[-> ?]].
  - simpl. tauto.
  - intros E. apply (own_reply_current n t); [by apply Hc|done|tauto].
Qed.

(** * Handlers *)

Lemma OnPrepare_leads f m n a :
  rec_ok f -> (forall m, keeps (f m)) -> node_rel M me n a -> idle n -> pm_type m = PREPARE ->
  input_ok M a me n m -> leads M me a (OnPrepare f m n).
Proof.
  intros Hf Hk R Hi Ht Hin. unfold input_ok in Hin. rewrite Ht in Hin.
  destruct Hin as [Hm [Hown Hnext]]. unfold msg_ok in Hm. rewrite Ht in Hm. destruct Hm as [Hp Hask].
  pose proof R as (I & X & Mo). unfold OnPrepare. cbv zeta.
  destruct (Z.eqb_spec (pm_instance_id m) (acc_instance_id (acceptor_ n))) as [Ei|Ei].
  2: { destruct (Z.eqb_spec (pm_instance_id m) (acc_instance_id (acceptor_ n) +64 1)).
       - apply NewChosen_from_next; auto.
       - by apply leads_refl. }
  set (b := Ballot (pm_proposal_id m) (pm_node_id m)) in *.
  destruct (ballot_geb b (promised_ballot (acceptor_ n))) eqn:G.
  2: { apply ballot_geb_false in G. apply reject_leads; eauto. }
  apply ballot_geb_spec in G. pose proof (r_acc_i _ _ _ _ Mo) as Ai.
  set (a1 := mkAstate (upd (a_bal a) me b) (a_inst a) (a_vote a) (a_prop a) (a_ask a)).
  assert (S : astep M me a a1).
  { apply step_promise; [by rewrite (r_bal _ _ _ _ X)|].
    by rewrite (r_inst _ _ _ _ X), <- Ai, <- Ei. }
  set (A := acceptor_ n <| promised_ballot := b |>).
  set (n1 := (Acceptor_WriteToDB (n <| acceptor_ := A |>)).1).
  assert (R1 : node_rel M me n1 a1).
  { eapply acceptor_update; [done|done|by apply rtc_once|done|done|simpl; by rewrite upd_eq| |done|done].
    pose proof (r_acc _ _ _ _ X) as Ha. destruct Ha as [Ha|(Ha1 & Ha2 & Ha3 & Ha4)]; [by left|right].
    simpl. rewrite upd_eq. split_and!; [done| |by eapply held_ext; [by eapply astep_ext|]|done].
    eapply ballot_le_trans; [exact Ha2|]. by rewrite (r_bal _ _ _ _ X). }
  apply (leads_step _ _ _ a1); [by apply rtc_once|].
  destruct (acceptor_write_form A n) as (c & d & sync & _ & E). fold n1 in E.
  assert (Hrep : promise_report M a1 me (pm_instance_id m) b (reported (acceptor_ n))
                   (accepted_value (acceptor_ n))).
  { pose proof (promise_report_ok n1 a1 b R1) as H. rewrite E in H. rewrite Ei, Ai. apply H; simpl.
    - rewrite upd_eq. by left.
    - intros Hpos. destruct (r_acc _ _ _ _ X) as [[Ha _]|(_ & Ha & _)]; [by rewrite Ha in Hpos|].
      eapply ballot_le_trans; [done|]. by rewrite (r_bal _ _ _ _ X). }
  apply reply_leads; try done.
  - by rewrite E.
  - unfold msg_ok, reported in *. destruct (0 <? _); simpl; (split; [done|]);
      intros _; rewrite (r_id _ _ _ _ Mo); [by rewrite <- surjective_ballot|].
    destruct Hrep as (? & ? & ? & ? & _). unfold promise_report. split_and!; try done. by left.
  - destruct (0 <? _); by left.
  - intros Eme. apply (own_reply_current n1 PREPARE_REPLY); [|by destruct (0 <? _)|by left].
    rewrite E. destruct (0 <? _); by apply Hown.
Qed.

Lemma OnAccpet_leads f m n a :
  rec_ok f -> (forall m, keeps (f m)) -> node_rel M me n a -> idle n -> pm_type m = ACCEPT ->
  input_ok M a me n m -> leads M me a (OnAccpet f m n).
Proof.
  intros Hf Hk R Hi Ht Hin. unfold input_ok in Hin. rewrite Ht in Hin.
  destruct Hin as [Hm [Hown Hnext]]. unfold msg_ok in Hm. rewrite Ht in Hm. destruct Hm as [Hp Hprop].
  pose proof R as (I & X & Mo). unfold OnAccpet. cbv zeta.
  destruct (Z.eqb_spec (pm_instance_id m) (acc_instance_id (acceptor_ n))) as [Ei|Ei].
  2: { destruct (Z.eqb_spec (pm_instance_id m) (acc_instance_id (acceptor_ n) +64 1)).
       - apply NewChosen_from_next; auto.
       - by apply leads_refl. }
  set (b := Ballot (pm_proposal_id m) (pm_node_id m)) in *.
  destruct (ballot_geb b (promised_ballot (acceptor_ n))) eqn:G.
  2: { apply ballot_geb_false in G. apply reject_leads; eauto. }
  apply ballot_geb_spec in G. pose proof (r_acc_i _ _ _ _ Mo) as Ai.
  rewrite Ei, Ai, <- (r_inst _ _ _ _ X) in Hprop. rewrite <- (r_bal _ _ _ _ X) in G.
  pose proof (step_vote M me a b _ G Hprop) as S. apply rtc_once in S.
  set (a1 := mkAstate _ _ _ _ _) in S.
  set (A := acceptor_ n <| promised_ballot := b |> <| accepted_ballot := b |>
                        <| accepted_value := pm_value m |>).
  set (n1 := (Acceptor_WriteToDB (n <| acceptor_ := A |>)).1).
  assert (R1 : node_rel M me n1 a1).
  { eapply acceptor_update; [done|done|exact S|done|done|simpl; by rewrite upd_eq| |done|done].
    right. simpl. split_and!; [lia|rewrite upd_eq; by left| |].
    - left. right. split_and!; try done. by rewrite (r_inst _ _ _ _ X).
    - intros b' v [Hv|(_ & _ & -> & _)]; [|by left].
      apply (vote_bounds _ _ I) in Hv as [Hv _]. by eapply ballot_le_trans. }
  apply (leads_step _ _ _ a1); [done|].
  destruct (acceptor_write_form A n) as (c & d & sync & _ & E). fold n1 in E.
  apply reply_leads; try done.
  - by rewrite E.
  - unfold msg_ok. simpl. rewrite Ei, Ai, <- (r_inst _ _ _ _ X). split; [by eexists|].
    intros _. rewrite (r_id _ _ _ _ Mo). split; [apply Mo|]. exists (pm_value m). by right.
  - by right.
  - intros Eme. apply (own_reply_current n1 ACCEPT_REPLY); [|done|by right]. rewrite E. by apply Hown.
Qed.

End AcceptorSim.
