(* ===== verification/ProposerSim.v ===== *)
(** The proposer's handlers simulate the abstract protocol: [Prepare] is a step
    [step_ask], [Accept] a step [step_propose] or the repetition of one. *)

From S2P Require Import Prelude Ballot Proto Storage Random TimerList Counter NodeState.
From S2P Require Import AcceptorModel ProposerModel LearnerModel LogModel InstanceModel.
From S2P Require Import Traces Consensus System Simulation AcceptorSim.

Section ProposerSim.
Context {FC : FixedCoding} {LD : LevelDB} {MM : MachineManager} {CM : CheckpointManager}.
Context {AL : Allocator} {PI : ProtoCodec PaxosInstance}.
Context {RM : RestartMode}.
Variable M : gset Z.
Variable me : Z.

Notation node_rel := (node_rel M me).
Notation leads := (leads M me).
Notation rec_ok := (rec_ok M me).

(** * Changes the relation does not see *)

Lemma retry_timer_form t n :
  exists tl id, AddRetryTimer t n =
    n <| io_timers := tl |> <| proposer_ ::= (fun p => p <| retry_timer := id |>) |>.
Proof.
  unfold AddRetryTimer, io_RunAfter. destruct (RunAfter _ _ _ _) as [tl id]. by exists tl, id.
Qed.

Lemma retry_timer_core t n : same_core n (AddRetryTimer t n).
Proof. destruct (retry_timer_form t n) as (tl & id & ->). by split; constructor. Qed.

Lemma remove_retry_core n : same_core n (RemoveRetryTimer n).
Proof. by split; constructor. Qed.

Lemma jittered_timer_core n : same_core n (AddJitteredRetryTimer n).
Proof.
  unfold AddJitteredRetryTimer. destruct (Random_Uniform _ _) as [r seed].
  etrans; [|apply retry_timer_core]. by split; constructor.
Qed.

Lemma set_max_core m n : same_core n (SetMaxProposalId m n).
Proof.
  unfold SetMaxProposalId. split; [by constructor|].
  simpl. destruct (_ <=? _); simpl; destruct (_ <? _); by constructor.
Qed.

Lemma quit_core n : same_core n (QuitPropose n).
Proof. by split; constructor. Qed.

(** * Requests *)

(** The node with the flags of its rounds lowered. *)
Definition quiet (n : node) : node :=
  n <| proposer_ ::= (fun p => p <| preparing := false |> <| accepting := false |>
                               <| skip_prepare := false |>) |>.

Lemma quiet_rel n n' a :
  same_rest n n' -> prop_instance_id (proposer_ n') = prop_instance_id (proposer_ n) ->
  proposal_id (proposer_ n') = proposal_id (proposer_ n) ->
  node_rel n a -> node_rel (quiet n') a.
Proof.
  intros [] Hi Hp R. pose proof R as (_ & _ & Mo).
  apply (node_rel_proposer _ _ n); try done; simpl.
  - rewrite Hi. apply Mo.
  - rewrite Hp. apply Mo.
Qed.

Lemma next_instance_ne n a : node_rel n a -> instance_id_ n <> instance_id_ n +64 1.
Proof.
  intros (_ & _ & Mo). pose proof (r_range _ _ _ _ Mo). rewrite add64_small by lia. lia.
Qed.

(** After a broadcast, the node hands the message to itself. *)
Lemma self_request f n a ds m :
  rec_ok f -> (forall m, keeps (f m)) ->
  leads a (emit (OBroadcast ds (content_of n m)) n) ->
  is_request m -> pm_instance_id m = prop_instance_id (proposer_ n) ->
  pm_proposal_id m = proposal_id (proposer_ n) ->
  leads a (f m (emit (OBroadcast ds (content_of n m)) n)).
Proof.
  intros Hf Hk H Hr Ei Ep. eapply leads_trans; [exact H|apply Hk|].
  intros a1 S R1 I1. apply Hf; [done..|]. pose proof R1 as (_ & X & Mo).
  assert (O : output_ok M a1 me (OBroadcast ds (content_of n m)))
    by (apply (r_out _ _ _ _ Mo); simpl; set_solver).
  specialize (O eq_refl) as (O & _ & _).
  assert (msg_ok M a1 me m /\ request_ok M a1 me (emit (OBroadcast ds (content_of n m)) n) m).
  { split; [apply O|]. split; [done|]. intros E. exfalso.
    rewrite Ei, (r_acc_i _ _ _ _ Mo) in E. apply (next_instance_ne _ _ R1).
    rewrite <- E. symmetry. exact (r_prop_i _ _ _ _ Mo). }
  unfold input_ok. by destruct Hr as [-> | ->].
Qed.

(** ** Prepare *)

(** The abstract question behind a PREPARE. *)
Lemma ask_rel n a b o :
  node_rel n a -> GetNodeId b = me -> preparing_rel M a me (proposer_ n) ->
  prepare_of o = Some (instance_id_ n, GetProposalId b) ->
  (forall a1, a_ask a1 (instance_id_ n) b -> output_ok M a1 me o) ->
  exists a1, asteps M me a a1 /\ node_rel (emit o n) a1.
Proof.
  intros R Hb Hp Ho Hok. pose proof R as (I & X & Mo).
  pose proof (step_ask M me a b Hb) as S. set (a1 := mkAstate _ _ _ _ _) in S.
  exists a1. split; [by apply rtc_once|]. pose proof (r_inst _ _ _ _ X) as Hinst.
  assert (Hx : exec_of o = None) by (by destruct o).
  apply astep_ext in S as E. split; [by eapply ainv_step|].
  pose proof (mono_rel_ext _ _ _ _ _ E Mo) as []. destruct X. split; constructor; simpl; try done.
  - intros i' b' v' Hv Hb'. destruct (r_props _ _ _ Hv Hb') as (o' & Hin & Ho').
    exists o'. split; [set_solver|done].
  - intros i' b' [Ha|(-> & ->)] Hb'.
    + destruct (r_asks _ _ Ha Hb') as (o' & Hin & Ho'). exists o'. split; [set_solver|done].
    + exists o. split; [set_solver|]. by rewrite Hinst.
  - intros P. left. by eapply preparing_rel_ext.
  - intros o' [?|Ho'%list_elem_of_singleton]%elem_of_app; [auto|]. subst. apply Hok.
    right. by rewrite Hinst.
  - rewrite exec_log_other by done. done.
Qed.

Lemma prepare_reset_pid need p :
  1 <= proposal_id p -> proposal_id (prepare_reset need p) <> 0 ->
  1 <= proposal_id (prepare_reset need p).
Proof.
  intros H. unfold prepare_reset. destruct need; [|done].
  assert (Hr : forall x, x +64 1 <> 0 -> 1 <= x +64 1).
  { intros x. pose proof (add64_range x 1). unfold in_u64 in *. lia. }
  simpl. destruct (_ <? _); simpl; apply Hr.
Qed.

Lemma prepare_reset_flags need p :
  let p' := prepare_reset need p in
  preparing p' = true /\ accepting p' = false /\ skip_prepare p' = false /\
  max_ballot p' = Ballot_default /\ prop_instance_id p' = prop_instance_id p.
Proof. unfold prepare_reset. destruct need; simpl; [|done]. by destruct (_ <? _). Qed.

Lemma Prepare_leads f need n a :
  rec_ok f -> (forall m, keeps (f m)) -> node_rel (quiet n) a -> idle n ->
  leads a (Prepare f need n).
Proof.
  intros Hf Hk R Hi. unfold Prepare. cbv zeta.
  set (n1 := n <| proposer_ ::= prepare_reset need |>).
  destruct (retry_timer_form retry_timeout
    (n1 <| proposer_ ::= (fun p => p <| counter_ ::= StartNewRound |>) |>)) as (tl & id & ->).
  set (n2 := _ <| io_timers := tl |> <| proposer_ ::= _ |>).
  set (m := _ <| pm_instance_id := _ |> <| pm_proposal_id := _ |>).
  destruct (prepare_reset_flags need (proposer_ n)) as (F1 & F2 & F3 & F4 & F5).
  destruct (broadcast_form M me (quiet n) n2 a (content_of n2 m) R) as (ds & -> & Hds); [done..|].
  apply self_request; try done; [|by left].
  intros T. pose proof R as (I & X & Mo).
  assert (Hpid : 1 <= proposal_id (proposer_ n2)).
  { apply prepare_reset_pid; [apply Mo|].
    apply (trace_fine_prepare _ ds (content_of n2 m) T); [simpl; set_solver|done..]. }
  assert (Hpr : preparing_rel M a me (proposer_ n2)).
  { split; [simpl; set_solver|by left]. }
  assert (R2 : node_rel n2 a).
  { apply (node_rel_proposer _ _ (quiet n)); try done.
    - simpl. rewrite F5. apply Mo.
    - by left.
    - simpl. by rewrite F2.
    - simpl. by rewrite F3. }
  pose proof (r_prop_i _ _ _ _ Mo) as Hpi. pose proof (r_id _ _ _ _ Mo) as Hid.
  destruct (ask_rel n2 a (my_ballot me (proposer_ n2)) (OBroadcast ds (content_of n2 m)) R2)
    as (a1 & S & R3); [done|done| | |by exists a1].
  - simpl in *. by rewrite F5, Hpi.
  - intros a1 Ha _. split; [intros d|split; [apply Mo|done]]. split; [done|].
    simpl in *. by rewrite F5, Hpi, Hid.
Qed.

(** ** Accept *)

(** From the next instance on, the ballot has its proposal or is free. *)
Definition later_free (a : astate) (p : Proposer) : Prop :=
  let b := my_ballot me p in
  exists Q, quorum M Q /\ (forall n, n ∈ Q -> b <=b a_bal a n) /\
    forall j, prop_instance_id p < j ->
      (exists v, a_prop a j b v) \/ (forall n, n ∈ Q -> no_vote_below a n j b).

Definition justified (a : astate) (p : Proposer) : Prop :=
  let b := my_ballot me p in
  (exists v, a_prop a (prop_instance_id p) b v) \/
  may_propose M a (prop_instance_id p) b (prop_value p).

Lemma later_free_skip a a1 p v :
  later_free a p -> aext a a1 -> a_prop a1 (prop_instance_id p) (my_ballot me p) v ->
  skip_rel M a1 me p.
Proof.
  intros (Q & HQ & Hb & Hj) E Hv. exists Q. split; [exact HQ|]. split.
  - intros n Hn. eapply ballot_le_trans; [by apply Hb|apply E].
  - intros j Hij. destruct (decide (j = prop_instance_id p)) as [->|Hne]; [left; by eexists|].
    destruct (Hj j) as [[v' Hv']|Hno]; [lia| |].
    + left. exists v'. by apply E.
    + right. intros n Hn. eapply no_vote_below_ext; eauto.
Qed.

Lemma accept_not_exec o x : accept_of o = Some x -> exec_of o = None.
Proof. by destruct o. Qed.

(** The abstract proposal behind an ACCEPT: a new one, or the one already made. *)
Lemma propose_rel n a o :
  node_rel n a -> justified a (proposer_ n) ->
  preparing (proposer_ n) = false -> accepting_rel M a me (proposer_ n) ->
  accept_of o = Some (instance_id_ n, proposal_id (proposer_ n), prop_value (proposer_ n)) ->
  no_ballot_reused (out_ n ++ [o]) = true ->
  (forall a1, aext a a1 -> ainv M a1 ->
     a_prop a1 (instance_id_ n) (my_ballot me (proposer_ n)) (prop_value (proposer_ n)) ->
     output_ok M a1 me o) ->
  exists a1, asteps M me a a1 /\ node_rel (emit o n) a1 /\
    a_prop a1 (instance_id_ n) (my_ballot me (proposer_ n)) (prop_value (proposer_ n)).
Proof.
  intros R J Hp Hacc Ho Hr Hok. pose proof R as (I & X & Mo).
  set (b := my_ballot me (proposer_ n)) in *. set (v := prop_value (proposer_ n)) in *.
  assert (Hf : forall v', a_prop a (instance_id_ n) b v' -> v' = v).
  { intros v' Hv. destruct (r_props _ _ _ _ X _ _ _ Hv eq_refl) as (o' & Hin & Ho').
    eapply (no_ballot_reused_spec _ o' o); [exact Hr|set_solver|set_solver|exact Ho'|exact Ho]. }
  unfold justified in J. rewrite (r_prop_i _ _ _ _ Mo) in J. fold b v in J.
  destruct J as [[v' Hv]|J].
  - assert (v' = v) as -> by auto. exists a. split; [constructor|]. split; [|done].
    apply node_rel_emit; [by apply Hok|done|]. by rewrite (accept_not_exec _ _ Ho).
  - pose proof (r_inst _ _ _ _ X) as Hinst. rewrite <- Hinst in J, Hf.
    pose proof (r_pid _ _ _ _ Mo).
    pose proof (step_propose M me a b v eq_refl ltac:(simpl; lia) Hf J) as S.
    set (a1 := mkAstate _ _ _ _ _) in S. apply astep_ext in S as E.
    assert (I1 : ainv M a1) by (by eapply ainv_step).
    assert (P1 : a_prop a1 (instance_id_ n) b v) by (right; by rewrite Hinst).
    exists a1. split; [by apply rtc_once|]. split; [|done].
    split; [done|]. pose proof (mono_rel_ext _ _ _ _ _ E Mo) as []. destruct X.
    split; constructor; simpl; try done.
    + intros i' b' v' [Hv|(-> & -> & ->)] Hb.
      * destruct (r_props _ _ _ Hv Hb) as (o' & Hin & Ho'). exists o'. split; [set_solver|done].
      * exists o. split; [set_solver|]. by rewrite Hinst.
    + intros i' b' Ha Hb. destruct (r_asks _ _ Ha Hb) as (o' & Hin & Ho').
      exists o'. split; [set_solver|done].
    + intros _. left. by eapply accepting_rel_ext.
    + intros o' [?|Ho'%list_elem_of_singleton]%elem_of_app; [auto|]. subst. by apply Hok.
    + rewrite exec_log_other by (by eapply accept_not_exec). done.
Qed.

Lemma Accept_leads f n a :
  rec_ok f -> (forall m, keeps (f m)) -> node_rel (quiet n) a -> idle n ->
  justified a (proposer_ n) ->
  (skip_prepare (proposer_ n) = true -> later_free a (proposer_ n)) ->
  leads a (Accept f n).
Proof.
  intros Hf Hk R Hi J SK. unfold Accept. cbv zeta.
  set (n1 := n <| proposer_ ::= _ |>).
  destruct (retry_timer_form retry_timeout
    (n1 <| proposer_ ::= (fun p => p <| counter_ ::= StartNewRound |>) |>)) as (tl & id & ->).
  set (n2 := _ <| io_timers := tl |> <| proposer_ ::= _ |>).
  set (m := _ <| pm_instance_id := _ |> <| pm_proposal_id := _ |> <| pm_value := _ |>).
  destruct (broadcast_form M me (quiet n) n2 a (content_of n2 m) R) as (ds & -> & Hds); [done..|].
  apply self_request; try done; [|by right].
  intros T. pose proof R as (I & X & Mo).
  set (n3 := n2 <| proposer_ ::= (fun p => p <| skip_prepare := false |>) |>).
  assert (Hacc : accepting_rel M a me (proposer_ n2)) by (intros k Hin; simpl in Hin; set_solver).
  assert (R3 : node_rel n3 a).
  { apply (node_rel_proposer _ _ (quiet n)); try done.
    - apply Mo.
    - apply Mo.
    - by left. }
  pose proof (r_prop_i _ _ _ _ Mo) as Hpi. pose proof (r_id _ _ _ _ Mo) as Hid.
  destruct (propose_rel n3 a (OBroadcast ds (content_of n2 m)) R3) as (a1 & S & R4 & P1);
    try done.
  - simpl in *. by rewrite Hpi.
  - by apply trace_fine_reuse.
  - intros a1 E I1 P1 _. split; [|by split]. intros d. split; [apply Mo|].
    simpl in *. rewrite Hpi, Hid. done.
  - exists a1. split; [done|]. split; [|done].
    pose proof R4 as (_ & X4 & Mo4).
    apply (node_rel_proposer _ _ (emit (OBroadcast ds (content_of n2 m)) n3)); try done.
    + apply Mo.
    + intros _. left. eapply accepting_rel_ext; [by eapply asteps_ext|done].
    + intros Hs. eapply later_free_skip; [by apply SK|by eapply asteps_ext|].
      simpl in *. rewrite Hpi. exact P1.
Qed.

Lemma NewPropose_leads f v n a :
  rec_ok f -> (forall m, keeps (f m)) -> node_rel n a -> idle n -> leads a (NewPropose f v n).
Proof.
  intros Hf Hk R Hi. pose proof R as (_ & X & Mo). unfold NewPropose. cbv zeta.
  set (n1 := n <| proposer_ ::= _ |>).
  assert (R1 : node_rel (quiet n1) a) by (by apply (quiet_rel n)).
  destruct (skip_prepare (proposer_ n1) && _) eqn:E; [|by apply Prepare_leads].
  reflect_bools. destruct (r_skip _ _ _ _ Mo) as (Q & HQ & Hb & Hj); [done|].
  apply Accept_leads; try done.
  - unfold justified. simpl. destruct (Hj (prop_instance_id (proposer_ n))) as [?|Hno]; [lia|by left|].
    right. exists Q. split; [done|]. split; [|by left]. intros k Hin. destruct (Hb k Hin); auto.
  - intros _. exists Q. split; [exact HQ|]. split; [done|]. intros j Hlt. apply Hj. simpl in Hlt. lia.
Qed.

(** * Replies *)

Lemma quorum_of_counter n a Q :
  node_rel n a -> Q ⊆ M -> (GetMajoritySize n <= size Q)%nat -> quorum M Q.
Proof.
  intros (_ & _ & Mo) Hs Hc. split; [done|]. rewrite <- (r_members _ _ _ _ Mo).
  by rewrite size_dom.
Qed.

Lemma ballot_default_min b : 0 < GetProposalId b -> ~ b <=b Ballot_default.
Proof. intros H Hle. unfold Ballot_default in *. ballot_lia. Qed.

(** Phase 1 is complete. *)
Lemma promises_justify n a :
  node_rel n a -> preparing_rel M a me (proposer_ n) ->
  (GetMajoritySize n <= size (promisors_or_acceptors (counter_ (proposer_ n))))%nat ->
  justified a (proposer_ n) /\ later_free a (proposer_ n).
Proof.
  intros R [Hq Hmax] Hc. pose proof R as (I & X & Mo).
  set (Q := promisors_or_acceptors (counter_ (proposer_ n))) in *.
  assert (HQ : quorum M Q) by (eapply quorum_of_counter; [done| |done]; intros k ?; by apply Hq).
  assert (Hb : forall k, k ∈ Q -> my_ballot me (proposer_ n) <=b a_bal a k) by (intros k ?; by apply Hq).
  split.
  - destruct Hmax as [E|(Hpos & Hle & k & Hv)].
    + right. exists Q. split; [done|]. split; [intros k Hk; destruct (Hb k Hk); auto|]. left.
      intros k Hk b' v' Hv Hlt. destruct (Hq k Hk) as (_ & _ & _ & Hbound).
      pose proof (Hbound _ _ Hv Hlt) as Hle. rewrite E in Hle. revert Hle. apply ballot_default_min.
      apply (vote_proposed _ _ I), (prop_bounds _ _ I) in Hv. tauto.
    + assert (Hb' : forall j, j ∈ Q -> a_bal a j = my_ballot me (proposer_ n) \/
                        my_ballot me (proposer_ n) <b a_bal a j)
        by (intros j Hj; destruct (Hb j Hj); auto).
      destruct Hv as [Hv|[_ Hch]]; [|right; exists Q; by split_and!; [..|right; right]].
      destruct Hle as [E|Hlt].
      * left. rewrite <- E. eexists. by eapply (vote_proposed _ _ I).
      * right. exists Q. split; [done|]. split; [done|]. right. left.
        exists (max_ballot (proposer_ n)), k. split_and!; [done..|].
        intros j b' v' Hj Hv' Hlt'. destruct (Hq j Hj) as (_ & _ & _ & Hbound). by eapply Hbound.
  - exists Q. split; [exact HQ|]. split; [done|]. intros j Hj. right. intros k Hk.
    destruct (Hq k Hk) as (_ & _ & Hno & _). by apply Hno.
Qed.

(** Counting a promise. *)
Lemma count_promise a p m :
  pm_rejected_id m = 0 -> pm_instance_id m = prop_instance_id p ->
  promise_report M a (pm_node_id m) (pm_instance_id m) (my_ballot me p)
    (Ballot (pm_pre_accepted_id m) (pm_pre_accepted_node_id m)) (pm_value m) ->
  preparing_rel M a me p -> preparing_rel M a me (prepare_reply_count m p).
Proof.
  intros Hr Hi (H1 & H2 & H3 & H4 & H5) [Hq Hmax]. unfold prepare_reply_count. rewrite Hr. simpl.
  set (pre := Ballot _ _) in *. rewrite Hi in *.
  destruct (ballot_gtb pre (max_ballot p)) eqn:G; simpl; split; simpl.
  - apply ballot_gtb_spec in G.
    intros k [->%elem_of_singleton|Hk]%elem_of_union; [done|].
    destruct (Hq k Hk) as (? & ? & ? & Hb). split_and!; try done.
    intros b' v' Hv Hlt. eapply ballot_le_trans; [by eapply Hb|by right].
  - apply ballot_gtb_spec in G. right. destruct H5 as [E|(? & ? & ?)]; [|by eauto].
    exfalso. rewrite E in G. destruct Hmax as [E'|[Hpos _]].
    + rewrite E' in G. by apply ballot_lt_irrefl in G.
    + apply (ballot_default_min (max_ballot p)); [done|by right].
  - apply ballot_gtb_false in G.
    intros k [->%elem_of_singleton|Hk]%elem_of_union; [|by apply Hq].
    split_and!; try done. intros b' v' Hv Hlt. eapply ballot_le_trans; [by eapply H4|done].
  - done.
Qed.

Lemma prepare_reply_rest m p :
  let p' := prepare_reply_count m p in
  prop_instance_id p' = prop_instance_id p /\ proposal_id p' = proposal_id p /\
  preparing p' = preparing p /\ accepting p' = accepting p /\ skip_prepare p' = skip_prepare p.
Proof. unfold prepare_reply_count. destruct (_ =? _); simpl; [|done]. by destruct (ballot_gtb _ _). Qed.

Lemma reject_promise a p m :
  pm_rejected_id m <> 0 -> preparing_rel M a me p -> preparing_rel M a me (prepare_reply_count m p).
Proof.
  intros Hr H. unfold prepare_reply_count. by rewrite (proj2 (Z.eqb_neq _ _) Hr).
Qed.

Lemma OnPrepareReply_leads f m n a :
  rec_ok f -> (forall m, keeps (f m)) -> node_rel n a -> idle n -> pm_type m = PREPARE_REPLY ->
  input_ok M a me n m -> leads a (OnPrepareReply f m n).
Proof.
  intros Hf Hk R Hi Ht Hin. unfold input_ok in Hin. rewrite Ht in Hin. destruct Hin as [Hm Hc].
  unfold msg_ok in Hm. unfold reply_current in Hc. rewrite Ht in Hm, Hc. destruct Hm as [Hask Hrep].
  unfold OnPrepareReply. cbv zeta. eapply leads_core; [|apply set_max_core].
  destruct (preparing (proposer_ n)) eqn:Hp; [|by apply leads_refl].
  destruct (Z.eqb_spec (pm_instance_id m) (prop_instance_id (proposer_ n))) as [Ei|Ei];
    [|by apply leads_refl].
  simpl in Hc. apply Z.eqb_eq in Hc. cbn [andb].
  pose proof R as (I & X & Mo). pose proof (r_prop_i _ _ _ _ Mo) as Hpi.
  assert (Hpr : preparing_rel M a me (prepare_reply_count m (proposer_ n))).
  { destruct (r_preparing _ _ _ _ X Hp) as [Hpr|Hno].
    - destruct (decide (pm_rejected_id m = 0)) as [Hr|Hr]; [|by apply reject_promise].
      apply count_promise; try done. unfold my_ballot. rewrite <- Hc. auto.
    - exfalso. apply Hno. unfold my_ballot. rewrite <- Hc, <- Hpi, <- Ei. done. }
  destruct (prepare_reply_rest m (proposer_ n)) as (P1 & P2 & P3 & P4 & P5).
  set (n1 := n <| proposer_ ::= prepare_reply_count m |>).
  assert (R1 : node_rel n1 a).
  { apply (node_rel_proposer _ _ n); try done; simpl.
    - by rewrite P1.
    - rewrite P2. apply Mo.
    - rewrite P4. intros _. by apply Mo.
    - by left.
    - rewrite P4, (r_phase _ _ _ _ Mo Hp). done.
    - rewrite P5. unfold skip_rel, my_ballot. rewrite P1, P2. apply Mo. }
  destruct (IsPassedOnThisRound _ _) eqn:Hpass; [|destruct (_ || _)].
  - apply Nat.leb_le in Hpass. destruct (promises_justify n1 a R1) as [J L]; [done..|].
    apply Accept_leads; try done. by apply (quiet_rel n1).
  - eapply same_core_leads; [|exact R1|done].
    etrans; [|apply jittered_timer_core]. by split; constructor.
  - by apply leads_refl.
Qed.

Lemma NewChosen_leads f n a :
  rec_ok f -> (forall m, keeps (f m)) -> node_rel n a -> idle n ->
  chosen_at M a (instance_id_ n) (my_ballot me (proposer_ n)) ->
  leads a (Proposer_NewChosenValue f n).
Proof.
  intros Hf Hk R Hi Hch. unfold Proposer_NewChosenValue. cbv zeta.
  set (m := _ <| pm_instance_id := _ |> <| pm_proposal_id := _ |>).
  destruct (broadcast_form M me n n a (content_of n m) R) as (ds & -> & Hds); [done..|].
  pose proof R as (_ & _ & Mo). pose proof (r_id _ _ _ _ Mo) as Hid.
  assert (R1 : node_rel (emit (OBroadcast ds (content_of n m)) n) a).
  { apply node_rel_emit; [|done..]. intros _. split; [|done]. intros d. unfold msg_ok. simpl.
    by rewrite (r_prop_i _ _ _ _ Mo), Hid. }
  apply Hf; [done..|]. unfold input_ok. simpl. intros _ _. simpl.
  by rewrite (r_acc_i _ _ _ _ Mo), Hid.
Qed.

Lemma OnAccpetReply_leads f m n a :
  rec_ok f -> (forall m, keeps (f m)) -> node_rel n a -> idle n -> pm_type m = ACCEPT_REPLY ->
  input_ok M a me n m -> leads a (OnAccpetReply f m n).
Proof.
  intros Hf Hk R Hi Ht Hin. unfold input_ok in Hin. rewrite Ht in Hin. destruct Hin as [Hm Hc].
  unfold msg_ok in Hm. unfold reply_current in Hc. rewrite Ht in Hm, Hc. destruct Hm as [[v Hprop] Hv].
  unfold OnAccpetReply. cbv zeta. eapply leads_core; [|apply set_max_core].
  destruct (accepting (proposer_ n)) eqn:Hp; [|by apply leads_refl].
  destruct (Z.eqb_spec (pm_instance_id m) (prop_instance_id (proposer_ n))) as [Ei|Ei];
    [|by apply leads_refl].
  simpl in Hc. apply Z.eqb_eq in Hc. cbn [andb].
  pose proof R as (I & X & Mo). pose proof (r_prop_i _ _ _ _ Mo) as Hpi.
  rewrite Hc, Ei in Hprop, Hv. fold (my_ballot me (proposer_ n)) in Hprop, Hv.
  assert (Hacc : accepting_rel M a me (accept_reply_count m (proposer_ n))).
  { destruct (r_accepting _ _ _ _ X Hp) as [Ha|Hno];
      [|exfalso; apply (Hno v); by rewrite <- Hpi].
    unfold accept_reply_count. destruct (Z.eqb_spec (pm_rejected_id m) 0); [|done].
    intros k. simpl. intros [->%elem_of_singleton|Hin]%elem_of_union; [by apply Hv|by apply Ha]. }
  set (n1 := n <| proposer_ ::= accept_reply_count m |>).
  assert (P : exists c, accept_reply_count m (proposer_ n) = proposer_ n <| counter_ := c |>).
  { unfold accept_reply_count. destruct (_ =? _); by eexists. }
  destruct P as [c P].
  assert (R1 : node_rel n1 a).
  { apply (node_rel_proposer _ _ n); try done; simpl; rewrite ?P in *; simpl; try apply Mo.
    - intros Hpr. rewrite (r_phase _ _ _ _ Mo Hpr) in Hp. done.
    - by left. }
  destruct (IsPassedOnThisRound _ _) eqn:Hpass; [|destruct (_ || _)].
  - apply Nat.leb_le in Hpass.
    apply NewChosen_leads; [done|done| |done|].
    { eapply same_core_rel; [|exact R1]. by split; constructor. }
    simpl. rewrite P. unfold my_ballot. simpl. fold (my_ballot me (proposer_ n)).
    exists (promisors_or_acceptors (counter_ (proposer_ n1))). split.
    + eapply quorum_of_counter; [exact R1| |done]. intros k Hin. by apply Hacc.
    + intros k Hin. destruct (Hacc k Hin) as [_ Hx]. rewrite P in Hx. simpl in Hx.
      by rewrite <- Hpi.
  - eapply same_core_leads; [|exact R1|done].
    etrans; [|apply jittered_timer_core]. by split; constructor.
  - by apply leads_refl.
Qed.

End ProposerSim.
