(* ===== verification/LearnerSim.v ===== *)
(** The learner's handlers and the execution of learned values: only chosen values
    are learned, and executing one advances the node to the next instance. *)

From S2P Require Import Prelude Ballot Proto Storage Random TimerList Counter NodeState.
From S2P Require Import AcceptorModel ProposerModel LearnerModel LogModel InstanceModel.
From S2P Require Import Traces Consensus System Simulation AcceptorSim.

Section LearnerSim.
Context {FC : FixedCoding} {FCL : FixedCodingLaws} {LD : LevelDB} {LDL : LevelDBLaws}.
Context {LDR : LevelDBReliable} {MM : MachineManager} {MML : MachineManagerLaws}.
Context {CM : CheckpointManager} {CML : CheckpointManagerLaws}.
Context {AL : Allocator} {PI : ProtoCodec PaxosInstance} {PIL : ProtoCodecLaws PaxosInstance}.
Context {RM : RestartMode}.
Variable M : gset Z.
Variable me : Z.

Notation node_rel := (node_rel M me).
Notation leads := (leads M me).
Notation leads_learned := (leads_learned M me).

Lemma leads_to_learned a n : leads a n -> leads_learned a n.
Proof.
  intros H T. destruct (H T) as (a' & ? & ? & Hi). exists a'. split_and!; try done.
  intros Hl. unfold idle in Hi. congruence.
Qed.

(** * Outputs with no bearing on a round *)

Lemma emit_leads n a o :
  output_ok M a me o -> exec_of o = None -> node_rel n a -> idle n -> leads a (emit o n).
Proof. intros ? E ??. apply leads_refl; [by apply node_rel_emit; rewrite ?E|done]. Qed.

Lemma quiet_send n a d c :
  (ct_type c = PAXOS_MESSAGE -> msg_ok M a d (ct_paxos_msg c) /\ ~ is_request (ct_paxos_msg c)) ->
  node_rel n a -> idle n -> leads a (SendMessage d c n).
Proof. apply send_leads. Qed.

Lemma learn_timer_core t n : same_core n (AddLearnTimer t n).
Proof.
  unfold AddLearnTimer, io_RunAfter. destruct (RunAfter _ _ _ _). by split; constructor.
Qed.

(** Broadcasts to the cluster of the configuration. *)
Lemma node_rel_broadcast n a ids m :
  node_rel n a -> (forall d, msg_ok M a d m) -> pm_node_id m = me ->
  node_rel (emit (OBroadcast (others n ids) (content_of n m)) n) a.
Proof.
  intros R Hm Hid. apply node_rel_emit; [|done..]. intros _. split; [done|]. split; [done|].
  pose proof R as (_ & _ & Mo). rewrite <- (r_id _ _ _ _ Mo). apply others_not_me.
Qed.

Lemma broadcast_learn_leads n a m :
  node_rel n a -> idle n -> (forall d, msg_ok M a d m) -> pm_node_id m = me ->
  leads a (BroadcastMessageForLearn (content_of n m) n).
Proof.
  intros R Hi Hm Hid. unfold BroadcastMessageForLearn, BroadcastMessage.
  destruct (cf_cluster _).
  - destruct (remove_dups _); [by apply leads_refl|].
    apply leads_refl; [by apply node_rel_broadcast|done].
  - destruct ((map_to_list (GetMembership n)).*1); [by apply leads_refl|].
    apply leads_refl; [by apply node_rel_broadcast|done].
Qed.

(** * Learning *)

Lemma follower_broadcast n a b :
  node_rel n a -> learned_rel M me n a -> has_learned (learner_ n) = true -> 0 < GetProposalId b ->
  let n' := Learner_BroadcastMessageToFollower b n in node_rel n' a /\ learned_rel M me n' a.
Proof.
  intros R L Hl Hb. unfold Learner_BroadcastMessageToFollower, BroadcastMessageToFollower.
  destruct (cf_cluster _) as [c|]; [|done]. destruct (GetFollowers _ _); [done|]. cbv zeta.
  destruct (remove_dups _); [done|]. split.
  2: { intros H. destruct (L H) as (? & ? & ?). split_and!; try done. simpl.
       by rewrite exec_log_other. }
  pose proof R as (_ & _ & Mo). apply node_rel_broadcast; [done| |by apply Mo].
  intros d. unfold msg_ok. simpl. rewrite (r_lrn_i _ _ _ _ Mo). split; [done|]. by apply L.
Qed.

(** Storing a learned value in the learner. *)
Lemma finish_learn n a v :
  node_rel n a -> node_rel (FinishLearnValue v n) a.
Proof.
  intros (I & X & Mo). split; [done|]. destruct X, Mo. by split; constructor.
Qed.

(** The acceptor's ballot, once chosen, is that of an accepted and chosen value. *)
Lemma accepted_pos n a :
  node_rel n a -> chosen_at M a (instance_id_ n) (accepted_ballot (acceptor_ n)) ->
  0 < GetProposalId (accepted_ballot (acceptor_ n)) /\
  chosen M a (instance_id_ n) (accepted_value (acceptor_ n)).
Proof.
  intros (I & X & Mo) Hch. pose proof (r_acc _ _ _ _ X) as Ha.
  unfold accepted_rel in Ha. rewrite (r_acc_i _ _ _ _ Mo) in Ha.
  destruct Ha as [[E _]|(? & _ & [Hv|[_ Hv]] & _)]; [|split; [done|]; by eapply chosen_at_value|done].
  exfalso. destruct Hch as (Q & HQ & Hv).
  destruct (quorum_nonempty _ _ HQ) as [k Hk]. destruct (Hv k Hk) as [v Hkv].
  apply (vote_proposed _ _ I), (prop_bounds _ _ I) in Hkv. rewrite E in Hkv. simpl in Hkv. lia.
Qed.

(** The record of an accepted value. *)
Lemma accepted_record n a :
  node_rel n a -> idle n -> 0 < GetProposalId (accepted_ballot (acceptor_ n)) ->
  log_record (db_ n) (instance_id_ n) (acceptor_record (acceptor_ n)) /\
  record_sound a me (instance_id_ n) (acceptor_record (acceptor_ n)).
Proof.
  intros (I & X & Mo) Hi Hpos. pose proof (r_db_cur _ _ _ _ Mo Hi Hpos) as H0. split.
  - destruct (DB_Get _ _) as [res s] eqn:G. simpl in H0. subst res.
    split; [by rewrite <- (r_db_rec _ _ _ _ Mo Hi s G)|]. split; [apply Mo|done].
  - unfold record_sound. simpl. rewrite <- !surjective_ballot, <- (r_bal _ _ _ _ X). intros _.
    pose proof (r_acc _ _ _ _ X) as Ha. unfold accepted_rel in Ha. rewrite (r_acc_i _ _ _ _ Mo) in Ha.
    destruct Ha as [[E _]|(_ & ? & _ & ?)]; [by rewrite E in Hpos|done].
Qed.

Lemma OnNewChosenValue_leads m n a :
  node_rel n a -> idle n ->
  (pm_instance_id m = acc_instance_id (acceptor_ n) -> concluded M a n m) ->
  leads_learned a (OnNewChosenValue m n).
Proof.
  intros R Hi Hc. unfold OnNewChosenValue. pose proof R as (I & X & Mo).
  destruct (Z.eqb_spec (pm_instance_id m) (lrn_instance_id (learner_ n))) as [Ei|Ei];
    [|by apply leads_to_learned, leads_refl].
  destruct (ballot_eqb _ _) eqn:B; [|by apply leads_to_learned, leads_refl].
  apply ballot_eqb_spec in B. intros _. exists a. split; [constructor|].
  rewrite (r_lrn_i _ _ _ _ Mo), <- (r_acc_i _ _ _ _ Mo) in Ei.
  specialize (Hc Ei B). rewrite (r_acc_i _ _ _ _ Mo), B in Hc.
  destruct (accepted_pos n a R Hc) as [Hpos Hv].
  apply follower_broadcast; [by apply finish_learn| |done|done]. intros _. split_and!.
  - done.
  - destruct (accepted_record n a R Hi Hpos). by exists (acceptor_record (acceptor_ n)).
  - by apply Mo.
Qed.

Lemma OnSendLearnedValue_leads m n a :
  node_rel n a -> idle n -> 0 < pm_proposal_id m -> chosen M a (pm_instance_id m) (pm_value m) ->
  leads_learned a (OnSendLearnedValue m n).
Proof.
  intros R Hi Hpos Hc. unfold OnSendLearnedValue. pose proof (instance_u64 _ _ _ _ R) as Hu.
  pose proof R as (I & X & Mo).
  destruct (Z.eqb_spec (pm_instance_id m) (lrn_instance_id (learner_ n))) as [Ei|Ei];
    [|by apply leads_to_learned, leads_refl].
  rewrite (r_lrn_i _ _ _ _ Mo) in Ei. unfold Learner_WriteToDB.
  destruct (DB_Put_reliable false (pm_instance_id m) (SerializeAsString (learner_record m)) (db_ n))
    as [d P]. rewrite P. simpl. intros _. exists a. split; [constructor|]. rewrite Ei in P, Hc.
  apply follower_broadcast; [| |done|done].
  - split; [done|]. destruct X, Mo. split; constructor; try done.
    + simpl. intros j s Hj Hlt Hg. apply r_db; [done..|].
      rewrite <- Hg. symmetry. eapply DB_Get_Put_ne; [apply Hu|done|lia|done].
    + simpl. intros j Hj Hk Hlt. rewrite (DB_Get_Put_ne _ _ _ _ _ _ Hu Hj ltac:(lia) P). by apply r_db_top.
    + simpl. intros Hm j Hj Hmin. rewrite (DB_Get_Put_ne _ _ j _ _ _ Hu ltac:(unfold in_u64 in *; lia) ltac:(lia) P).
      by apply r_db_all.
  - intros _. split; [done|]. split; [|by apply Mo]. exists (learner_record m). simpl.
    unfold log_record, record_sound. rewrite (DB_Get_Put_eq _ _ _ _ _ P). simpl. split; [done|].
    split; [done|]. intros Hle. split; [apply ballot_le_refl|]. intros b v Hv.
    eapply ballot_le_trans; [|exact Hle]. by eapply vote_bounds.
Qed.

(** * Executing *)

Lemma task_ok_mono a i j t : i <= j -> task_ok M a i t -> task_ok M a j t.
Proof. intros H. destruct t; simpl; intuition lia. Qed.

Lemma next_instance_out n : out_ (Instance_NextInstance n) = out_ n.
Proof.
  unfold Instance_NextInstance, Acceptor_NextInstance, Acceptor_SetInstanceId. simpl.
  by destruct (negb _).
Qed.

Lemma next_instance_rel n a :
  node_rel n a -> chosen M a (instance_id_ n) (learned_value (learner_ n)) ->
  (exists r, log_record (db_ n) (instance_id_ n) r /\ pi_accepted_value r = learned_value (learner_ n) /\
     record_sound a me (instance_id_ n) r) ->
  ran (exec_log (out_ n)).*1 (instance_id_ n) -> instance_id_ n < 2 ^ 63 ->
  exists a1, asteps M me a a1 /\ node_rel (Instance_NextInstance n) a1 /\
    idle (Instance_NextInstance n).
Proof.
  intros R Hch (r & (Hg & Hri & Hrp) & Hrv & Hsound) Hex Hlt. pose proof R as (I & X & Mo).
  pose proof (r_range _ _ _ _ Mo) as Hr. pose proof (r_inst _ _ _ _ X) as Hinst.
  assert (Hn : instance_id_ n +64 1 = instance_id_ n + 1) by (apply add64_small; lia).
  pose proof (step_advance M me a (instance_id_ n + 1) ltac:(lia)) as S.
  set (a1 := mkAstate _ _ _ _ _) in S. apply astep_ext in S as E.
  exists a1. split; [by apply rtc_once|]. unfold Instance_NextInstance, Acceptor_NextInstance,
    Acceptor_SetInstanceId, Proposer_NextInstance, Learner_NextInstance. simpl.
  assert (Hne : (instance_id_ n =? instance_id_ n + 1) = false) by (apply Z.eqb_neq; lia).
  rewrite (r_acc_i _ _ _ _ Mo), Hn, Hne. simpl.
  split; [|done]. split; [by eapply ainv_step|].
  pose proof (mono_rel_ext _ _ _ _ _ E Mo) as []. destruct X.
  split; constructor; simpl; rewrite ?r_prop_i, ?r_lrn_i, ?Hn; try done; try lia.
  - by rewrite upd_eq.
  - left. split; [done|]. intros b v Hv. apply (vote_bounds _ _ I) in Hv. simpl in Hv. lia.
  - intros _ _ r'. replace (instance_id_ n + 1 - 1) with (instance_id_ n) by lia. rewrite Hg.
    intros [= Er]. apply (f_equal ParseFromString) in Er. rewrite !parse_serialize in Er.
    by injection Er as <-.
  - intros _. right. intros Ha. apply (ask_bounds _ _ I) in Ha. simpl in Ha. lia.
  - intros _. right. intros v Ha. apply (prop_bounds _ _ I) in Ha. simpl in Ha. lia.
  - split; [apply r_chosen_ids|lia].
  - intros Hs. destruct (r_skip Hs) as (Q & HQ & Hb & Hj). exists Q. split; [exact HQ|].
    split; [done|]. intros j Hle. apply Hj. simpl in Hle. rewrite r_prop_i, Hn in Hle. lia.
  - intros j s Hj Hle Hs. destruct (decide (j = instance_id_ n)) as [->|Hj'].
    + rewrite Hg in Hs. injection Hs as <-. exists r. split_and!; [done..|]. rewrite Hrv.
      by eapply chosen_ext.
    + apply r_db; [done|lia|done].
  - intros _ s Hs. exfalso. eapply (r_db_top (instance_id_ n + 1)); [..|by rewrite Hs];
      unfold in_u64, kMinChosenKey, u64_max; lia.
  - intros j Hj Hk Hlt'. apply r_db_top; [done|done|lia].
  - intros Hm j Hj Hmin. destruct (decide (j = instance_id_ n)) as [->|Hj']; [by rewrite Hg|].
    apply r_db_all; [done|lia|done].
  - intros _. by replace (instance_id_ n + 1 - 1) with (instance_id_ n) by lia.
  - intros t Ht. eapply task_ok_mono; [|by apply r_tasks]. lia.
Qed.

Lemma node_rel_mm n a m :
  mm_GetMembership m = mm_GetMembership (mm_ n) -> node_rel n a -> node_rel (n <| mm_ := m |>) a.
Proof.
  intros E (I & X & Mo). split; [done|]. destruct X, Mo. split; constructor; try done.
  unfold GetMembership. simpl. by rewrite E.
Qed.

Lemma node_rel_complete n a i st c b c' :
  node_rel n a ->
  node_rel ((emit (OProposeComplete i st c) n) <| is_proposing := b |> <| context_ := c' |>) a.
Proof.
  intros R. apply (same_core_rel M me (emit (OProposeComplete i st c) n)); [by split; constructor|].
  by apply node_rel_emit.
Qed.

Lemma CheckLearn_leads a n : leads_learned a n -> leads a (CheckLearn n).
Proof.
  intros H T. unfold CheckLearn in *.
  destruct (has_learned (learner_ n)) eqn:Hl.
  2: { destruct (H T) as (a' & ? & ? & _). by exists a'. }
  cbv zeta in *. set (n0 := if is_proposing n then io_Remove (propose_timer n) n else n) in *.
  assert (C : same_core n n0) by (subst n0; destruct (is_proposing n); by split; constructor).
  unfold MachineExecute, Execute in *.
  set (v := learned_value (learner_ n)) in *. set (ctx := if _ && _ then _ else _) in *.
  destruct (mm_Execute _ _ _ _ _ _) as [m success] eqn:Em.
  set (n1 := emit (OExecute (instance_id_ n0) v success) (n0 <| mm_ := m |>)) in *.
  set (n2 := if is_proposing n1 then _ else n1) in *.
  assert (G : out_ n1 `prefix_of` out_ n2) by (unfold n2; destruct (is_proposing n1); [by eexists|done]).
  assert (T2 : trace_fine (out_ n2) = true)
    by (destruct success; [by rewrite next_instance_out in T|done]).
  assert (Hex : OExecute (instance_id_ n0) v success ∈ out_ n1) by (simpl; set_solver).
  destruct (trace_fine_execute _ _ _ _ T2 (elem_of_app_prefix _ _ _ G Hex)) as (-> & Hmid & Hlt).
  assert (G0 : out_ n `prefix_of` out_ n2).
  { rewrite <- (sc_out _ _ (proj1 C)). etrans; [|exact G]. by eexists. }
  destruct (H (trace_fine_prefix _ _ G0 T2)) as (a1 & S1 & R1 & L1).
  destruct (L1 Hl) as (Hch & Hlog & Hseq).
  assert (R2 : node_rel n1 a1).
  { apply node_rel_emit; [simpl; by rewrite (sc_inst _ _ (proj1 C))| |].
    2: { intros _. simpl. by rewrite (sc_learned _ _ (proj1 C)). }
    apply node_rel_mm; [|by eapply same_core_rel].
    rewrite <- (membership_stable (now_ n0) (cf_group_id (config_ n0)) (instance_id_ n0) v ctx (mm_ n0)) by done.
    by rewrite Em. }
  assert (R3 : node_rel n2 a1).
  { unfold n2. destruct (is_proposing n1); [|done].
    by apply node_rel_complete. }
  destruct C as [C _].
  assert (Hl2 : learner_ n2 = learner_ n0) by (unfold n2; by destruct (is_proposing n1)).
  assert (Hd2 : db_ n2 = db_ n0 /\ instance_id_ n2 = instance_id_ n0)
    by (unfold n2; by destruct (is_proposing n1)).
  assert (Hx2 : exec_log (out_ n2) = exec_log (out_ n1)).
  { unfold n2. destruct (is_proposing n1); [|done]. simpl. by rewrite exec_log_other. }
  destruct (next_instance_rel n2 a1) as (a2 & S2 & R4 & I4); [done| | | | |].
  - destruct Hd2 as [_ ->]. by rewrite Hl2, (sc_value _ _ C), (sc_inst _ _ C).
  - destruct Hd2 as [-> ->]. by rewrite Hl2, (sc_value _ _ C), (sc_db _ _ C), (sc_inst _ _ C).
  - destruct Hd2 as [_ ->]. rewrite Hx2. unfold n1. cbn [emit out_ set_field set_out set_mm].
    unfold exec_log. rewrite omap_app, fmap_app. fold (exec_log (out_ n0)).
    rewrite (sc_out _ _ C), (sc_inst _ _ C). simpl.
    pose proof R1 as (_ & _ & Mo1). pose proof (r_range _ _ _ _ Mo1). apply ran_snoc; [lia|done].
  - by destruct Hd2 as [_ ->].
  - exists a2. split; [by etrans|done].
Qed.

(** * Catching up *)

Lemma AskForLearn_leads t n a : node_rel n a -> idle n -> leads a (AskForLearn t n).
Proof.
  intros R Hi. unfold AskForLearn. cbv zeta. set (n1 := n <| learner_ ::= _ |>).
  assert (C : same_core n n1) by (by split; constructor).
  assert (H : leads a (BroadcastMessageForLearn (content_of n1
            (new_message ASK_FOR_LEARN n1 <| pm_instance_id := lrn_instance_id (learner_ n1) |>)) n1)).
  { pose proof (instance_u64 _ _ _ _ R) as Hu. pose proof R as (_ & _ & Mo).
    apply broadcast_learn_leads; [by eapply same_core_rel|done| |by apply Mo].
    intros d. unfold msg_ok. simpl. by rewrite (r_lrn_i _ _ _ _ Mo). }
  destruct t; [|done]. destruct (Random_Uniform _ _) as [r seed].
  eapply leads_core; [exact H|]. etrans; [|apply learn_timer_core]. by split; constructor.
Qed.

(** The log answers for the instances before the current one. *)
Lemma logged_chosen n a j s :
  node_rel n a -> in_u64 j -> j < instance_id_ n -> DB_Get j (db_ n) = (0, s) ->
  let r := (ParseFromString s).2 in pi_instance_id r = j /\ 0 < pi_accepted_id r /\ chosen M a j (pi_accepted_value r).
Proof.
  intros (_ & _ & Mo) Hj Hlt Hg. destruct (r_db _ _ _ _ Mo j s Hj Hlt Hg) as (r & -> & ? & ? & ?).
  by rewrite parse_serialize.
Qed.

Lemma send_logged n a d j s :
  node_rel n a -> idle n -> in_u64 j -> j < instance_id_ n -> DB_Get j (db_ n) = (0, s) ->
  leads a (SendLearnedValue d (ParseFromString s).2 n).
Proof.
  intros R Hi Hj Hlt Hg. destruct (logged_chosen n a j s) as (Ei & Hp & Hc); try done.
  apply send_leads; [|done..]. intros _. split; [|by intros []].
  unfold msg_ok. simpl. by rewrite Ei.
Qed.

Lemma queue_leads n a t :
  node_rel n a -> idle n -> task_ok M a (instance_id_ n) t -> leads a (learn_QueueInLoop t n).
Proof.
  intros (I & X & Mo) Hi Ht. apply leads_refl; [|done]. split; [done|]. destruct X, Mo.
  split; constructor; try done. simpl.
  intros t' [?|Hx%list_elem_of_singleton]%elem_of_app; [auto|by subst].
Qed.

Lemma OnAskForLearn_leads m n a : node_rel n a -> idle n -> leads a (OnAskForLearn m n).
Proof.
  intros R Hi. unfold OnAskForLearn. pose proof R as (_ & _ & Mo).
  destruct (Z.ltb_spec (pm_instance_id m) (lrn_instance_id (learner_ n))) as [Hlt|];
    [|by apply leads_refl]. rewrite (r_lrn_i _ _ _ _ Mo) in *.
  destruct (Z.eqb_spec (pm_instance_id m) (instance_id_ n -64 1)) as [E|E].
  - destruct (DB_Get _ _) as [res s] eqn:G. destruct (Z.eqb_spec res 0) as [->|];
      [|by apply leads_refl].
    apply (send_logged n a _ (pm_instance_id m) s); try done. rewrite E. apply wrap64_range.
  - destruct (negb _); [|by apply leads_refl]. unfold SendNowInstanceId. cbv zeta.
    apply queue_leads; [done..|]. intros _. split; [done|]. by intros [].
Qed.

Lemma OnSendNowInstanceId_leads m n a : node_rel n a -> idle n -> leads a (OnSendNowInstanceId m n).
Proof.
  intros R Hi. unfold OnSendNowInstanceId, AskForCheckpoint, ComfirmAskForLearn. cbv zeta.
  pose proof (instance_u64 _ _ _ _ R) as Hu. pose proof R as (_ & _ & Mo).
  destruct (_ && _); [|by apply leads_refl]. destruct (_ <? _).
  - destruct (negb _); [|by apply leads_refl].
    eapply leads_core; [apply send_leads; [|exact R|done]|by split; constructor].
    intros _. split; [done|by intros []].
  - destruct (_ && _); [|by apply leads_refl].
    eapply leads_core; [apply send_leads; [|exact R|done]|by split; constructor].
    intros _. split; [|by intros []]. unfold msg_ok. simpl. by rewrite (r_lrn_i _ _ _ _ Mo).
Qed.

Lemma OnComfirmAskForLearn_leads m n a :
  node_rel n a -> idle n -> in_u64 (pm_instance_id m) -> leads a (OnComfirmAskForLearn m n).
Proof.
  intros R Hi Hu. apply queue_leads; [done..|]. split; [done|].
  pose proof R as (_ & _ & Mo). by rewrite (r_lrn_i _ _ _ _ Mo).
Qed.

Lemma ASyncSend_leads fuel d from n a :
  node_rel n a -> idle n -> in_u64 from -> from + Z.of_nat fuel <= instance_id_ n ->
  leads a (ASyncSend_loop fuel d from n).
Proof.
  revert from n a. induction fuel as [|fuel IH]; intros from n a R Hi Hf Hle;
    [by apply leads_refl|]. cbn [ASyncSend_loop].
  destruct (DB_Get from (db_ n)) as [res s] eqn:G. destruct (Z.eqb_spec res 0) as [->|];
    [|by apply leads_refl]. cbv zeta.
  pose proof (instance_u64 _ _ _ _ R) as Hu.
  eapply leads_trans; [exact (send_logged n a d from s R Hi Hf ltac:(lia) G)|apply ASyncSend_keeps|].
  intros a1 S R1 I1. unfold in_u64 in *. rewrite add64_small by lia. apply IH; try done; [lia|].
  unfold SendMessage, assert_, emit. repeat case_match; simpl; lia.
Qed.

Lemma packets_leads ps n a :
  (forall d p, (d, p) ∈ ps -> ct_type p = CHECKPOINT_MESSAGE) ->
  node_rel n a -> idle n -> leads a (foldl (fun n p => SendMessage p.1 p.2 n) n ps).
Proof.
  revert n a. induction ps as [|[d p] ps IH]; intros n a Hp R Hi; [by apply leads_refl|]. simpl.
  eapply leads_trans; [apply (send_leads M me n a d p); [|done..]|apply (packets_maintain grows)|].
  - intros T. rewrite (Hp d p) in T; [done|set_solver].
  - intros a1 S R1 I1. apply IH; [|done..]. intros d0 p0 Hin. apply (Hp d0). set_solver.
Qed.

Lemma OnSendCheckpoint_leads m n a : node_rel n a -> idle n -> leads a (OnSendCheckpoint m n).
Proof.
  intros R Hi. unfold OnSendCheckpoint.
  destruct (ckpt_ReceiveCheckpoint m (ckpt_ n)) as [[[c b] ps]|] eqn:E.
  - cbv zeta. eapply leads_core.
    + apply (packets_leads ps (n <| ckpt_ := c |>)); [by eapply checkpoint_packets| |done].
      eapply same_core_rel; [|exact R]. by split; constructor.
    + etrans; [|apply learn_timer_core]. by split; constructor.
  - by apply emit_leads.
Qed.

Lemma run_learn_task_leads t n a :
  node_rel n a -> idle n -> task_ok M a (instance_id_ n) t -> leads a (run_learn_task t n).
Proof.
  intros R Hi Ht. destruct t as [d c|d from to|d].
  - by apply send_leads.
  - destruct Ht as [Hu Hle]. unfold run_learn_task, ASyncSend.
    destruct (decide (from <= to)).
    + apply ASyncSend_leads; [done..|]. lia.
    + rewrite Z2Nat.nonpos by lia. by apply leads_refl.
  - apply emit_leads; [done|done| |done]. eapply same_core_rel; [|exact R]. by split; constructor.
Qed.

End LearnerSim.
