(* ===== verification/Refinement.v ===== *)
(** Every event of a node, and so every clean run of the group, is simulated by
    the abstract protocol of [Consensus.v]; agreement of the group follows. *)

From S2P Require Import Prelude Ballot Proto Storage Random TimerList Counter NodeState.
From S2P Require Import AcceptorModel ProposerModel LearnerModel LogModel InstanceModel.
From S2P Require Import Traces Consensus System Simulation AcceptorSim ProposerSim LearnerSim.

Section Refinement.
Context {FC : FixedCoding} {FCL : FixedCodingLaws} {LD : LevelDB} {LDL : LevelDBLaws}.
Context {LDR : LevelDBReliable} {MM : MachineManager} {MML : MachineManagerLaws}.
Context {CM : CheckpointManager} {CML : CheckpointManagerLaws}.
Context {AL : Allocator} {PI : ProtoCodec PaxosInstance} {PIL : ProtoCodecLaws PaxosInstance}.
Context {RM : RestartMode}.
Variable M : gset Z.

(** * One node *)

Section Node.
Variable me : Z.
Notation node_rel := (node_rel M me).
Notation leads := (leads M me).
Notation leads_learned := (leads_learned M me).

Lemma dispatch_leads f m n a :
  rec_ok M me f -> (forall m, keeps (f m)) -> node_rel n a -> idle n -> input_ok M a me n m ->
  leads_learned a (dispatch f m n).
Proof.
  intros Hf Hk R Hi Hin. unfold dispatch. pose proof Hin as Hin'. unfold input_ok, msg_ok in Hin'.
  destruct (pm_type m) eqn:T.
  - by apply leads_to_learned, OnPrepare_leads.
  - by apply leads_to_learned, OnPrepareReply_leads.
  - by apply leads_to_learned, OnAccpet_leads.
  - by apply leads_to_learned, OnAccpetReply_leads.
  - by apply OnNewChosenValue_leads.
  - by apply leads_to_learned, OnAskForLearn_leads.
  - destruct Hin'. by apply OnSendLearnedValue_leads.
  - by apply leads_to_learned, OnSendNowInstanceId_leads.
  - by apply leads_to_learned, OnComfirmAskForLearn_leads.
  - by apply leads_to_learned, queue_leads.
  - by apply leads_to_learned, leads_refl.
Qed.

Lemma OnPaxosMessage_fuel_leads fuel : rec_ok M me (OnPaxosMessage_fuel fuel).
Proof.
  induction fuel as [|fuel IH]; intros m n a R Hi Hin; simpl; [by apply leads_refl|].
  destruct (is_receiving_checkpoint _); [by apply leads_refl|].
  apply CheckLearn_leads, dispatch_leads; try done. apply OnPaxosMessage_fuel_keeps.
Qed.

Lemma OnPaxosMessage_leads : rec_ok M me OnPaxosMessage.
Proof. apply OnPaxosMessage_fuel_leads. Qed.

Lemma OnPropose_leads mid v ctx r n a :
  node_rel n a -> idle n -> leads a (OnPropose mid v ctx r n).
Proof.
  intros R Hi. unfold OnPropose, GetPaxosValueId, io_RunAfter. destruct (negb _).
  { by apply emit_leads. }
  cbv zeta. destruct (RunAfter _ _ _ _) as [tl t].
  set (n1 := assert_ (negb (is_proposing n)) _ n). set (n2 := assert_ _ _ (n1 <| is_proposing := true |>)).
  assert (R2 : node_rel n2 a).
  { apply node_rel_assert. apply (same_core_rel M me n1); [by split; constructor|]. by apply node_rel_assert. }
  assert (I2 : idle n2) by (unfold idle, n2, n1; by rewrite assert_learner; simpl; rewrite assert_learner).
  apply NewPropose_leads; [apply OnPaxosMessage_leads|apply OnPaxosMessage_keeps| |exact I2].
  eapply same_core_rel; [|exact R2]. by split; constructor.
Qed.

Lemma run_timer_leads cb n a : node_rel n a -> idle n -> leads a (run_timer cb n).
Proof.
  intros R Hi. destruct cb; unfold run_timer.
  - unfold on_retry_timer. destruct (_ =? _); [|by apply leads_refl].
    apply Prepare_leads; [apply OnPaxosMessage_leads|apply OnPaxosMessage_keeps| |done].
    by apply (quiet_rel _ _ n).
  - by apply AskForLearn_leads.
  - unfold on_propose_timer. cbv zeta.
    set (n1 := QuitPropose n <| is_proposing := false |>).
    apply (leads_core M me a (emit (OProposeComplete (instance_id_ n1)
             (Status_of kTimeout timeout_text) (context_ n1)) n1)); [|by split; constructor].
    apply emit_leads; try done. apply (same_core_rel M me n); [|exact R].
    etrans; [apply quit_core|]. by split; constructor.
Qed.

Lemma GCLoop_rel n a : node_rel n a -> node_rel (GCLoop n) a.
Proof.
  intros R. pose proof R as (I & X & Mo). destruct (r_chosen_ids _ _ _ _ Mo) as [Hm Hmax].
  destruct (GCLoop_effect n Hm) as (d & m' & -> & Hle & Hu & _ & Hdel & Hkeep).
  pose proof (r_range _ _ _ _ Mo) as Hr. pose proof (r_keep _ _ _ _ Mo) as Hk.
  assert (Hsame : forall j, in_u64 j -> j <= instance_id_ n ->
            DB_Get j d = DB_Get j (db_ n) \/ DB_Get j d = (1, ""%string)).
  { intros j Hj Hji. destruct (decide (min_chosen_id n <= j < m')) as [Hd|Hd].
    - right. by apply Hdel.
    - left. apply Hkeep; [done| |done]. unfold kMinChosenKey, u64_max. lia. }
  assert (Hcur : DB_Get (instance_id_ n) d = DB_Get (instance_id_ n) (db_ n)).
  { apply Hkeep; [unfold in_u64; lia|unfold kMinChosenKey, u64_max; lia|].
    intros Hd. destruct (Hdel _ Hd) as [Hlt _]. revert Hlt. unfold gc_keep.
    rewrite (proj2 (Z.ltb_lt _ _)) by lia. rewrite add64_small by lia. lia. }
  split; [done|]. destruct X, Mo. split; constructor; simpl; try done.
  - rewrite Hcur. intros Hl H0 r Hg. destruct (Hsame (instance_id_ n - 1)) as [E|E];
      [unfold in_u64; lia|lia| |congruence]. rewrite E in Hg. by apply r_prev.
  - intros j s Hj Hlt Hg. destruct (Hsame j Hj) as [E|E]; [lia| |congruence].
    rewrite E in Hg. by apply r_db.
  - rewrite Hcur. apply r_db_cur.
  - rewrite Hcur. apply r_db_rec.
  - intros j Hj Hkey Hlt. destruct (decide (min_chosen_id n <= j < m')) as [Hd|Hd].
    + by destruct (Hdel j Hd) as [_ ->].
    + rewrite Hkeep by done. by apply r_db_top.
  - intros Hm' j Hj Hmj. rewrite Hkeep; [apply r_db_all; [done|done|lia]|unfold in_u64; lia| |lia].
    unfold kMinChosenKey, u64_max. lia.
Qed.

(** What an event needs: a delivered message is acceptable to the handlers. *)
Definition event_ok (a : astate) (n : node) (e : Event) : Prop :=
  match e with
  | EvContent c => ct_type c = PAXOS_MESSAGE -> input_ok M a me n (ct_paxos_msg c)
  | _ => True
  end.

Lemma handle_leads e n a : node_rel n a -> idle n -> event_ok a n e -> leads a (handle e n).
Proof.
  intros R Hi He. unfold handle. destruct (existsb _ _); [by apply leads_refl|].
  destruct e as [c|mid v ctx r| |t| | | |id i r|now].
  - simpl in He. unfold OnContent. destruct (ct_type c).
    + by apply OnPaxosMessage_leads, He.
    + by apply OnSendCheckpoint_leads.
    + by apply leads_refl.
  - by apply OnPropose_leads.
  - unfold timers_turn. cbv zeta. set (n1 := n <| io_timers ::= _ |>).
    assert (R1 : node_rel n1 a) by (eapply same_core_rel; [|exact R]; by split; constructor).
    destruct (pop_expired _ _) as [[cb tl]|]; [|by apply leads_refl].
    apply run_timer_leads; [|done]. eapply same_core_rel; [|exact R1]. by split; constructor.
  - by apply AskForLearn_leads.
  - destruct (learn_queue n) as [|t q] eqn:Q; [by apply leads_refl|].
    pose proof R as (I & X & Mo). pose proof (r_tasks _ _ _ _ Mo) as Ht.
    apply run_learn_task_leads; [|done|apply Ht; rewrite Q; set_solver].
    split; [done|]. destruct X, Mo. split; constructor; try done.
    simpl. intros t' Hin. apply Ht. rewrite Q. set_solver.
  - eapply same_core_leads; [|exact R|done]. by split; constructor.
  - apply leads_refl; [by apply GCLoop_rel|]. unfold idle. by rewrite GCLoop_learner.
  - apply leads_refl; [|done]. apply node_rel_mm; [apply membership_finish|done].
  - eapply same_core_leads; [|exact R|done]. by split; constructor.
Qed.

End Node.

(** * The group *)

Definition system_rel (s : gmap Z node) (a : astate) : Prop :=
  forall me n, s !! me = Some n -> node_rel M me n a /\ idle n.

(** What a message means where it is delivered. *)
Lemma delivered_ok s a d c :
  system_rel s a -> sent s d c = true -> ct_type c = PAXOS_MESSAGE ->
  msg_ok M a d (ct_paxos_msg c) /\ (is_request (ct_paxos_msg c) -> pm_node_id (ct_paxos_msg c) <> d).
Proof.
  intros Hs Hc T. apply sent_inv in Hc as (src & n & o & Hn & Ho & Hcar).
  destruct (Hs src n Hn) as [(_ & _ & Mo) _]. pose proof (r_out _ _ _ _ Mo o Ho) as Hok.
  destruct o as [d' c'|ds c'| | | | |]; try done; simpl in Hcar; reflect_bools;
    repeat match goal with H : bool_decide _ = true |- _ => apply bool_decide_eq_true in H end; subst.
  - destruct (Hok T). tauto.
  - destruct (Hok T) as (? & -> & Hsrc). split; [done|]. intros _ E. by subst.
Qed.

(** An announced conclusion is one. *)
Lemma announced_chosen s a src n i p :
  system_rel s a -> s !! src = Some n ->
  existsb (fun o => bool_decide (new_chosen_of o = Some (i, p))) (out_ n) = true ->
  chosen_at M a i (Ballot p src).
Proof.
  intros Hs Hn (o & Ho & E)%existsb_exists. apply bool_decide_eq_true in E.
  destruct (Hs src n Hn) as [(_ & _ & Mo) _].
  pose proof (r_out _ _ _ _ Mo o ltac:(by apply list_elem_of_In)) as Hok.
  destruct o as [|ds c| | | | |]; try done. simpl in E.
  destruct (bool_decide _) eqn:B; [|done]. apply bool_decide_eq_true in B as [T1 T2].
  injection E as <- <-. destruct (Hok T1) as (Hm & <- & _).
  specialize (Hm 0). unfold msg_ok in Hm. by rewrite T2 in Hm.
Qed.

Lemma backed_concluded s a n m :
  system_rel s a -> is_request m -> inference_backed s n m = true ->
  pm_instance_id m = acc_instance_id (acceptor_ n) +64 1 -> concluded M a n m.
Proof.
  intros Hs Hr Hb Ei Eb. unfold inference_backed in Hb.
  assert (Hb' : match s !! pm_node_id m with
                | Some n' => existsb (fun o => bool_decide (new_chosen_of o =
                    Some (acc_instance_id (acceptor_ n), pm_proposal_id m))) (out_ n')
                | None => false end = true).
  { assert (Eq : ballot_eqb (Ballot (pm_proposal_id m) (pm_node_id m)) (accepted_ballot (acceptor_ n)) = true)
      by (by apply ballot_eqb_spec).
    rewrite Ei, Eq, Z.eqb_refl in Hb. simpl in Hb. by destruct Hr as [E|E]; rewrite E in Hb. }
  destruct (s !! pm_node_id m) as [n'|] eqn:E; [|done]. by eapply announced_chosen.
Qed.

Lemma delivery_ok s a me n c :
  system_rel s a -> s !! me = Some n -> sent s me c = true -> replies_fine s n (EvContent c) = true ->
  inferences_fine s n (EvContent c) = true -> event_ok me a n (EvContent c).
Proof.
  intros Hs Hn Hsent Hcur Hinf T. destruct (delivered_ok s a me c Hs Hsent T) as [Hm Hreq].
  simpl in Hcur, Hinf. rewrite T in Hcur, Hinf.
  set (m := ct_paxos_msg c) in *. unfold input_ok.
  assert (Hrq : is_request m -> request_ok M a me n m).
  { intros R. split; [intros E; by destruct (Hreq R)|]. intros. by eapply backed_concluded. }
  destruct (pm_type m) eqn:Tm; try done; try (split; [done|]); unfold is_request in Hrq; auto.
  intros Ei Eb. unfold msg_ok in Hm. rewrite Tm in Hm. by rewrite <- Ei.
Qed.

Lemma clean_event_sim s a me e s' :
  system_rel s a -> checked_event clean s me e = Some s' ->
  exists a', asteps M me a a' /\ system_rel s' a'.
Proof.
  intros Hs. unfold checked_event. destruct (s !! me) as [n|] eqn:Hn; [|done].
  destruct (enabled s me e && clean s n e) eqn:G; [|done].
  apply andb_prop in G as [He (Hr & Hf & Ht)%clean_inv]. intros [= <-]. destruct (Hs me n Hn) as [R Hi].
  destruct (handle_leads me e n a R Hi) as (a' & S & R' & I'); [|done|].
  - destruct e; try done. by eapply delivery_ok.
  - exists a'. split; [done|]. intros k n'.
    destruct (decide (k = me)) as [->|Hne].
    + rewrite lookup_insert_eq. intros [= <-]. done.
    + rewrite lookup_insert_ne by done. intros Hk. destruct (Hs k n' Hk) as [Rk Ik].
      split; [|done]. by eapply node_rel_frame.
Qed.

Lemma clean_run_sim evs s a s' :
  system_rel s a -> clean_run evs s = Some s' ->
  exists a', rtc (astep_any M) a a' /\ system_rel s' a'.
Proof.
  unfold clean_run. revert s a. induction evs as [|[me e] evs IH]; intros s a Hs; simpl.
  - intros [= <-]. by exists a.
  - destruct (checked_event clean s me e) as [s1|] eqn:E; [|done]. intros Hr.
    destruct (clean_event_sim _ _ _ _ _ Hs E) as (a1 & S1 & H1).
    destruct (IH s1 a1 H1 Hr) as (a2 & S2 & H2). exists a2. split; [|done].
    etrans; [|done]. eapply rtc_subrel; [|done]. intros x y Hxy. by exists me.
Qed.

(** * Start *)

Definition a_start : astate :=
  mkAstate (fun _ => Ballot_default) (fun _ => 1) (fun _ _ _ _ => False) (fun _ _ _ => False)
    (fun _ _ => False).

Lemma a_start_init : ainit a_start.
Proof. split; [|split]; simpl; intros; tauto. Qed.

Lemma empty_get db i : ldb_Keys db = [] -> (DB_Get i db).1 <> 0.
Proof.
  intros E H. unfold DB_Get in H. destruct (ldb_Get (EncodeFixed64 i) db) as [[] v] eqn:G; try done.
  destruct (keys_complete db (EncodeFixed64 i)) as (k & Hk & _); [by rewrite G|].
  rewrite E in Hk. by apply elem_of_nil in Hk.
Qed.

(** Recovery on an empty log. *)
Lemma recover_empty c now db m ck :
  ldb_Keys db = [] -> mm_GetLatestCheckpointInstanceId m = 0 ->
  (DB_Get kMinChosenKey db).1 <> -1 ->
  Instance_Recover (new_node c now db m ck) =
    (new_node c now db m ck <| max_chosen_id := 1 |>
       <| acceptor_ := mkAcceptor 1 0 Ballot_default Ballot_default PaxosValue_default |>
       <| proposer_ ::= (fun p => p <| proposal_id := 1 |>) |>, true).
Proof.
  intros E Em Hk. unfold Instance_Recover, Acceptor_Recover, Acceptor_ReadFromDB, DB_GetMaxInstanceId.
  simpl. rewrite E. simpl. unfold LogManager_Recover, DB_GetMinChosenInstanceId. simpl.
  pose proof (empty_get db kMinChosenKey E) as H0.
  destruct (DB_Get kMinChosenKey db) as [ret val]. simpl in Hk, H0.
  rewrite (proj2 (Z.eqb_neq ret 0)), (proj2 (Z.eqb_neq ret (-1))) by done. rewrite Em. done.
Qed.

Lemma fresh_rel me n : me ∈ M -> fresh_node M me n -> node_rel M me n a_start /\ idle n.
Proof.
  intros Hme (c & now & db & m & ck & Hid & Hkeep & Hdb & Hdom & Hcp & Hrec).
  assert (Hk : (DB_Get kMinChosenKey db).1 <> -1).
  { intros Hk. unfold Instance_Recover, Acceptor_Recover, Acceptor_ReadFromDB, DB_GetMaxInstanceId in Hrec.
    simpl in Hrec. rewrite Hdb in Hrec. simpl in Hrec. unfold LogManager_Recover,
      DB_GetMinChosenInstanceId in Hrec. simpl in Hrec.
    destruct (DB_Get kMinChosenKey db) as [ret val]. simpl in Hk. by subst. }
  rewrite recover_empty in Hrec by done. injection Hrec as <-.
  split; [|done]. split; [apply ainv_init, a_start_init|].
  split; constructor; simpl; try done; try lia.
  - left. split; [done|]. by intros ?? [].
  - intros _ _ r Hg. exfalso. eapply empty_get; [exact Hdb|]. by rewrite Hg.
  - intros j s Hj Hlt Hg. exfalso. eapply empty_get; [exact Hdb|]. by rewrite Hg.
  - intros _ s Hg. exfalso. eapply empty_get; [exact Hdb|]. by rewrite Hg.
  - intros j _ _ _. by apply empty_get.
  - intros o Ho. by apply elem_of_nil in Ho.
  - unfold ran. destruct may_restart; [|done]. by exists [], 0.
  - intros t Ht. by apply elem_of_nil in Ht.
Qed.

Lemma fresh_system_rel s : fresh_system M s -> system_rel s a_start.
Proof.
  intros [Hd Hf] me n Hn. apply fresh_rel; [|by apply Hf].
  rewrite <- Hd. apply elem_of_dom. by eexists.
Qed.

Lemma clean_run_simulated s0 evs s :
  fresh_system M s0 -> clean_run evs s0 = Some s ->
  exists a, rtc (astep_any M) a_start a /\ ainv M a /\ system_rel s a.
Proof.
  intros H0 Hr. destruct (clean_run_sim _ _ _ _ (fresh_system_rel _ H0) Hr) as (a & S & H).
  exists a. split_and!; [done| |done]. clear H Hr. pose proof (ainv_init M _ a_start_init) as I.
  induction S as [|x y z [k Sk] _ IH]; [done|]. apply IH. by eapply ainv_step.
Qed.

Lemma executed_chosen s a me i v : system_rel s a -> executed s me i v -> chosen M a i v.
Proof.
  intros H (n & r & Hn & Ho). destruct (H me n Hn) as [(_ & _ & Mo) _].
  exact (r_out _ _ _ _ Mo _ Ho).
Qed.

Lemma exec_log_executed s me n i v :
  s !! me = Some n -> (i, v) ∈ exec_log (out_ n) -> executed s me i v.
Proof.
  intros Hn (o & Ho & E)%list_elem_of_omap. destruct o; try done. injection E as -> ->.
  by exists n, result.
Qed.

End Refinement.

(** Without restarts. *)
Definition no_restarts : RestartMode := false.

Section Theorems.
Context {FC : FixedCoding} {FCL : FixedCodingLaws} {LD : LevelDB} {LDL : LevelDBLaws}.
Context {LDR : LevelDBReliable} {MM : MachineManager} {MML : MachineManagerLaws}.
Context {CM : CheckpointManager} {CML : CheckpointManagerLaws}.
Context {AL : Allocator} {PI : ProtoCodec PaxosInstance} {PIL : ProtoCodecLaws PaxosInstance}.
Variable M : gset Z.
#[local] Existing Instance no_restarts.

(** The instances a node has executed are [1, 2, ...] up to the last. *)
Lemma executions_ids s a me :
  system_rel M s a -> exists k, 0 <= k /\ (executions s me).*1 = seqZ 1 k.
Proof.
  intros H. unfold executions. destruct (s !! me) as [n|] eqn:Hn; [|by exists 0].
  destruct (H me n Hn) as [(_ & _ & Mo) Hi]. exists (instance_id_ n - 1).
  split; [pose proof (r_range _ _ _ _ Mo); lia|]. by apply Mo.
Qed.

Lemma exec_pairs_agree s a me1 me2 k1 k2 :
  ainv M a -> system_rel M s a ->
  (executions s me1).*1 = seqZ 1 k1 -> (executions s me2).*1 = seqZ 1 k2 -> k1 <= k2 ->
  executions s me1 `prefix_of` executions s me2.
Proof.
  intros I H E1 E2 Hk.
  assert (Hin : forall me j x, executions s me !! j = Some x -> executed s me x.1 x.2).
  { intros me j [i v] Hj. unfold executions in Hj. destruct (s !! me) as [n|] eqn:Hn; [|done].
    eapply exec_log_executed; [done|]. by eapply list_elem_of_lookup_2. }
  apply prefix_pointwise.
  { apply (f_equal length) in E1, E2. rewrite length_fmap, length_seqZ in E1, E2. lia. }
  intros j [i v] [i' v'] H1 H2.
  assert (i' = i) as ->.
  { apply (f_equal (.!! j)) in E1, E2. rewrite list_lookup_fmap in E1, E2.
    rewrite H1 in E1. rewrite H2 in E2. simpl in *.
    symmetry in E1, E2. apply lookup_seqZ in E1, E2. lia. }
  f_equal. eapply chosen_unique; [exact I|..]; eapply executed_chosen; try exact H.
  - apply (Hin me1 _ _ H1).
  - apply (Hin me2 _ _ H2).
Qed.

(** * Theorems *)

(** (C1) Refinement: a clean run of a freshly started group, whatever the
    network does with its messages, is an execution of the abstract protocol.  At
    its end every node's instance and promised ballot are the abstract ones, what
    an acceptor holds is a vote it cast, and every value handed to the state
    machines was chosen by a majority.  The databases of the nodes are assumed to store
    what they are told ([LevelDBReliable]). *)
Theorem clean_run_refines : forall (s0 s : gmap Z node) (evs : list (Z * Event)),
  fresh_system M s0 -> clean_run evs s0 = Some s ->
  exists a0 a, ainit a0 /\ rtc (astep_any M) a0 a /\
    (forall me n, s !! me = Some n ->
       a_inst a me = instance_id_ n /\ a_bal a me = promised_ballot (acceptor_ n) /\
       (accepted_ballot (acceptor_ n) <> Ballot_default ->
        a_vote a me (instance_id_ n) (accepted_ballot (acceptor_ n)) (accepted_value (acceptor_ n)))) /\
    (forall me i v, executed s me i v -> chosen M a i v).
Proof.
  intros s0 s evs H0 Hr. destruct (clean_run_simulated _ _ _ _ H0 Hr) as (a & S & I & H).
  exists a_start, a. split_and!; [apply a_start_init..|done| |intros; by eapply executed_chosen].
  intros me n Hn. destruct (H me n Hn) as [(_ & X & Mo) _]. split_and!; [apply X..|].
  intros Hne. pose proof (r_acc _ _ _ _ X) as Ha. unfold accepted_rel in Ha.
  rewrite (r_acc_i _ _ _ _ Mo) in Ha.
  destruct Ha as [[? _]|(_ & _ & [Hv|[E _]] & _)]; [done|done|discriminate E].
Qed.

(** Agreement: in a clean run no two nodes hand different values to their
    state machines for the same instance. *)
Theorem executed_values_agree :
  forall (s0 s : gmap Z node) (evs : list (Z * Event)) (n1 n2 i : Z) (v1 v2 : PaxosValue),
  fresh_system M s0 -> clean_run evs s0 = Some s ->
  executed s n1 i v1 -> executed s n2 i v2 -> v1 = v2.
Proof.
  intros s0 s evs n1 n2 i v1 v2 H0 Hr H1 H2.
  destruct (clean_run_simulated _ _ _ _ H0 Hr) as (a & _ & I & H).
  eapply chosen_unique; [exact I|..]; by eapply executed_chosen.
Qed.

(** State machine replication: in a clean run every node executes instances
    1, 2, 3, ... without a gap or a repetition, and of any two nodes one has
    executed a prefix of what the other has. *)
Theorem executions_prefix :
  forall (s0 s : gmap Z node) (evs : list (Z * Event)) (n1 n2 : Z),
  fresh_system M s0 -> clean_run evs s0 = Some s ->
  (exists k, 0 <= k /\ (executions s n1).*1 = seqZ 1 k) /\
  (executions s n1 `prefix_of` executions s n2 \/ executions s n2 `prefix_of` executions s n1).
Proof.
  intros s0 s evs n1 n2 H0 Hr. destruct (clean_run_simulated _ _ _ _ H0 Hr) as (a & _ & I & H).
  split; [by eapply executions_ids|].
  destruct (executions_ids s a n1 H) as (k1 & _ & E1), (executions_ids s a n2 H) as (k2 & _ & E2).
  destruct (decide (k1 <= k2)); [left|right]; eapply exec_pairs_agree; eauto; lia.
Qed.

End Theorems.
