(* ===== verification/Recovery.v ===== *)
(** A node of a clean run that is restarted on its database: [Instance::Recover] replays
    the values the node had executed, and the acceptor has the promise and the vote it
    last answered with in its instance. *)

From S2P Require Import Prelude Ballot Proto Storage Random TimerList Counter NodeState.
From S2P Require Import AcceptorModel ProposerModel LearnerModel LogModel InstanceModel.
From S2P Require Import Traces Consensus System Simulation AcceptorSim ProposerSim LearnerSim Refinement.

Section Stored.
Context {FC : FixedCoding} {FCL : FixedCodingLaws} {LD : LevelDB} {LDL : LevelDBLaws}.
Context {LDR : LevelDBReliable} {MM : MachineManager} {MML : MachineManagerLaws}.
Context {CM : CheckpointManager} {CML : CheckpointManagerLaws}.
Context {AL : Allocator} {PI : ProtoCodec PaxosInstance} {PIL : ProtoCodecLaws PaxosInstance}.
Context {RM : RestartMode}.
Variable M : gset Z.

(** * What is stored *)

(** A record of an instance, by its id. *)
Definition stored (db : ldb) (j : Z) : Prop := in_u64 j /\ j <> kMinChosenKey /\ (DB_Get j db).1 = 0.

Lemma stored_key db k :
  (ldb_Get k db).1 = LOk -> DecodeFixed64 k <> kMinChosenKey -> stored db (DecodeFixed64 k).
Proof.
  intros Hk Hne. pose proof (decode64_range k) as Hr. split_and!; [done|done|]. unfold DB_Get.
  rewrite (get_same_key db _ k) by (apply same_key_spec; by apply decode_encode64').
  destruct (ldb_Get k db) as [[] v]; done.
Qed.

Lemma key_stored db j : stored db j -> (ldb_Get (EncodeFixed64 j) db).1 = LOk /\ DecodeFixed64 (EncodeFixed64 j) = j.
Proof.
  intros (Hr & _ & H). split; [|by apply decode_encode64']. unfold DB_Get in H.
  destruct (ldb_Get (EncodeFixed64 j) db) as [[] v]; done.
Qed.

(** [GetMaxInstanceId] in terms of the records. *)
Lemma max_stored db id0 :
  (exists top, DB_GetMaxInstanceId id0 db = (0, top) /\ stored db top /\ forall j, stored db j -> j <= top) \/
  (DB_GetMaxInstanceId id0 db = (1, id0) /\ forall j, ~ stored db j).
Proof.
  pose proof (GetMaxInstanceId_spec db id0) as H. destruct (DB_GetMaxInstanceId id0 db) as [ret id].
  destruct H as [(-> & Hne & (k & Hk & <-) & Hmax)|(-> & -> & Hnone)].
  - left. eexists. split; [done|]. split; [by apply stored_key|].
    intros j Hj. pose proof Hj as (_ & Hjn & _). apply key_stored in Hj as [Hj E].
    rewrite <- E at 1. apply Hmax; [done|]. by rewrite E.
  - right. split; [done|]. intros j Hj. pose proof Hj as (_ & Hjn & _).
    apply key_stored in Hj as [Hj E]. apply Hjn. rewrite <- E. by apply Hnone.
Qed.

Section Node.
Variables (me : Z) (n : node) (a : astate).
Hypothesis R : node_rel M me n a.
Hypothesis Hidle : idle n.

Lemma stored_bound j : stored (db_ n) j -> j <= instance_id_ n.
Proof.
  intros (Hj & Hk & H). destruct R as (_ & _ & Mo).
  destruct (Z.le_gt_cases j (instance_id_ n)) as [?|Hgt]; [done|].
  by destruct (r_db_top _ _ _ _ Mo j Hj Hk Hgt).
Qed.

(** Every record parses. *)
Lemma stored_record j : stored (db_ n) j -> exists r, DB_Get j (db_ n) = (0, SerializeAsString r).
Proof.
  intros Hj. pose proof (stored_bound j Hj) as Hle. destruct Hj as (Hu & _ & H). destruct R as (_ & _ & Mo).
  destruct (DB_Get j (db_ n)) as [ret s] eqn:E. simpl in H. subst ret.
  destruct (decide (j = instance_id_ n)) as [->|Hne].
  - rewrite (r_db_rec _ _ _ _ Mo Hidle s E). eauto.
  - destruct (r_db _ _ _ _ Mo j s Hu ltac:(lia) E) as (r & -> & _). eauto.
Qed.

(** The replay does not touch the acceptor. *)
Lemma replay_acceptor from to n1 : acceptor_ (ReplayLog from to n1).1 = acceptor_ n1.
Proof.
  unfold ReplayLog. generalize (Z.to_nat (to - from)) as fuel. intros fuel. revert from n1.
  induction fuel as [|fuel IH]; intros from n1; simpl; [done|].
  destruct (DB_Get from (db_ n1)) as [res s]. destruct (negb _); [done|].
  unfold Execute. destruct (mm_Execute _ _ _ _ _ _) as [m1 b]. rewrite IH. done.
Qed.

(** * The acceptor *)

Variables (c : Config) (now : Z) (m : mm) (ck : ckpt).
Notation n0 := (new_node c now (db_ n) m ck).

(** The acceptor after [Acceptor::Recover], and the instance it reports. *)
Definition read_acceptor (A : Acceptor) : Prop :=
  (exists r, stored (db_ n) (acc_instance_id A) /\ (forall j, stored (db_ n) j -> j <= acc_instance_id A) /\
     DB_Get (acc_instance_id A) (db_ n) = (0, SerializeAsString r) /\
     A = mkAcceptor (acc_instance_id A) 0 (Ballot (pi_promised_id r) (pi_promised_node_id r))
           (Ballot (pi_accepted_id r) (pi_accepted_node_id r)) (pi_accepted_value r)) \/
  (acc_instance_id A = 0 /\ forall j, ~ stored (db_ n) j).

Lemma recover_acceptor :
  exists A, Acceptor_Recover n0 = (n0 <| acceptor_ := A |>, Some (acc_instance_id A)) /\ read_acceptor A.
Proof.
  unfold Acceptor_Recover, Acceptor_ReadFromDB. cbn [acc_instance_id acceptor_ new_node].
  change (db_ n0) with (db_ n).
  destruct (max_stored (db_ n) 0) as [(top & -> & Ht & Hmax)|[-> Hnone]].
  - simpl. destruct (stored_record top Ht) as [r Hr]. rewrite Hr. simpl. rewrite parse_serialize.
    exists (mkAcceptor top 0 (Ballot (pi_promised_id r) (pi_promised_node_id r))
      (Ballot (pi_accepted_id r) (pi_accepted_node_id r)) (pi_accepted_value r)).
    split; [reflexivity|]. left. exists r. simpl. done.
  - exists (mkAcceptor 0 0 Ballot_default Ballot_default PaxosValue_default).
    split; [reflexivity|]. right. done.
Qed.

(** What was answered in the current instance is read back. *)
Lemma durable A :
  read_acceptor A -> (DB_Get (instance_id_ n) (db_ n)).1 = 0 ->
  acc_instance_id A = instance_id_ n /\ promised_ballot A = promised_ballot (acceptor_ n) /\
  accepted_ballot A = accepted_ballot (acceptor_ n) /\ accepted_value A = accepted_value (acceptor_ n).
Proof.
  intros HA H0. pose proof R as (_ & _ & Mo). pose proof (r_range _ _ _ _ Mo) as Hr.
  assert (Hs : stored (db_ n) (instance_id_ n))
    by (split_and!; [unfold in_u64; lia|unfold kMinChosenKey, u64_max; lia|done]).
  destruct HA as [(r & Hst & Hmax & Hg & EA)|[_ Hnone]]; [|by destruct (Hnone _ Hs)].
  assert (Ei : acc_instance_id A = instance_id_ n).
  { pose proof (stored_bound _ Hst). specialize (Hmax _ Hs). lia. }
  rewrite Ei in Hg. pose proof (r_db_rec _ _ _ _ Mo Hidle _ Hg) as Er.
  assert (r = acceptor_record (acceptor_ n)) as ->.
  { apply (f_equal ParseFromString) in Er. rewrite !parse_serialize in Er. by injection Er. }
  split; [done|]. rewrite EA. simpl. by destruct (promised_ballot (acceptor_ n)), (accepted_ballot (acceptor_ n)).
Qed.

End Node.
End Stored.

(** * Runs without restarts *)

Section Recovery.
Context {FC : FixedCoding} {FCL : FixedCodingLaws} {LD : LevelDB} {LDL : LevelDBLaws}.
Context {LDR : LevelDBReliable} {MM : MachineManager} {MML : MachineManagerLaws}.
Context {CM : CheckpointManager} {CML : CheckpointManagerLaws}.
Context {AL : Allocator} {PI : ProtoCodec PaxosInstance} {PIL : ProtoCodecLaws PaxosInstance}.
Variable M : gset Z.
#[local] Existing Instance no_restarts.

Section Node.
Variables (me : Z) (n : node) (a : astate).
Hypothesis R : node_rel M me n a.
Hypothesis Hidle : idle n.
Notation stored_bound := (stored_bound M me n a R).
Notation stored_record := (stored_record M me n a R Hidle).
Notation read_acceptor := (read_acceptor n).

Lemma stored_below j : 1 <= j < instance_id_ n -> min_chosen_id n <= j -> stored (db_ n) j.
Proof.
  intros Hj Hm. destruct R as (_ & _ & Mo). pose proof (r_range _ _ _ _ Mo).
  split_and!; [unfold in_u64; lia|unfold kMinChosenKey, u64_max; lia|]. by apply (r_db_all _ _ _ _ Mo).
Qed.

(** The value logged for an executed instance is the one that was executed. *)
Lemma executed_logged k i v :
  exec_log (out_ n) !! k = Some (i, v) -> min_chosen_id n <= i ->
  i = 1 + Z.of_nat k /\ i < instance_id_ n /\ logged (db_ n) i v.
Proof.
  intros Hk Hm. destruct R as (I & _ & Mo). pose proof (r_exec _ _ _ _ Mo Hidle) as Hids.
  assert (Hi : i = 1 + Z.of_nat k /\ i < instance_id_ n).
  { apply (f_equal (.!! k)) in Hids. rewrite list_lookup_fmap, Hk in Hids. simpl in Hids.
    symmetry in Hids. apply lookup_seqZ in Hids. lia. }
  destruct Hi as [Hi Hlt]. split_and!; [done|done|].
  destruct (stored_record i) as [r Hr]; [apply stored_below; lia|].
  pose proof (r_range _ _ _ _ Mo) as Hrange.
  destruct (r_db _ _ _ _ Mo i _ ltac:(unfold in_u64; lia) Hlt Hr) as (r' & Es & _ & _ & Hc).
  exists r'. rewrite <- Es. split; [done|]. eapply chosen_unique; [exact I|exact Hc|].
  apply list_elem_of_lookup_2, list_elem_of_omap in Hk as (o & Ho & E). destruct o; try done.
  injection E as -> ->. exact (r_out _ _ _ _ Mo _ Ho).
Qed.

(** * The replay *)

Lemma exec_log_replayed (l : list (Z * PaxosValue)) rs :
  length rs = length l -> exec_log (zip_with (fun iv r => OExecute iv.1 iv.2 r) l rs) = l.
Proof.
  revert rs. induction l as [|[i v] l IH]; intros [|r rs] H; try done. simpl. f_equal. apply IH.
  by injection H.
Qed.

(** The instances after [cp] that the replay executes, [k] of them. *)
Definition slice (cp k : Z) : list (Z * PaxosValue) :=
  take (Z.to_nat k) (drop (Z.to_nat cp) (exec_log (out_ n))).

Lemma slice_ids cp k :
  0 <= cp -> 0 <= k -> cp + k <= instance_id_ n - 1 -> (slice cp k).*1 = seqZ (cp + 1) k.
Proof.
  intros Hcp Hk Hb. destruct R as (_ & _ & Mo). unfold slice.
  rewrite fmap_take, fmap_drop, (r_exec _ _ _ _ Mo Hidle).
  apply list_eq. intros j. destruct (decide (j < Z.to_nat k)%nat) as [Hj|Hj].
  - rewrite lookup_take_lt, lookup_drop, !lookup_seqZ_lt by lia. f_equal. lia.
  - rewrite lookup_take_ge, lookup_seqZ_ge by lia. done.
Qed.

Lemma slice_length cp k :
  0 <= cp -> 0 <= k -> cp + k <= instance_id_ n - 1 -> length (slice cp k) = Z.to_nat k.
Proof. intros. rewrite <- length_fmap with (f := fst), slice_ids, length_seqZ by done. done. Qed.

Lemma slice_logged cp k j v :
  0 <= cp -> 0 <= k -> cp + k <= instance_id_ n - 1 -> min_chosen_id n <= cp + 1 ->
  (slice cp k).*2 !! j = Some v -> logged (db_ n) (cp + 1 + Z.of_nat j) v.
Proof.
  intros Hcp Hk Hb Hm. rewrite list_lookup_fmap.
  destruct (slice cp k !! j) as [[i w]|] eqn:E; [|done]. intros [= <-].
  pose proof (lookup_lt_Some _ _ _ E) as Hj. rewrite slice_length in Hj by done.
  unfold slice in E. rewrite lookup_take_Some, lookup_drop in E. destruct E as [E _].
  assert (Hi : i = cp + 1 + Z.of_nat j).
  { destruct R as (_ & _ & Mo). pose proof (r_exec _ _ _ _ Mo Hidle) as Hids.
    apply (f_equal (.!! (Z.to_nat cp + j)%nat)) in Hids. rewrite list_lookup_fmap, E in Hids.
    simpl in Hids. symmetry in Hids. apply lookup_seqZ in Hids. lia. }
  destruct (executed_logged _ _ _ E) as (_ & _ & H); [lia|]. by rewrite <- Hi.
Qed.

(** Replaying from [cp] up to [top]. *)
Lemma replay_slice (n1 : node) cp top :
  db_ n1 = db_ n -> out_ n1 = [] -> 0 <= cp -> cp + 1 < top -> top <= instance_id_ n ->
  min_chosen_id n <= cp + 1 ->
  (ReplayLog (cp + 1) top n1).2 = true /\
  exec_log (out_ (ReplayLog (cp + 1) top n1).1) = slice cp (top - 1 - cp).
Proof.
  intros Ed Eo Hcp Hlt Htop Hm. unfold ReplayLog. set (k := top - 1 - cp).
  replace (top - (cp + 1)) with k by lia. destruct R as (_ & _ & Mo).
  pose proof (r_range _ _ _ _ Mo) as Hr.
  assert (Hlen : length (slice cp k) = Z.to_nat k) by (apply slice_length; lia).
  destruct (ReplayLog_loop_spec (Z.to_nat k) (cp + 1) (slice cp k).*2 n1) as (rs & H1 & H2 & _ & H4).
  - by rewrite length_fmap.
  - lia.
  - unfold u64_max. lia.
  - intros j v Hj. rewrite Ed. eapply slice_logged; [..|exact Hj]; lia.
  - split; [done|]. rewrite H4, Eo. simpl. rewrite Z2Nat.id by lia.
    rewrite <- (slice_ids cp k), zip_fst_snd by lia. apply exec_log_replayed. congruence.
Qed.

(** * Recovery *)

Variables (c : Config) (now : Z) (m : mm) (ck : ckpt).
Notation cp := (mm_GetLatestCheckpointInstanceId m).
Notation n0 := (new_node c now (db_ n) m ck).

(** Where the node starts again. *)
Definition start_id (A : Acceptor) : Z := Z.max (cp + 1) (acc_instance_id A).

Hypothesis Hcp : 0 <= cp < 2 ^ 63.
Hypothesis Hmin : min_chosen_id n <= cp + 1.
Hypothesis Hread : forall k, (ldb_Get k (db_ n)).1 <> LIOError.

Lemma read_bounds A :
  read_acceptor A -> 0 <= acc_instance_id A <= instance_id_ n /\ instance_id_ n - 1 <= start_id A.
Proof.
  intros H. pose proof R as (_ & _ & Mo). pose proof (r_range _ _ _ _ Mo) as Hr. unfold start_id.
  destruct (decide (instance_id_ n - 1 <= cp + 1)) as [Hle|Hgt].
  - destruct H as [(r & Hs & _)|[-> _]]; [|lia]. pose proof (stored_bound _ Hs).
    destruct Hs as [Hu _]. unfold in_u64 in Hu. lia.
  - assert (Hs1 : stored (db_ n) (instance_id_ n - 1)) by (apply stored_below; lia).
    destruct H as [(r & Hs & Hmax & _)|[_ Hnone]]; [|by destruct (Hnone _ Hs1)].
    pose proof (stored_bound _ Hs). specialize (Hmax _ Hs1). lia.
Qed.

(** The last instance of which there is a record: the current one, or the one before it. *)
Definition last_record : Z :=
  if decide ((DB_Get (instance_id_ n) (db_ n)).1 = 0) then instance_id_ n else instance_id_ n - 1.

Lemma read_exact A : read_acceptor A -> start_id A = Z.max (cp + 1) last_record.
Proof.
  intros HA. destruct (read_bounds A HA) as [Hb Hs]. unfold start_id, last_record in *. case_decide as D.
  - by rewrite (proj1 (durable M me n a R Hidle A HA D)).
  - assert (acc_instance_id A <> instance_id_ n); [|lia]. intros E.
    destruct HA as [(r & Hst & _)|[H0 _]]; [rewrite E in Hst; by destruct Hst as (_ & _ & ?)|].
    destruct R as (_ & _ & Mo). pose proof (r_range _ _ _ _ Mo). lia.
Qed.

(** The slice up to that record, in one cut of what was executed. *)
Lemma slice_cut : slice cp (Z.max (cp + 1) last_record - 1 - cp) =
  drop (Z.to_nat cp) (take (Z.to_nat (last_record - 1)) (exec_log (out_ n))).
Proof.
  unfold slice. rewrite take_drop_commute.
  destruct (Z.le_gt_cases last_record (cp + 1)) as [H|H].
  - rewrite Z.max_l by lia. rewrite !drop_ge; [done|..]; rewrite length_take; lia.
  - rewrite Z.max_r by lia. do 2 f_equal. lia.
Qed.

Lemma recover_log (A : Acceptor) :
  read_acceptor A ->
  exists n2, LogManager_Recover (acc_instance_id A) (n0 <| acceptor_ := A |>) = (n2, start_id A, true) /\
    acceptor_ n2 = A /\ exec_log (out_ n2) = slice cp (start_id A - 1 - cp).
Proof.
  intros HA. destruct (read_bounds A HA) as [Hb _]. pose proof R as (_ & _ & Mo). 
  pose proof (r_range _ _ _ _ Mo) as Hr. unfold LogManager_Recover, DB_GetMinChosenInstanceId.
  change (db_ (n0 <| acceptor_ := A |>)) with (db_ n). change (mm_ (n0 <| acceptor_ := A |>)) with m.
  assert (Hret : forall ret v, DB_Get kMinChosenKey (db_ n) = (ret, v) -> ret <> -1).
  { intros ret v E ->. unfold DB_Get in E. specialize (Hread (EncodeFixed64 kMinChosenKey)).
    destruct (ldb_Get _ _) as [[] ?]; done. }
  destruct (DB_Get kMinChosenKey (db_ n)) as [ret v] eqn:E. specialize (Hret ret v eq_refl).
  assert (Ecp : cp +64 1 = cp + 1) by (apply add64_small; lia). rewrite Ecp. fold (start_id A).
  assert (Hgo : forall min, exists n2,
    (if cp + 1 <? acc_instance_id A then
       let '(n', ok) := ReplayLog (cp + 1) (acc_instance_id A)
         (n0 <| acceptor_ := A |> <| min_chosen_id := min |> <| max_chosen_id := start_id A |>) in
       (n', start_id A, ok)
     else (n0 <| acceptor_ := A |> <| min_chosen_id := min |> <| max_chosen_id := start_id A |>, start_id A, true))
      = (n2, start_id A, true) /\ acceptor_ n2 = A /\ exec_log (out_ n2) = slice cp (start_id A - 1 - cp)).
  { intros min. set (n1 := n0 <| acceptor_ := A |> <| min_chosen_id := min |> <| max_chosen_id := _ |>).
    destruct (Z.ltb_spec (cp + 1) (acc_instance_id A)) as [Hlt|Hge].
    - destruct (replay_slice n1 cp (acc_instance_id A)) as [Hok Hout]; try done; [lia..|].
      assert (Hacc : acceptor_ (ReplayLog (cp + 1) (acc_instance_id A) n1).1 = acceptor_ n1) by apply replay_acceptor.
      destruct (ReplayLog _ _ n1) as [n2 ok]. simpl in *. subst ok. exists n2. split; [done|].
      split; [done|]. rewrite Hout. f_equal. unfold start_id. lia.
    - exists n1. split; [done|]. split; [done|]. unfold slice, start_id.
      rewrite Z.max_l by lia. by replace (Z.to_nat (cp + 1 - 1 - cp)) with 0%nat by lia. }
  destruct (Z.eqb_spec ret 0) as [->|Hne]; [|rewrite (proj2 (Z.eqb_neq ret (-1)) Hret)]; apply Hgo.
Qed.

Lemma recover_node :
  exists A n', read_acceptor A /\ Instance_Recover n0 = (n', true) /\ instance_id_ n' = start_id A /\
    exec_log (out_ n') = slice cp (start_id A - 1 - cp) /\
    (acc_instance_id A = start_id A -> acceptor_ n' = A) /\
    proposal_id (proposer_ n') = GetProposalId (promised_ballot A) +64 1.
Proof.
  destruct (recover_acceptor M me n a R Hidle c now m ck) as (A & E & HA). destruct (recover_log A HA) as (n2 & E2 & Ea & Eo).
  unfold Instance_Recover. rewrite E, E2. cbn [negb].
  set (n3 := n2 <| instance_id_ := start_id A |>).
  assert (H3 : acceptor_ n3 = A /\ out_ n3 = out_ n2 /\ instance_id_ n3 = start_id A) by done.
  set (n4 := Acceptor_SetInstanceId (start_id A) n3).
  assert (H4 : out_ n4 = out_ n2 /\ instance_id_ n4 = start_id A /\
    promised_ballot (acceptor_ n4) = promised_ballot A /\
    (acc_instance_id A = start_id A -> acceptor_ n4 = A)).
  { unfold n4, Acceptor_SetInstanceId. destruct H3 as (H3 & H31 & H32). rewrite H3.
    destruct (Z.eqb_spec (acc_instance_id A) (start_id A)) as [Eq|Ne]; cbn [negb]; [by split_and!; rewrite ?H3|].
    split; [done|]. split; [done|]. split; [done|]. intros Eq. by destruct Ne. }
  destruct H4 as (H41 & H42 & H43 & H44). exists A. eexists. split; [done|].
  split; [reflexivity|]. split_and!; [done|by simpl; rewrite H41|exact H44|].
  simpl. by rewrite H43.
Qed.


End Node.

(** * The theorem *)

(** (C6) A restart.  Take a node of a clean run whose database writes what it is told, stop its
    process at any moment between two events, and start it again on its database, which it can
    read, with a machine manager that has restored the checkpoint [cp] (which may be newer than
    what the node had, when it was received from another node); no record after [cp] has been
    cleaned.  [Instance::Recover] succeeds.  The node is in its last instance again if it had a
    record of it in the database, in the one before if it had none, and in
    the one after [cp] if that is later; it has handed to the machines exactly the values it
    had executed after [cp] and before that record, in order: all of them with a record of the
    last instance, all but the last one without.  They are the values every other node
    executed for those instances; and with a record of its last instance the acceptor has the
    same promise and the same vote again, and the proposer starts above that promise. *)
Theorem restart_replays :
  forall (s0 s : gmap Z node) (evs : list (Z * Event)) (me : Z) (n : node)
    (c : Config) (now : Z) (m : mm) (ck : ckpt),
  fresh_system M s0 -> clean_run evs s0 = Some s -> s !! me = Some n ->
  let cp := mm_GetLatestCheckpointInstanceId m in
  let last := if decide ((DB_Get (instance_id_ n) (db_ n)).1 = 0) then instance_id_ n else instance_id_ n - 1 in
  0 <= cp < 2 ^ 63 -> min_chosen_id n <= cp + 1 -> (forall k, (ldb_Get k (db_ n)).1 <> LIOError) ->
  exists n', Instance_Recover (new_node c now (db_ n) m ck) = (n', true) /\
    instance_id_ n' = Z.max (cp + 1) last /\
    exec_log (out_ n') = drop (Z.to_nat cp) (take (Z.to_nat (last - 1)) (exec_log (out_ n))) /\
    length (exec_log (out_ n)) = Z.to_nat (instance_id_ n - 1) /\
    (forall i v me2 v2, (i, v) ∈ exec_log (out_ n') -> executed s me2 i v2 -> v = v2) /\
    (cp < instance_id_ n -> (DB_Get (instance_id_ n) (db_ n)).1 = 0 ->
       instance_id_ n' = instance_id_ n /\
       promised_ballot (acceptor_ n') = promised_ballot (acceptor_ n) /\
       accepted_ballot (acceptor_ n') = accepted_ballot (acceptor_ n) /\
       accepted_value (acceptor_ n') = accepted_value (acceptor_ n) /\
       proposal_id (proposer_ n') = GetProposalId (promised_ballot (acceptor_ n)) +64 1).
Proof.
  intros s0 s evs me n c now m ck H0 Hr Hn cp last Hcp Hmin Hread.
  destruct (clean_run_simulated _ _ _ _ H0 Hr) as (a & _ & I & H). destruct (H me n Hn) as [R Hi].
  destruct (recover_node me n a R Hi c now m ck Hcp Hmin Hread) as (A & n' & HA & E & Eid & Eo & Ea & Ep).
  exists n'. rewrite (read_exact me n a R Hi m Hcp Hmin A HA) in Eid, Eo, Ea. rewrite slice_cut in Eo by done.
  fold cp in Eid, Eo, Ea. unfold last_record in Eid, Eo, Ea. fold last in Eid, Eo, Ea.
  assert (Hlen : length (exec_log (out_ n)) = Z.to_nat (instance_id_ n - 1)).
  { destruct R as (_ & _ & Mo). rewrite <- (length_fmap fst), (r_exec _ _ _ _ Mo Hi). apply length_seqZ. }
  split_and!; [done|done|done|done| |].
  - intros i v me2 v2 Hin Hex. rewrite Eo in Hin.
    assert (Hv : (i, v) ∈ exec_log (out_ n)).
    { apply list_elem_of_lookup in Hin as [k Hk]. rewrite lookup_drop, lookup_take_Some in Hk.
      eapply list_elem_of_lookup_2. apply Hk. }
    eapply chosen_unique; [exact I| |by eapply executed_chosen].
    eapply executed_chosen; [exact H|by eapply exec_log_executed].
  - intros Hlt Hg. destruct (durable M me n a R Hi A HA Hg) as (E1 & E2 & E3 & E4).
    assert (El : last = instance_id_ n) by (unfold last; by rewrite decide_True).
    rewrite El, Z.max_r in Eid, Ea by lia. rewrite Ea by done. rewrite Ep, E2. split_and!; try done.
Qed.

End Recovery.
