(* ===== verification/Restarts.v ===== *)
(** Runs in which nodes stop and start again on their databases.

    A restart discards everything a node has in memory and runs [Instance::Recover]; its
    messages stay on the network and what its machines have executed stays executed.
    [restart_fine] names what a restart must not lose, and the theorems show that this is
    enough: the group still refines the protocol of [Consensus.v] and agrees. *)

From S2P Require Import Prelude Ballot Proto Storage Random TimerList Counter NodeState.
From S2P Require Import AcceptorModel ProposerModel LearnerModel LogModel InstanceModel.
From S2P Require Import Traces Consensus System Simulation AcceptorSim ProposerSim LearnerSim Refinement.
From S2P Require Import Recovery.

(** * The runs *)

(** The instance of a broadcast PREPARE or ACCEPT. *)
Definition request_of (o : Output) : option Z :=
  match prepare_of o, accept_of o with
  | Some (i, _), _ => Some i
  | None, Some (i, _, _) => Some i
  | None, None => None
  end.

Section Restarts.
Context {FC : FixedCoding} {LD : LevelDB} {MM : MachineManager} {CM : CheckpointManager}.
Context {AL : Allocator} {PI : ProtoCodec PaxosInstance}.

(** What a stopped process leaves outside of it. *)
Definition history (n : node) : list Output := filter (fun o => is_exit o = false) (out_ n).

(** The process of [n] started again at time [now], with the machines [m] that have
    loaded their latest checkpoint. *)
Definition restarted (now : Z) (m : mm) (ck : ckpt) (n : node) : option node :=
  let '(n', ok) := Instance_Recover (new_node (config_ n) now (db_ n) m ck) in
  if ok then Some (n' <| out_ ::= app (history n) |>) else None.

(** (d) The promise is not lower than before. *)
Definition promise_kept (n n' : node) : bool :=
  ballot_geb (promised_ballot (acceptor_ n')) (promised_ballot (acceptor_ n)).

Definition has_record (n : node) (i : Z) : bool := (DB_Get i (db_ n)).1 =? 0.

(** (e) The node is in its instance again, or one back, on the record of that instance,
    or, with a checkpoint from elsewhere, further on and without a record of its own in
    the instance it was in. *)
Definition instance_kept (n n' : node) : bool :=
  let i := instance_id_ n in let i' := instance_id_ n' in
  (i' =? i) || ((i' =? i - 1) && has_record n i') || ((i <? i') && negb (has_record n i)).

(** (f) The node has asked for nothing beyond the instance it is in. *)
Definition requests_kept (n n' : node) : bool :=
  forallb (fun o => match request_of o with Some i => i <=? instance_id_ n' | None => true end) (out_ n).

(** (g) The membership is the same, the counters are in range. *)
Definition bounds_kept (n n' : node) : bool :=
  bool_decide (dom (GetMembership n') = dom (GetMembership n)) &&
  (1 <=? instance_id_ n') && (instance_id_ n' <=? 2 ^ 63) && (1 <=? proposal_id (proposer_ n')).

Definition restart_fine (n n' : node) : bool :=
  promise_kept n n' && instance_kept n n' && requests_kept n n' && bounds_kept n n' &&
  trace_fine (out_ n').

Inductive GroupEvent :=
| GEvent (me : Z) (e : Event)
| GRestart (me now : Z) (m : mm) (ck : ckpt).

(** An event that is clean, or a restart that [fine] accepts. *)
Definition group_event (fine : node -> node -> bool) (s : gmap Z node) (g : GroupEvent)
  : option (gmap Z node) :=
  match g with
  | GEvent me e => checked_event clean s me e
  | GRestart me now m ck =>
      match s !! me with
      | Some n =>
          match restarted now m ck n with
          | Some n' => if fine n n' then Some (<[me := n']> s) else None
          | None => None
          end
      | None => None
      end
  end.

Fixpoint checked_restart_run (fine : node -> node -> bool) (gs : list GroupEvent)
    (s : gmap Z node) : option (gmap Z node) :=
  match gs with
  | [] => Some s
  | g :: gs =>
      match group_event fine s g with Some s' => checked_restart_run fine gs s' | None => None end
  end.

(** A schedule with restarts, as long as every event of it is clean and every restart fine. *)
Definition restart_run : list GroupEvent -> gmap Z node -> option (gmap Z node) :=
  checked_restart_run restart_fine.

Lemma restart_fine_inv n n' :
  restart_fine n n' = true ->
  promised_ballot (acceptor_ n) <=b promised_ballot (acceptor_ n') /\
  instance_kept n n' = true /\
  (forall o i, o ∈ out_ n -> request_of o = Some i -> i <= instance_id_ n') /\
  dom (GetMembership n') = dom (GetMembership n) /\ 1 <= instance_id_ n' <= 2 ^ 63 /\
  1 <= proposal_id (proposer_ n') /\ trace_fine (out_ n') = true.
Proof.
  unfold restart_fine, promise_kept, requests_kept, bounds_kept.
  rewrite !andb_true_iff, forallb_forall, ballot_geb_spec, bool_decide_eq_true, !Z.leb_le.
  intros ((((H1 & H2) & H3) & ((H4 & H5) & H6) & H7) & H8). split_and!; try done.
  intros o i Ho Hi. apply list_elem_of_In in Ho. specialize (H3 o Ho). rewrite Hi in H3. lia.
Qed.

(** A run without restarts is one. *)
Lemma clean_restart_run evs s : restart_run ((fun x => GEvent x.1 x.2) <$> evs) s = clean_run evs s.
Proof.
  unfold clean_run, restart_run. revert s. induction evs as [|[me e] evs IH]; intros s; simpl; [done|].
  destruct (checked_event clean s me e); [|done]. apply IH.
Qed.

End Restarts.

(** * Recovery of a node *)

Section Recovered.
Context {FC : FixedCoding} {FCL : FixedCodingLaws} {LD : LevelDB} {LDL : LevelDBLaws}.
Context {LDR : LevelDBReliable} {MM : MachineManager} {MML : MachineManagerLaws}.
Context {CM : CheckpointManager} {CML : CheckpointManagerLaws}.
Context {AL : Allocator} {PI : ProtoCodec PaxosInstance} {PIL : ProtoCodecLaws PaxosInstance}.
Context {RM : RestartMode}.
Variable M : gset Z.

(** What a replay of the ids from [from] to [to] hands to the machines: the logged values. *)
Definition replayed (db : ldb) (from to : Z) (k : list Output) : Prop :=
  (exec_log k).*1 = seqZ from (to - from) /\
  forall o, o ∈ k -> exists i s r, from <= i < to /\ DB_Get i db = (0, s) /\
    o = OExecute i (pi_accepted_value (ParseFromString s).2) r.

Lemma replayed_nil db i : replayed db i i [].
Proof. split; [by rewrite Z.sub_diag|]. intros o Ho. by apply elem_of_nil in Ho. Qed.

Lemma replay_reads fuel from (n : node) :
  0 <= from -> from + Z.of_nat fuel < 2 ^ 64 -> (ReplayLog_loop fuel from n).2 = true ->
  exists m k, (ReplayLog_loop fuel from n).1 = n <| mm_ := m |> <| out_ := out_ n ++ k |> /\
    replayed (db_ n) from (from + Z.of_nat fuel) k.
Proof.
  revert from n. induction fuel as [|fuel IH]; intros from n H0 Hb; simpl.
  - intros _. exists (mm_ n), []. rewrite app_nil_r, Z.add_0_r. split; [by destruct n|apply replayed_nil].
  - destruct (DB_Get from (db_ n)) as [res s] eqn:G.
    destruct (Z.eqb_spec res 0) as [->|]; simpl; [|done].
    unfold Execute. destruct (mm_Execute _ _ _ _ _ _) as [m b].
    rewrite add64_small by lia. set (v := pi_accepted_value (ParseFromString s).2).
    set (n1 := emit (OExecute from v b) (n <| mm_ := m |>)). intros Hok.
    destruct (IH (from + 1) n1) as (m' & k & E & Hids & Hk); [lia|lia|done|].
    exists m', (OExecute from v b :: k). split; [rewrite E; simpl; by rewrite <- app_assoc|].
    split.
    + change (exec_log (OExecute from v b :: k)) with ((from, v) :: exec_log k).
      rewrite fmap_cons, Hids. cbn [fst]. rewrite (seqZ_cons from) by lia. do 2 f_equal. lia.
    + intros o [->|Ho]%elem_of_cons; [exists from, s, b; split_and!; [lia..|done|done]|].
      destruct (Hk o Ho) as (i & s' & r & ? & ? & ?). exists i, s', r. split_and!; [lia..|done|done].
Qed.

(** The state in which [Instance::Recover] leaves a node whose acceptor has read [A]. *)
Record recovered (c : Config) (db : ldb) (cp : Z) (A : Acceptor) (n : node) : Prop := {
  rv_config : config_ n = c;
  rv_db : db_ n = db;
  rv_inst : instance_id_ n = Z.max (cp +64 1) (acc_instance_id A);
  rv_min : in_u64 (min_chosen_id n);
  rv_max : max_chosen_id n = instance_id_ n;
  rv_acc : acceptor_ n =
    if acc_instance_id A =? instance_id_ n then A
    else A <| acc_instance_id := instance_id_ n |> <| accepted_ballot := Ballot_default |>
           <| accepted_value := PaxosValue_default |>;
  rv_prop : prop_instance_id (proposer_ n) = instance_id_ n /\ preparing (proposer_ n) = false /\
    accepting (proposer_ n) = false /\ skip_prepare (proposer_ n) = false;
  rv_lrn : lrn_instance_id (learner_ n) = instance_id_ n /\ has_learned (learner_ n) = false;
  rv_tasks : learn_queue n = [];
  rv_out : replayed db (cp +64 1) (instance_id_ n) (out_ n);
}.

Lemma recover_state c now db m ck A (n' : node) :
  Acceptor_Recover (new_node c now db m ck) = (new_node c now db m ck <| acceptor_ := A |>, Some (acc_instance_id A)) ->
  in_u64 (acc_instance_id A) -> Instance_Recover (new_node c now db m ck) = (n', true) ->
  recovered c db (mm_GetLatestCheckpointInstanceId m) A n'.
Proof.
  intros HA Hu. unfold Instance_Recover. rewrite HA. unfold LogManager_Recover.
  set (n0 := new_node c now db m ck). change (db_ (n0 <| acceptor_ := A |>)) with db.
  change (mm_ (n0 <| acceptor_ := A |>)) with m.
  set (cp := mm_GetLatestCheckpointInstanceId m). set (sid := Z.max (cp +64 1) (acc_instance_id A)).
  pose proof (add64_range cp 1) as Hcp.
  assert (Hmin : in_u64 (DB_GetMinChosenInstanceId 0 db).2).
  { unfold DB_GetMinChosenInstanceId. destruct (DB_Get _ _) as [ret s]. destruct (_ =? _); [apply decode64_range|].
    simpl. unfold in_u64. lia. }
  destruct (DB_GetMinChosenInstanceId 0 db) as [ret min]. simpl in Hmin.
  destruct (ret =? -1); [done|].
  set (n1 := n0 <| acceptor_ := A |> <| min_chosen_id := min |> <| max_chosen_id := sid |>).
  assert (Hfin : forall mm k, replayed db (cp +64 1) sid k ->
    recovered c db cp A (SetStartProposalId
      (GetProposalId (promised_ballot (acceptor_ (Proposer_SetInstanceId sid (Learner_SetInstanceId sid
         (Acceptor_SetInstanceId sid (n1 <| mm_ := mm |> <| out_ := k |> <| instance_id_ := sid |>)))))) +64 1)
      (Proposer_SetInstanceId sid (Learner_SetInstanceId sid
         (Acceptor_SetInstanceId sid (n1 <| mm_ := mm |> <| out_ := k |> <| instance_id_ := sid |>)))))).
  { intros mm k Hk. unfold Acceptor_SetInstanceId.
    simpl. destruct (acc_instance_id A =? sid) eqn:E; simpl; constructor; simpl; try done; by rewrite E. }
  destruct (Z.ltb_spec (cp +64 1) (acc_instance_id A)) as [Hlt|Hge].
  - unfold ReplayLog. destruct (ReplayLog_loop _ _ n1) as [n2 ok] eqn:ER. destruct ok; cbn [negb]; [|done].
    destruct (replay_reads (Z.to_nat (acc_instance_id A - (cp +64 1))) (cp +64 1) n1) as (m' & k & E & Hk);
      [unfold in_u64 in *; lia..|by rewrite ER|].
    rewrite ER in E. simpl in E. subst n2. intros [= <-]. apply (Hfin m' k).
    rewrite Z2Nat.id in Hk by lia. unfold sid. rewrite Z.max_r by lia.
    by replace (cp +64 1 + (acc_instance_id A - (cp +64 1))) with (acc_instance_id A) in Hk by lia.
  - cbn [negb]. intros [= <-]. apply (Hfin m []). unfold sid. rewrite Z.max_l by lia. apply replayed_nil.
Qed.

(** ** The acceptor *)

Section Node.
Variables (me : Z) (n : node) (a : astate).
Hypothesis R : node_rel M me n a.
Hypothesis Hidle : idle n.
Hypothesis Hmode : may_restart = true.

Lemma no_record_no_votes :
  (DB_Get (instance_id_ n) (db_ n)).1 <> 0 -> forall b v, ~ a_vote a me (instance_id_ n) b v.
Proof.
  intros H0. destruct R as (_ & X & Mo). pose proof (r_acc _ _ _ _ X) as Ha. unfold accepted_rel in Ha.
  rewrite (r_acc_i _ _ _ _ Mo) in Ha. destruct Ha as [[_ Hno]|(Hpos & _)]; [done|].
  by destruct H0; apply (r_db_cur _ _ _ _ Mo).
Qed.

(** What the relation asks of the acceptor [A] a node has in instance [i] after a restart. *)
Record acceptor_back (i : Z) (A : Acceptor) : Prop := {
  ab_id : acc_instance_id A = i;
  ab_votes : forall j b v, a_vote a me j b v -> j <= i;
  ab_acc : (accepted_ballot A = Ballot_default /\ forall b v, ~ a_vote a me i b v) \/
    (0 < GetProposalId (accepted_ballot A) /\ accepted_ballot A <=b promised_ballot A /\
     held M a me i (accepted_ballot A) (accepted_value A) /\
     forall b v, a_vote a me i b v -> b <=b accepted_ballot A);
  ab_rec : forall s, DB_Get i (db_ n) = (0, s) -> s = SerializeAsString (acceptor_record A);
  ab_cur : 0 < GetProposalId (accepted_ballot A) -> (DB_Get i (db_ n)).1 = 0;
}.

(** The ids of instances are ids of records. *)
Lemma stored_at j : 0 <= j <= 2 ^ 63 -> (DB_Get j (db_ n)).1 = 0 -> stored (db_ n) j.
Proof. intros Hj H0. split_and!; [unfold in_u64; lia|unfold kMinChosenKey, u64_max; lia|done]. Qed.

(** The acceptor has read the last record. *)
Lemma read_top A :
  read_acceptor n A ->
  acc_instance_id A <= instance_id_ n /\ forall j, stored (db_ n) j -> j <= acc_instance_id A.
Proof.
  pose proof R as (_ & _ & Mo). pose proof (r_range _ _ _ _ Mo).
  intros [(r & Hs & Hm & _)|[E Hn]].
  - split; [by apply (stored_bound M me n a R)|done].
  - split; [lia|]. intros j Hj. by destruct (Hn j).
Qed.

Lemma votes_reached j b v : a_vote a me j b v -> j <= instance_id_ n.
Proof.
  destruct R as (I & X & _). intros Hv. apply (vote_bounds _ _ I) in Hv as [_ Hv].
  by rewrite (r_inst _ _ _ _ X) in Hv.
Qed.

(** An acceptor without a record of instance [i], in which the node has not voted. *)
Lemma reset_back i A :
  (DB_Get i (db_ n)).1 <> 0 -> (forall j b v, a_vote a me j b v -> j <= i) ->
  (forall b v, ~ a_vote a me i b v) ->
  acceptor_back i (A <| acc_instance_id := i |> <| accepted_ballot := Ballot_default |>
                     <| accepted_value := PaxosValue_default |>).
Proof.
  intros H0 Hle Hno. constructor; simpl; try done; [by left|].
  intros s Hs. by rewrite Hs in H0.
Qed.

Lemma same_instance_back A :
  read_acceptor n A -> promised_ballot (acceptor_ n) <=b promised_ballot A ->
  (DB_Get (instance_id_ n) (db_ n)).1 = 0 -> acceptor_back (instance_id_ n) A.
Proof.
  intros HA Hp H0. destruct (durable M me n a R Hidle A HA H0) as (E1 & E2 & E3 & E4).
  destruct R as (I & X & Mo). constructor; [done|apply votes_reached| | |done].
  - pose proof (r_acc _ _ _ _ X) as Ha. unfold accepted_rel in Ha. rewrite (r_acc_i _ _ _ _ Mo) in Ha.
    rewrite E2, E3, E4, <- (r_bal _ _ _ _ X). exact Ha.
  - intros s Hs. rewrite (r_db_rec _ _ _ _ Mo Hidle s Hs). unfold acceptor_record.
    by rewrite E1, E2, E3, E4, (r_acc_i _ _ _ _ Mo).
Qed.

Lemma previous_instance_back A :
  read_acceptor n A -> promised_ballot (acceptor_ n) <=b promised_ballot A ->
  acc_instance_id A = instance_id_ n - 1 -> (DB_Get (instance_id_ n - 1) (db_ n)).1 = 0 ->
  acceptor_back (instance_id_ n - 1) A.
Proof.
  intros HA Hp Ei H0. pose proof R as (I & X & Mo). pose proof (r_range _ _ _ _ Mo) as Hr.
  destruct HA as [(r & Hs & Hmax & Hg & EA)|[_ Hnone]].
  2: { destruct (Hnone (instance_id_ n - 1)). apply stored_at; [lia|done]. }
  rewrite Ei in Hg, EA, Hmax.
  assert (Hno : (DB_Get (instance_id_ n) (db_ n)).1 <> 0).
  { intros Hc. enough (instance_id_ n <= instance_id_ n - 1) by lia.
    apply Hmax, stored_at; [lia|done]. }
  destruct (r_db _ _ _ _ Mo (instance_id_ n - 1) _ ltac:(unfold in_u64; lia) ltac:(lia) Hg)
    as (r' & Er & Hri & Hrp & Hch).
  apply (f_equal ParseFromString) in Er. rewrite !parse_serialize in Er. injection Er as <-.
  assert (Hle : a_bal a me <=b Ballot (pi_promised_id r) (pi_promised_node_id r)).
  { rewrite (r_bal _ _ _ _ X). by rewrite EA in Hp. }
  destruct (r_prev _ _ _ _ X Hidle Hno r Hg Hle) as [Hacc Hv].
  rewrite EA. constructor; simpl; try done.
  - intros j b v Hjv. pose proof (votes_reached j b v Hjv).
    destruct (decide (j = instance_id_ n)) as [->|]; [|lia]. by destruct (no_record_no_votes Hno b v).
  - right. split_and!; try done. by right.
  - intros s Hs'. rewrite Hg in Hs'. injection Hs' as <-. f_equal. unfold acceptor_record. simpl.
    rewrite <- Hri. by destruct r.
Qed.

(** The three ways of [instance_kept]. *)
Lemma recovered_back c cp A (n' : node) :
  read_acceptor n A -> recovered c (db_ n) cp A n' -> 1 <= instance_id_ n' <= 2 ^ 63 ->
  promised_ballot (acceptor_ n) <=b promised_ballot (acceptor_ n') -> instance_kept n n' = true ->
  acceptor_back (instance_id_ n') (acceptor_ n') /\
  (forall j, in_u64 j -> j <> kMinChosenKey -> instance_id_ n' < j -> (DB_Get j (db_ n)).1 <> 0) /\
  (forall j, instance_id_ n <= j < instance_id_ n' -> (DB_Get j (db_ n)).1 <> 0) /\
  (instance_id_ n' <> instance_id_ n -> (DB_Get (instance_id_ n') (db_ n)).1 <> 0 ->
   (DB_Get (instance_id_ n' - 1) (db_ n)).1 <> 0).
Proof.
  intros HA V Hr' Hp Hk. pose proof R as (I & X & Mo). pose proof (r_range _ _ _ _ Mo) as Hr.
  pose proof (r_db_top _ _ _ _ Mo) as Htop. pose proof (rv_inst _ _ _ _ _ V) as Ei.
  assert (Hpa : promised_ballot (acceptor_ n') = promised_ballot A)
    by (rewrite (rv_acc _ _ _ _ _ V); by destruct (_ =? _)).
  destruct (read_top A HA) as [Hb Hmax].
  assert (Habove : forall j, instance_id_ n < j -> in_u64 j -> j <> kMinChosenKey -> (DB_Get j (db_ n)).1 <> 0)
    by auto.
  assert (Hreset : acc_instance_id A <> instance_id_ n' -> (DB_Get (instance_id_ n') (db_ n)).1 <> 0 ->
    (forall j b v, a_vote a me j b v -> j <= instance_id_ n') ->
    (forall b v, ~ a_vote a me (instance_id_ n') b v) -> acceptor_back (instance_id_ n') (acceptor_ n')).
  { intros Hne H0 H1 H2. rewrite (rv_acc _ _ _ _ _ V), (proj2 (Z.eqb_neq _ _) Hne). by apply reset_back. }
  unfold instance_kept, has_record in Hk. rewrite !orb_true_iff, !andb_true_iff, negb_true_iff in Hk.
  rewrite !Z.eqb_eq, Z.eqb_neq, Z.ltb_lt in Hk. destruct Hk as [[E|[E H0]]|[Hlt H0]].
  - split_and!; [|intros; apply Habove; [lia|done..]|lia|done]. rewrite E.
    destruct (decide ((DB_Get (instance_id_ n) (db_ n)).1 = 0)) as [H0|H0].
    + assert (EA : acc_instance_id A = instance_id_ n)
        by (pose proof (Hmax _ (stored_at (instance_id_ n) ltac:(lia) H0)); lia).
      rewrite (rv_acc _ _ _ _ _ V), E, EA, Z.eqb_refl. apply same_instance_back; [done| |done].
      by rewrite <- Hpa.
    + rewrite <- E. apply Hreset; rewrite E; [|done|apply votes_reached|by apply no_record_no_votes].
      intros EA. apply H0. destruct HA as [(r & (_ & _ & Hs) & _)|[EA' _]]; [by rewrite <- EA|lia].
  - assert (EA : acc_instance_id A = instance_id_ n - 1)
      by (pose proof (Hmax _ (stored_at (instance_id_ n') ltac:(lia) H0)); lia).
    rewrite E in *. split_and!; [| |lia|done].
    + rewrite (rv_acc _ _ _ _ _ V), E, EA, Z.eqb_refl.
      apply previous_instance_back; [done|by rewrite <- Hpa|done|done].
    + intros j Hj Hk Hlt Hs. enough (j <= instance_id_ n - 1) by lia. rewrite <- EA. by apply Hmax.
  - assert (H1 : forall j, instance_id_ n <= j < 2 ^ 64 - 1 -> (DB_Get j (db_ n)).1 <> 0).
    { intros j Hj. destruct (decide (j = instance_id_ n)) as [->|]; [done|].
      apply Habove; [lia|unfold in_u64; lia|unfold kMinChosenKey, u64_max; lia]. }
    split_and!.
    + apply Hreset; [lia|apply H1; lia| |].
      * intros j b v Hv. pose proof (votes_reached j b v Hv). lia.
      * intros b v Hv. pose proof (votes_reached _ b v Hv). lia.
    + intros j Hj Hk Hlt'. apply Habove; [lia|done..].
    + intros j Hj. apply H1. lia.
    + intros _ _. apply H1. lia.
Qed.

(** ** The node *)

Lemma history_elem o : is_exit o = false -> o ∈ out_ n -> o ∈ history n.
Proof. intros H Ho. unfold history. by apply list_elem_of_filter. Qed.

Lemma history_sub o : o ∈ history n -> o ∈ out_ n.
Proof. unfold history. rewrite list_elem_of_filter. tauto. Qed.

Lemma request_kept o i : request_of o = Some i -> is_exit o = false.
Proof. by destruct o. Qed.

Lemma replayed_ok from to k :
  replayed (db_ n) from to k -> 0 <= from -> to <= instance_id_ n \/ k = [] ->
  forall o, o ∈ k -> output_ok M a me o.
Proof.
  intros [_ Hk] Hf Hto o Ho. destruct (Hk o Ho) as (i & s & r & Hi & Hg & ->).
  destruct Hto as [Hto| ->]; [|by apply elem_of_nil in Ho].
  destruct R as (_ & _ & Mo). pose proof (r_range _ _ _ _ Mo).
  destruct (r_db _ _ _ _ Mo i s ltac:(unfold in_u64; lia) ltac:(lia) Hg) as (r' & -> & _ & _ & Hc).
  simpl. by rewrite parse_serialize.
Qed.

Section Restart.
Variables (A : Acceptor) (cp : Z) (n1 : node).
Hypothesis HA : read_acceptor n A.
Hypothesis V : recovered (config_ n) (db_ n) cp A n1.
Notation n' := (n1 <| out_ ::= app (history n) |>).
Hypothesis Hfine : restart_fine n n' = true.

(** The state of the protocol after the restart. *)
Definition a_restarted : astate :=
  mkAstate (upd (a_bal a) me (promised_ballot (acceptor_ n1)))
    (upd (a_inst a) me (instance_id_ n1)) (a_vote a) (a_prop a) (a_ask a).

Lemma restart_step : astep M me a a_restarted.
Proof.
  destruct (restart_fine_inv _ _ Hfine) as (Hp & Hk & Hreq & _ & Hr' & _).
  destruct (recovered_back _ _ A n1 HA V Hr' Hp Hk) as ([] & _). destruct R as (I & X & Mo).
  apply step_restart; [by rewrite (r_bal _ _ _ _ X)|done| |].
  - intros j b v Hv Hb. destruct (r_props _ _ _ _ X _ _ _ Hv Hb) as (o & Ho & Eo).
    apply (Hreq o); [done|]. unfold request_of. rewrite Eo. destruct o; try done. simpl in *.
    repeat case_bool_decide; naive_solver.
  - intros j b Hv Hb. destruct (r_asks _ _ _ _ X _ _ Hv Hb) as (o & Ho & Eo).
    apply (Hreq o); [done|]. unfold request_of. by rewrite Eo.
Qed.

Lemma restart_exact : exact_rel M me n' a_restarted.
Proof.
  destruct (restart_fine_inv _ _ Hfine) as (Hp & Hk & Hreq & _ & Hr' & _).
  destruct (recovered_back _ _ A n1 HA V Hr' Hp Hk) as ([] & _ & _ & Hprev).
  pose proof R as (I & X & Mo). pose proof (rv_db _ _ _ _ _ V) as Edb.
  destruct (rv_prop _ _ _ _ _ V) as (_ & Hpre & Hacc & _).
  constructor; simpl; try (by rewrite ?Hpre, ?Hacc).
  - by rewrite upd_eq.
  - by rewrite upd_eq.
  - unfold accepted_rel. simpl. rewrite upd_eq, ab_id0. exact ab_acc0.
  - intros i b v Hv Hb. destruct (r_props _ _ _ _ X _ _ _ Hv Hb) as (o & Ho & Eo).
    exists o. split; [|done]. apply elem_of_app. left. apply history_elem; [by destruct o|done].
  - intros i b Hv Hb. destruct (r_asks _ _ _ _ X _ _ Hv Hb) as (o & Ho & Eo).
    exists o. split; [|done]. apply elem_of_app. left. apply history_elem; [by destruct o|done].
  - rewrite Edb. intros _ H0 r Hg. destruct (decide (instance_id_ n1 = instance_id_ n)) as [E|E].
    + rewrite E in *. unfold record_sound. cbn [a_bal a_restarted a_vote]. rewrite upd_eq. cbv zeta. intros Hle.
      apply (r_prev _ _ _ _ X Hidle H0 r Hg). rewrite (r_bal _ _ _ _ X).
      by eapply ballot_le_trans.
    + exfalso. apply (Hprev E H0). by rewrite Hg.
Qed.

Lemma restart_mono : mono_rel M me n' a_restarted.
Proof.
  destruct (restart_fine_inv _ _ Hfine) as (Hp & Hk & _ & Hmem & Hr' & Hpid & _).
  destruct (recovered_back _ _ A n1 HA V Hr' Hp Hk) as ([] & Htop & Hgap & _).
  pose proof (astep_ext _ _ _ _ restart_step) as Ex.
  pose proof R as (I & X & Mo). pose proof (rv_db _ _ _ _ _ V) as Edb.
  pose proof (rv_config _ _ _ _ _ V) as Ecfg. pose proof (rv_inst _ _ _ _ _ V) as Einst.
  destruct (rv_prop _ _ _ _ _ V) as (Hpi & Hpre & Hacc & Hskip), (rv_lrn _ _ _ _ _ V) as [Hli Hl].
  pose proof (rv_out _ _ _ _ _ V) as Hout.
  constructor; simpl; rewrite ?Ecfg, ?Edb, ?Hpre, ?Hskip, ?(rv_tasks _ _ _ _ _ V);
    try done; try apply Mo.
  - rewrite <- (r_members _ _ _ _ Mo). exact Hmem.
  - split; [apply V|]. rewrite (rv_max _ _ _ _ _ V). done.
  - intros j s Hj Hlt Hg. destruct (Z.lt_ge_cases j (instance_id_ n)) as [Hjn|Hjn].
    + destruct (r_db _ _ _ _ Mo j s Hj Hjn Hg) as (r & ? & ? & ? & ?). exists r. eauto using chosen_ext.
    + exfalso. apply (Hgap j ltac:(lia)). by rewrite Hg.
  - by rewrite Hmode.
  - intros o [Ho|Ho]%elem_of_app.
    + eapply output_ok_ext; [exact Ex|]. by apply (r_out _ _ _ _ Mo), history_sub.
    + eapply output_ok_ext; [exact Ex|]. eapply replayed_ok; [exact Hout| | |exact Ho].
      * pose proof (add64_range cp 1). unfold in_u64 in *. lia.
      * destruct (Z.le_gt_cases (instance_id_ n1) (acc_instance_id A)) as [Hle|Hgt].
        -- left. etrans; [exact Hle|]. by apply read_top.
        -- right. destruct Hout as [Hids Hk']. destruct (out_ n1) as [|o1 k]; [done|].
           destruct (Hk' o1) as (i & s & r & Hi & _); [set_solver|lia].
  - intros _. unfold ran. rewrite Hmode. exists (exec_log (history n)).*1, (cp +64 1 - 1).
    unfold exec_log. rewrite omap_app, fmap_app. fold (exec_log (history n)) (exec_log (out_ n1)).
    destruct Hout as [-> _]. split; [|lia]. f_equal. f_equal; lia.
  - intros t Ht. by apply elem_of_nil in Ht.
Qed.

End Restart.

(** A restart is a step [step_restart] of the protocol. *)
Lemma restart_rel now m ck n' :
  restarted now m ck n = Some n' -> restart_fine n n' = true ->
  exists a', asteps M me a a' /\ node_rel M me n' a' /\ idle n'.
Proof.
  unfold restarted. destruct (Instance_Recover _) as [n1 ok] eqn:E. destruct ok; [|done].
  intros [= <-] Hfine.
  destruct (recover_acceptor M me n a R Hidle (config_ n) now m ck) as (A & EA & HA).
  assert (Hu : in_u64 (acc_instance_id A)).
  { destruct HA as [(r & [Hu _] & _)|[-> _]]; [done|unfold in_u64; lia]. }
  pose proof (recover_state _ _ _ _ _ _ _ EA Hu E) as V. exists (a_restarted n1).
  pose proof (restart_step A _ n1 HA V Hfine) as S. split; [by apply rtc_once|]. split; [|apply V].
  split; [eapply ainv_step; [apply R|exact S]|]. split; [by eapply restart_exact|by eapply restart_mono].
Qed.

(** ** Restarts that lose nothing *)

(** A node's requests are for instances it has reached. *)
Lemma requests_reached o i : o ∈ out_ n -> request_of o = Some i -> i <= instance_id_ n.
Proof.
  intros Ho Hq. destruct R as (I & X & Mo). pose proof (r_out _ _ _ _ Mo o Ho) as Hok.
  unfold request_of in Hq. destruct o as [|ds c| | | | |]; try done. simpl in Hq, Hok.
  case_bool_decide as B.
  - destruct B as [T1 T2]. destruct (Hok T1) as (Hm & Hid & _). specialize (Hm 0).
    unfold msg_ok in Hm. rewrite T2 in Hm. destruct Hm as [_ Ha%(ask_bounds _ _ I)].
    simpl in Ha. rewrite Hid, (r_inst _ _ _ _ X) in Ha. by injection Hq as <-.
  - case_bool_decide as B'; [|done]. destruct B' as [T1 T2]. destruct (Hok T1) as (Hm & Hid & _).
    specialize (Hm 0). unfold msg_ok in Hm. rewrite T2 in Hm. destruct Hm as [_ Ha%(prop_bounds _ _ I)].
    simpl in Ha. rewrite Hid, (r_inst _ _ _ _ X) in Ha. injection Hq as <-. lia.
Qed.

(** A node with a record of its instance comes back in it with its promise. *)
Lemma answered_kept now m ck n' :
  restarted now m ck n = Some n' -> has_record n (instance_id_ n) = true ->
  0 <= mm_GetLatestCheckpointInstanceId m < instance_id_ n ->
  promise_kept n n' = true /\ instance_kept n n' = true /\ requests_kept n n' = true.
Proof.
  unfold restarted, has_record. rewrite Z.eqb_eq.
  destruct (Instance_Recover _) as [n1 ok] eqn:E. destruct ok; [|done]. intros [= <-] H0 Hcp.
  destruct (recover_acceptor M me n a R Hidle (config_ n) now m ck) as (A & EA & HA).
  destruct (durable M me n a R Hidle A HA H0) as (E1 & E2 & _).
  pose proof R as (_ & _ & Mo). pose proof (r_range _ _ _ _ Mo) as Hr.
  pose proof (recover_state _ _ _ _ _ _ _ EA ltac:(rewrite E1; unfold in_u64; lia) E) as V.
  assert (Ei : instance_id_ n1 = instance_id_ n)
    by (rewrite (rv_inst _ _ _ _ _ V), E1, add64_small by lia; lia).
  assert (Ea : acceptor_ n1 = A) by (rewrite (rv_acc _ _ _ _ _ V), Ei, E1, Z.eqb_refl; done).
  unfold promise_kept, instance_kept, requests_kept. simpl. split_and!.
  - apply ballot_geb_spec. rewrite Ea, E2. by left.
  - by rewrite Ei, Z.eqb_refl.
  - apply forallb_forall. intros o Ho%list_elem_of_In. destruct (request_of o) as [i|] eqn:Q; [|done].
    apply Z.leb_le. rewrite Ei. by eapply requests_reached.
Qed.

End Node.

End Recovered.

(** * The group *)

(** With restarts. *)
Definition with_restarts : RestartMode := true.

Section Theorems.
Context {FC : FixedCoding} {FCL : FixedCodingLaws} {LD : LevelDB} {LDL : LevelDBLaws}.
Context {LDR : LevelDBReliable} {MM : MachineManager} {MML : MachineManagerLaws}.
Context {CM : CheckpointManager} {CML : CheckpointManagerLaws}.
Context {AL : Allocator} {PI : ProtoCodec PaxosInstance} {PIL : ProtoCodecLaws PaxosInstance}.
Variable M : gset Z.
#[local] Existing Instance with_restarts.

Lemma group_event_sim s a g s' :
  system_rel M s a -> group_event restart_fine s g = Some s' ->
  exists a', rtc (astep_any M) a a' /\ system_rel M s' a'.
Proof.
  intros Hs. assert (Hany : forall me x y, asteps M me x y -> rtc (astep_any M) x y).
  { intros me x y. apply rtc_subrel. intros x1 y1 H. by exists me. }
  destruct g as [me e|me now m ck]; simpl.
  - intros H. destruct (clean_event_sim _ _ _ _ _ _ Hs H) as (a' & S & Hs'). eauto.
  - destruct (s !! me) as [n|] eqn:Hn; [|done]. destruct (Hs me n Hn) as [R Hi].
    destruct (restarted now m ck n) as [n'|] eqn:E; [|done].
    destruct (restart_fine n n') eqn:F; [|done]. intros [= <-].
    destruct (restart_rel M me n a R Hi eq_refl now m ck n' E F) as (a' & S & R' & I').
    exists a'. split; [eauto|]. intros k n1. destruct (decide (k = me)) as [->|Hne].
    + rewrite lookup_insert_eq. intros [= <-]. done.
    + rewrite lookup_insert_ne by done. intros Hk. destruct (Hs k n1 Hk).
      split; [|done]. by eapply node_rel_frame.
Qed.

Lemma restart_run_sim gs s a s' :
  system_rel M s a -> restart_run gs s = Some s' ->
  exists a', rtc (astep_any M) a a' /\ system_rel M s' a'.
Proof.
  unfold restart_run. revert s a. induction gs as [|g gs IH]; intros s a Hs; simpl.
  - intros [= <-]. by exists a.
  - destruct (group_event restart_fine s g) as [s1|] eqn:E; [|done]. intros Hr.
    destruct (group_event_sim _ _ _ _ Hs E) as (a1 & S1 & H1).
    destruct (IH s1 a1 H1 Hr) as (a2 & S2 & H2). exists a2. split; [by etrans|done].
Qed.

Lemma restart_run_simulated s0 gs s :
  fresh_system M s0 -> restart_run gs s0 = Some s ->
  exists a, rtc (astep_any M) a_start a /\ ainv M a /\ system_rel M s a.
Proof.
  intros H0 Hr. destruct (restart_run_sim _ _ _ _ (fresh_system_rel M _ H0) Hr) as (a & S & H).
  exists a. split_and!; [done| |done]. clear H Hr. pose proof (ainv_init M _ a_start_init) as I.
  induction S as [|x y z [k Sk] _ IH]; [done|]. apply IH. by eapply ainv_step.
Qed.

(** (C2) Agreement with restarts: nodes may stop at any moment between two events and start
    again on their databases, any number of times.  As long as every event is clean and no
    restart loses the promise or the record it needs ([restart_fine]), the run is an execution
    of the abstract protocol; every node's instance and promise are the abstract ones; every
    value any node has handed to its machines, before or after a restart or while replaying
    its log, was chosen by a majority; and so no two executions of an instance, of whatever
    nodes and processes, differ.  Writes to the databases are assumed to succeed
    ([LevelDBReliable]). *)
Theorem restarts_agree : forall (s0 s : gmap Z node) (gs : list GroupEvent),
  fresh_system M s0 -> restart_run gs s0 = Some s ->
  (exists a0 a, ainit a0 /\ rtc (astep_any M) a0 a /\
     (forall me n, s !! me = Some n ->
        a_inst a me = instance_id_ n /\ a_bal a me = promised_ballot (acceptor_ n)) /\
     (forall me i v, executed s me i v -> chosen M a i v)) /\
  (forall n1 n2 i v1 v2, executed s n1 i v1 -> executed s n2 i v2 -> v1 = v2).
Proof.
  intros s0 s gs H0 Hr. destruct (restart_run_simulated _ _ _ H0 Hr) as (a & S & I & H).
  assert (Hex : forall me i v, executed s me i v -> chosen M a i v) by (intros; by eapply executed_chosen).
  split.
  - exists a_start, a. split_and!; [apply a_start_init..|done| |done].
    intros me n Hn. destruct (H me n Hn) as [(_ & X & _) _]. split; apply X.
  - intros n1 n2 i v1 v2 H1 H2. eapply chosen_unique; [exact I|..]; eauto.
Qed.

(** (C7) When a restart is safe.  In a run with restarts, a node that has promised or
    accepted something in its present instance, and whose machines have no checkpoint of that
    instance or a later one, can be stopped and started again: if the process comes up it has
    its promise, is in its instance, and has asked for nothing beyond it, so that only
    the membership, the range of the counters and what the replay outputs are left to check.
    Writes to the database are assumed to succeed ([LevelDBReliable]). *)
Theorem answered_restart_is_fine :
  forall (s0 s : gmap Z node) (gs : list GroupEvent) (me now : Z) (m : mm) (ck : ckpt) (n n' : node),
  fresh_system M s0 -> restart_run gs s0 = Some s -> s !! me = Some n ->
  has_record n (instance_id_ n) = true -> 0 <= mm_GetLatestCheckpointInstanceId m < instance_id_ n ->
  restarted now m ck n = Some n' ->
  promise_kept n n' = true /\ instance_kept n n' = true /\ requests_kept n n' = true /\
  restart_fine n n' = bounds_kept n n' && trace_fine (out_ n').
Proof.
  intros s0 s gs me now m ck n n' H0 Hr Hn Hrec Hcp E.
  destruct (restart_run_simulated _ _ _ H0 Hr) as (a & _ & _ & H). destruct (H me n Hn) as [R Hi].
  destruct (answered_kept M me n a R Hi now m ck n' E Hrec Hcp) as (H1 & H2 & H3).
  split_and!; [done..|]. unfold restart_fine. by rewrite H1, H2, H3.
Qed.

End Theorems.
