(* ===== verification/Progress.v ===== *)
(** Progress: what a majority that hears from one proposer achieves.

    The safety theorems hold of nodes that do nothing.  Here the handlers are followed
    through a whole round: from any state of a clean run in which a majority is in the
    proposer's instance and has not promised a higher ballot, delivering the messages of the
    round makes that majority execute the same value. *)

From S2P Require Import Prelude Ballot Proto Storage Random TimerList Counter NodeState.
From S2P Require Import AcceptorModel ProposerModel LearnerModel LogModel InstanceModel.
From S2P Require Import Traces Consensus System Simulation AcceptorSim ProposerSim LearnerSim Refinement.

(** No output of the list ends the process. *)
Definition no_exit (l : list Output) : Prop := existsb is_exit l = false.

Lemma no_exit_app l k : no_exit (l ++ k) <-> no_exit l /\ no_exit k.
Proof. unfold no_exit. rewrite existsb_app. apply orb_false_iff. Qed.

(** Whether [NewPropose] goes to the accept phase at once. *)
Definition skips_prepare (r : Proposer) : bool := skip_prepare r && negb (was_rejected_by_someone r).

(** The proposal id [NewPropose] uses. *)
Definition round_id (r : Proposer) : Z :=
  if skips_prepare r then proposal_id r
  else proposal_id (prepare_reset (was_rejected_by_someone r) r).

Section Basics.
Context {FC : FixedCoding} {FCL : FixedCodingLaws} {LD : LevelDB} {LDL : LevelDBLaws}.
Context {LDR : LevelDBReliable} {MM : MachineManager} {CM : CheckpointManager}.
Context {AL : Allocator} {PI : ProtoCodec PaxosInstance} {PIL : ProtoCodecLaws PaxosInstance}.

(** * Nodes that take part *)

(** A content with the message [m]. *)
Definition brings (c : Content) (m : PaxosMessage) : Prop :=
  ct_type c = PAXOS_MESSAGE /\ ct_paxos_msg c = m.

(** Node [n] of id [q] takes messages of instance [j]. *)
Record alive (q j : Z) (n : node) : Prop := {
  al_exit : no_exit (out_ n);
  al_receiving : is_receiving_checkpoint (learner_ n) = false;
  al_learned : has_learned (learner_ n) = false;
  al_id : cf_node_id (config_ n) = q;
  al_acc : acc_instance_id (acceptor_ n) = j;
  al_lrn : lrn_instance_id (learner_ n) = j;
  al_inst : instance_id_ n = j;
}.

(** ** Outputs *)

Lemma assert_form e t n : exists k, assert_ e t n = n <| out_ := out_ n ++ k |> /\ no_exit k.
Proof.
  unfold assert_. destruct e; [exists []|by exists [OAssertFail t]].
  rewrite app_nil_r. split; [by destruct n|done].
Qed.

Lemma send_form d c n :
  exists k, SendMessage d c n = n <| out_ := out_ n ++ k |> /\ no_exit k /\ OSend d c ∈ k.
Proof.
  unfold SendMessage. destruct (assert_form (negb (d =? 0)) "node_id != 0" n) as (k1 & -> & H1).
  cbv zeta. match goal with |- context [assert_ ?e ?t ?n1] => destruct (assert_form e t n1) as (k2 & -> & H2) end.
  exists (k1 ++ k2 ++ [OSend d c]). split.
  { unfold emit, set_field, set_out. cbn. by rewrite <- !app_assoc. }
  split; [rewrite !no_exit_app; by split_and!|set_solver].
Qed.

Lemma follower_form b' n :
  exists k, Learner_BroadcastMessageToFollower b' n = n <| out_ := out_ n ++ k |> /\ no_exit k.
Proof.
  assert (Hn : exists k, n = n <| out_ := out_ n ++ k |> /\ no_exit k)
    by (exists []; rewrite app_nil_r; split; [by destruct n|done]).
  unfold Learner_BroadcastMessageToFollower, BroadcastMessageToFollower.
  destruct (cf_cluster (config_ n)); [|done]. destruct (GetFollowers _ _); [done|]. cbv zeta.
  destruct (remove_dups _); [done|]. eexists. split; [reflexivity|done].
Qed.

(** A broadcast reaches every other member. *)
Lemma broadcast_gets_there q c n :
  q ∈ dom (GetMembership n) ->
  exists ds, BroadcastMessage c n = n <| out_ := out_ n ++ [OBroadcast ds c] |> /\
    forall k, k ∈ dom (GetMembership n) -> k <> cf_node_id (config_ n) -> k ∈ ds.
Proof.
  intros Hq. unfold BroadcastMessage.
  assert (Hin : forall k, k ∈ dom (GetMembership n) -> k ∈ (map_to_list (GetMembership n)).*1).
  { intros k [x Hx]%elem_of_dom. apply list_elem_of_fmap. exists (k, x). split; [done|].
    by apply elem_of_map_to_list. }
  destruct ((map_to_list (GetMembership n)).*1) as [|x l] eqn:El; [specialize (Hin q Hq); set_solver|].
  exists (others n (x :: l)). split; [done|]. intros k Hk Hne. unfold others.
  apply list_elem_of_filter. auto.
Qed.

Lemma alive_emit q j n k : alive q j n -> no_exit k -> alive q j (n <| out_ := out_ n ++ k |>).
Proof. intros [] Hk. constructor; try done. simpl. by apply no_exit_app. Qed.

Lemma fuel_step fuel m n :
  OnPaxosMessage_fuel (S fuel) m n =
    if is_receiving_checkpoint (learner_ n) then n else CheckLearn (dispatch (OnPaxosMessage_fuel fuel) m n).
Proof. done. Qed.

(** [CheckLearn] has nothing to do. *)
Lemma check_idle n : has_learned (learner_ n) = false -> CheckLearn n = n.
Proof. intros H. unfold CheckLearn. by rewrite H. Qed.

Lemma deliver_form c m n q j :
  brings c m -> alive q j n ->
  handle (EvContent c) n = CheckLearn (dispatch (OnPaxosMessage_fuel 4) m n).
Proof.
  intros [T E] []. unfold handle. rewrite al_exit0. unfold OnContent. rewrite T, E.
  unfold OnPaxosMessage, call_depth. cbn [OnPaxosMessage_fuel]. by rewrite al_receiving0.
Qed.

(** A change of the node that [alive] does not see. *)
Lemma alive_same q j n n' :
  config_ n' = config_ n -> learner_ n' = learner_ n -> acceptor_ n' = acceptor_ n ->
  instance_id_ n' = instance_id_ n -> no_exit (out_ n') -> alive q j n -> alive q j n'.
Proof. intros Ec El Ea Ei Hx []. constructor; rewrite ?Ec, ?El, ?Ea, ?Ei; done. Qed.

(** ** Runs of the group *)

(** A plan says which node handles which kind of event, one after the other; a schedule
    follows it if it has exactly these events in this order. *)
Definition follows (pl : list (Z * (Event -> Prop))) (evs : list (Z * Event)) : Prop :=
  Forall2 (fun a e => e.1 = a.1 /\ a.2 e.2) pl evs.

(** The delivery of a message. *)
Definition delivery (P : PaxosMessage -> Prop) (e : Event) : Prop :=
  exists c m, e = EvContent c /\ brings c m /\ P m.

(** A schedule that follows the plan takes the group from [s] to [s']. *)
Definition reaches (pl : list (Z * (Event -> Prop))) (s s' : gmap Z node) : Prop :=
  exists evs, follows pl evs /\ run evs s = Some s'.

Lemma reaches_refl s : reaches [] s s.
Proof. exists []. split; [constructor|done]. Qed.

Lemma run_app e1 e2 s s1 : run e1 s = Some s1 -> run (e1 ++ e2) s = run e2 s1.
Proof.
  unfold run. revert s. induction e1 as [|[q e] e1 IH]; intros s; simpl; [by intros [= ->]|].
  destruct (checked_event _ s q e); [|done]. apply IH.
Qed.

Lemma reaches_trans p1 p2 s1 s2 s3 : reaches p1 s1 s2 -> reaches p2 s2 s3 -> reaches (p1 ++ p2) s1 s3.
Proof.
  intros (e1 & F1 & H1) (e2 & F2 & H2). exists (e1 ++ e2). split; [by apply Forall2_app|].
  by rewrite (run_app _ _ _ _ H1).
Qed.

Lemma reach_step (P : Event -> Prop) s q n e :
  s !! q = Some n -> enabled s q e = true -> P e -> reaches [(q, P)] s (<[q := handle e n]> s).
Proof.
  intros Hn He HP. exists [(q, e)]. split; [by repeat constructor|].
  unfold run. simpl. unfold checked_event. by rewrite Hn, He.
Qed.

Lemma sent_intro s src n d c o :
  s !! src = Some n -> o ∈ out_ n -> carries d c o = true -> sent s d c = true.
Proof.
  intros Hn Ho Hc. unfold sent. apply existsb_exists. exists (src, n).
  split; [by apply list_elem_of_In, elem_of_map_to_list|].
  apply existsb_exists. exists o. by rewrite <- list_elem_of_In.
Qed.

(** All of [l] are in state [P]. *)
Definition each (P : Z -> node -> Prop) (l : list Z) (s : gmap Z node) : Prop :=
  forall q, q ∈ l -> exists n, s !! q = Some n /\ P q n.

Lemma each_insert P l s k n :
  each P l s -> (k ∈ l -> P k n) -> each P l (<[k := n]> s).
Proof.
  intros H Hk q Hq. destruct (decide (q = k)) as [->|Hne].
  - exists n. rewrite lookup_insert_eq. auto.
  - rewrite lookup_insert_ne by done. auto.
Qed.

End Basics.

Section Progress.
Context {FC : FixedCoding} {FCL : FixedCodingLaws} {LD : LevelDB} {LDL : LevelDBLaws}.
Context {LDR : LevelDBReliable} {MM : MachineManager} {CM : CheckpointManager}.
Context {AL : Allocator} {PI : ProtoCodec PaxosInstance} {PIL : ProtoCodecLaws PaxosInstance}.

(** * The round *)

(** Node [me] proposes in ballot [(p, me)] of instance [i]; [W] are the values the round may
    choose, which the machines accept. *)
Variables (me p i : Z) (W : PaxosValue -> Prop).
Hypothesis Hi : 0 <= i < 2 ^ 63.
Hypothesis Hp : 1 <= p.
Hypothesis Hexec : forall now g v ctx m, W v -> (mm_Execute now g i v ctx m).2 = true.

Notation b := (Ballot p me).

(** A message of the round, from node [q]. *)
Definition round_msg (t : PaxosMessageType) (q : Z) (v : PaxosValue) : PaxosMessage :=
  PaxosMessage_default <| pm_type := t |> <| pm_node_id := q |>
    <| pm_instance_id := i |> <| pm_proposal_id := p |> <| pm_value := v |>.

(** A message of type [t] from node [q] in the ballot and instance of the round. *)
Definition of_round (t : PaxosMessageType) (q : Z) (m : PaxosMessage) : Prop :=
  pm_type m = t /\ pm_node_id m = q /\ pm_instance_id m = i /\ pm_proposal_id m = p.

(** A question to each of the nodes [qs] and its answer. *)
Definition asked (t answer : PaxosMessageType) (qs : list Z) : list (Z * (Event -> Prop)) :=
  concat ((fun q => [(q, delivery (of_round t me)); (me, delivery (of_round answer q))]) <$> qs).

(** The messages of a round between the proposer and the nodes [qs]: the prepare phase, unless
    it is skipped, the accept phase, and the news that the value is chosen. *)
Definition round_plan (skip : bool) (qs : list Z) : list (Z * (Event -> Prop)) :=
  (if skip then [] else asked PREPARE PREPARE_REPLY qs) ++ asked ACCEPT ACCEPT_REPLY qs ++
  ((fun q => (q, delivery (of_round NEW_CHOSEN_VALUE me))) <$> qs).

(** ** The acceptor of another node *)

(** Another node of the round: it has promised no higher ballot, and what it has accepted may
    be chosen. *)
Record fit (q : Z) (n : node) : Prop := {
  ft_alive : alive q i n;
  ft_promised : promised_ballot (acceptor_ n) <=b b;
  ft_value : 0 < GetProposalId (accepted_ballot (acceptor_ n)) -> W (accepted_value (acceptor_ n));
}.

(** Its answer to the PREPARE. *)
Definition promise_ok (q : Z) (m : PaxosMessage) : Prop :=
  pm_type m = PREPARE_REPLY /\ pm_node_id m = q /\ pm_instance_id m = i /\ pm_proposal_id m = p /\
  pm_rejected_id m = 0 /\
  (Ballot (pm_pre_accepted_id m) (pm_pre_accepted_node_id m) = Ballot_default \/ W (pm_value m)).

Lemma member_prepare q n c :
  q <> me -> fit q n -> brings c (round_msg PREPARE me PaxosValue_default) ->
  let n' := handle (EvContent c) n in
  fit q n' /\ exists c' m, OSend me c' ∈ out_ n' /\ brings c' m /\ promise_ok q m.
Proof.
  intros Hq F Hc. pose proof F as [A Hb Hw]. rewrite (deliver_form _ _ _ _ _ Hc A). destruct A.
  set (m := round_msg PREPARE me PaxosValue_default). unfold dispatch, OnPrepare, reply_to.
  change (pm_type m) with PREPARE. change (pm_instance_id m) with i. change (pm_node_id m) with me.
  change (pm_proposal_id m) with p. cbv zeta. rewrite al_acc0, Z.eqb_refl, (proj2 (ballot_geb_spec _ _) Hb).
  destruct (acceptor_write_form (acceptor_ n <| promised_ballot := b |>) n) as (k & d & sync & _ & ->).
  set (n1 := n <| acceptor_ := _ |> <| db_ := d |>). change (config_ n1) with (config_ n).
  rewrite al_id0, (proj2 (Z.eqb_neq me q)) by done. set (r := if 0 <? _ then _ else _).
  destruct (send_form me (content_of n1 r) n1) as (l & -> & Hl & Hin).
  rewrite check_idle by done. split.
  - constructor; [apply alive_emit; [by constructor|done]|by left|done].
  - exists (content_of n1 r), r. split; [simpl; set_solver|]. split; [done|].
    unfold r, promise_ok. destruct (Z.ltb_spec 0 (GetProposalId (accepted_ballot (acceptor_ n))));
      simpl; rewrite al_id0; split_and!; auto.
Qed.

(** Node [q] has accepted [v] in the round's ballot. *)
Record voted (v : PaxosValue) (q : Z) (n : node) : Prop := {
  vt_alive : alive q i n;
  vt_ballot : accepted_ballot (acceptor_ n) = b;
  vt_value : accepted_value (acceptor_ n) = v;
}.

Lemma member_accept q n c v :
  q <> me -> fit q n -> brings c (round_msg ACCEPT me v) ->
  let n' := handle (EvContent c) n in
  voted v q n' /\ exists c', OSend me c' ∈ out_ n' /\ brings c' (round_msg ACCEPT_REPLY q PaxosValue_default).
Proof.
  intros Hq F Hc. pose proof F as [A Hb Hw]. rewrite (deliver_form _ _ _ _ _ Hc A). destruct A.
  set (m := round_msg ACCEPT me v). unfold dispatch, OnAccpet, reply_to.
  change (pm_type m) with ACCEPT. change (pm_instance_id m) with i. change (pm_node_id m) with me.
  change (pm_proposal_id m) with p. change (pm_value m) with v. cbv zeta.
  rewrite al_acc0, Z.eqb_refl, (proj2 (ballot_geb_spec _ _) Hb).
  destruct (acceptor_write_form (acceptor_ n <| promised_ballot := b |> <| accepted_ballot := b |>
    <| accepted_value := v |>) n) as (k & d & sync & _ & ->).
  set (n1 := n <| acceptor_ := _ |> <| db_ := d |>). change (config_ n1) with (config_ n).
  rewrite al_id0, (proj2 (Z.eqb_neq me q)) by done.
  match goal with |- context [SendMessage me (content_of _ ?r0) n1] => set (r := r0) end.
  destruct (send_form me (content_of n1 r) n1) as (l & -> & Hl & Hin).
  rewrite check_idle by done. split.
  - constructor; [apply alive_emit; [by constructor|done]|done|done].
  - exists (content_of n1 r). split; [simpl; set_solver|]. split; [done|].
    unfold r, new_message. simpl. by rewrite al_id0.
Qed.

(** ** Learning *)

(** Node [q] has executed [v], told the caller of the proposal in progress, if any, and is in
    the next instance. *)
Record done_with (v : PaxosValue) (q : Z) (proposed : option (Z * Z)) (n : node) : Prop := {
  dn_alive : alive q (i + 1) n;
  dn_exec : OExecute i v true ∈ out_ n;
  dn_told : forall id ctx, proposed = Some (id, ctx) ->
    OProposeComplete i (learn_status true (id =? value_id v) v) ctx ∈ out_ n;
}.

(** The proposal in progress, by the id of its value and its context. *)
Definition in_progress (n : node) : option (Z * Z) :=
  if is_proposing n then Some (value_id (propose_value n), context_ n) else None.

Lemma next_alive q n :
  alive q i (n <| learner_ ::= (fun l => l <| has_learned := false |>) |>) ->
  alive q (i + 1) (Instance_NextInstance n).
Proof.
  intros []. simpl in *. assert (Hadd : i +64 1 = i + 1) by (apply add64_small; lia).
  assert (Hne : (i =? i + 1) = false) by (apply Z.eqb_neq; lia).
  constructor; [by rewrite next_instance_out|..]; unfold Instance_NextInstance, Acceptor_NextInstance,
    Acceptor_SetInstanceId; simpl; rewrite ?al_acc0, ?Hadd, ?Hne; simpl; rewrite ?al_lrn0, ?al_inst0; done.
Qed.

Lemma execute_learned n q v :
  W v -> alive q i (n <| learner_ ::= (fun l => l <| has_learned := false |>) |>) ->
  has_learned (learner_ n) = true -> learned_value (learner_ n) = v ->
  done_with v q (in_progress n) (CheckLearn n).
Proof.
  intros Hw A Hl Hv. pose proof (al_exit _ _ _ A) as Hx. pose proof (al_inst _ _ _ A) as Hin.
  simpl in Hx, Hin. unfold CheckLearn. rewrite Hl, Hv. cbv zeta.
  set (my := is_proposing n && _). set (n0 := if is_proposing n then _ else n).
  assert (E0 : exists tl, n0 = n <| io_timers := tl |>).
  { unfold n0. destruct (is_proposing n); [by eexists|]. exists (io_timers n). by destruct n. }
  destruct E0 as [tl E0]. rewrite E0. clear n0 E0.
  unfold MachineExecute, Execute. cbv zeta. simpl (instance_id_ _). rewrite Hin.
  match goal with |- context [mm_Execute ?x ?y i v ?z ?m0] => pose proof (Hexec x y v z m0 Hw) as Hex end.
  destruct (mm_Execute _ _ _ _ _ _) as [m ok]. simpl in Hex. subst ok.
  set (n1 := emit _ (n <| io_timers := tl |> <| mm_ := m |>)).
  assert (H1 : OExecute i v true ∈ out_ n1) by (simpl; set_solver).
  assert (X1 : no_exit (out_ n1)) by (simpl; by apply no_exit_app).
  change (is_proposing n1) with (is_proposing n). unfold in_progress. subst my.
  destruct (is_proposing n); constructor; rewrite ?next_instance_out; try done.
  - apply next_alive. eapply alive_same; [..|exact A]; try done. simpl. by apply no_exit_app.
  - simpl. apply elem_of_app. by left.
  - intros id ctx [= <- <-]. change (instance_id_ n1) with (instance_id_ n). rewrite Hin. simpl. set_solver.
  - apply next_alive. by eapply alive_same; [..|exact A].
Qed.

Lemma learn_round fuel n q v :
  W v -> voted v q n ->
  done_with v q (in_progress n)
    (OnPaxosMessage_fuel (S fuel) (round_msg NEW_CHOSEN_VALUE me PaxosValue_default) n).
Proof.
  intros Hw [A Hb Hv]. pose proof A as []. cbn [OnPaxosMessage_fuel]. rewrite al_receiving0.
  unfold dispatch, OnNewChosenValue. simpl. rewrite al_lrn0, Z.eqb_refl, Hb.
  rewrite (proj2 (ballot_eqb_spec b b)) by done.
  destruct (follower_form b (FinishLearnValue (accepted_value (acceptor_ n)) n)) as (k & -> & Hk).
  set (n1 := _ <| out_ := _ |>). change (in_progress n) with (in_progress n1).
  apply execute_learned; [done| |done|by simpl].
  constructor; try done. simpl. by apply no_exit_app.
Qed.

Lemma member_learn q n c v :
  W v -> voted v q n -> brings c (round_msg NEW_CHOSEN_VALUE me PaxosValue_default) ->
  done_with v q (in_progress n) (handle (EvContent c) n).
Proof.
  intros Hw V Hc. pose proof V as [[] _ _]. unfold handle. rewrite al_exit0.
  destruct Hc as [T E]. unfold OnContent. rewrite T, E. by apply learn_round.
Qed.

(** ** The proposer *)

Variables (mem : gmap Z MemberMessage) (pr : option (Z * Z)).
Hypothesis Hmem : me ∈ dom mem.

Notation majority := (size mem `div` 2 + 1)%nat.

(** The proposer of the round. *)
Record leading (n : node) : Prop := {
  ld_fit : fit me n;
  ld_mem : GetMembership n = mem;
  ld_inst : prop_instance_id (proposer_ n) = i;
  ld_pid : proposal_id (proposer_ n) = p;
  ld_value : W (prop_value (proposer_ n));
  ld_progress : in_progress n = pr;
}.

(** It has sent [m] to all other members. *)
Definition announced (m : PaxosMessage) (n : node) : Prop :=
  exists ds c, OBroadcast ds c ∈ out_ n /\ brings c m /\ forall q, q ∈ dom mem -> q <> me -> q ∈ ds.

(** The nodes in [S] have answered, and none rejected. *)
Definition counted (S : gset Z) (n : node) : Prop := counter_ (proposer_ n) = mkCounter S ∅ S.

Record preparing_with (S : gset Z) (n : node) : Prop := {
  pw_leading : leading n;
  pw_flag : preparing (proposer_ n) = true;
  pw_max : Ballot_default <=b max_ballot (proposer_ n);
  pw_counted : counted S n;
  pw_announced : announced (round_msg PREPARE me PaxosValue_default) n;
}.

Record accepting_with (v : PaxosValue) (S : gset Z) (n : node) : Prop := {
  aw_leading : leading n;
  aw_flag : accepting (proposer_ n) = true;
  aw_counted : counted S n;
  aw_announced : announced (round_msg ACCEPT me v) n;
  aw_voted : voted v me n;
}.

Record concluded_with (v : PaxosValue) (n : node) : Prop := {
  cw_done : done_with v me pr n;
  cw_announced : announced (round_msg NEW_CHOSEN_VALUE me PaxosValue_default) n;
}.

(** Where a count of the answers in [S] takes the proposer. *)
Definition accepting_out (v : PaxosValue) (S : gset Z) (n : node) : Prop :=
  if decide (majority <= size S)%nat then concluded_with v n else accepting_with v S n.

Definition preparing_out (S : gset Z) (n : node) : Prop :=
  if decide (majority <= size S)%nat then exists v, W v /\ accepting_out v {[me]} n
  else preparing_with S n.

Lemma announced_grows m n n' : announced m n -> out_ n `prefix_of` out_ n' -> announced m n'.
Proof.
  intros (ds & c & H & ?) Hpre. exists ds, c. split; [|done]. by eapply elem_of_app_prefix.
Qed.

Lemma broadcast_announces n m :
  GetMembership n = mem -> cf_node_id (config_ n) = me ->
  exists ds, BroadcastMessage (content_of n m) n = n <| out_ := out_ n ++ [OBroadcast ds (content_of n m)] |> /\
    announced m (n <| out_ := out_ n ++ [OBroadcast ds (content_of n m)] |>).
Proof.
  intros Em Ei. destruct (broadcast_gets_there me (content_of n m) n) as (ds & -> & Hds); [by rewrite Em|].
  exists ds. split; [done|]. exists ds, (content_of n m). split; [simpl; set_solver|]. split; [done|].
  rewrite Em, Ei in Hds. done.
Qed.

(** With no rejected id, [SetMaxProposalId] changes nothing that matters. *)
Lemma set_max_form m n :
  pm_rejected_id m = 0 -> 1 <= proposal_id (proposer_ n) ->
  exists x, SetMaxProposalId m n = n <| proposer_ ::= (fun r => r <| max_proposal_id := x |>) |>.
Proof.
  intros Hr H1. unfold SetMaxProposalId. rewrite Hr.
  exists (if max_proposal_id (proposer_ n) <? 0 then 0 else max_proposal_id (proposer_ n)).
  unfold set_field, set_proposer. rewrite (proj2 (Z.leb_gt (proposal_id (proposer_ n)) 0)) by lia.
  f_equal. destruct (_ <? 0); [done|]. by destruct (proposer_ n).
Qed.

(** A change of the proposer alone, and of timers. *)
Lemma done_same v n n' :
  config_ n' = config_ n -> learner_ n' = learner_ n -> acceptor_ n' = acceptor_ n ->
  instance_id_ n' = instance_id_ n -> out_ n' = out_ n -> concluded_with v n -> concluded_with v n'.
Proof.
  intros Ec El Ea Ei Eo [[A] C]. constructor; [constructor|]; rewrite ?Eo; try done.
  - eapply alive_same; [..|exact A]; try done. rewrite Eo. apply A.
  - eapply announced_grows; [exact C|]. by rewrite Eo.
Qed.

Lemma chosen_step fuel n v :
  W v -> leading n -> voted v me n ->
  concluded_with v (Proposer_NewChosenValue (OnPaxosMessage_fuel (S fuel)) n).
Proof.
  intros Hw [[[] _ _] Em Einst Epid _ Epr] V. unfold Proposer_NewChosenValue. cbv zeta.
  set (m := _ <| pm_instance_id := _ |> <| pm_proposal_id := _ |>).
  assert (Hm : m = round_msg NEW_CHOSEN_VALUE me PaxosValue_default)
    by (unfold m, new_message, round_msg; by rewrite Einst, Epid, al_id0).
  destruct (broadcast_announces n m Em al_id0) as (ds & -> & Ha). set (n1 := n <| out_ := _ |>) in *.
  rewrite Hm in Ha |- *. constructor.
  - rewrite <- Epr. change (in_progress n) with (in_progress n1). apply learn_round; [done|].
    destruct V as [A Hb Hv]. constructor; try done. by apply alive_emit.
  - eapply announced_grows; [exact Ha|]. apply OnPaxosMessage_fuel_keeps.
Qed.

(** The node but for its proposer, its timers and its outputs. *)
Record same_node (n n' : node) : Prop := {
  sn_config : config_ n' = config_ n;
  sn_mm : mm_ n' = mm_ n;
  sn_learner : learner_ n' = learner_ n;
  sn_acceptor : acceptor_ n' = acceptor_ n;
  sn_inst : instance_id_ n' = instance_id_ n;
  sn_progress : in_progress n' = in_progress n;
}.

Lemma leading_same n n' :
  same_node n n' -> no_exit (out_ n') -> prop_instance_id (proposer_ n') = i ->
  proposal_id (proposer_ n') = p -> W (prop_value (proposer_ n')) -> leading n -> leading n'.
Proof.
  intros [] Hx H1 H2 H3 [[A Hb Hv] Em _ _ _ Ep]. constructor; try done; [|by unfold GetMembership; rewrite sn_mm0|by rewrite sn_progress0].
  constructor; rewrite ?sn_acceptor0; try done. by eapply alive_same.
Qed.

Lemma voted_same v q n n' : same_node n n' -> no_exit (out_ n') -> voted v q n -> voted v q n'.
Proof. intros [] Hx [A Hb Hv]. constructor; rewrite ?sn_acceptor0; try done. by eapply alive_same. Qed.

Lemma leading_exit n : leading n -> no_exit (out_ n).
Proof. intros [[[] _ _]]. done. Qed.

Lemma accepting_out_idle v S n : accepting_out v S n -> has_learned (learner_ n) = false.
Proof.
  unfold accepting_out. case_decide.
  - intros [[A]]. apply A.
  - intros [[[A]]]. apply A.
Qed.

Lemma preparing_out_idle S n : preparing_out S n -> has_learned (learner_ n) = false.
Proof.
  unfold preparing_out. case_decide.
  - intros (v & _ & Ho). by eapply accepting_out_idle.
  - intros [[[A]]]. apply A.
Qed.

(** A round that is not passed is not complete either. *)
Lemma not_complete S n :
  GetMembership n = mem -> counter_ (proposer_ n) = mkCounter S ∅ S -> ~ (majority <= size S)%nat ->
  IsPassedOnThisRound (GetMajoritySize n) (counter_ (proposer_ n)) = false /\
  IsRejectedOnThisRound (GetMajoritySize n) (counter_ (proposer_ n))
    || IsReceiveAllOnThisRound (GetNodeSize n) (counter_ (proposer_ n)) = false.
Proof.
  intros Em -> Hs. unfold GetMajoritySize, GetNodeSize. rewrite Em. unfold IsPassedOnThisRound,
    IsRejectedOnThisRound, IsReceiveAllOnThisRound. cbn [promisors_or_acceptors rejectors received_nodes]. rewrite size_empty.
  assert (Hz : (size mem <> 0)%nat).
  { intros E%map_size_empty_inv. rewrite E, dom_empty_L in Hmem. set_solver. }
  pose proof (Nat.div_lt_upper_bound (size mem) 2 (size mem) ltac:(lia)).
  split; [by apply Nat.leb_gt; lia|]. apply orb_false_iff. split; apply Nat.leb_gt; lia.
Qed.

Lemma accepting_max v S m n :
  pm_rejected_id m = 0 -> accepting_with v S n -> accepting_with v S (SetMaxProposalId m n).
Proof.
  intros Hr [L Hf Hc Ha Hv]. destruct (set_max_form m n) as [x ->]; [done|rewrite (ld_pid _ L); lia|].
  constructor; try done.
  - eapply leading_same; [..|exact L]; try done; try apply L.
  - eapply voted_same; [..|exact Hv]; [done|by apply (leading_exit n)].
Qed.

Lemma accept_reply fuel S q n v :
  W v -> accepting_with v S n ->
  accepting_out v ({[q]} ∪ S)
    (OnAccpetReply (OnPaxosMessage_fuel (Datatypes.S fuel)) (round_msg ACCEPT_REPLY q PaxosValue_default) n).
Proof.
  intros Hw [L Hf Hc Ha Hv]. pose proof L as [F Em Ei Ep Hpv Epr].
  unfold OnAccpetReply. rewrite Hf. change (pm_instance_id _) with i. rewrite Ei, Z.eqb_refl. cbn [andb].
  cbv zeta. set (m := round_msg ACCEPT_REPLY q PaxosValue_default).
  set (n1 := n <| proposer_ ::= accept_reply_count m |>).
  assert (Hc1 : counter_ (proposer_ n1) = mkCounter ({[q]} ∪ S) ∅ ({[q]} ∪ S)).
  { unfold n1, accept_reply_count. simpl. unfold counted in Hc. by rewrite Hc. }
  assert (Em1 : GetMembership n1 = mem) by done.
  assert (H1 : same_node n n1) by (by constructor).
  assert (L1 : leading n1) by (eapply leading_same; [exact H1|by apply (leading_exit n)|done..]).
  unfold accepting_out. case_decide as D.
  - unfold IsPassedOnThisRound at 1. rewrite Hc1. unfold GetMajoritySize. rewrite Em1. simpl promisors_or_acceptors.
    rewrite (proj2 (Nat.leb_le _ _) D). set (n2 := RemoveRetryTimer _).
    assert (H2 : same_node n n2) by (by constructor).
    assert (L2 : leading n2) by (eapply leading_same; [exact H2|by apply (leading_exit n)|done..]).
    pose proof (chosen_step fuel n2 v Hw L2 (voted_same v me n n2 H2 (leading_exit n L) Hv)) as C.
    eapply done_same; [..|exact C]; done.
  - destruct (not_complete _ n1 Em1 Hc1 D) as [-> ->]. apply accepting_max; [done|].
    constructor; try done. eapply voted_same; [..|exact Hv]; [done|by apply (leading_exit n)].
Qed.

(** The proposer's own acceptor. *)
Lemma leading_write A n d k :
  leading n -> acc_instance_id A = i -> promised_ballot A = b ->
  (0 < GetProposalId (accepted_ballot A) -> W (accepted_value A)) ->
  leading (n <| acceptor_ := A <| log_sync_count := k |> |> <| db_ := d |>).
Proof.
  intros [[[] Hb Hv] Em E1 E2 E3 E4] HA Hpb Hw. constructor; try done.
  constructor; [by constructor|simpl; rewrite Hpb; by left|done].
Qed.

Lemma self_accept fuel n v :
  W v -> leading n -> accepting (proposer_ n) = true -> counted ∅ n -> announced (round_msg ACCEPT me v) n ->
  accepting_out v {[me]} (OnPaxosMessage_fuel (S (S (S fuel))) (round_msg ACCEPT me v) n).
Proof.
  intros Hw L Hf Hc Ha. pose proof L as [[[] Hb Hv] Em Ei Ep _ _].
  set (m := round_msg ACCEPT me v) in *. rewrite fuel_step, al_receiving0.
  unfold dispatch at 1. change (pm_type m) with ACCEPT. unfold OnAccpet, reply_to.
  change (pm_instance_id m) with i. change (pm_node_id m) with me. change (pm_proposal_id m) with p.
  change (pm_value m) with v. cbv zeta. rewrite al_acc0, Z.eqb_refl, (proj2 (ballot_geb_spec _ _) Hb).
  set (A := acceptor_ n <| promised_ballot := b |> <| accepted_ballot := b |> <| accepted_value := v |>).
  destruct (acceptor_write_form A n) as (k & d & sync & _ & ->).
  set (n1 := n <| acceptor_ := _ |> <| db_ := d |>). change (config_ n1) with (config_ n).
  rewrite al_id0, Z.eqb_refl, fuel_step.
  change (is_receiving_checkpoint (learner_ n1)) with (is_receiving_checkpoint (learner_ n)). rewrite al_receiving0.
  match goal with |- context [dispatch _ ?r n1] => assert (Hr : r = round_msg ACCEPT_REPLY me PaxosValue_default)
    by (unfold round_msg, new_message; by rewrite al_id0) end.
  rewrite Hr. unfold dispatch. change (pm_type (round_msg ACCEPT_REPLY _ _)) with ACCEPT_REPLY. cbn iota.
  assert (L1 : leading n1) by (by apply leading_write).
  assert (H : accepting_out v ({[me]} ∪ ∅) (OnAccpetReply (OnPaxosMessage_fuel (S fuel))
    (round_msg ACCEPT_REPLY me PaxosValue_default) n1)).
  { apply accept_reply; [done|]. by constructor. }
  rewrite union_empty_r_L in H. pose proof (accepting_out_idle _ _ _ H) as Hidle.
  by rewrite (check_idle _ Hidle), (check_idle _ Hidle).
Qed.

Lemma Accept_out fuel n :
  leading n -> accepting_out (prop_value (proposer_ n)) {[me]} (Accept (OnPaxosMessage_fuel (S (S (S fuel)))) n).
Proof.
  intros L. pose proof L as [[[] Hb Hv] Em Ei Ep Hw _]. unfold Accept. cbv zeta.
  set (n1 := n <| proposer_ ::= _ |>).
  destruct (retry_timer_form retry_timeout
    (n1 <| proposer_ ::= (fun p => p <| counter_ ::= StartNewRound |>) |>)) as (tl & id & ->).
  set (n2 := _ <| io_timers := tl |> <| proposer_ ::= _ |>).
  set (m := _ <| pm_instance_id := _ |> <| pm_proposal_id := _ |> <| pm_value := _ |>).
  assert (Hm : m = round_msg ACCEPT me (prop_value (proposer_ n)))
    by (unfold m, new_message, round_msg; simpl; by rewrite Ei, Ep, al_id0).
  destruct (broadcast_announces n2 m Em al_id0) as (ds & -> & Ha). set (n3 := n2 <| out_ := _ |>) in *.
  rewrite Hm in Ha |- *. apply self_accept; try done.
  eapply leading_same; [..|exact L]; try done. simpl. apply no_exit_app. by split.
Qed.

Lemma prepare_reply fuel S q n m :
  preparing_with S n -> promise_ok q m ->
  preparing_out ({[q]} ∪ S) (OnPrepareReply (OnPaxosMessage_fuel (Datatypes.S (Datatypes.S (Datatypes.S fuel)))) m n).
Proof.
  intros [L Hf Hmax Hc Ha] (_ & Eq & Emi & _ & Er & Hpre). pose proof L as [F Em Ei Ep Hpv Epr].
  unfold OnPrepareReply. rewrite Hf, Emi, Ei, Z.eqb_refl. cbn [andb]. cbv zeta.
  set (n1 := n <| proposer_ ::= prepare_reply_count m |>).
  assert (H : counter_ (proposer_ n1) = mkCounter ({[q]} ∪ S) ∅ ({[q]} ∪ S) /\
    prop_instance_id (proposer_ n1) = i /\ proposal_id (proposer_ n1) = p /\
    preparing (proposer_ n1) = true /\ W (prop_value (proposer_ n1)) /\
    Ballot_default <=b max_ballot (proposer_ n1)).
  { unfold n1, prepare_reply_count. rewrite Er, Eq. simpl. unfold counted in Hc.
    set (pre := Ballot _ _) in *. destruct (ballot_gtb pre (max_ballot (proposer_ n))) eqn:G; simpl;
      rewrite Hc; split_and!; try done; apply ballot_gtb_spec in G.
    - destruct Hpre as [E|]; [|done]. rewrite E in G. exfalso.
      eapply ballot_lt_irrefl, ballot_le_lt_trans; eauto.
    - right. eapply ballot_le_lt_trans; eauto. }
  destruct H as (Hc1 & Hi1 & Hp1 & Hf1 & Hw1 & Hm1).
  assert (Hx : no_exit (out_ n)) by (by apply (leading_exit n)).
  assert (Em1 : GetMembership n1 = mem) by done.
  unfold preparing_out. case_decide as D.
  - unfold IsPassedOnThisRound at 1. rewrite Hc1. unfold GetMajoritySize. rewrite Em1.
    cbn [promisors_or_acceptors]. rewrite (proj2 (Nat.leb_le _ _) D). set (n2 := RemoveRetryTimer _).
    assert (L2 : leading n2) by (eapply leading_same; [..|exact L]; done).
    exists (prop_value (proposer_ n2)). split; [done|].
    pose proof (Accept_out fuel n2 L2) as C. unfold accepting_out in *. case_decide.
    + eapply done_same; [..|exact C]; done.
    + by apply accepting_max.
  - destruct (not_complete _ n1 Em1 Hc1 D) as [-> ->].
    destruct (set_max_form m n1) as [x ->]; [done|rewrite Hp1; lia|].
    constructor; try done. eapply leading_same; [..|exact L]; done.
Qed.

Lemma self_prepare fuel n :
  leading n -> preparing (proposer_ n) = true -> counted ∅ n -> Ballot_default <=b max_ballot (proposer_ n) ->
  announced (round_msg PREPARE me PaxosValue_default) n ->
  preparing_out {[me]} (OnPaxosMessage_fuel (S (S (S (S (S fuel))))) (round_msg PREPARE me PaxosValue_default) n).
Proof.
  intros L Hf Hc Hmax Ha. pose proof L as [[[] Hb Hv] Em Ei Ep _ _].
  set (m := round_msg PREPARE me PaxosValue_default) in *. rewrite fuel_step, al_receiving0.
  unfold dispatch at 1. change (pm_type m) with PREPARE. unfold OnPrepare, reply_to.
  change (pm_instance_id m) with i. change (pm_node_id m) with me. change (pm_proposal_id m) with p.
  cbv zeta. rewrite al_acc0, Z.eqb_refl, (proj2 (ballot_geb_spec _ _) Hb).
  destruct (acceptor_write_form (acceptor_ n <| promised_ballot := b |>) n) as (k & d & sync & _ & ->).
  set (n1 := n <| acceptor_ := _ |> <| db_ := d |>). change (config_ n1) with (config_ n).
  rewrite al_id0, Z.eqb_refl, fuel_step.
  change (is_receiving_checkpoint (learner_ n1)) with (is_receiving_checkpoint (learner_ n)). rewrite al_receiving0.
  set (r := if 0 <? _ then _ else _).
  assert (Hr : promise_ok me r).
  { unfold r, promise_ok. destruct (Z.ltb_spec 0 (GetProposalId (accepted_ballot (acceptor_ n))));
      simpl; rewrite al_id0; split_and!; auto. }
  assert (L1 : leading n1) by (by apply leading_write).
  unfold dispatch. rewrite (proj1 Hr).
  assert (H : preparing_out ({[me]} ∪ ∅) (OnPrepareReply (OnPaxosMessage_fuel (S (S (S fuel)))) r n1)).
  { apply prepare_reply; [|done]. by constructor. }
  rewrite union_empty_r_L in H. pose proof (preparing_out_idle _ _ H) as Hidle.
  by rewrite (check_idle _ Hidle), (check_idle _ Hidle).
Qed.

(** ** The start *)

Definition started (skip : bool) (n : node) : Prop :=
  if skip then exists v, W v /\ accepting_out v {[me]} n else preparing_out {[me]} n.

Lemma Prepare_out need n :
  fit me n -> GetMembership n = mem -> prop_instance_id (proposer_ n) = i ->
  proposal_id (prepare_reset need (proposer_ n)) = p -> W (prop_value (proposer_ n)) ->
  in_progress n = pr -> preparing_out {[me]} (Prepare OnPaxosMessage need n).
Proof.
  intros F Em Ei Ep Hw Epr. pose proof F as [[] Hb Hv]. unfold Prepare. cbv zeta.
  destruct (prepare_reset_flags need (proposer_ n)) as (F1 & F2 & F3 & F4 & F5).
  assert (F6 : prop_value (prepare_reset need (proposer_ n)) = prop_value (proposer_ n))
    by (unfold prepare_reset; destruct need; simpl; [by destruct (_ <? _)|done]).
  set (n1 := n <| proposer_ ::= prepare_reset need |>).
  destruct (retry_timer_form retry_timeout
    (n1 <| proposer_ ::= (fun p => p <| counter_ ::= StartNewRound |>) |>)) as (tl & id & ->).
  set (n2 := _ <| io_timers := tl |> <| proposer_ ::= _ |>).
  set (m := _ <| pm_instance_id := _ |> <| pm_proposal_id := _ |>).
  assert (Hm : m = round_msg PREPARE me PaxosValue_default).
  { unfold m, new_message, round_msg. cbn [config_ proposer_ n1 set_field set_proposer].
    by rewrite F5, Ei, Ep, al_id0. }
  destruct (broadcast_announces n2 m Em al_id0) as (ds & -> & Ha). set (n3 := n2 <| out_ := _ |>) in *.
  rewrite Hm in Ha |- *. apply (self_prepare 0); try done; [|simpl; by left; rewrite F4].
  constructor; try done; simpl; [|by rewrite F5|by rewrite F6].
  constructor; try done. apply alive_emit; [by constructor|done].
Qed.

Lemma NewPropose_out v n :
  fit me n -> GetMembership n = mem -> prop_instance_id (proposer_ n) = i ->
  round_id (proposer_ n) = p -> W v -> in_progress n = pr ->
  started (skips_prepare (proposer_ n)) (NewPropose OnPaxosMessage v n).
Proof.
  intros F Em Ei Ep Hw Epr. unfold NewPropose, round_id, skips_prepare in *. cbv zeta. set (n1 := n <| proposer_ ::= _ |>).
  assert (F1 : fit me n1) by (destruct F as [[]]; by constructor).
  change (skip_prepare (proposer_ n1)) with (skip_prepare (proposer_ n)).
  change (was_rejected_by_someone (proposer_ n1)) with (was_rejected_by_someone (proposer_ n)).
  destruct (skip_prepare (proposer_ n) && _).
  - exists v. split; [done|]. by apply (Accept_out 2 n1).
  - apply Prepare_out; try done. rewrite <- Ep. unfold prepare_reset.
    destruct (was_rejected_by_someone (proposer_ n)); [simpl; by destruct (_ <? _)|done].
Qed.

Lemma propose_starts mid data ctx r n :
  fit me n -> GetMembership n = mem -> prop_instance_id (proposer_ n) = i ->
  round_id (proposer_ n) = p -> W (mkPaxosValue (GetPaxosValueId r n).2 mid data) ->
  pr = Some ((GetPaxosValueId r n).2, ctx) ->
  started (skips_prepare (proposer_ n)) (handle (EvPropose mid data ctx r) n).
Proof.
  intros F Em Ei Ep Hw Epr. pose proof F as [A Hb Hv]. unfold handle. rewrite (al_exit _ _ _ A).
  unfold OnPropose, IsValidNodeId. rewrite (al_id _ _ _ A), Em, bool_decide_eq_true_2 by (by apply elem_of_dom).
  cbn [negb]. cbv zeta.
  destruct (assert_form (negb (is_proposing n)) "!is_proposing_" n) as (k1 & -> & X1).
  match goal with |- context [assert_ ?e ?t ?n1] => destruct (assert_form e t n1) as (k2 & -> & X2) end.
  unfold GetPaxosValueId, io_RunAfter in *. cbv zeta in *. simpl (_.2) in *.
  destruct (RunAfter _ _ _ _) as [tl id].
  match goal with |- started _ (NewPropose _ ?v ?n1) => apply (NewPropose_out v n1); try done end.
  constructor; try done. destruct A. constructor; try done. simpl. rewrite !no_exit_app. done.
Qed.

(** * The group *)

(** A broadcast of the proposer can be delivered, and so can an answer to it. *)
Lemma announced_sent s n m q :
  s !! me = Some n -> announced m n -> q ∈ dom mem -> q <> me ->
  exists c, brings c m /\ enabled s q (EvContent c) = true.
Proof.
  intros Hn (ds & c & Ho & Hc & Hds) Hq Hne. exists c. split; [done|].
  eapply sent_intro; [exact Hn|exact Ho|]. simpl. by rewrite !bool_decide_eq_true_2 by auto.
Qed.

Lemma answer_sent s q n c : s !! q = Some n -> OSend me c ∈ out_ n -> enabled s me (EvContent c) = true.
Proof.
  intros Hn Ho. eapply sent_intro; [exact Hn|exact Ho|]. simpl. by rewrite !bool_decide_eq_true_2.
Qed.

(** Node [q] is handed [c], and the proposer its answer. *)
Lemma exchange (P P' : PaxosMessage -> Prop) s n q nq c m c' m' :
  s !! me = Some n -> s !! q = Some nq -> q <> me -> enabled s q (EvContent c) = true ->
  OSend me c' ∈ out_ (handle (EvContent c) nq) -> brings c m -> P m -> brings c' m' -> P' m' ->
  reaches [(q, delivery P); (me, delivery P')] s (<[me := handle (EvContent c') n]> (<[q := handle (EvContent c) nq]> s)).
Proof.
  intros Hn Hq Hne He Ho Hc Hm Hc' Hm'.
  apply (reaches_trans [_] [_] _ (<[q := handle (EvContent c) nq]> s)); [apply reach_step; [done..|by exists c, m]|].
  apply (reach_step _ _ me n (EvContent c')); [by rewrite lookup_insert_ne| |by exists c', m'].
  eapply answer_sent; [apply lookup_insert_eq|exact Ho].
Qed.

(** The answers, delivered to the proposer. *)
Lemma deliver_promise S q n c m :
  preparing_with S n -> brings c m -> promise_ok q m -> preparing_out ({[q]} ∪ S) (handle (EvContent c) n).
Proof.
  intros P Hc Hm. rewrite (deliver_form _ _ _ _ _ Hc (ft_alive _ _ (ld_fit _ (pw_leading _ _ P)))).
  unfold dispatch. rewrite (proj1 Hm). pose proof (prepare_reply 1 S q n m P Hm) as H.
  by rewrite (check_idle _ (preparing_out_idle _ _ H)).
Qed.

Lemma deliver_accepted v S q n c :
  W v -> accepting_with v S n -> brings c (round_msg ACCEPT_REPLY q PaxosValue_default) ->
  accepting_out v ({[q]} ∪ S) (handle (EvContent c) n).
Proof.
  intros Hw P Hc. rewrite (deliver_form _ _ _ _ _ Hc (ft_alive _ _ (ld_fit _ (aw_leading _ _ _ P)))).
  unfold dispatch. change (pm_type (round_msg ACCEPT_REPLY _ _)) with ACCEPT_REPLY. cbn iota.
  pose proof (accept_reply 3 S q n v Hw P) as H. by rewrite (check_idle _ (accepting_out_idle _ _ _ H)).
Qed.

(** ** The three rounds, over the nodes [rest] that are still to be heard *)

Lemma size_add (q : Z) (S : gset Z) : ~ q ∈ S -> size ({[q]} ∪ S) = Datatypes.S (size S).
Proof. intros H. rewrite size_union, size_singleton by set_solver. done. Qed.

Lemma prepare_round qs rest : forall S s n,
  s !! me = Some n -> preparing_with S n -> each fit qs s ->
  NoDup rest -> rest ⊆ qs -> (forall q, q ∈ qs -> q ∈ dom mem /\ q <> me) -> (forall q, q ∈ rest -> ~ q ∈ S) ->
  (size S < majority)%nat -> (size S + length rest = majority)%nat ->
  exists s' n' v, reaches (asked PREPARE PREPARE_REPLY rest) s s' /\ s' !! me = Some n' /\ W v /\
    accepting_out v {[me]} n' /\ each fit qs s'.
Proof.
  induction rest as [|q rest IH]; intros S s n Hn P Hf Hnd Hsub Hqs Hdis Hlt Hlen; cbn [length] in Hlen; [lia|].
  destruct (Hqs q) as [Hqm Hqne]; [set_solver|]. destruct (Hf q) as (nq & Hnq & Fq); [set_solver|].
  destruct (announced_sent s n _ q Hn (pw_announced _ _ P) Hqm Hqne) as (c & Hc & He).
  destruct (member_prepare q nq c Hqne Fq Hc) as (Fq' & c' & m & Ho & Hc' & Hm).
  set (nq' := handle (EvContent c) nq) in *. set (s1 := <[q := nq']> s).
  set (n' := handle (EvContent c') n). set (s2 := <[me := n']> s1).
  assert (R : reaches (asked PREPARE PREPARE_REPLY [q]) s s2)
    by (destruct Hm as (? & ? & ? & ? & _); by eapply exchange).
  assert (Hf2 : each fit qs s2).
  { apply each_insert; [by apply each_insert|]. intros Hme. by destruct (Hqs me Hme) as [_ []]. }
  assert (Hn2 : s2 !! me = Some n') by apply lookup_insert_eq.
  pose proof (deliver_promise S q n c' m P Hc' Hm) as Hout. fold n' in Hout. unfold preparing_out in Hout.
  rewrite (size_add q S) in Hout by set_solver. apply NoDup_cons in Hnd as [Hq Hnd].
  case_decide as D.
  - assert (rest = []) as -> by (destruct rest; [done|]; cbn [length] in Hlen; lia).
    destruct Hout as (v & Hw & Hout). exists s2, n', v. done.
  - destruct (IH ({[q]} ∪ S) s2 n') as (s' & n1 & v & R' & H'); try done.
    + set_solver.
    + intros q' Hq'. specialize (Hdis q'). set_solver.
    + rewrite size_add by set_solver. lia.
    + rewrite size_add by set_solver. lia.
    + exists s', n1, v. split; [by apply (reaches_trans (asked _ _ [q]) _ _ s2)|done].
Qed.

Lemma accept_round v qs rest : forall dn S s n,
  W v -> s !! me = Some n -> accepting_with v S n -> each (voted v) dn s -> each fit rest s ->
  NoDup (dn ++ rest) -> qs ≡ₚ dn ++ rest -> (forall q, q ∈ qs -> q ∈ dom mem /\ q <> me) ->
  (forall q, q ∈ rest -> ~ q ∈ S) -> (size S < majority)%nat -> (size S + length rest = majority)%nat ->
  exists s' n', reaches (asked ACCEPT ACCEPT_REPLY rest) s s' /\ s' !! me = Some n' /\ concluded_with v n' /\
    each (voted v) qs s'.
Proof.
  induction rest as [|q rest IH]; intros dn S s n Hw Hn P Hdn Hf Hnd Hper Hqs Hdis Hlt Hlen; cbn [length] in Hlen; [lia|].
  destruct (Hqs q) as [Hqm Hqne]; [rewrite Hper; set_solver|].
  destruct (Hf q) as (nq & Hnq & Fq); [set_solver|].
  destruct (announced_sent s n _ q Hn (aw_announced _ _ _ P) Hqm Hqne) as (c & Hc & He).
  destruct (member_accept q nq c v Hqne Fq Hc) as (Vq & c' & Ho & Hc').
  set (nq' := handle (EvContent c) nq) in *. set (s1 := <[q := nq']> s).
  set (n' := handle (EvContent c') n). set (s2 := <[me := n']> s1).
  assert (R : reaches (asked ACCEPT ACCEPT_REPLY [q]) s s2) by (by eapply exchange).
  assert (Hme : ~ me ∈ qs) by (intros Hm; by destruct (Hqs me Hm) as [_ []]).
  rewrite Hper in Hme. apply NoDup_app in Hnd as (Hnd1 & Hnd2 & Hnd3). apply NoDup_cons in Hnd3 as [Hq Hnd3].
  assert (Hdn2 : each (voted v) (dn ++ [q]) s2).
  { apply each_insert; [|set_solver]. intros k [Hk|Hk%list_elem_of_singleton]%elem_of_app.
    - unfold s1. rewrite lookup_insert_ne by (intros ->; by destruct (Hnd2 _ Hk); left). by apply Hdn.
    - subst k. exists nq'. split; [apply lookup_insert_eq|done]. }
  assert (Hf2 : each fit rest s2).
  { apply each_insert; [|set_solver]. intros k Hk. unfold s1.
    rewrite lookup_insert_ne by (intros ->; done). apply Hf. set_solver. }
  assert (Hn2 : s2 !! me = Some n') by apply lookup_insert_eq.
  pose proof (deliver_accepted v S q n c' Hw P Hc') as Hout. fold n' in Hout. unfold accepting_out in Hout.
  rewrite (size_add q S) in Hout by set_solver. case_decide as D.
  - assert (rest = []) as -> by (destruct rest; [done|]; cbn [length] in Hlen; lia).
    exists s2, n'. split_and!; try done. intros k Hk. apply Hdn2. by rewrite Hper in Hk.
  - destruct (IH (dn ++ [q]) ({[q]} ∪ S) s2 n') as (s' & n1 & R' & H'); try done.
    + rewrite <- app_assoc. apply NoDup_app. split_and!; [done|done|by apply NoDup_cons].
    + by rewrite <- app_assoc.
    + intros q' Hq'. specialize (Hdis q'). set_solver.
    + rewrite size_add by set_solver. lia.
    + rewrite size_add by set_solver. lia.
    + exists s', n1. split; [by apply (reaches_trans (asked _ _ [q]) _ _ s2)|done].
Qed.

Lemma chosen_round v rest : forall s n,
  W v -> s !! me = Some n -> announced (round_msg NEW_CHOSEN_VALUE me PaxosValue_default) n ->
  each (voted v) rest s -> NoDup rest -> (forall q, q ∈ rest -> q ∈ dom mem /\ q <> me) ->
  exists s', reaches ((fun q => (q, delivery (of_round NEW_CHOSEN_VALUE me))) <$> rest) s s' /\
    (forall k, ~ k ∈ rest -> s' !! k = s !! k) /\
    each (fun q nq => exists pq, done_with v q pq nq) rest s'.
Proof.
  induction rest as [|q rest IH]; intros s n Hw Hn Ha Hv Hnd Hqs.
  { exists s. split_and!; [apply reaches_refl|done|]. intros q Hq. by apply elem_of_nil in Hq. }
  apply NoDup_cons in Hnd as [Hq Hnd]. destruct (Hqs q) as [Hqm Hqne]; [set_solver|].
  destruct (Hv q) as (nq & Hnq & Vq); [set_solver|].
  destruct (announced_sent s n _ q Hn Ha Hqm Hqne) as (c & Hc & He).
  pose proof (member_learn q nq c v Hw Vq Hc) as Dq. set (nq' := handle (EvContent c) nq) in *.
  destruct (IH (<[q := nq']> s) n) as (s' & R & Hsame & Hd); try done.
  - by rewrite lookup_insert_ne.
  - intros k Hk. rewrite lookup_insert_ne by (intros ->; done). apply Hv. set_solver.
  - intros k Hk. apply Hqs. set_solver.
  - exists s'. split.
    { apply (reaches_trans [_] _ _ (<[q := nq']> s)); [|done]. apply reach_step; [done..|]. by eexists c, _. }
    split.
    + intros k Hk. rewrite Hsame by set_solver. rewrite lookup_insert_ne; [done|set_solver].
    + intros k [->|Hk]%elem_of_cons; [|by apply Hd].
      exists nq'. rewrite Hsame by done. split; [apply lookup_insert_eq|by eexists].
Qed.

(** The whole round, from a started proposer on. *)
Lemma whole_round skip qs s n :
  s !! me = Some n -> started skip n -> each fit qs s -> NoDup qs ->
  (forall q, q ∈ qs -> q ∈ dom mem /\ q <> me) -> (1 + length qs = majority)%nat ->
  exists s' n' v, reaches (round_plan skip qs) s s' /\ W v /\ s' !! me = Some n' /\ done_with v me pr n' /\
    each (fun q nq => exists pq, done_with v q pq nq) qs s'.
Proof.
  intros Hn Hst Hf Hnd Hqs Hlen.
  assert (Hself : forall q, q ∈ qs -> ~ q ∈ ({[me]} : gset Z)).
  { intros q Hq ->%elem_of_singleton. by destruct (Hqs me Hq) as [_ []]. }
  assert (H1 : size ({[me]} : gset Z) = 1%nat) by apply size_singleton.
  assert (Hnone : (majority <= size ({[me]} : gset Z))%nat -> qs = [])
    by (destruct qs; [done|]; cbn [length] in Hlen; lia).
  assert (Hacc : exists s1 n1 v, reaches (if skip then [] else asked PREPARE PREPARE_REPLY qs) s s1 /\
    s1 !! me = Some n1 /\ W v /\ accepting_out v {[me]} n1 /\ each fit qs s1).
  { destruct skip.
    { destruct Hst as (v & Hw & Hst). exists s, n, v. split_and!; try done; apply reaches_refl. }
    unfold started, preparing_out in Hst. case_decide as D.
    - destruct Hst as (v & Hw & Hst). rewrite (Hnone D). exists s, n, v. split_and!; try done; [apply reaches_refl|].
      intros q Hq. by apply elem_of_nil in Hq.
    - by apply (prepare_round qs qs {[me]} s n); try done; lia. }
  destruct Hacc as (s1 & n1 & v & R1 & Hn1 & Hw & Hacc & Hf1).
  assert (Hcon : exists s2 n2, reaches (asked ACCEPT ACCEPT_REPLY qs) s1 s2 /\ s2 !! me = Some n2 /\ concluded_with v n2 /\
    each (voted v) qs s2).
  { unfold accepting_out in Hacc. case_decide as D.
    - rewrite (Hnone D). exists s1, n1. split_and!; try done; [apply reaches_refl|].
      intros q Hq. by apply elem_of_nil in Hq.
    - apply (accept_round v qs qs [] {[me]} s1 n1); try done; try lia.
      intros q Hq. by apply elem_of_nil in Hq. }
  destruct Hcon as (s2 & n2 & R2 & Hn2 & [Hd Ha] & Hv).
  destruct (chosen_round v qs s2 n2 Hw Hn2 Ha Hv Hnd Hqs) as (s3 & R3 & Hsame & Hdone).
  exists s3, n2, v. split_and!; try done.
  - unfold round_plan. eapply reaches_trans; [exact R1|]. by eapply reaches_trans.
  - rewrite Hsame; [done|]. intros Hme. by destruct (Hqs me Hme) as [_ []].
Qed.

End Progress.

(** * The theorem *)

(** Node [n] takes part in a round of ballot [b] in instance [i]: it is there, has promised
    nothing higher, is not installing a checkpoint and has not ended. *)
Definition ready `{!LevelDB, !MachineManager, !CheckpointManager} (i : Z) (b : BallotNumber) (n : node) : Prop :=
  instance_id_ n = i /\ promised_ballot (acceptor_ n) <=b b /\
  is_receiving_checkpoint (learner_ n) = false /\ no_exit (out_ n).

(** What a round of the nodes [qs] may choose: the proposal, or what one of them has accepted. *)
Definition candidate `{!LevelDB, !MachineManager, !CheckpointManager} (s : gmap Z node) (qs : list Z)
    (own v : PaxosValue) : Prop :=
  v = own \/ exists q n, q ∈ qs /\ s !! q = Some n /\
    0 < GetProposalId (accepted_ballot (acceptor_ n)) /\ v = accepted_value (acceptor_ n).

Section Majority.
Context {FC : FixedCoding} {FCL : FixedCodingLaws} {LD : LevelDB} {LDL : LevelDBLaws}.
Context {LDR : LevelDBReliable} {MM : MachineManager} {MML : MachineManagerLaws}.
Context {CM : CheckpointManager} {CML : CheckpointManagerLaws}.
Context {AL : Allocator} {PI : ProtoCodec PaxosInstance} {PIL : ProtoCodecLaws PaxosInstance}.
Variable M : gset Z.
#[local] Existing Instance no_restarts.

Lemma ready_fit s a me p i W q n :
  system_rel M s a -> s !! q = Some n -> ready i (Ballot p me) n ->
  (0 < GetProposalId (accepted_ballot (acceptor_ n)) -> W (accepted_value (acceptor_ n))) ->
  fit me p i W q n.
Proof.
  intros H Hn (Hi & Hb & Hr & Hx) Hw. destruct (H q n Hn) as [(_ & _ & Mo) Hidle].
  constructor; [|done|done]. constructor; try done; [apply Mo|..].
  - by rewrite (r_acc_i _ _ _ _ Mo).
  - by rewrite (r_lrn_i _ _ _ _ Mo).
Qed.

(** (C3) Progress.  Take any state of a clean run of nodes whose databases write what they are
    told, a node [me] and enough other nodes [qs] to make a majority with it, all in the same
    instance, none installing a checkpoint, and none having promised a ballot higher than the
    one [me] uses next; let the machines execute with success what the round may choose.
    If [me] is given a proposal, then a schedule that has exactly the messages of the round, each delivered once ([round_plan]: a PREPARE to
    each of [qs] and its reply, unless the prepare phase is skipped, an ACCEPT to each and its
    reply, and NEW_CHOSEN_VALUE to each, all of this instance and ballot), makes all of them
    execute the same value and go on to the next instance; the value is the proposal or one
    that a node of the majority had accepted, and the caller of the proposal is told which. *)
Theorem proposal_succeeds :
  forall (s0 s : gmap Z node) (evs : list (Z * Event)) (me : Z) (n : node) (qs : list Z)
    (mid : Z) (data : string) (ctx r : Z),
  let i := instance_id_ n in let b := Ballot (round_id (proposer_ n)) me in
  let own := mkPaxosValue (GetPaxosValueId r n).2 mid data in
  fresh_system M s0 -> clean_run evs s0 = Some s -> s !! me = Some n ->
  i < 2 ^ 63 -> 1 <= round_id (proposer_ n) ->
  NoDup (me :: qs) -> length qs = (size M `div` 2)%nat ->
  each (fun _ => ready i b) (me :: qs) s ->
  (forall now g v c m, candidate s (me :: qs) own v -> (mm_Execute now g i v c m).2 = true) ->
  exists evs' s' v,
    follows (round_plan me (round_id (proposer_ n)) i (skips_prepare (proposer_ n)) qs) evs' /\
    run ((me, EvPropose mid data ctx r) :: evs') s = Some s' /\
    candidate s (me :: qs) own v /\
    (forall q, q ∈ me :: qs -> executed s' q i v /\
       exists nq, s' !! q = Some nq /\ instance_id_ nq = i + 1) /\
    exists n', s' !! me = Some n' /\
      OProposeComplete i (learn_status true (value_id own =? value_id v) v) ctx ∈ out_ n'.
Proof.
  intros s0 s evs me n qs mid data ctx r i b own H0 Hr Hn Hi Hp Hnd Hlen Hready Hexec.
  destruct (clean_run_simulated M _ _ _ H0 Hr) as (a & _ & _ & Hrel).
  apply NoDup_cons in Hnd as [Hme Hnd]. set (W := candidate s (me :: qs) own).
  assert (Hfit : forall q, q ∈ me :: qs -> exists nq, s !! q = Some nq /\
    fit me (round_id (proposer_ n)) i W q nq).
  { intros q Hq. destruct (Hready q Hq) as (nq & Hnq & Rq). exists nq. split; [done|].
    eapply ready_fit; [done|done|done|]. intros Hpos. right. by exists q, nq. }
  destruct (Hrel me n Hn) as [(_ & _ & Mo) _]. pose proof (r_members _ _ _ _ Mo) as Hdom.
  assert (Hsize : size (GetMembership n) = size M) by (rewrite <- Hdom; symmetry; apply size_dom).
  assert (Hqs : forall q, q ∈ qs -> q ∈ dom (GetMembership n) /\ q <> me).
  { intros q Hq. split; [|by intros ->]. rewrite Hdom. destruct (Hfit q) as (nq & Hnq & _); [set_solver|].
    by destruct (Hrel q nq Hnq) as [(_ & _ & [])]. }
  assert (Hmem : me ∈ dom (GetMembership n)) by (rewrite Hdom; apply Mo).
  destruct (Hfit me) as (n0 & Hn0 & Fme); [set_solver|]. rewrite Hn in Hn0. injection Hn0 as <-.
  pose proof (propose_starts me (round_id (proposer_ n)) i W ltac:(pose proof (r_range _ _ _ _ Mo); lia) Hp Hexec
    (GetMembership n) (Some ((GetPaxosValueId r n).2, ctx)) Hmem mid data ctx r n Fme eq_refl
    (r_prop_i _ _ _ _ Mo) eq_refl ltac:(by left) eq_refl) as Hst.
  set (n1 := handle (EvPropose mid data ctx r) n) in *.
  destruct (whole_round me (round_id (proposer_ n)) i W ltac:(pose proof (r_range _ _ _ _ Mo); lia) Hp Hexec
    (GetMembership n) (Some ((GetPaxosValueId r n).2, ctx)) Hmem (skips_prepare (proposer_ n)) qs (<[me := n1]> s) n1)
    as (s' & n' & v & (evs' & Hpl & Hrun) & Hw & Hn' & Hd & Hall); try done.
  - apply lookup_insert_eq.
  - intros q Hq. rewrite lookup_insert_ne by (intros ->; done). apply Hfit. set_solver.
  - rewrite Hsize. lia.
  - exists evs', s', v. split_and!; [done| |done| |].
    + unfold run in *. simpl. unfold checked_event. by rewrite Hn.
    + intros q [->|Hq]%elem_of_cons.
      * destruct Hd as [A Hx _]. split; [by exists n', true|]. exists n'. split; [done|apply A].
      * destruct (Hall q Hq) as (nq & Hnq & pq & [A Hx _]). split; [by exists nq, true|].
        exists nq. split; [done|apply A].
    + exists n'. split; [done|]. by apply (dn_told _ _ _ _ _ Hd).
Qed.

End Majority.
