(* ===== verification/Catchup.v ===== *)
(** Catching up: what a node that is behind achieves by asking one that is ahead.

    The learner's messages are followed from [AskForLearn] to the last value: directly when one
    value is missing, through the question for the present instance and the learn loop's
    [ASyncSend] otherwise.  With [Progress.v], in which a majority in one instance goes on to the
    next, this is how a group whose messages arrive moves. *)

From S2P Require Import Prelude Ballot Proto Storage Random TimerList Counter NodeState.
From S2P Require Import AcceptorModel ProposerModel LearnerModel LogModel InstanceModel.
From S2P Require Import Traces Consensus System Simulation AcceptorSim ProposerSim LearnerSim Refinement Progress.

Section Catchup.
Context {FC : FixedCoding} {FCL : FixedCodingLaws} {LD : LevelDB} {LDL : LevelDBLaws}.
Context {LDR : LevelDBReliable} {MM : MachineManager} {CM : CheckpointManager}.
Context {AL : Allocator} {PI : ProtoCodec PaxosInstance} {PIL : ProtoCodecLaws PaxosInstance}.

(** Node [src] is in instance [hi] and has the values [vf] of the instances from [lo] on, in which
    [dst] is. *)
Variables (src dst lo hi : Z) (vf : Z -> PaxosValue).
Hypothesis Hne : src <> dst.
Hypothesis Hlo : 0 <= lo.
Hypothesis Hlt : lo < hi.
Hypothesis Hhi : hi <= 2 ^ 63.
Hypothesis Hexec : forall j now g ctx m, lo <= j < hi -> (mm_Execute now g j (vf j) ctx m).2 = true.

(** * Learning one value *)

Definition learned_msg (j : Z) (m : PaxosMessage) : Prop :=
  pm_type m = SEND_LEARNED_VALUE /\ pm_node_id m = src /\ pm_instance_id m = j /\ pm_value m = vf j.

Lemma learn_one j n c m :
  lo <= j < hi -> alive dst j n -> brings c m -> learned_msg j m ->
  let n' := handle (EvContent c) n in alive dst (j + 1) n' /\ OExecute j (vf j) true ∈ out_ n'.
Proof.
  intros Hj A Hc (T & _ & Ej & Ev). rewrite (deliver_form _ _ _ _ _ Hc A). pose proof (al_lrn _ _ _ A) as Elrn.
  unfold dispatch. rewrite T. unfold OnSendLearnedValue, Learner_WriteToDB.
  rewrite Ej, Elrn, Z.eqb_refl.
  destruct (DB_Put_reliable false j (SerializeAsString (learner_record m)) (db_ n)) as [d ->].
  change (0 =? 0) with true. cbn iota. rewrite Ev. set (n1 := FinishLearnValue _ _).
  destruct (follower_form (Ballot (pm_proposal_id m) (pm_node_id m)) n1) as (k & -> & Hk).
  destruct (execute_learned 1 j (fun v => v = vf j) ltac:(lia) ltac:(lia) ltac:(intros; subst; auto)
    (n1 <| out_ := out_ n1 ++ k |>) dst (vf j)) as [HA HE _]; [done| |done|done|done].
  destruct A. constructor; try done. simpl. by apply no_exit_app.
Qed.

(** The values from [j] on, delivered in order. *)
Lemma learn_all fuel : forall j s n,
  j + Z.of_nat fuel = hi -> lo <= j -> s !! dst = Some n -> alive dst j n ->
  (forall k, j <= k < hi -> exists c m, sent s dst c = true /\ brings c m /\ learned_msg k m) ->
  exists s' n', reaches ((fun k => (dst, delivery (learned_msg k))) <$> seqZ j (hi - j)) s s' /\ (forall q, q <> dst -> s' !! q = s !! q) /\ s' !! dst = Some n' /\
    alive dst hi n' /\ out_ n `prefix_of` out_ n' /\
    forall k, j <= k < hi -> OExecute k (vf k) true ∈ out_ n'.
Proof.
  induction fuel as [|fuel IH]; intros j s n Hf Hj Hn A Hs.
  { assert (j = hi) as -> by lia. rewrite Z.sub_diag.
    exists s, n. split_and!; try done; [apply reaches_refl|lia]. }
  destruct (Hs j) as (c & m & Hc & Hb & Hm); [lia|].
  destruct (learn_one j n c m) as [A' HE]; try done; [lia|].
  set (n1 := handle (EvContent c) n) in *. set (s1 := <[dst := n1]> s).
  assert (Hpre : out_ n `prefix_of` out_ n1) by apply handle_keeps.
  destruct (IH (j + 1) s1 n1) as (s' & n' & R & Hsame & Hn' & A2 & Hp & Hall); try done; [lia|lia|apply lookup_insert_eq| |].
  - intros k Hk. destruct (Hs k) as (c' & m' & Hsent & H'); [lia|]. exists c', m'. split; [|done].
    apply sent_inv in Hsent as (q & nq & o & Hq & Ho & Hcar).
    destruct (decide (q = dst)) as [->|Hqd].
    + rewrite Hn in Hq. injection Hq as <-.
      eapply (sent_intro s1 dst n1); [apply lookup_insert_eq|by eapply elem_of_app_prefix|done].
    + eapply (sent_intro s1 q nq); [unfold s1; by rewrite lookup_insert_ne|done..].
  - exists s', n'. split_and!; try done.
    + rewrite seqZ_cons, fmap_cons by lia. replace (Z.pred (hi - j)) with (hi - (j + 1)) by lia.
      apply (reaches_trans [_] _ _ s1); [|done]. apply reach_step; [done..|by exists c, m].
    + intros q Hq. rewrite Hsame by done. unfold s1. by rewrite lookup_insert_ne.
    + by etrans.
    + intros k Hk. destruct (decide (k = j)) as [->|]; [by eapply elem_of_app_prefix|]. apply Hall. lia.
Qed.

(** * The node that is ahead *)

Record serving (n : node) : Prop := {
  sv_alive : alive src hi n;
  sv_sending : is_sending_checkpoint n = false;
  sv_min : min_chosen_id n <= lo;
  sv_db : forall j, lo <= j < hi -> exists r, DB_Get j (db_ n) = (0, SerializeAsString r) /\
    pi_instance_id r = j /\ pi_accepted_value r = vf j;
}.

(** [ASyncSend] sends every value. *)
Lemma async_sends fuel : forall from n,
  lo <= from -> from + Z.of_nat fuel <= hi -> cf_node_id (config_ n) = src ->
  (forall j, lo <= j < hi -> exists r, DB_Get j (db_ n) = (0, SerializeAsString r) /\
     pi_instance_id r = j /\ pi_accepted_value r = vf j) ->
  forall j, from <= j < from + Z.of_nat fuel ->
  exists c m, OSend dst c ∈ out_ (ASyncSend_loop fuel dst from n) /\ brings c m /\ learned_msg j m.
Proof.
  induction fuel as [|fuel IH]; intros from n Hf Hle Hid Hdb j Hj; [lia|]. cbn [ASyncSend_loop].
  destruct (Hdb from) as (r & Hg & Hri & Hrv); [lia|]. rewrite Hg. cbn [fst snd].
  change (0 =? 0) with true. cbv iota zeta. rewrite parse_serialize. cbn [snd].
  set (m := _ <| pm_instance_id := _ |> <| pm_proposal_id := _ |> <| pm_proposal_node_id := _ |> <| pm_value := _ |>).
  destruct (send_form dst (content_of n m) n) as (k & -> & _ & Hin). set (n1 := n <| out_ := _ |>).
  rewrite add64_small by lia. destruct (decide (j = from)) as [->|Hjf].
  - exists (content_of n m), m. split; [|done].
    eapply elem_of_app_prefix; [apply ASyncSend_keeps|]. simpl. set_solver.
  - apply (IH (from + 1) n1); try done; lia.
Qed.

Lemma learn_task n t q :
  no_exit (out_ n) -> learn_queue n = t :: q ->
  handle EvLearnTask n = run_learn_task t (n <| learn_queue := q |>).
Proof. intros Hx Hq. unfold handle. by rewrite Hx, Hq. Qed.

(** * The exchange *)

Definition ask_msg (m : PaxosMessage) : Prop :=
  pm_type m = ASK_FOR_LEARN /\ pm_node_id m = dst /\ pm_instance_id m = lo.

Definition now_msg (m : PaxosMessage) : Prop :=
  pm_type m = SEND_NOW_INSTANCE_ID /\ pm_node_id m = src /\ pm_instance_id m = lo /\
  pm_now_instance_id m = hi /\ pm_min_chosen_instance_id m <= lo.

Definition confirm_msg (m : PaxosMessage) : Prop :=
  pm_type m = COMFIRM_ASK_FOR_LEARN /\ pm_node_id m = dst /\ pm_instance_id m = lo.

(** The events of the exchange: the question, its answer in between when more than one value
    is missing, and the values, each delivered once and in order. *)
Definition exchange_plan : list (Z * (Event -> Prop)) :=
  [(dst, eq (EvSyncData false)); (src, delivery ask_msg)] ++
  (if decide (lo = hi - 1) then []
   else [(src, eq EvLearnTask); (dst, delivery now_msg); (src, delivery confirm_msg); (src, eq EvLearnTask)]) ++
  ((fun j => (dst, delivery (learned_msg j))) <$> seqZ lo (hi - lo)).

(** The node that is behind asks the members. *)
Lemma ask_sent n :
  alive dst lo n -> cf_cluster (config_ n) = None -> src ∈ dom (GetMembership n) ->
  let n' := handle (EvSyncData false) n in
  alive dst lo n' /\ is_learning (learner_ n') = false /\
  exists ds c m, OBroadcast ds c ∈ out_ n' /\ src ∈ ds /\ brings c m /\ ask_msg m.
Proof.
  intros A Hcl Hm.
  assert (E : handle (EvSyncData false) n = AskForLearn false n) by (unfold handle; by rewrite (al_exit _ _ _ A)).
  rewrite E. unfold AskForLearn. cbv zeta.
  set (n1 := n <| learner_ ::= _ |>). unfold BroadcastMessageForLearn.
  change (config_ n1) with (config_ n). rewrite Hcl.
  match goal with |- context [content_of n1 ?m0] => set (m := m0) end.
  destruct (broadcast_gets_there src (content_of n1 m) n1) as (ds & -> & Hds); [done|].
  split; [apply alive_emit; [destruct A; by constructor|done]|]. split; [done|].
  exists ds, (content_of n1 m), m. split; [apply elem_of_app; right; by apply list_elem_of_singleton|].
  split; [apply Hds; [done|]; change (config_ n1) with (config_ n); rewrite (al_id _ _ _ A); done|].
  split; [done|]. split; [done|]. split; [apply A|apply (al_lrn _ _ _ A)].
Qed.

(** The node that is ahead answers with the value, when only one is missing. *)
Lemma ask_last n c m :
  serving n -> brings c m -> ask_msg m -> lo = hi - 1 ->
  exists c' m', OSend dst c' ∈ out_ (handle (EvContent c) n) /\ brings c' m' /\ learned_msg lo m'.
Proof.
  intros [A _ _ Hdb] Hc (T & En & Ei) Elo. rewrite (deliver_form _ _ _ _ _ Hc A).
  unfold dispatch. rewrite T. unfold OnAskForLearn. rewrite Ei, (al_lrn _ _ _ A), sub64_small by lia.
  rewrite (proj2 (Z.ltb_lt lo hi)) by lia. rewrite (proj2 (Z.eqb_eq lo (hi - 1))) by lia.
  destruct (Hdb lo) as (r & Hg & Hri & Hrv); [lia|]. rewrite Hg, En. change (0 =? 0) with true. cbv iota.
  rewrite parse_serialize. cbn [snd]. unfold SendLearnedValue. cbv zeta.
  match goal with |- context [content_of n ?m0] => set (r' := m0) end.
  destruct (send_form dst (content_of n r') n) as (k & -> & Hk & Hin).
  rewrite check_idle by apply A. exists (content_of n r'), r'. split; [simpl; set_solver|].
  split; [done|]. split; [done|]. split; [apply A|done].
Qed.

(** Otherwise it tells how far it is, from its learn loop. *)
Lemma ask_now n c m :
  serving n -> brings c m -> ask_msg m -> lo < hi - 1 -> learn_queue n = [] ->
  let n' := handle EvLearnTask (handle (EvContent c) n) in
  serving n' /\ learn_queue n' = [] /\
  exists c' m', OSend dst c' ∈ out_ n' /\ brings c' m' /\ now_msg m'.
Proof.
  intros S Hc (T & En & Ei) Hlt' Hq. pose proof S as [A Hsnd Hmin Hdb]. rewrite (deliver_form _ _ _ _ _ Hc A).
  unfold dispatch. rewrite T. unfold OnAskForLearn. rewrite Ei, (al_lrn _ _ _ A), sub64_small by lia.
  rewrite (proj2 (Z.ltb_lt lo hi)) by lia. rewrite (proj2 (Z.eqb_neq lo (hi - 1))) by lia.
  rewrite Hsnd. cbn [negb]. unfold SendNowInstanceId. cbv zeta. rewrite En.
  match goal with |- context [content_of n ?m0] => set (r := m0) end.
  rewrite check_idle by apply A. unfold learn_QueueInLoop. set (n1 := n <| learn_queue ::= _ |>).
  rewrite (learn_task n1 (TaskSendMessage dst (content_of n r)) []); [|exact (al_exit _ _ _ A)|simpl; by rewrite Hq].
  unfold run_learn_task.
  match goal with |- context [SendMessage dst ?c0 ?n0] => destruct (send_form dst c0 n0) as (k & -> & Hk & Hin) end.
  split; [|split; [done|]].
  - constructor; try done. apply alive_emit; [destruct A; by constructor|done].
  - exists (content_of n r), r. split; [simpl; set_solver|]. split; [done|].
    unfold now_msg, r. simpl. rewrite Ei, (al_id _ _ _ A), (al_lrn _ _ _ A). done.
Qed.

(** The node that is behind confirms. *)
Lemma now_confirmed n c m :
  alive dst lo n -> is_learning (learner_ n) = false -> brings c m -> now_msg m ->
  let n' := handle (EvContent c) n in
  alive dst lo n' /\ exists c' m', OSend src c' ∈ out_ n' /\ brings c' m' /\ confirm_msg m'.
Proof.
  intros A Hl Hc (T & En & Ei & Enow & Emin). rewrite (deliver_form _ _ _ _ _ Hc A).
  unfold dispatch. rewrite T. unfold OnSendNowInstanceId. cbv zeta.
  rewrite Ei, (al_lrn _ _ _ A), Z.eqb_refl, Enow, (proj2 (Z.ltb_lt lo hi)) by lia. cbn [andb].
  rewrite (proj2 (Z.ltb_ge lo _)) by lia. rewrite (al_receiving _ _ _ A), Hl. cbn [negb andb].
  unfold ComfirmAskForLearn. cbv zeta. rewrite En.
  match goal with |- context [content_of n ?m0] => set (r := m0) end.
  destruct (send_form src (content_of n r) n) as (k & -> & Hk & Hin).
  rewrite check_idle by apply A. split.
  - destruct A. constructor; try done. simpl. by apply no_exit_app.
  - exists (content_of n r), r. split; [simpl; set_solver|]. split; [done|]. split; [done|].
    split; [apply A|apply (al_lrn _ _ _ A)].
Qed.

(** The node that is ahead sends all values from its learn loop. *)
Lemma confirm_served n c m :
  serving n -> brings c m -> confirm_msg m -> learn_queue n = [] ->
  forall j, lo <= j < hi ->
  exists c' m', OSend dst c' ∈ out_ (handle EvLearnTask (handle (EvContent c) n)) /\
    brings c' m' /\ learned_msg j m'.
Proof.
  intros S Hc (T & En & Ei) Hq j Hj. pose proof S as [A Hsnd Hmin Hdb]. rewrite (deliver_form _ _ _ _ _ Hc A).
  unfold dispatch. rewrite T. unfold OnComfirmAskForLearn. rewrite En, Ei, (al_lrn _ _ _ A).
  rewrite check_idle by apply A. unfold learn_QueueInLoop. set (n1 := n <| learn_queue ::= _ |>).
  rewrite (learn_task n1 (TaskASyncSend dst lo hi) []); [|exact (al_exit _ _ _ A)|simpl; by rewrite Hq].
  unfold run_learn_task, ASyncSend. apply async_sends; [lia|lia|apply A|done|lia].
Qed.

(** * The two nodes in the group *)

Definition pair (s : gmap Z node) (na nb : node) : Prop := s !! src = Some na /\ s !! dst = Some nb.

Lemma pair_src (P : Event -> Prop) s na nb e :
  pair s na nb -> enabled s src e = true -> P e -> exists s', reaches [(src, P)] s s' /\ pair s' (handle e na) nb.
Proof.
  intros [Ha Hb] He HP. exists (<[src := handle e na]> s). split; [by apply reach_step|].
  split; [apply lookup_insert_eq|by rewrite lookup_insert_ne].
Qed.

Lemma pair_dst (P : Event -> Prop) s na nb e :
  pair s na nb -> enabled s dst e = true -> P e -> exists s', reaches [(dst, P)] s s' /\ pair s' na (handle e nb).
Proof.
  intros [Ha Hb] He HP. exists (<[dst := handle e nb]> s). split; [by apply reach_step|].
  split; [by rewrite lookup_insert_ne|apply lookup_insert_eq].
Qed.

Lemma pair_to_dst s na nb c : pair s na nb -> OSend dst c ∈ out_ na -> sent s dst c = true.
Proof.
  intros [Ha _] Ho. eapply (sent_intro s src na); [done|exact Ho|]. simpl. by rewrite !bool_decide_eq_true_2.
Qed.

Lemma pair_to_src s na nb c : pair s na nb -> OSend src c ∈ out_ nb -> sent s src c = true.
Proof.
  intros [_ Hb] Ho. eapply (sent_intro s dst nb); [done|exact Ho|]. simpl. by rewrite !bool_decide_eq_true_2.
Qed.

(** All values are on their way. *)
Lemma values_sent s na nb :
  pair s na nb -> serving na -> learn_queue na = [] -> alive dst lo nb ->
  cf_cluster (config_ nb) = None -> src ∈ dom (GetMembership nb) ->
  exists s' na' nb',
    reaches ([(dst, eq (EvSyncData false)); (src, delivery ask_msg)] ++
      (if decide (lo = hi - 1) then [] else
       [(src, eq EvLearnTask); (dst, delivery now_msg); (src, delivery confirm_msg); (src, eq EvLearnTask)])) s s' /\
    pair s' na' nb' /\ alive dst lo nb' /\ out_ nb `prefix_of` out_ nb' /\
    forall j, lo <= j < hi -> exists c m, OSend dst c ∈ out_ na' /\ brings c m /\ learned_msg j m.
Proof.
  intros P S Hq A Hcl Hm.
  destruct (ask_sent nb A Hcl Hm) as (A1 & Hl & ds & c & m & Ho & Hds & Hc & Hask).
  destruct (pair_dst (eq (EvSyncData false)) s na nb (EvSyncData false) P eq_refl eq_refl) as (s1 & R1 & P1).
  set (nb1 := handle (EvSyncData false) nb) in *.
  assert (Hpre : out_ nb `prefix_of` out_ nb1) by apply handle_keeps.
  assert (He : enabled s1 src (EvContent c) = true).
  { eapply (sent_intro s1 dst nb1); [apply P1|exact Ho|]. simpl. by rewrite !bool_decide_eq_true_2. }
  destruct (pair_src (delivery ask_msg) s1 na nb1 _ P1 He) as (s2 & R2 & P2); [by exists c, m|]. pose proof (reaches_trans _ _ _ _ _ R1 R2) as R12.
  case_decide as E.
  - exists s2, (handle (EvContent c) na), nb1. split_and!; try done. intros j Hj.
    assert (j = lo) as -> by lia. by apply (ask_last na c m).
  - destruct (ask_now na c m S Hc Hask ltac:(lia) Hq) as (S2 & Hq2 & c2 & m2 & Ho2 & Hc2 & Hnow).
    destruct (pair_src (eq EvLearnTask) s2 _ nb1 EvLearnTask P2 eq_refl eq_refl) as (s3 & R3 & P3).
    set (na3 := handle EvLearnTask _) in *.
    destruct (pair_dst (delivery now_msg) s3 na3 nb1 (EvContent c2) P3 (pair_to_dst _ _ _ _ P3 Ho2))
      as (s4 & R4 & P4); [by exists c2, m2|].
    destruct (now_confirmed nb1 c2 m2 A1 Hl Hc2 Hnow) as (A4 & c4 & m4 & Ho4 & Hc4 & Hcf).
    set (nb4 := handle (EvContent c2) nb1) in *.
    destruct (pair_src (delivery confirm_msg) s4 na3 nb4 (EvContent c4) P4 (pair_to_src _ _ _ _ P4 Ho4))
      as (s5 & R5 & P5); [by exists c4, m4|].
    destruct (pair_src (eq EvLearnTask) s5 _ nb4 EvLearnTask P5 eq_refl eq_refl) as (s6 & R6 & P6).
    exists s6, (handle EvLearnTask (handle (EvContent c4) na3)), nb4. split_and!; try done.
    + eapply reaches_trans; [exact R12|]. eapply (reaches_trans [_]); [exact R3|].
      eapply (reaches_trans [_]); [exact R4|]. eapply (reaches_trans [_]); [exact R5|exact R6].
    + etrans; [exact Hpre|]. apply handle_keeps.
    + by apply (confirm_served na3 c4 m4).
Qed.

Lemma catch_up s na nb :
  pair s na nb -> serving na -> learn_queue na = [] -> alive dst lo nb ->
  cf_cluster (config_ nb) = None -> src ∈ dom (GetMembership nb) ->
  exists s' nb', reaches exchange_plan s s' /\ s' !! dst = Some nb' /\ alive dst hi nb' /\ out_ nb `prefix_of` out_ nb' /\
    forall k, lo <= k < hi -> OExecute k (vf k) true ∈ out_ nb'.
Proof.
  intros P S Hq A Hcl Hm.
  destruct (values_sent s na nb P S Hq A Hcl Hm) as (s1 & na1 & nb1 & R1 & P1 & A1 & Hpre & Hs).
  destruct (learn_all (Z.to_nat (hi - lo)) lo s1 nb1) as (s2 & nb2 & R2 & _ & Hb & A2 & Hpre2 & Hall);
    [lia|lia|apply P1|done| |].
  - intros k Hk. destruct (Hs k Hk) as (c & m & Ho & H). exists c, m. split; [|done].
    by apply (pair_to_dst s1 na1 nb1).
  - exists s2, nb2. split_and!; try done; [|by etrans]. unfold exchange_plan. rewrite app_assoc.
    by eapply reaches_trans.
Qed.

End Catchup.

(** * The theorem *)

Section Theorems.
Context {FC : FixedCoding} {FCL : FixedCodingLaws} {LD : LevelDB} {LDL : LevelDBLaws}.
Context {LDR : LevelDBReliable} {MM : MachineManager} {MML : MachineManagerLaws}.
Context {CM : CheckpointManager} {CML : CheckpointManagerLaws}.
Context {AL : Allocator} {PI : ProtoCodec PaxosInstance} {PIL : ProtoCodecLaws PaxosInstance}.
Variable M : gset Z.
#[local] Existing Instance no_restarts.

(** What a node has logged below its instance. *)
Definition logged_value (n : node) (j : Z) : PaxosValue :=
  pi_accepted_value (ParseFromString (DB_Get j (db_ n)).2).2.

Lemma logged_below n a me j :
  node_rel M me n a -> 1 <= j < instance_id_ n -> min_chosen_id n <= j ->
  exists r, DB_Get j (db_ n) = (0, SerializeAsString r) /\ pi_instance_id r = j /\
    pi_accepted_value r = logged_value n j /\ chosen M a j (logged_value n j).
Proof.
  intros (_ & _ & Mo) Hj Hm. pose proof (r_range _ _ _ _ Mo) as Hr.
  pose proof (r_db_all _ _ _ _ Mo eq_refl j Hj Hm) as H0. unfold logged_value.
  destruct (DB_Get j (db_ n)) as [res t] eqn:G. simpl in H0. subst res.
  destruct (r_db _ _ _ _ Mo j t ltac:(unfold in_u64; lia) ltac:(lia) G) as (r & -> & Hi & _ & Hc).
  exists r. simpl. rewrite parse_serialize. done.
Qed.

(** Every instance below its own has been executed by a node. *)
Lemma executed_below s a me n j :
  system_rel M s a -> s !! me = Some n -> 1 <= j < instance_id_ n -> exists v, executed s me j v.
Proof.
  intros H Hn Hj. destruct (H me n Hn) as [(_ & _ & Mo) Hi]. pose proof (r_exec _ _ _ _ Mo Hi) as E.
  assert (Hin : j ∈ (exec_log (out_ n)).*1) by (rewrite E; apply elem_of_seqZ; lia).
  apply list_elem_of_fmap in Hin as ([k v] & Ek & Hin). simpl in Ek. subst k.
  exists v. by eapply exec_log_executed.
Qed.

(** (C4) Catching up.  In any state of a clean run of nodes whose databases write what they are
    told, let [dst] be behind [src], which has not cleaned the records [dst] needs, whose learn
    loop is idle and which is sending no checkpoint; neither node is receiving a checkpoint or
    has ended, [dst] asks the members (it has no cluster of its own), and the machines execute
    with success what [src] has executed.  If [dst] asks for what it has missed, then a
    schedule that has exactly the events of the exchange, each once ([exchange_plan]: the
    question; if more than one value is missing, the instance of [src], the confirmation and
    one task of the learn loop for each; then the missing values, one message of [src] each,
    in order), takes it to the instance of [src], and it has executed what [src] has executed, every instance of it. *)
Theorem lagging_node_catches_up :
  forall (s0 s : gmap Z node) (evs : list (Z * Event)) (src dst : Z) (na nb : node),
  fresh_system M s0 -> clean_run evs s0 = Some s -> s !! src = Some na -> s !! dst = Some nb ->
  instance_id_ nb < instance_id_ na -> min_chosen_id na <= instance_id_ nb ->
  learn_queue na = [] -> is_sending_checkpoint na = false ->
  is_receiving_checkpoint (learner_ na) = false -> is_receiving_checkpoint (learner_ nb) = false ->
  no_exit (out_ na) -> no_exit (out_ nb) -> cf_cluster (config_ nb) = None ->
  (forall j v now g c m, executed s src j v -> (mm_Execute now g j v c m).2 = true) ->
  exists evs' s' nb',
    follows (exchange_plan src dst (instance_id_ nb) (instance_id_ na) (logged_value na)) evs' /\
    run evs' s = Some s' /\ s' !! dst = Some nb' /\
    instance_id_ nb' = instance_id_ na /\
    forall j v, executed s src j v -> executed s' dst j v.
Proof.
  intros s0 s evs src dst na nb H0 Hr Ha Hb Hlt Hmin Hq Hsnd Hra Hrb Hxa Hxb Hcl Hex.
  destruct (clean_run_simulated M _ _ _ H0 Hr) as (a & _ & I & Hrel).
  destruct (Hrel src na Ha) as [Ra Ia], (Hrel dst nb Hb) as [Rb Ib].
  pose proof Ra as (_ & _ & Ma). pose proof Rb as (_ & _ & Mb).
  pose proof (r_range _ _ _ _ Ma) as Hra'. pose proof (r_range _ _ _ _ Mb) as Hrb'.
  assert (Hne : src <> dst) by (intros ->; rewrite Ha in Hb; injection Hb as ->; lia).
  assert (Hval : forall j v, executed s src j v -> instance_id_ nb <= j < instance_id_ na -> v = logged_value na j).
  { intros j v Hv Hj. destruct (logged_below na a src j Ra ltac:(lia) ltac:(lia)) as (r & _ & _ & _ & Hc).
    eapply chosen_unique; [exact I|by eapply executed_chosen|exact Hc]. }
  destruct (catch_up src dst (instance_id_ nb) (instance_id_ na) (logged_value na)) with (s := s) (na := na) (nb := nb)
    as (s' & nb' & (evs' & Hpl & Hrun) & Hnb' & A & Hpre & Hall); try done; try lia.
  - intros j now g c m Hj. destruct (executed_below s a src na j Hrel Ha ltac:(lia)) as [v Hv].
    rewrite <- (Hval j v Hv Hj). by apply Hex.
  - constructor; try done.
    + constructor; try done; apply Ma.
    + intros j Hj. destruct (logged_below na a src j Ra ltac:(lia) ltac:(lia)) as (r & ? & ? & ? & _). by exists r.
  - constructor; try done; apply Mb.
  - rewrite (r_members _ _ _ _ Mb). apply Ma.
  - exists evs', s', nb'. split_and!; [done|done|done|apply A|]. intros j v Hv.
    destruct (Hv) as (n1 & res & Hn1 & Ho). rewrite Ha in Hn1. injection Hn1 as <-.
    assert (Hj : 1 <= j < instance_id_ na).
    { pose proof (r_exec _ _ _ _ Ma Ia) as E. cut (j ∈ (exec_log (out_ na)).*1).
      - rewrite E. intros Hin%elem_of_seqZ. lia.
      - apply list_elem_of_fmap. exists (j, v). split; [done|]. apply list_elem_of_omap. by exists (OExecute j v res). }
    destruct (Z.lt_ge_cases j (instance_id_ nb)) as [Hjb|Hjb].
    + destruct (executed_below s a dst nb j Hrel Hb ltac:(lia)) as [w Hw].
      assert (w = v) as -> by (eapply chosen_unique; [exact I|by eapply executed_chosen..]).
      destruct Hw as (n2 & res2 & Hn2 & Ho2). rewrite Hb in Hn2. injection Hn2 as <-.
      exists nb', res2. split; [done|]. by eapply elem_of_app_prefix.
    + rewrite (Hval j v Hv) by lia. exists nb', true. split; [done|]. apply Hall. lia.
Qed.

End Theorems.
