(* ===== verification/MachinesModel.v ===== *)
(** Model of the state machines the library brings itself
    ([machine/state_machine.cc], [machine/membership_machine.cc],
    [machine/master_machine.cc]) and of [machine/machine_manager.cc], which
    dispatches values to machines and keeps the checkpoints.

    The user's machines are the class [UserMachines]; CRC-32C is voyager's and
    the class [Crc32c].  What the file system and the user's machines answer while
    a checkpoint is made is the record [CheckpointEnv], keyed by the instance. *)

From S2P Require Import Prelude Proto Storage NodeState System Simulation.
From Stdlib Require Import Sorted.

(** * Interfaces *)

Class Crc32c := crc32c_Value : string -> Z.
Class Crc32cLaws `{!Crc32c} := crc32c_range : forall s, in_u32 (crc32c_Value s).

(** The machines of the application, by id; one state for all of them. *)
Class UserMachines := {
  um : Type;
  um_Execute : Z (* machine *) -> Z (* group *) -> Z (* instance *) -> string -> Z (* context *) ->
               um -> um * bool;
  um_Recover : Z (* machine *) -> Z (* group *) -> Z (* instance *) -> um -> um * bool;
}.

(** * Checkpoint files of the internal machines *)

Section CheckpointFile.
Context {FC : FixedCoding} {CR : Crc32c} {A : Type} {PC : ProtoCodec A}.

Definition kHeaderSize : nat := 16.

Definition str_from (i : nat) (s : string) : string := String.substring i (String.length s - i) s.

Definition Checksum (data : string) : bool :=
  let size := String.length data in
  if (kHeaderSize <=? size)%nat then
    DecodeFixed32 (str_from (size - 4) data) =? crc32c_Value (String.substring 0 (size - 4) data)
  else false.

(** [data] is the content of the file, [None] a failed read.  The second component is
    what was written to [*message]. *)
Definition ReadCheckpoint (group_id instance_id : Z) (data : option string) : bool * option A :=
  match data with
  | None => (false, None)
  | Some data =>
      if negb (Checksum data) then (false, None)
      else
        let gid := DecodeFixed32 data in
        let iid := DecodeFixed64 (str_from 4 data) in
        if negb (gid =? group_id) || negb (iid =? instance_id) then (false, None)
        else
          let '(ok, message) :=
            ParseFromString (String.substring 12 (String.length data - kHeaderSize) data) in
          (ok, Some message)
  end.

(** The bytes [WriteCheckpoint] hands to the file system. *)
Definition WriteCheckpoint (group_id instance_id : Z) (message : A) : string :=
  let data := EncodeFixed32 group_id +:+ EncodeFixed64 instance_id +:+ SerializeAsString message in
  data +:+ EncodeFixed32 (crc32c_Value data).

End CheckpointFile.

(** * The membership machine *)

Section Membership.
Context {PC : ProtoCodec MemberChangeMessage} {PM : ProtoCodec Membership}.
Context {FC : FixedCoding} {CR : Crc32c}.

Definition member_message (i : Member) : MemberMessage :=
  mkMemberMessage (m_id i) (m_host i) (m_port i) (m_context i).

(** [map::insert] keeps the first entry of an id. *)
Definition MembershipMachine_new (members : list Member) : Membership :=
  mkMembership 0
    (foldl (fun ms i => if decide (is_Some (ms !! m_id i)) then ms
                        else <[m_id i := member_message i]> ms) ∅ members).

Definition apply_change (ms : gmap Z MemberMessage) (c : MemberChangeType * MemberMessage)
  : gmap Z MemberMessage :=
  match c.1 with
  | MEMBER_ADD => <[mb_id c.2 := c.2]> ms
  | MEMBER_REMOVE => delete (mb_id c.2) ms
  | MemberChangeType_unknown _ => ms
  end.

(** The loop over [type(i)] and [member(i)]; the two lists have the same length in
    every message [ChangeMember] builds. *)
Definition apply_changes (temp : MemberChangeMessage) (ms : gmap Z MemberMessage) :=
  foldl apply_change ms (zip (mc_type temp) (mc_member temp)).

Definition MembershipMachine_Execute (instance_id : Z) (value : string) (m : Membership)
  : Membership * bool :=
  if instance_id <=? ms_version m then (m, false)
  else
    let '(ok, temp) := ParseFromString value in
    if ok then (mkMembership instance_id (apply_changes temp (ms_members m)), true)
    else (m, false).

Definition MembershipMachine_Recover (group_id instance_id : Z) (data : option string) (m : Membership)
  : Membership * bool :=
  let '(ok, message) := ReadCheckpoint group_id instance_id data in
  (default m message, ok).

(** [Group::ChangeMember]: the proposed value; [true] adds a member. *)
Definition change_message (value : list (Member * bool)) : MemberChangeMessage :=
  mkMemberChangeMessage ((fun i => member_message i.1) <$> value)
    ((fun i : Member * bool => if i.2 then MEMBER_ADD else MEMBER_REMOVE) <$> value).

End Membership.

(** * The master machine *)

Section Master.
Context {PC : ProtoCodec MasterState} {FC : FixedCoding} {CR : Crc32c}.

Definition MasterState_default : MasterState := mkMasterState 0 0 0.

(** [context] is the clock reading behind the pointer, [None] for a null pointer;
    [now] is [NowMillis()]. *)
Definition MasterMachine_Execute (now instance_id : Z) (value : string) (context : option Z)
    (s : MasterState) : MasterState * bool :=
  if instance_id <=? mst_version s then (s, false)
  else
    let '(ok, state) := ParseFromString value in
    if ok then
      (mkMasterState instance_id (mst_node_id state)
         (match context with Some t => t | None => now end +64 mst_lease_time state), true)
    else (s, false).

Definition MasterMachine_Recover (node_id now group_id instance_id : Z) (data : option string)
    (s : MasterState) : MasterState * bool :=
  match ReadCheckpoint group_id instance_id data with
  | (false, message) => (default s message, true)
  | (true, message) =>
      let s := default s message in
      let lease := if negb (mst_node_id s =? node_id) then now +64 mst_lease_time s else now in
      (mkMasterState (mst_version s) (mst_node_id s) lease, true)
  end.

(** [now_micros] is [NowMicros()]; the result is [(node_id, version)]. *)
Definition MasterMachine_GetMaster (now_micros : Z) (s : MasterState) : option (Z * Z) :=
  if now_micros <? mst_lease_time s then Some (mst_node_id s, mst_version s) else None.

Definition MasterMachine_IsMaster (node_id now : Z) (s : MasterState) : bool :=
  (mst_node_id s =? node_id) && (now <? mst_lease_time s).

End Master.

(** * The machine manager *)

(** [CleanCheckpoint]'s loop over the sorted ids.  [fuel] is the number of ids.  The
    results are the vector it leaves, the oldest id and the ids deleted, in order.
    [checkpoints_[1]] is behind the end of the vector when one id is left and none is to be
    kept; reading it is undefined, and [past_end] is the word found there. *)
Definition swap_pop (l : list Z) : list Z :=
  match l with
  | [] => []
  | [_] => []
  | x :: rest => List.last rest x :: removelast rest
  end.

Fixpoint clean_loop (past_end : Z) (fuel : nat) (keep : nat) (l : list Z) (oldest : Z) (deleted : list Z)
  : list Z * Z * list Z :=
  match fuel with
  | O => (l, oldest, deleted)
  | S fuel =>
      if (keep <? length l)%nat then
        clean_loop past_end fuel keep (swap_pop l) (nth 1 l past_end) (deleted ++ take 1 l)
      else (l, oldest, deleted)
  end.

Definition clean_checkpoints (past_end : Z) (keep : nat) (found : list Z) : list Z * Z * list Z :=
  let l := merge_sort Z.le found in
  clean_loop past_end (length l) keep l (List.hd 0 l) [].

Record CheckpointEnv := mkCheckpointEnv {
  env_draw : Z -> Z;                 (* distribution_(generator_) *)
  env_delete_temp : Z -> bool;       (* DeleteTempCheckpoint *)
  env_create_dir : Z -> Z -> bool;   (* CreateDir of a machine's directory *)
  env_make : Z -> Z -> bool;         (* a user machine's MakeCheckpoint *)
  env_rename : Z -> bool;            (* RenameFile in UpdateCheckpoint *)
  env_delete : Z -> bool;            (* a directory is deleted or renamed away *)
  env_past_end : Z;                  (* the word behind the vector checkpoints_ *)
}.

Section Manager.
Context {UM : UserMachines}.
Context {PC : ProtoCodec MemberChangeMessage} {PS : ProtoCodec MasterState}.
Context {PM : ProtoCodec Membership} {FC : FixedCoding} {CR : Crc32c}.
Variable env : CheckpointEnv.
Variable deref : Z -> Z.             (* the clock reading behind a context pointer *)

Record manager := mkManager {
  mgr_membership : Membership;
  mgr_master : MasterState;
  mgr_user : um;
  mgr_ids : gset Z;                  (* the keys of machines_ *)
  mgr_keep_log : Z;                  (* config_->KeepLogCount() *)
  mgr_keep_checkpoints : nat;        (* config_->KeepCheckpointCount() *)
  mgr_io_loop : bool;                (* config_->GetIOLoop() is set *)
  mgr_locked : bool;                 (* mutex_ is held by a checkpoint transfer *)
  mgr_disk : list Z;                 (* ids of the checkpoint directories *)
  mgr_checkpoints : list Z;
  mgr_latest : Z;
  mgr_oldest : Z;
  mgr_making : bool;                 (* make_checkpoint_ *)
  mgr_making_ids : gset Z;           (* make_checkpoint_result_ *)
}.

(** The internal machines answer [true]; a user machine whatever it likes.  The ids
    are visited in increasing order up to the first failure. *)
Definition make_one (instance_id id : Z) : bool :=
  env_create_dir env instance_id id &&
  ((id =? 1) || (id =? 2) || env_make env instance_id id).

Fixpoint make_loop (instance_id : Z) (ids : list Z) (acc : gset Z) : gset Z * bool :=
  match ids with
  | [] => (acc, true)
  | id :: ids =>
      if make_one instance_id id then make_loop instance_id ids ({[id]} ∪ acc) else (acc, false)
  end.

Definition machine_ids (m : manager) : list Z := merge_sort Z.le (elements (mgr_ids m)).

Definition set_making (b : bool) (ids : gset Z) (m : manager) : manager :=
  mkManager (mgr_membership m) (mgr_master m) (mgr_user m) (mgr_ids m) (mgr_keep_log m)
    (mgr_keep_checkpoints m) (mgr_io_loop m) (mgr_locked m) (mgr_disk m) (mgr_checkpoints m)
    (mgr_latest m) (mgr_oldest m) b ids.

(** [assert(instance_id > latest_checkpoint_instance_id_)] has no effect on the state. *)
Definition MakeCheckpoint (instance_id : Z) (m : manager) : manager * bool :=
  if mgr_making m then (m, false)
  else if negb (mgr_io_loop m) then (m, false)
  else
    let interval := instance_id -64 mgr_latest m in
    if interval <? wrap32 (mgr_keep_log m / 2 + env_draw env instance_id) then (m, false)
    else if negb (env_delete_temp env instance_id) then (m, false)
    else
      let '(ids, ok) := make_loop instance_id (machine_ids m) ∅ in
      if ok then (set_making (if decide (ids = ∅) then mgr_making m else true) ids m, true)
      else (set_making (mgr_making m) ids m, false).

Definition set_machines (ms : Membership) (st : MasterState) (u : um) (m : manager) : manager :=
  mkManager ms st u (mgr_ids m) (mgr_keep_log m)
    (mgr_keep_checkpoints m) (mgr_io_loop m) (mgr_locked m) (mgr_disk m) (mgr_checkpoints m)
    (mgr_latest m) (mgr_oldest m) (mgr_making m) (mgr_making_ids m).

(** The virtual call [it->second->Execute]. *)
Definition machine_execute (now group instance_id : Z) (v : PaxosValue) (context : Z) (m : manager)
  : manager * bool :=
  if machine_id v =? 1 then
    let '(ms, r) := MembershipMachine_Execute instance_id (user_data v) (mgr_membership m) in
    (set_machines ms (mgr_master m) (mgr_user m) m, r)
  else if machine_id v =? 2 then
    let ctx := if context =? 0 then None else Some (deref context) in
    let '(st, r) := MasterMachine_Execute now instance_id (user_data v) ctx (mgr_master m) in
    (set_machines (mgr_membership m) st (mgr_user m) m, r)
  else
    let '(u, r) := um_Execute (machine_id v) group instance_id (user_data v) context (mgr_user m) in
    (set_machines (mgr_membership m) (mgr_master m) u m, r).

Definition MachineManager_Execute (now group instance_id : Z) (v : PaxosValue) (context : Z)
    (m : manager) : manager * bool :=
  let '(m, result) :=
    if decide (machine_id v ∈ mgr_ids m) then machine_execute now group instance_id v context m
    else (m, false) in
  if result then ((MakeCheckpoint instance_id m).1, true) else (m, false).

Definition CleanCheckpoint (m : manager) : manager :=
  if mgr_locked m then m
  else
    let '(l, oldest, deleted) := clean_checkpoints (env_past_end env) (mgr_keep_checkpoints m) (mgr_disk m) in
    mkManager (mgr_membership m) (mgr_master m) (mgr_user m) (mgr_ids m) (mgr_keep_log m)
      (mgr_keep_checkpoints m) (mgr_io_loop m) (mgr_locked m)
      (filter (fun i => ~ (i ∈ deleted /\ env_delete env i = true)) (mgr_disk m)) l (mgr_latest m) oldest
      (mgr_making m) (mgr_making_ids m).

Definition UpdateCheckpoint (instance_id : Z) (m : manager) : manager * bool :=
  if env_rename env instance_id then
    (mkManager (mgr_membership m) (mgr_master m) (mgr_user m) (mgr_ids m) (mgr_keep_log m)
       (mgr_keep_checkpoints m) (mgr_io_loop m) (mgr_locked m) (instance_id :: mgr_disk m)
       (mgr_checkpoints m) instance_id (mgr_oldest m) (mgr_making m) (mgr_making_ids m), true)
  else (m, false).

(** The function [FinishMakeCheckpoint] queues into the io loop. *)
Definition FinishMakeCheckpoint (machine_id instance_id : Z) (result : bool) (m : manager) : manager :=
  if negb (mgr_making m) then m
  else if negb result then set_making false (mgr_making_ids m) m
  else
    let ids := mgr_making_ids m ∖ {[machine_id]} in
    let m := set_making true ids m in
    if decide (ids = ∅) then
      let m := CleanCheckpoint (UpdateCheckpoint instance_id m).1 in
      set_making false (mgr_making_ids m) m
    else m.

(** The first lines of [Recover]: which checkpoint is restored. *)
Definition recover_latest (m : manager) : manager :=
  let m := CleanCheckpoint m in
  mkManager (mgr_membership m) (mgr_master m) (mgr_user m) (mgr_ids m) (mgr_keep_log m)
    (mgr_keep_checkpoints m) (mgr_io_loop m) (mgr_locked m) (mgr_disk m) (mgr_checkpoints m)
    (List.last (mgr_checkpoints m) 0) (mgr_oldest m) (mgr_making m) (mgr_making_ids m).

(** The loop of [Recover].  [dirs id] is [None] when machine [id] has no directory in
    the checkpoint; for an internal machine it holds the content of its file. *)
Definition recover_machine (node_id now group id : Z) (data : option string) (m : manager)
  : manager * bool :=
  if id =? 1 then
    let '(ms, r) := MembershipMachine_Recover group (mgr_latest m) data (mgr_membership m) in
    (set_machines ms (mgr_master m) (mgr_user m) m, r)
  else if id =? 2 then
    let '(st, r) := MasterMachine_Recover node_id now group (mgr_latest m) data (mgr_master m) in
    (set_machines (mgr_membership m) st (mgr_user m) m, r)
  else
    let '(u, r) := um_Recover id group (mgr_latest m) (mgr_user m) in
    (set_machines (mgr_membership m) (mgr_master m) u m, r).

Fixpoint recover_loop (node_id now group : Z) (dirs : Z -> option (option string)) (ids : list Z)
    (m : manager) : manager * bool :=
  match ids with
  | [] => (m, true)
  | id :: ids =>
      match dirs id with
      | None => recover_loop node_id now group dirs ids m
      | Some data =>
          let '(m, ok) := recover_machine node_id now group id data m in
          if ok then recover_loop node_id now group dirs ids m else (m, false)
      end
  end.

Definition MachineManager_Recover (node_id now group : Z) (dirs : Z -> Z -> option (option string))
    (m : manager) : manager * bool :=
  let m := recover_latest m in
  if mgr_latest m =? 0 then (m, true)
  else recover_loop node_id now group (dirs (mgr_latest m)) (machine_ids m) m.

Definition set_ids (ids : gset Z) (m : manager) : manager :=
  mkManager (mgr_membership m) (mgr_master m) (mgr_user m) ids (mgr_keep_log m)
    (mgr_keep_checkpoints m) (mgr_io_loop m) (mgr_locked m) (mgr_disk m) (mgr_checkpoints m)
    (mgr_latest m) (mgr_oldest m) (mgr_making m) (mgr_making_ids m).

(** [None]: the assertion that the id is new fails. *)
Definition AddMachine (id : Z) (m : manager) : option manager :=
  if decide (id ∈ mgr_ids m) then None else Some (set_ids ({[id]} ∪ mgr_ids m) m).

Definition RemoveMachine (id : Z) (m : manager) : manager := set_ids (mgr_ids m ∖ {[id]}) m.

Definition set_locked (b : bool) (m : manager) : manager :=
  mkManager (mgr_membership m) (mgr_master m) (mgr_user m) (mgr_ids m) (mgr_keep_log m)
    (mgr_keep_checkpoints m) (mgr_io_loop m) b (mgr_disk m) (mgr_checkpoints m)
    (mgr_latest m) (mgr_oldest m) (mgr_making m) (mgr_making_ids m).

Definition TryLockCheckpoint (m : manager) : manager * bool :=
  if mgr_locked m then (m, false) else (set_locked true m, true).

Definition UnLockCheckpoint (m : manager) : manager := set_locked false m.

(** [listing] is the answer of the machine's own [GetCheckpoint] ([None] a failure) and
    [exists_] whether the machine has a directory in the checkpoint.  The result is
    [None] for a failure; otherwise the new [*dir], when it is assigned, and [*files],
    which the caller has cleared. *)
Definition GetCheckpoint (instance_id id : Z) (path : string) (exists_ : bool)
    (listing : option (list string)) (m : manager) : option (option string * list string) :=
  if instance_id =? 0 then Some (None, [])
  else if decide (id ∈ mgr_ids m) then
    if negb exists_ then Some (Some path, [])
    else match listing with Some fs => Some (Some path, fs) | None => None end
  else None.

(** The constructor; [oldest_checkpoint_instance_id_] has no initialiser. *)
Definition manager_new (ms : Membership) (u : um) (keep_log : Z) (keep_checkpoints : nat)
    (disk : list Z) (uninitialised : Z) : manager :=
  mkManager ms MasterState_default u {[1; 2]} keep_log keep_checkpoints false false disk []
    0 uninitialised false ∅.

(** The manager behind the interface [Instance] uses. *)
#[global] Instance manager_instance : MachineManager := {|
  mm := manager;
  mm_GetMembership := mgr_membership;
  mm_Execute := MachineManager_Execute;
  mm_GetLatestCheckpointInstanceId := mgr_latest;
  mm_GetOldestCheckpointInstanceId := mgr_oldest;
  mm_FinishMakeCheckpoint := FinishMakeCheckpoint;
|}.

End Manager.

(** * Properties of the checkpoint files *)

Lemma substring_app_l a b : String.substring 0 (String.length a) (a +:+ b) = a.
Proof.
  induction a as [|c a IH]; [by destruct b|]. exact (f_equal (String c) IH).
Qed.

Lemma substring_skip a b n : String.substring (String.length a) n (a +:+ b) = String.substring 0 n b.
Proof. induction a as [|c a IH]; [done|]. exact IH. Qed.

Lemma str_from_app a b : str_from (String.length a) (a +:+ b) = b.
Proof.
  unfold str_from. rewrite string_length_app, substring_skip.
  replace (String.length a + String.length b - String.length a)%nat with (String.length b) by lia.
  apply substring_all.
Qed.

Section CheckpointTheory.
Context {FC : FixedCoding} {FCL : FixedCodingLaws} {CR : Crc32c} {CRL : Crc32cLaws}.
Context {A : Type} {PC : ProtoCodec A} {PCL : ProtoCodecLaws A}.

Lemma written_length g i (m : A) :
  String.length (WriteCheckpoint g i m) = (16 + String.length (SerializeAsString m))%nat.
Proof.
  unfold WriteCheckpoint. rewrite !string_length_app, !encode32_length, encode64_length. lia.
Qed.

Lemma written_checksum g i (m : A) : Checksum (WriteCheckpoint g i m) = true.
Proof.
  unfold Checksum. rewrite written_length. cbn [kHeaderSize Nat.leb].
  unfold WriteCheckpoint. set (d := EncodeFixed32 g +:+ _).
  assert (Hd : (16 + String.length (SerializeAsString m) - 4)%nat = String.length d).
  { unfold d. rewrite !string_length_app, encode32_length, encode64_length. lia. }
  rewrite Hd, str_from_app, substring_app_l.
  apply Z.eqb_eq. rewrite <- (string_app_empty (EncodeFixed32 _)).
  apply decode_encode32, crc32c_range.
Qed.

(** Round trip of the internal machines' checkpoints: what [WriteCheckpoint]
    writes for a group and an instance, [ReadCheckpoint] reads back for that group
    and instance, and refuses for any other. *)
Theorem checkpoint_file_roundtrip : forall (g i g' i' : Z) (m : A),
  in_u32 g -> in_u64 i ->
  ReadCheckpoint g' i' (Some (WriteCheckpoint g i m)) =
    if (g =? g') && (i =? i') then (true, Some m) else (false, None).
Proof.
  intros g i g' i' m Hg Hi. unfold ReadCheckpoint. rewrite written_checksum, written_length. simpl negb.
  cbv iota.
  assert (E : exists crc, WriteCheckpoint g i m =
    EncodeFixed32 g +:+ (EncodeFixed64 i +:+ (SerializeAsString m +:+ crc))).
  { unfold WriteCheckpoint. eexists. by rewrite !string_app_assoc. }
  destruct E as [crc ->]. rewrite decode_encode32 by done.
  rewrite <- (encode32_length g) at 1. rewrite str_from_app, decode_encode64 by done.
  destruct (g =? g'), (i =? i'); try done. simpl orb. cbv iota.
  rewrite <- string_app_assoc.
  assert (L : String.length (EncodeFixed32 g +:+ EncodeFixed64 i) = 12%nat)
    by (by rewrite string_length_app, encode32_length, encode64_length).
  replace (16 + String.length (SerializeAsString m) - kHeaderSize)%nat
    with (String.length (SerializeAsString m)) by (unfold kHeaderSize; lia).
  rewrite <- L, substring_skip. by rewrite substring_app_l, parse_serialize.
Qed.

(** What a checkpoint read as valid satisfies: [ReadCheckpoint] succeeds only on
    data of at least a header whose trailing checksum matches the rest and whose ids are
    the expected ones. *)
Theorem ReadCheckpoint_validates : forall (g i : Z) (data : option string) (o : option A),
  ReadCheckpoint g i data = (true, o) ->
  exists d m, data = Some d /\ o = Some m /\ (kHeaderSize <= String.length d)%nat /\
    DecodeFixed32 (str_from (String.length d - 4) d)
      = crc32c_Value (String.substring 0 (String.length d - 4) d) /\
    DecodeFixed32 d = g /\ DecodeFixed64 (str_from 4 d) = i.
Proof.
  intros g i data o. unfold ReadCheckpoint, Checksum. destruct data as [d|]; [|done].
  destruct (kHeaderSize <=? String.length d)%nat eqn:L; simpl; [|done].
  apply Nat.leb_le in L.
  destruct (Z.eqb_spec (DecodeFixed32 (str_from (String.length d - 4) d))
              (crc32c_Value (String.substring 0 (String.length d - 4) d))) as [E|]; simpl; [|done].
  destruct (Z.eqb_spec (DecodeFixed32 d) g); simpl; [|done].
  destruct (Z.eqb_spec (DecodeFixed64 (str_from 4 d)) i); simpl; [|done].
  destruct (ParseFromString _) as [ok m]. intros [= -> <-]. exists d, m. done.
Qed.

End CheckpointTheory.
