(* ===== verification/Machines.v ===== *)
(** Properties of the internal machines and of the machine manager. *)

From S2P Require Import Prelude Proto Storage NodeState System Simulation MachinesModel.
From Stdlib Require Import Sorted.

(** * Membership *)

Definition is_change (t : MemberChangeType) : bool :=
  match t with MemberChangeType_unknown _ => false | _ => true end.

(** The last change a list makes to a member; a change of an unknown type is none. *)
Definition last_change (id : Z) (cs : list (MemberChangeType * MemberMessage))
  : option (MemberChangeType * MemberMessage) :=
  foldl (fun o c => if decide (mb_id c.2 = id /\ is_change c.1 = true) then Some c else o) None cs.

Definition changed (c : option (MemberChangeType * MemberMessage)) (old : option MemberMessage)
  : option MemberMessage :=
  match c with
  | Some (MEMBER_ADD, x) => Some x
  | Some (MEMBER_REMOVE, _) => None
  | Some (MemberChangeType_unknown _, _) | None => old
  end.

Lemma last_change_snoc id cs c :
  last_change id (cs ++ [c]) = if decide (mb_id c.2 = id /\ is_change c.1 = true) then Some c else last_change id cs.
Proof. unfold last_change. by rewrite foldl_app. Qed.

Lemma apply_changes_lookup cs ms id :
  foldl apply_change ms cs !! id = changed (last_change id cs) (ms !! id).
Proof.
  induction cs as [|[t x] cs IH] using rev_ind; [done|].
  rewrite foldl_app, last_change_snoc. simpl.
  unfold apply_change at 1. simpl. case_decide as E.
  - destruct E as [<- Ht]. destruct t; simpl; [by rewrite lookup_insert_eq|by rewrite lookup_delete_eq|done].
  - destruct t; [rewrite lookup_insert_ne by naive_solver|rewrite lookup_delete_ne by naive_solver|]; exact IH.
Qed.

Section Membership.
Context {PC : ProtoCodec MemberChangeMessage} {PCL : ProtoCodecLaws MemberChangeMessage}.

(** (C31) Membership changes: a value proposed by [ChangeMember] and executed in an
    instance after the last change succeeds, gives every member the outcome of the last
    change that names it and leaves the others, and records the instance as the version;
    executed in an instance not after the last change (a replay) it fails and changes
    nothing. *)
Theorem membership_change_spec : forall (i : Z) (value : list (Member * bool)) (m : Membership),
  let v := SerializeAsString (change_message value) in
  let cs := (fun x : Member * bool =>
               (if x.2 then MEMBER_ADD else MEMBER_REMOVE, member_message x.1)) <$> value in
  (ms_version m < i ->
     exists m', MembershipMachine_Execute i v m = (m', true) /\ ms_version m' = i /\
       (forall id, ms_members m' !! id = changed (last_change id cs) (ms_members m !! id)) /\
       MembershipMachine_Execute i v m' = (m', false)) /\
  (i <= ms_version m -> MembershipMachine_Execute i v m = (m, false)).
Proof.
  intros i value m v cs. unfold MembershipMachine_Execute, v. rewrite parse_serialize. split.
  - intros H. rewrite (proj2 (Z.leb_gt _ _)) by lia. eexists. split; [done|]. simpl.
    rewrite Z.leb_refl. split_and!; try done. intros id.
    unfold apply_changes, change_message. simpl.
    replace (zip _ _) with cs; [apply apply_changes_lookup|].
    unfold cs. clear. induction value as [|x l IH]; [done|]. exact (f_equal (cons _) IH).
  - intros H. by rewrite (proj2 (Z.leb_le _ _)) by lia.
Qed.
End Membership.

(** * Master *)

Section Master.
Context {PC : ProtoCodec MasterState} {PCL : ProtoCodecLaws MasterState}.

(** [GetMaster] compares the lease, in milliseconds, with a clock in
    microseconds: the node that has just become master at time [now] is master by
    [IsMaster] but not by [GetMaster], for every lease shorter than 999 times the time
    since the epoch. *)
Theorem GetMaster_misses_master : forall (i now node lease ver : Z) (s s' : MasterState),
  0 < lease <= 999 * now -> now + lease < 2 ^ 64 ->
  MasterMachine_Execute now i (SerializeAsString (mkMasterState ver node lease)) (Some now) s
    = (s', true) ->
  MasterMachine_IsMaster node now s' = true /\ MasterMachine_GetMaster (1000 * now) s' = None.
Proof.
  intros i now node lease ver s s' Hl Hb. unfold MasterMachine_Execute. rewrite parse_serialize.
  destruct (i <=? mst_version s); [done|]. intros [= <-].
  unfold MasterMachine_IsMaster, MasterMachine_GetMaster. simpl.
  rewrite add64_small by lia. rewrite Z.eqb_refl. simpl. split.
  - apply Z.ltb_lt. lia.
  - by rewrite (proj2 (Z.ltb_ge _ _)) by lia.
Qed.
End Master.

(** * Checkpoints *)

Lemma last_removelast (l : list Z) d : l <> [] -> l = removelast l ++ [List.last l d].
Proof. apply app_removelast_last. Qed.

Lemma sorted_lt_last (l : list Z) x :
  StronglySorted Z.lt (l ++ [x]) -> forall y, y ∈ l -> y < x.
Proof.
  induction l as [|z l IH]; intros Hs y Hy; [by apply elem_of_nil in Hy|].
  inversion Hs as [|? ? Hs' Hall]; subst. apply elem_of_cons in Hy as [->|Hy]; [|by apply IH].
  rewrite Forall_forall in Hall. apply Hall. set_solver.
Qed.

Lemma clean_loop_stop pe fuel keep l o d :
  (length l <= keep)%nat -> clean_loop pe fuel keep l o d = (l, o, d).
Proof.
  intros H. destruct fuel; simpl; [done|]. by rewrite (proj2 (Nat.ltb_ge _ _)) by lia.
Qed.

Lemma clean_loop_go pe fuel keep l o d :
  (keep < length l)%nat ->
  clean_loop pe (S fuel) keep l o d = clean_loop pe fuel keep (swap_pop l) (nth 1 l pe) (d ++ take 1 l).
Proof. intros H. simpl. by rewrite (proj2 (Nat.ltb_lt _ _)) by lia. Qed.

Lemma clean_deleted_grows pe fuel keep l o d :
  forall x, x ∈ d -> x ∈ (clean_loop pe fuel keep l o d).2.
Proof.
  revert l o d. induction fuel as [|fuel IH]; intros l o d x Hx; simpl; [done|].
  destruct (_ <? _)%nat; [|done]. apply IH. set_solver.
Qed.

Lemma sorted_lt_le l : StronglySorted Z.lt l -> StronglySorted Z.le l.
Proof.
  induction 1 as [|x l _ IH Hall]; constructor; [done|]. eapply Forall_impl; [done|]. intros; simpl in *; lia.
Qed.

Lemma sort_sorted l : StronglySorted Z.lt l -> merge_sort Z.le l = l.
Proof.
  intros H. apply (StronglySorted_unique Z.le).
  - apply StronglySorted_merge_sort; [|apply _]. intros x y. lia.
  - by apply sorted_lt_le.
  - apply merge_sort_Permutation.
Qed.

(** One surplus checkpoint, the case of a node that has just made one: cleaning
    deletes the oldest, the next one becomes the oldest kept, which bounds what
    [GCLoop] may delete, and the others stay. *)
Theorem clean_one_surplus : forall (past_end : Z) (keep : nat) (x y : Z) (l : list Z),
  StronglySorted Z.lt (x :: y :: l) -> length (x :: y :: l) = S keep ->
  exists v, clean_checkpoints past_end keep (x :: y :: l) = (v, y, [x]) /\ Permutation v (y :: l) /\
    forall z, z ∈ v -> y <= z.
Proof.
  intros pe keep x y l Hs Hl. unfold clean_checkpoints. rewrite sort_sorted by done.
  assert (Hp : Permutation (List.last (y :: l) x :: removelast (y :: l)) (y :: l)).
  { rewrite (last_removelast (y :: l) x) at 3 by done. apply Permutation_cons_append. }
  exists (List.last (y :: l) x :: removelast (y :: l)).
  rewrite Hl, clean_loop_go by (rewrite Hl; lia). split_and!; [|done|].
  - rewrite clean_loop_stop; [done|]. unfold swap_pop. rewrite Hp. simpl in *. lia.
  - intros z Hz. rewrite Hp in Hz. inversion Hs as [|? ? Hs' _]; subst.
    inversion Hs' as [|? ? _ Hall]; subst. apply elem_of_cons in Hz as [->|Hz]; [done|].
    rewrite Forall_forall in Hall. specialize (Hall z Hz). lia.
Qed.

(** After one deletion the vector of checkpoints is no longer sorted, and
    [Recover] takes its last entry for the newest: with at least two checkpoints to keep
    and one surplus on disk (a checkpoint was received from another node), the
    newest checkpoint is kept but an older one is restored. *)
Theorem recover_misses_newest : forall (past_end : Z) (keep : nat) (l : list Z) (x y newest : Z),
  StronglySorted Z.lt (x :: y :: l ++ [newest]) -> length (y :: l ++ [newest]) = keep ->
  exists v, clean_checkpoints past_end keep (x :: y :: l ++ [newest]) = (v, y, [x]) /\
    newest ∈ v /\ List.last v 0 < newest.
Proof.
  intros pe keep l x y newest Hs Hl. unfold clean_checkpoints. rewrite sort_sorted by done.
  exists (newest :: y :: l).
  assert (Hlast : List.last (y :: l ++ [newest]) x = newest) by (by rewrite app_comm_cons, last_last).
  assert (Hrl : removelast (y :: l ++ [newest]) = y :: l)
    by (by rewrite app_comm_cons, removelast_last).
  change (length (x :: y :: l ++ [newest])) with (S (length (y :: l ++ [newest]))).
  rewrite clean_loop_go by (simpl in *; lia). split_and!; [|set_solver|].
  - unfold swap_pop. rewrite Hlast, Hrl, clean_loop_stop; [done|].
    simpl in *. rewrite length_app in Hl. simpl in Hl. lia.
  - rewrite app_comm_cons in Hs. rewrite app_comm_cons in Hs.
    apply (sorted_lt_last _ _ Hs). apply elem_of_cons. right.
    change (newest :: y :: l) with ([newest] ++ y :: l).
    assert (Hne : (y :: l) <> []) by done.
    rewrite (last_removelast (y :: l) 0 Hne) at 1. rewrite app_assoc, last_last.
    rewrite (last_removelast (y :: l) 0 Hne) at 2. set_solver.
Qed.

(** (C38) With two surplus checkpoints or more, cleaning deletes the newest one, whatever the
    other ids are and how many are to be kept: the front of the sorted vector is removed by
    swapping it with the back. *)
Theorem clean_deletes_newest : forall (past_end : Z) (keep : nat) (l : list Z) (x y newest : Z),
  StronglySorted Z.lt (x :: y :: l ++ [newest]) -> (keep < length (y :: l ++ [newest]))%nat ->
  newest ∈ (clean_checkpoints past_end keep (x :: y :: l ++ [newest])).2.
Proof.
  intros pe keep l x y newest Hs Hl. unfold clean_checkpoints. rewrite sort_sorted by done.
  assert (Hlast : List.last (y :: l ++ [newest]) x = newest) by (by rewrite app_comm_cons, last_last).
  assert (Hrl : removelast (y :: l ++ [newest]) = y :: l)
    by (by rewrite app_comm_cons, removelast_last).
  change (length (x :: y :: l ++ [newest])) with (S (length (y :: l ++ [newest]))).
  rewrite clean_loop_go by (simpl in *; lia).
  unfold swap_pop at 1. rewrite Hlast, Hrl.
  destruct (length (y :: l ++ [newest])) as [|fuel] eqn:E; [done|].
  rewrite clean_loop_go; [apply clean_deleted_grows; set_solver|].
  simpl in *. rewrite length_app in E. simpl in E. lia.
Qed.

(** * The manager *)

Section Manager.
Context {UM : UserMachines}.
Context {PC : ProtoCodec MemberChangeMessage} {PS : ProtoCodec MasterState}.
Variable env : CheckpointEnv.

Lemma MakeCheckpoint_machines i m :
  let m' := (MakeCheckpoint env i m).1 in
  mgr_membership m' = mgr_membership m /\ mgr_master m' = mgr_master m /\ mgr_user m' = mgr_user m /\
  mgr_ids m' = mgr_ids m /\ mgr_latest m' = mgr_latest m /\ mgr_oldest m' = mgr_oldest m.
Proof.
  unfold MakeCheckpoint. repeat split_if; try done. destruct (make_loop _ _ _ _) as [ids []]; done.
Qed.

(** Dispatch: a value changes only the machine it names.  A value for a machine
    that is not registered fails and changes nothing; one for the membership machine
    leaves the master and the user's machines, one for the master machine the membership
    and the user's machines, any other the membership and the master; and the checkpoint
    ids the log is replayed from and cleaned to never change by an execution. *)
Theorem Execute_dispatch : forall (deref : Z -> Z) (now g i : Z) (v : PaxosValue) (ctx : Z) (m m' : manager) (r : bool),
  MachineManager_Execute env deref now g i v ctx m = (m', r) ->
  (machine_id v ∉ mgr_ids m -> m' = m /\ r = false) /\
  (machine_id v <> 1 -> mgr_membership m' = mgr_membership m) /\
  (machine_id v <> 2 -> mgr_master m' = mgr_master m) /\
  (machine_id v = 1 \/ machine_id v = 2 -> mgr_user m' = mgr_user m) /\
  mgr_latest m' = mgr_latest m /\ mgr_oldest m' = mgr_oldest m /\ mgr_ids m' = mgr_ids m.
Proof.
  intros deref now g i v ctx m m' r. unfold MachineManager_Execute.
  destruct (decide (machine_id v ∈ mgr_ids m)) as [Hin|Hin].
  2: { intros [= <- <-]. done. }
  destruct (machine_execute deref now g i v ctx m) as [m1 res] eqn:E.
  assert (H1 : (machine_id v <> 1 -> mgr_membership m1 = mgr_membership m) /\
    (machine_id v <> 2 -> mgr_master m1 = mgr_master m) /\
    (machine_id v = 1 \/ machine_id v = 2 -> mgr_user m1 = mgr_user m) /\
    mgr_latest m1 = mgr_latest m /\ mgr_oldest m1 = mgr_oldest m /\ mgr_ids m1 = mgr_ids m).
  { unfold machine_execute in E. destruct (Z.eqb_spec (machine_id v) 1);
      [|destruct (Z.eqb_spec (machine_id v) 2)].
    - destruct (MembershipMachine_Execute _ _ _). injection E as <- <-. simpl. naive_solver.
    - destruct (MasterMachine_Execute _ _ _ _ _). injection E as <- <-. simpl. naive_solver.
    - destruct (um_Execute _ _ _ _ _ _). injection E as <- <-. simpl. naive_solver. }
  destruct res; intros [= <- <-]; [|tauto].
  destruct (MakeCheckpoint_machines i m1) as (-> & -> & -> & -> & -> & ->). tauto.
Qed.

(** ** Making a checkpoint *)

Lemma make_loop_all i ids acc acc' :
  make_loop env i ids acc = (acc', true) -> acc' = list_to_set ids ∪ acc.
Proof.
  revert acc. induction ids as [|id ids IH]; simpl; intros acc.
  - intros [= <-]. set_solver.
  - destruct (make_one env i id); [|done]. intros H%IH. set_solver.
Qed.

Lemma MakeCheckpoint_started i m m' :
  MakeCheckpoint env i m = (m', true) -> mgr_ids m <> ∅ ->
  mgr_making m = false /\ m' = set_making true (mgr_ids m) m.
Proof.
  unfold MakeCheckpoint. destruct (mgr_making m); [done|]. destruct (mgr_io_loop m); [|done].
  simpl. split_if; [done|]. destruct (env_delete_temp env i); [|done]. simpl.
  destruct (make_loop env i (machine_ids m) ∅) as [ids ok] eqn:E. destruct ok; [|done].
  apply make_loop_all in E. intros [= <-] Hne.
  assert (Hids : ids = mgr_ids m).
  { rewrite E. unfold machine_ids. apply set_eq. intros x. rewrite elem_of_union, elem_of_list_to_set.
    rewrite merge_sort_Permutation, elem_of_elements. set_solver. }
  rewrite Hids. by rewrite decide_False.
Qed.

Lemma finish_one i id ids m :
  FinishMakeCheckpoint env id i true (set_making true ids m) =
    if decide (ids ∖ {[id]} = ∅) then
      let m := CleanCheckpoint env (UpdateCheckpoint env i (set_making true (ids ∖ {[id]}) m)).1 in
      set_making false (mgr_making_ids m) m
    else set_making true (ids ∖ {[id]}) m.
Proof. done. Qed.

(** While some machine has not finished, only the pending set changes. *)
Lemma finish_pending i order ids m :
  mgr_making m = false -> ids ∖ list_to_set order <> ∅ ->
  foldl (fun m id => FinishMakeCheckpoint env id i true m) (set_making true ids m) order
    = set_making true (ids ∖ list_to_set order) m.
Proof.
  revert ids. induction order as [|id order IH]; intros ids Hm Hne; simpl.
  - f_equal. set_solver.
  - rewrite finish_one.
    replace (ids ∖ ({[id]} ∪ list_to_set order)) with (ids ∖ {[id]} ∖ list_to_set order) by set_solver.
    rewrite decide_False by set_solver. apply IH; [done|set_solver].
Qed.

Lemma finish_abandoned i order m :
  mgr_making m = false -> foldl (fun m id => FinishMakeCheckpoint env id i true m) m order = m.
Proof.
  intros H. induction order as [|id order IH]; simpl; [done|].
  unfold FinishMakeCheckpoint at 2. by rewrite H.
Qed.

Lemma UpdateCheckpoint_making i b ids m :
  (UpdateCheckpoint env i (set_making b ids m)).1 = set_making b ids (UpdateCheckpoint env i m).1.
Proof. unfold UpdateCheckpoint. by split_if. Qed.

Lemma CleanCheckpoint_making b ids m :
  CleanCheckpoint env (set_making b ids m) = set_making b ids (CleanCheckpoint env m).
Proof.
  unfold CleanCheckpoint. simpl. destruct (mgr_locked m); [done|].
  by destruct (clean_checkpoints _ _) as [[]].
Qed.

Lemma CleanCheckpoint_latest m : mgr_latest (CleanCheckpoint env m) = mgr_latest m.
Proof.
  unfold CleanCheckpoint. destruct (mgr_locked m); [done|]. by destruct (clean_checkpoints _ _) as [[]].
Qed.

Lemma round_set m before id after :
  Permutation (before ++ id :: after) (machine_ids m) ->
  mgr_ids m <> ∅ /\ mgr_ids m ∖ list_to_set before = list_to_set (id :: after).
Proof.
  intros Hp.
  assert (Hset : mgr_ids m = list_to_set (before ++ id :: after)).
  { apply set_eq. intros x. rewrite elem_of_list_to_set, Hp. unfold machine_ids.
    by rewrite merge_sort_Permutation, elem_of_elements. }
  assert (Hnd : NoDup (before ++ id :: after)).
  { rewrite Hp. unfold machine_ids. rewrite merge_sort_Permutation. apply NoDup_elements. }
  split; [rewrite Hset, list_to_set_app_L; set_solver|].
  rewrite Hset, list_to_set_app_L. apply NoDup_app in Hnd as (_ & Hd & _).
  apply set_eq. intros x. specialize (Hd x). rewrite elem_of_difference, elem_of_union.
  rewrite !elem_of_list_to_set. tauto.
Qed.

(** (C30) A checkpoint round.  After [MakeCheckpoint] has started every registered
    machine, the machines finish in some order.  Until the last one the manager's
    checkpoint stays what it was.  When all have succeeded, whatever the order, the
    temporary directory is renamed, and then the new checkpoint is the latest and
    the surplus ones are cleaned.  When one fails, the checkpoint is
    abandoned, and the answers still to come change nothing. *)
Theorem checkpoint_round : forall (i id : Z) (m m1 : manager) (before after : list Z),
  MakeCheckpoint env i m = (m1, true) -> Permutation (before ++ id :: after) (machine_ids m) ->
  let finish := fun (r : bool) (m : manager) (id : Z) => FinishMakeCheckpoint env id i r m in
  let m2 := foldl (finish true) m1 before in
  (mgr_latest m2 = mgr_latest m /\ mgr_oldest m2 = mgr_oldest m /\ mgr_disk m2 = mgr_disk m /\
   mgr_making m2 = true /\ mgr_making_ids m2 = list_to_set (id :: after)) /\
   (let m3 := foldl (finish true) (finish false m2 id) after in
   mgr_latest m3 = mgr_latest m /\ mgr_oldest m3 = mgr_oldest m /\ mgr_disk m3 = mgr_disk m /\
   mgr_making m3 = false) /\
   (after = [] ->
   let m3 := finish true m2 id in
   let made := (UpdateCheckpoint env i m).1 in
   mgr_making m3 = false /\ mgr_latest m3 = (if env_rename env i then i else mgr_latest m) /\
   mgr_disk m3 = mgr_disk (CleanCheckpoint env made) /\
   mgr_oldest m3 = mgr_oldest (CleanCheckpoint env made)).
Proof.
  intros i id m m1 before after Hmk Hp finish m2. destruct (round_set _ _ _ _ Hp) as (Hne & Hrest).
  apply MakeCheckpoint_started in Hmk as [Hm ->]; [|done].
  assert (E2 : m2 = set_making true (list_to_set (id :: after)) m).
  { unfold m2, finish. rewrite finish_pending; [by rewrite Hrest|done|]. rewrite Hrest. set_solver. }
  rewrite E2. clearbody m2. split_and!; try done.
  - unfold finish at 2. unfold FinishMakeCheckpoint. cbn [mgr_making set_making negb].
    unfold finish. by rewrite finish_abandoned.
  - intros ->. unfold finish. rewrite finish_one, decide_True by set_solver.
    rewrite UpdateCheckpoint_making, CleanCheckpoint_making. simpl. rewrite CleanCheckpoint_latest.
    split_and!; try done. unfold UpdateCheckpoint. by split_if.
Qed.

(** [FinishMakeCheckpoint] does not compare the instance of an answer with the
    checkpoint being made: answers left over from an abandoned round for instance [i]
    complete the round for instance [j], and the unfinished files of [j] are installed
    as the checkpoint of [i]. *)
Theorem stale_answers_complete_round : forall (i j id : Z) (m m1 : manager) (before : list Z),
  MakeCheckpoint env j m = (m1, true) -> Permutation (before ++ [id]) (machine_ids m) ->
  env_rename env i = true ->
  let m2 := foldl (fun m id => FinishMakeCheckpoint env id i true m) m1 (before ++ [id]) in
  mgr_latest m2 = i /\ mgr_making m2 = false.
Proof.
  intros i j id m m1 before Hmk Hp Hr m2. destruct (round_set _ _ _ _ Hp) as (Hne & Hrest).
  apply MakeCheckpoint_started in Hmk as [Hm ->]; [|done].
  unfold m2. rewrite foldl_app, finish_pending; [|done|rewrite Hrest; set_solver].
  cbn [foldl]. rewrite finish_one, Hrest, decide_True by set_solver.
  rewrite UpdateCheckpoint_making, CleanCheckpoint_making. simpl. rewrite CleanCheckpoint_latest.
  unfold UpdateCheckpoint. by rewrite Hr.
Qed.

(** Making and installing checkpoints leaves the machines alone. *)
Lemma FinishMakeCheckpoint_machines id i r m :
  let m' := FinishMakeCheckpoint env id i r m in
  mgr_membership m' = mgr_membership m /\ mgr_master m' = mgr_master m /\
  mgr_user m' = mgr_user m /\ mgr_ids m' = mgr_ids m.
Proof.
  unfold FinishMakeCheckpoint. destruct (mgr_making m); [|done]. destruct r; [|done]. cbn [negb].
  case_decide; [|done]. unfold CleanCheckpoint, UpdateCheckpoint.
  destruct (env_rename env i); cbn [fst mgr_locked set_making];
    (destruct (mgr_locked m); [done|]); by destruct (clean_checkpoints _ _) as [[? ?] ?].
Qed.

End Manager.

(** The manager keeps what [Instance] relies on. *)
#[export] Instance manager_laws `{UM : UserMachines} {PC : ProtoCodec MemberChangeMessage}
  {PS : ProtoCodec MasterState} env deref :
  @MachineManagerLaws (manager_instance env deref).
Proof.
  split; [|intros id i r m; by destruct (FinishMakeCheckpoint_machines env id i r m)].
  intros now g i v ctx m H. cbn. unfold MachineManager_Execute.
  destruct (decide (machine_id v ∈ mgr_ids m)); [|done].
  destruct (machine_execute deref now g i v ctx m) as [m1 res] eqn:E.
  assert (E1 : mgr_membership m1 = mgr_membership m).
  { unfold machine_execute in E. rewrite (proj2 (Z.eqb_neq _ _)) in E by done.
    destruct (machine_id v =? 2).
    - destruct (MasterMachine_Execute _ _ _ _ _). by injection E as <- <-.
    - destruct (um_Execute _ _ _ _ _ _). by injection E as <- <-. }
  destruct res; [|done]. cbn. by destruct (MakeCheckpoint_machines env i m1) as (-> & _).
Qed.
