(* ===== verification/CheckpointModel.v ===== *)
(** Model of the transfer of a checkpoint to a node that is too far behind:
    [log/checkpoint_sender.cc], [log/checkpoint_receiver.cc] and
    [log/checkpoint_manager.cc].

    What the file systems of the two sides answer is in the records [SendEnv] and
    [RecvEnv].  [CheckReceive] waits while confirmations arrive in another
    thread; [se_acks] gives the ones that arrive until it returns, however it
    returns (it also goes on after a timeout), so its result is the flag they
    leave.  The temporary directory of the receiver is a map from machine and
    file name to content.  Sequence ids are counted without wrap-around: 2^31
    fragments of 64 KB do not occur. *)

From S2P Require Import Prelude Proto Storage NodeState System Simulation MachinesModel.

(** * The sender *)

Record SendEnv := mkSendEnv {
  se_path : Z -> string;                   (* directory of a machine's checkpoint *)
  se_exists : Z -> bool;
  se_listing : Z -> option (list string);  (* a machine's GetCheckpoint *)
  se_open : string -> option string;       (* content of a file that opens *)
  se_read_fail : string -> Z -> bool;      (* a read at an offset fails *)
  se_acks : Z -> list CheckpointMessage;   (* confirmations after a fragment *)
}.

Record Sender := mkSender {
  receiver_node_id : Z;
  snd_sequence_id : Z;
  ack_sequence_id : Z;
  flag_ : bool;
}.

Definition Sender_new : Sender := mkSender 0 0 0 true.

Definition OnComfirmReceive (msg : CheckpointMessage) (s : Sender) : Sender :=
  if (cm_node_id msg =? receiver_node_id s) && (cm_sequence_id msg =? ack_sequence_id s) then
    mkSender (receiver_node_id s) (snd_sequence_id s) (ack_sequence_id s + 1) (cm_flag msg)
  else s.

Definition CheckReceive (acks : list CheckpointMessage) (s : Sender) : Sender * bool :=
  let s := foldl (fun s m => OnComfirmReceive m s) s acks in (s, flag_ s).

Definition next_sequence (s : Sender) : Sender :=
  mkSender (receiver_node_id s) (snd_sequence_id s + 1) (ack_sequence_id s) (flag_ s).

Definition kBufferSize : nat := Z.to_nat 65535.

Section Sender.
Variable env : SendEnv.
Variable node_id : Z.                      (* config_->GetNodeId() *)

Definition BeginToSend (instance_id : Z) (s : Sender) : Sender * CheckpointMessage :=
  (next_sequence s,
   mkCheckpointMessage CHECKPOINT_BEGIN node_id instance_id (snd_sequence_id s) 0 "" 0 "" false).

Definition EndToSend (instance_id : Z) (s : Sender) : CheckpointMessage :=
  mkCheckpointMessage CHECKPOINT_END node_id instance_id (snd_sequence_id s) 0 "" 0 "" false.

(** The loop of [SendFile] over what is left of the file; [fuel] exceeds its length. *)
Fixpoint SendFile_loop (fuel : nat) (instance_id machine_id : Z) (fname file rest : string)
    (offset : Z) (s : Sender) : Sender * list CheckpointMessage * bool :=
  match fuel with
  | O => (s, [], true)
  | S fuel =>
      if se_read_fail env fname offset then (s, [], false)
      else
        let fragment := String.substring 0 kBufferSize rest in
        if decide (fragment = ""%string) then (s, [], true)
        else
          let offset := offset + Z.of_nat (String.length fragment) in
          let msg := mkCheckpointMessage CHECKPOINT_FILE node_id instance_id (snd_sequence_id s)
                       machine_id file offset fragment false in
          let '(s', res) := CheckReceive (se_acks env (snd_sequence_id s)) (next_sequence s) in
          if res then
            let '(s', msgs, res) :=
              SendFile_loop fuel instance_id machine_id fname file (str_from kBufferSize rest) offset s' in
            (s', msg :: msgs, res)
          else (s', [msg], false)
  end.

Definition SendFile (instance_id machine_id : Z) (dir file : string) (s : Sender)
  : Sender * list CheckpointMessage * bool :=
  let fname := dir +:+ file in
  match se_open env fname with
  | None => (s, [], false)
  | Some content =>
      SendFile_loop (S (String.length content)) instance_id machine_id fname file content 0 s
  end.

(** The loop over one machine's files; [break] ends it. *)
Fixpoint send_files (instance_id machine_id : Z) (dir : string) (files : list string) (s : Sender)
  : Sender * list CheckpointMessage * bool :=
  match files with
  | [] => (s, [], true)
  | file :: files =>
      let '(s, msgs, res) := SendFile instance_id machine_id dir file s in
      if res then
        let '(s, msgs', res) := send_files instance_id machine_id dir files s in
        (s, msgs ++ msgs', res)
      else (s, msgs, false)
  end.

(** The loop over the machines.  [GetCheckpoint] of the manager is asked for each; a
    failure of it returns, but a failure to send a file only ends the inner loop: [res]
    is overwritten by the next machine. *)
Section Machines.
Context {UM : UserMachines}.

Fixpoint SendCheckpointFiles_loop (instance_id : Z) (m : manager) (ids : list Z) (res : bool)
    (s : Sender) : Sender * list CheckpointMessage * bool :=
  match ids with
  | [] => (s, [], res)
  | id :: ids =>
      match GetCheckpoint instance_id id (se_path env id) (se_exists env id) (se_listing env id) m with
      | None => (s, [], false)
      | Some (dir, files) =>
          match dir, files with
          | None, _ | _, [] => SendCheckpointFiles_loop instance_id m ids true s
          | Some dir, _ =>
              let '(s, msgs, res) := send_files instance_id id (dir +:+ "/") files s in
              let '(s, msgs', res) := SendCheckpointFiles_loop instance_id m ids res s in
              (s, msgs ++ msgs', res)
          end
      end
  end.

Definition SendCheckpointFiles (instance_id : Z) (m : manager) (s : Sender) :=
  SendCheckpointFiles_loop instance_id m (machine_ids m) true s.

(** The third component is the messages sent to [receiver_node_id_]. *)
Definition SendCheckpoint (to : Z) (m : manager) (s : Sender)
  : manager * Sender * list CheckpointMessage * bool :=
  let s := mkSender to 0 0 true in
  match TryLockCheckpoint m with
  | (m, false) => (m, s, [], false)
  | (m, true) =>
      let instance_id := mgr_latest m in
      let '(s, begin_) := BeginToSend instance_id s in
      let '(s, msgs, res) := SendCheckpointFiles instance_id m s in
      let end_ := if res then [EndToSend instance_id s] else [] in
      (UnLockCheckpoint m, s, begin_ :: msgs ++ end_, res)
  end.

End Machines.
End Sender.

(** * The receiver *)

Record RecvEnv := mkRecvEnv {
  re_group : Z;
  re_node : Z;
  re_delete : CheckpointMessage -> bool;          (* DeleteTempCheckpoint *)
  re_dir : CheckpointMessage -> bool;             (* the directory exists after CreateDir *)
  re_append : CheckpointMessage -> option string; (* what a failing Append wrote *)
  re_rename : Z -> bool;                          (* UpdateCheckpoint *)
}.

Notation temp_files := (gmap (Z * string) string).

Record Receiver := mkReceiver {
  sender_node_id : Z;
  rcv_sequence_id : Z;
  dirs_ : gset Z;
  rcv_temp : temp_files;
}.

Definition append_file (k : Z * string) (data : string) (t : temp_files) : temp_files :=
  <[k := default ""%string (t !! k) +:+ data]> t.

Section Receiver.
Variable env : RecvEnv.

Definition Receiver_Reset (r : Receiver) : Receiver := mkReceiver 0 0 ∅ (rcv_temp r).

Definition ComfirmReceive (msg : CheckpointMessage) (res : bool) (r : Receiver)
  : Receiver * bool * list (Z * Content) :=
  let reply := mkCheckpointMessage CHECKPOINT_COMFIRM (re_node env) 0 (cm_sequence_id msg) 0 "" 0 "" res in
  let packets := [(cm_node_id msg, checkpoint_content (re_group env) reply)] in
  if negb res && (cm_node_id msg =? sender_node_id r) then (Receiver_Reset r, false, packets)
  else (r, true, packets).

Definition BeginToReceive (msg : CheckpointMessage) (r : Receiver)
  : Receiver * bool * list (Z * Content) :=
  let res := re_delete env msg in
  ComfirmReceive msg res
    (mkReceiver (cm_node_id msg) 0 ∅ (if res then ∅ else rcv_temp r)).

Definition ReceiveFiles (msg : CheckpointMessage) (r : Receiver) : Receiver * bool :=
  if negb (cm_node_id msg =? sender_node_id r) then (r, false)
  else if cm_sequence_id msg =? rcv_sequence_id r then (r, true)
  else if negb (cm_sequence_id msg =? rcv_sequence_id r + 1) then (r, false)
  else
    if negb (bool_decide (cm_machine_id msg ∈ dirs_ r)) && negb (re_dir env msg) then (r, false)
    else
      let dirs := {[cm_machine_id msg]} ∪ dirs_ r in
      let k := (cm_machine_id msg, cm_file msg) in
      match re_append env msg with
      | None =>
          (mkReceiver (sender_node_id r) (rcv_sequence_id r + 1) dirs
             (append_file k (cm_data msg) (rcv_temp r)), true)
      | Some written =>
          (mkReceiver (sender_node_id r) (rcv_sequence_id r) dirs
             (append_file k written (rcv_temp r)), false)
      end.

Definition ReceiveCheckpointFile (msg : CheckpointMessage) (r : Receiver)
  : Receiver * bool * list (Z * Content) :=
  let '(r, res) := ReceiveFiles msg r in ComfirmReceive msg res r.

(** [None]: the checkpoint was installed and the process exits. *)
Definition EndToReceive (msg : CheckpointMessage) (r : Receiver) : option bool :=
  if negb (cm_node_id msg =? sender_node_id r) then Some true
  else if negb (cm_sequence_id msg =? rcv_sequence_id r + 1) then Some false
  else if re_rename env (cm_instance_id msg) then None
  else Some false.

(** * The manager *)

Definition ReceiveCheckpoint (msg : CheckpointMessage) (c : Sender * Receiver)
  : option ((Sender * Receiver) * bool * list (Z * Content)) :=
  let '(s, r) := c in
  match cm_type msg with
  | CHECKPOINT_BEGIN => let '(r, b, ps) := BeginToReceive msg r in Some ((s, r), b, ps)
  | CHECKPOINT_FILE => let '(r, b, ps) := ReceiveCheckpointFile msg r in Some ((s, r), b, ps)
  | CHECKPOINT_END =>
      match EndToReceive msg r with None => None | Some b => Some ((s, r), b, []) end
  | CHECKPOINT_COMFIRM => Some ((OnComfirmReceive msg s, r), true, [])
  | CheckpointMessageType_unknown _ => Some ((s, r), true, [])
  end.

(** The manager behind the interface the learner uses. *)
Definition checkpoint_manager : CheckpointManager := {|
  ckpt := Sender * Receiver;
  ckpt_ReceiveCheckpoint := ReceiveCheckpoint;
|}.

(** It only ever sends messages of the transfer. *)
#[global] Instance checkpoint_manager_laws : @CheckpointManagerLaws checkpoint_manager.
Proof.
  intros m [s r] c' b ps. cbn. unfold ReceiveCheckpoint, BeginToReceive, ReceiveCheckpointFile, ComfirmReceive.
  intros E d p Hp. repeat case_match; simplify_eq; first [by apply elem_of_nil in Hp|by apply list_elem_of_singleton in Hp as [= -> ->]].
Qed.

End Receiver.
