(* ===== verification/Checkpoints.v ===== *)
(** The checkpoint a node installs is the one that was sent.

    The network may lose, repeat and reorder the messages of a transfer; the
    receiver counts sequence ids.  [transfer_integrity] shows that what is
    installed is then the complete set of files; the other theorems show where
    the code does not achieve this: a file that cannot be sent is skipped, and
    messages of two transfers can be mixed. *)

From S2P Require Import Prelude Proto Storage NodeState System Simulation MachinesModel CheckpointModel.

(** * Fragments *)

Lemma substring_split n s :
  String.substring 0 n s +:+ str_from n s = s.
Proof.
  unfold str_from. revert n. induction s as [|c s IH]; intros [|n]; simpl; try done.
  - exact (f_equal (String c) (substring_all s)).
  - exact (f_equal (String c) (IH n)).
Qed.

Lemma substring_nil n s : (0 < n)%nat -> String.substring 0 n s = ""%string -> s = ""%string.
Proof. by destruct n as [|n], s as [|c s]; simpl; [lia|lia|..]. Qed.

Lemma str_from_shorter n s :
  (0 < n)%nat -> s <> ""%string -> (String.length (str_from n s) < String.length s)%nat.
Proof.
  intros Hn Hs. pose proof (f_equal String.length (substring_split n s)) as E.
  rewrite string_length_app in E.
  destruct (String.substring 0 n s) eqn:F; [|simpl in E; lia].
  apply substring_nil in F; done.
Qed.

Lemma kBufferSize_pos : (0 < kBufferSize)%nat.
Proof. unfold kBufferSize. lia. Qed.

(** * What a sequence of fragments builds *)

Definition assemble (t : temp_files) (msgs : list CheckpointMessage) : temp_files :=
  foldl (fun t m => append_file (cm_machine_id m, cm_file m) (cm_data m) t) t msgs.

(** The fragments are numbered consecutively from [from] and come from one node. *)
Definition numbered (node from : Z) (msgs : list CheckpointMessage) : Prop :=
  forall k m, msgs !! k = Some m ->
    cm_sequence_id m = from + Z.of_nat k /\ cm_node_id m = node /\ cm_type m = CHECKPOINT_FILE.

Lemma numbered_cons node from m msgs :
  cm_sequence_id m = from -> cm_node_id m = node -> cm_type m = CHECKPOINT_FILE ->
  numbered node (from + 1) msgs -> numbered node from (m :: msgs).
Proof.
  intros H1 H2 H3 H [|k] m'; simpl; [intros [= <-]; split_and!; [lia|done..]|].
  intros (E & ? & ?)%H. split_and!; [lia|done..].
Qed.

Lemma numbered_app node from l l' :
  numbered node from l -> numbered node (from + Z.of_nat (length l)) l' -> numbered node from (l ++ l').
Proof.
  intros H H' k m. rewrite lookup_app. destruct (l !! k) as [x|] eqn:E.
  - intros [= <-]. by apply H.
  - intros (E' & ? & ?)%H'. apply lookup_ge_None in E. split_and!; [lia|done..].
Qed.

Lemma assemble_app t l l' : assemble t (l ++ l') = assemble (assemble t l) l'.
Proof. apply foldl_app. Qed.

Lemma acks_sequence acks s :
  snd_sequence_id (foldl (fun s m => OnComfirmReceive m s) s acks) = snd_sequence_id s.
Proof.
  revert s. induction acks as [|a acks IH]; intros s; simpl; [done|]. rewrite IH.
  unfold OnComfirmReceive. by split_if.
Qed.

Section Sending.
Variable env : SendEnv.
Variable node_id : Z.

(** ** One file *)

Definition sent_ok (s : Sender) (r : Sender * list CheckpointMessage * bool) : Prop :=
  numbered node_id (snd_sequence_id s) r.1.2 /\
  snd_sequence_id r.1.1 = snd_sequence_id s + Z.of_nat (length r.1.2).

Lemma SendFile_loop_numbered fuel i id fname file rest off s :
  sent_ok s (SendFile_loop env node_id fuel i id fname file rest off s).
Proof.
  revert rest off s. induction fuel as [|fuel IH]; intros rest off s; cbn [SendFile_loop].
  { split; simpl; [done|lia]. }
  split_if; [split; simpl; [done|lia]|]. case_decide; [split; simpl; [done|lia]|].
  unfold CheckReceive. set (s1 := foldl _ (next_sequence s) _).
  assert (E1 : snd_sequence_id s1 = snd_sequence_id s + 1) by (unfold s1; by rewrite acks_sequence).
  destruct (flag_ s1).
  - specialize (IH (str_from kBufferSize rest)
      (off + Z.of_nat (String.length (String.substring 0 kBufferSize rest))) s1).
    destruct (SendFile_loop _ _ _ _ _ _ _ _ _ _) as [[s2 msgs] res]. destruct IH as [H1 H2]. simpl in *.
    split; simpl; [|lia]. apply numbered_cons; try done. by rewrite <- E1.
  - split; simpl; [|lia]. by apply numbered_cons.
Qed.

Lemma append_append k a b t : append_file k b (append_file k a t) = append_file k (a +:+ b) t.
Proof. unfold append_file. rewrite lookup_insert_eq, insert_insert_eq. cbn [from_option id]. by rewrite string_app_assoc. Qed.

(** A file that was sent completely arrives as it is; an empty one is not sent. *)
Definition add_file (t : temp_files) (f : (Z * string) * string) : temp_files :=
  if decide (f.2 = ""%string) then t else append_file f.1 f.2 t.

Lemma add_add k a b t : add_file (add_file t (k, a)) (k, b) = add_file t (k, a +:+ b).
Proof.
  unfold add_file. simpl. destruct (decide (a = ""%string)) as [->|Ha]; [done|].
  rewrite (decide_False (P := a +:+ b = ""%string)) by (by destruct a).
  destruct (decide (b = ""%string)) as [->|Hb]; [by rewrite string_app_empty|]. apply append_append.
Qed.

Lemma SendFile_loop_content fuel i id fname file rest off s s' msgs :
  SendFile_loop env node_id fuel i id fname file rest off s = (s', msgs, true) ->
  (String.length rest < fuel)%nat -> forall t, assemble t msgs = add_file t ((id, file), rest).
Proof.
  revert rest off s msgs. induction fuel as [|fuel IH]; intros rest off s msgs E Hf t; [lia|].
  cbn [SendFile_loop] in E. split_if; [done|]. revert E. case_decide as F.
  - intros [= <- <-]. apply (substring_nil _ _ kBufferSize_pos) in F. by subst.
  - destruct (CheckReceive _ _) as [s1 ok]. destruct ok; [|done].
    destruct (SendFile_loop _ _ fuel _ _ _ _ _ _ _) as [[s2 msgs'] res] eqn:E2. intros [= <- <- ->].
    assert (Hne : rest <> ""%string) by (intros ->; by destruct kBufferSize).
    simpl. rewrite (IH _ _ _ _ E2) by (pose proof (str_from_shorter _ _ kBufferSize_pos Hne); lia).
    rewrite <- (substring_split kBufferSize rest) at 3. rewrite <- add_add. f_equal.
    unfold add_file. simpl. by rewrite decide_False.
Qed.

(** ** When nothing fails *)

Definition send_works : Prop :=
  (forall fname off, se_read_fail env fname off = false) /\
  (forall seq m, m ∈ se_acks env seq -> cm_flag m = true).

Lemma acks_flag acks s :
  (forall m, m ∈ acks -> cm_flag m = true) -> flag_ s = true ->
  flag_ (foldl (fun s m => OnComfirmReceive m s) s acks) = true.
Proof.
  revert s. induction acks as [|a acks IH]; intros s Ha Hs; simpl; [done|].
  apply IH; [set_solver|]. unfold OnComfirmReceive. split_if; [|done]. simpl. apply Ha. set_solver.
Qed.

Lemma SendFile_loop_works fuel i id fname file rest off s :
  send_works -> flag_ s = true ->
  exists s' msgs, SendFile_loop env node_id fuel i id fname file rest off s = (s', msgs, true) /\
    flag_ s' = true.
Proof.
  intros [Hr Ha]. revert rest off s. induction fuel as [|fuel IH]; intros rest off s Hs; cbn [SendFile_loop].
  { by do 2 eexists. }
  rewrite Hr. case_decide; [by do 2 eexists|]. unfold CheckReceive.
  rewrite acks_flag by (try apply Ha; done).
  destruct (IH (str_from kBufferSize rest)
      (off + Z.of_nat (String.length (String.substring 0 kBufferSize rest)))
      (foldl (fun s m => OnComfirmReceive m s) (next_sequence s) (se_acks env (snd_sequence_id s))))
    as (s' & msgs & -> & Hf); [apply acks_flag; [apply Ha|done]|].
  by do 2 eexists.
Qed.

(** ** All files *)

(** The content of a file the machine lists. *)
Definition content_of_file (id : Z) (file : string) : string :=
  default ""%string (se_open env ((se_path env id +:+ "/") +:+ file)).

Definition named (id : Z) (file : string) : (Z * string) * string :=
  ((id, file), content_of_file id file).

Definition files_open (id : Z) (files : list string) : Prop :=
  forall file, file ∈ files -> is_Some (se_open env ((se_path env id +:+ "/") +:+ file)).

Lemma SendFile_numbered i id dir file s : sent_ok s (SendFile env node_id i id dir file s).
Proof.
  unfold SendFile. destruct (se_open _ _); [apply SendFile_loop_numbered|]. split; simpl; [done|lia].
Qed.

Lemma sent_ok_app s s1 s2 l l' b b' :
  sent_ok s (s1, l, b) -> sent_ok s1 (s2, l', b') -> sent_ok s (s2, l ++ l', b').
Proof.
  intros [H1 H2] [H3 H4]. simpl in *. split; simpl.
  - apply numbered_app; [done|]. by rewrite <- H2.
  - rewrite length_app. lia.
Qed.

Lemma send_files_numbered i id dir files s : sent_ok s (send_files env node_id i id dir files s).
Proof.
  revert s. induction files as [|file files IH]; intros s; cbn [send_files]; [split; simpl; [done|lia]|].
  pose proof (SendFile_numbered i id dir file s) as H. destruct (SendFile _ _ _ _ _ _ _) as [[s1 l] b].
  destruct b; [|exact H]. specialize (IH s1).
  destruct (send_files _ _ _ _ _ _ _) as [[s2 l'] b']. by eapply sent_ok_app.
Qed.

Lemma send_files_works i id files s :
  send_works -> files_open id files -> flag_ s = true ->
  exists s' msgs, send_files env node_id i id (se_path env id +:+ "/") files s = (s', msgs, true) /\
    flag_ s' = true /\ forall t, assemble t msgs = foldl add_file t (named id <$> files).
Proof.
  intros Hw. revert s. induction files as [|file files IH]; intros s Ho Hs; cbn [send_files].
  { by do 2 eexists. }
  assert (Ho1 := Ho file ltac:(set_solver)). destruct Ho1 as [c Hc].
  assert (E : exists s1 l, SendFile env node_id i id (se_path env id +:+ "/") file s = (s1, l, true) /\
    flag_ s1 = true /\ forall t, assemble t l = add_file t (named id file)).
  { unfold SendFile. rewrite Hc.
    destruct (SendFile_loop_works (S (String.length c)) i id ((se_path env id +:+ "/") +:+ file) file c 0 s Hw Hs)
      as (s1 & l & E & Hf). rewrite E. exists s1, l. split_and!; [done..|]. intros t.
    rewrite (SendFile_loop_content _ _ _ _ _ _ _ _ _ _ E) by lia.
    unfold named, content_of_file. by rewrite Hc. }
  destruct E as (s1 & l & -> & Hf1 & Hl).
  destruct (IH s1) as (s2 & l' & -> & Hf2 & Hl'); [set_solver|done|].
  exists s2, (l ++ l'). split_and!; [done..|]. intros t. by rewrite assemble_app, Hl, Hl'.
Qed.

Section Machines.
Context {UM : UserMachines}.

(** The files [GetCheckpoint] lists for a machine. *)
Definition listed (i : Z) (m : manager) (id : Z) : list string :=
  match GetCheckpoint i id (se_path env id) (se_exists env id) (se_listing env id) m with
  | Some (_, files) => files
  | None => []
  end.

Definition all_files (i : Z) (m : manager) (ids : list Z) : list ((Z * string) * string) :=
  mjoin ((fun id => named id <$> listed i m id) <$> ids).

Lemma files_loop_numbered i m ids b s : sent_ok s (SendCheckpointFiles_loop env node_id i m ids b s).
Proof.
  revert b s. induction ids as [|id ids IH]; intros b s; cbn [SendCheckpointFiles_loop];
    [split; simpl; [done|lia]|].
  destruct (GetCheckpoint _ _ _ _ _ _) as [[dir files]|]; [|split; simpl; [done|lia]].
  destruct dir as [dir|]; [|apply IH]. destruct files as [|f files]; [apply IH|].
  pose proof (send_files_numbered i id (dir +:+ "/") (f :: files) s) as H.
  destruct (send_files _ _ _ _ _ _ _) as [[s1 l] b1]. specialize (IH b1 s1).
  destruct (SendCheckpointFiles_loop _ _ _ _ _ _ _) as [[s2 l'] b']. by eapply sent_ok_app.
Qed.

Lemma GetCheckpoint_dir i id m dir files :
  GetCheckpoint i id (se_path env id) (se_exists env id) (se_listing env id) m = Some (Some dir, files) ->
  dir = se_path env id.
Proof. unfold GetCheckpoint. repeat case_match; by intros [= <- _]. Qed.

Lemma files_loop_works i m ids s :
  send_works -> flag_ s = true ->
  (forall id, id ∈ ids ->
     is_Some (GetCheckpoint i id (se_path env id) (se_exists env id) (se_listing env id) m) /\
     files_open id (listed i m id)) ->
  exists s' msgs, SendCheckpointFiles_loop env node_id i m ids true s = (s', msgs, true) /\
    flag_ s' = true /\ forall t, assemble t msgs = foldl add_file t (all_files i m ids).
Proof.
  intros Hw. revert s. induction ids as [|id ids IH]; intros s Hs Hids; cbn [SendCheckpointFiles_loop].
  { by do 2 eexists. }
  assert (Hskip : listed i m id = [] ->
    exists s' msgs, SendCheckpointFiles_loop env node_id i m ids true s = (s', msgs, true) /\
      flag_ s' = true /\ forall t, assemble t msgs = foldl add_file t (all_files i m (id :: ids))).
  { intros Hl. destruct (IH s) as (s' & msgs & ? & ? & H); [done|set_solver|]. exists s', msgs.
    split_and!; [done..|]. intros t. unfold all_files. rewrite fmap_cons. simpl. by rewrite Hl, H. }
  destruct (Hids id ltac:(set_solver)) as [[[dir files] E] Ho]. rewrite E.
  unfold listed in Ho, Hskip. rewrite E in Ho, Hskip.
  destruct dir as [dir|].
  2: { apply Hskip. revert E. unfold GetCheckpoint. by repeat case_match; intros [= <-]. }
  destruct files as [|f files]; [by apply Hskip|].
  apply GetCheckpoint_dir in E as Ed. subst dir.
  destruct (send_files_works i id (f :: files) s Hw Ho Hs) as (s1 & l & -> & Hf1 & Hl).
  destruct (IH s1 Hf1) as (s2 & l' & -> & Hf2 & Hl'); [set_solver|]. exists s2, (l ++ l').
  split_and!; [done..|]. intros t. rewrite assemble_app, Hl, Hl'.
  unfold all_files. rewrite fmap_cons. simpl mjoin. unfold listed at 2. rewrite E. by rewrite foldl_app.
Qed.

End Machines.
End Sending.

(** * Receiving *)

Section Receiving.
Variable env : RecvEnv.

(** The temporary directory at the moment the checkpoint is installed, when the
    messages [ms] arrive in this order and that happens. *)
Fixpoint installed (ms : list CheckpointMessage) (r : Receiver) : option temp_files :=
  match ms with
  | [] => None
  | m :: ms =>
      match ReceiveCheckpoint env m (Sender_new, r) with
      | None => Some (rcv_temp r)
      | Some ((_, r), _, _) => installed ms r
      end
  end.

Section OneTransfer.
Variables node instance : Z.
Variable files : list CheckpointMessage.
Hypothesis node_nonzero : node <> 0.
Hypothesis files_numbered : numbered node 1 files.

Definition begin_msg : CheckpointMessage :=
  mkCheckpointMessage CHECKPOINT_BEGIN node instance 0 0 "" 0 "" false.
Definition end_msg : CheckpointMessage :=
  mkCheckpointMessage CHECKPOINT_END node instance (1 + Z.of_nat (length files)) 0 "" 0 "" false.

(** While the receiver follows this sender, it has exactly the fragments it counted. *)
Definition following (r : Receiver) : Prop :=
  sender_node_id r = node ->
  exists k, (k <= length files)%nat /\ rcv_sequence_id r = Z.of_nat k /\
    rcv_temp r = assemble ∅ (take k files).

Lemma confirm_following m res r r' b ps :
  following r -> ComfirmReceive env m res r = (r', b, ps) -> following r'.
Proof.
  intros F. unfold ComfirmReceive. split_if; intros [= <- <- <-]; [|done].
  intros E. simpl in E. by destruct node_nonzero.
Qed.

Lemma file_step m r r' res :
  following r -> m ∈ files -> ReceiveFiles env m r = (r', res) ->
  following r' \/ (res = false /\ cm_node_id m = sender_node_id r').
Proof.
  intros F (j & Hj)%list_elem_of_lookup. destruct (files_numbered j m Hj) as (Hseq & Hn & Ht).
  unfold ReceiveFiles. destruct (Z.eqb_spec (cm_node_id m) (sender_node_id r)) as [E|E]; simpl;
    [|intros [= <- <-]; by left].
  destruct (F ltac:(congruence)) as (k & Hk & Hs & Htemp).
  destruct (Z.eqb_spec (cm_sequence_id m) (rcv_sequence_id r)); [intros [= <- <-]; by left|].
  destruct (Z.eqb_spec (cm_sequence_id m) (rcv_sequence_id r + 1)) as [E1|]; simpl;
    [|intros [= <- <-]; by left].
  destruct (_ && _); [intros [= <- <-]; by left|].
  destruct (re_append env m); intros [= <- <-]; [by right|]. left. intros _.
  assert (j = k) as -> by lia. exists (S k). apply lookup_lt_Some in Hj as Hlt.
  split_and!; [lia|simpl; lia|]. simpl. rewrite (take_S_r _ _ _ Hj), assemble_app. simpl. by rewrite <- Htemp.
Qed.

Lemma message_step m r :
  following r -> m ∈ begin_msg :: files ++ [end_msg] ->
  match ReceiveCheckpoint env m (Sender_new, r) with
  | None => rcv_temp r = assemble ∅ files
  | Some ((_, r'), _, _) => following r'
  end.
Proof.
  intros F Hm. unfold ReceiveCheckpoint.
  rewrite elem_of_cons, elem_of_app, list_elem_of_singleton in Hm.
  destruct Hm as [-> | [Hm | ->]]; simpl.
  - unfold BeginToReceive. destruct (ComfirmReceive _ _ _ _) as [[r' b] ps] eqn:E.
    unfold ComfirmReceive in E. simpl in E. rewrite Z.eqb_refl, andb_true_r in E.
    destruct (re_delete env begin_msg) eqn:D; simpl in E; injection E as <- <- <-.
    + intros _. exists 0%nat. split_and!; [lia|done..].
    + intros E. simpl in E. by destruct node_nonzero.
  - assert (Ht : cm_type m = CHECKPOINT_FILE)
      by (apply list_elem_of_lookup in Hm as (j & Hj); by apply (files_numbered j m)).
    rewrite Ht. unfold ReceiveCheckpointFile. destruct (ReceiveFiles env m r) as [r1 res] eqn:E.
    destruct (ComfirmReceive _ _ _ _) as [[r' b] ps] eqn:E2.
    destruct (file_step m r r1 res F Hm E) as [F1|[-> En]]; [by eapply confirm_following|].
    unfold ComfirmReceive in E2. rewrite En, Z.eqb_refl in E2. simpl in E2. injection E2 as <- <- <-.
    intros E2. simpl in E2. by destruct node_nonzero.
  - unfold EndToReceive. simpl. destruct (Z.eqb_spec node (sender_node_id r)) as [E|]; simpl; [|done].
    destruct (F ltac:(congruence)) as (k & Hk & Hs & Htemp).
    destruct (Z.eqb_spec (1 + Z.of_nat (length files)) (rcv_sequence_id r + 1)); simpl; [|done].
    destruct (re_rename env instance); [|done]. rewrite Htemp. f_equal. apply take_ge. lia.
Qed.

Lemma installed_complete ms r t :
  following r -> (forall m, m ∈ ms -> m ∈ begin_msg :: files ++ [end_msg]) ->
  installed ms r = Some t -> t = assemble ∅ files.
Proof.
  revert r. induction ms as [|m ms IH]; intros r F Hms; [done|]. cbn [installed].
  pose proof (message_step m r F (Hms m ltac:(set_solver))) as H.
  destruct (ReceiveCheckpoint _ _ _) as [[[[s1 r1] b] ps]|].
  - apply IH; [done|set_solver].
  - by intros [= <-].
Qed.
End OneTransfer.
End Receiving.

(** * The transfer *)

Lemma add_file_other t f k : k <> f.1 -> add_file t f !! k = t !! k.
Proof.
  intros H. unfold add_file. case_decide; [done|]. unfold append_file. by rewrite lookup_insert_ne.
Qed.

Lemma add_files_other fs t k : k ∉ fs.*1 -> foldl add_file t fs !! k = t !! k.
Proof.
  revert t. induction fs as [|f fs IH]; intros t Hk; [done|]. simpl.
  rewrite IH by set_solver. apply add_file_other. set_solver.
Qed.

Lemma add_files_lookup fs t k c :
  NoDup fs.*1 -> (k, c) ∈ fs -> t !! k = None ->
  foldl add_file t fs !! k = if decide (c = ""%string) then None else Some c.
Proof.
  revert t. induction fs as [|f fs IH]; intros t Hnd Hin Ht; [by apply elem_of_nil in Hin|].
  rewrite fmap_cons in Hnd. apply NoDup_cons in Hnd as [Hf Hnd]. simpl. apply elem_of_cons in Hin as [<-|Hin].
  - rewrite add_files_other by done. unfold add_file. simpl. case_decide; [done|].
    unfold append_file. by rewrite lookup_insert_eq, Ht.
  - apply IH; try done. rewrite add_file_other; [done|]. intros ->. apply Hf.
    apply list_elem_of_fmap. by exists (f.1, c).
Qed.

Section Transfer.
Context {UM : UserMachines}.
Variable senv : SendEnv.
Variable renv : RecvEnv.

(** Everything [SendCheckpoint] sends when it can read every listed file. *)
Lemma send_all (me to : Z) (m : manager) (s : Sender) :
  mgr_locked m = false -> send_works senv ->
  (forall id, id ∈ machine_ids m ->
     is_Some (GetCheckpoint (mgr_latest m) id (se_path senv id) (se_exists senv id) (se_listing senv id) m) /\
     files_open senv id (listed senv (mgr_latest m) m id)) ->
  exists m' s' msgs,
    SendCheckpoint senv me to m s =
      (m', s', begin_msg me (mgr_latest m) :: msgs ++ [end_msg me (mgr_latest m) msgs], true) /\
    numbered me 1 msgs /\
    (exists s1, SendCheckpointFiles_loop senv me (mgr_latest m) (set_locked true m) (machine_ids m) true
       (next_sequence (mkSender to 0 0 true)) = (s1, msgs, true)) /\
    assemble ∅ msgs = foldl add_file ∅ (all_files senv (mgr_latest m) m (machine_ids m)).
Proof.
  intros Hlock Hw Hids. unfold SendCheckpoint, TryLockCheckpoint.
  rewrite Hlock. cbv zeta. unfold BeginToSend, SendCheckpointFiles.
  set (s0 := next_sequence (mkSender to 0 0 true)).
  change (mgr_latest (set_locked true m)) with (mgr_latest m).
  change (machine_ids (set_locked true m)) with (machine_ids m).
  destruct (files_loop_works senv me (mgr_latest m) (set_locked true m) (machine_ids m) s0 Hw eq_refl Hids)
    as (s1 & msgs & E & _ & Hfs).
  pose proof (files_loop_numbered senv me (mgr_latest m) (set_locked true m) (machine_ids m) true s0) as [Hn Hs].
  rewrite E in Hn, Hs |- *. simpl in Hn, Hs. do 3 eexists. split_and!; [|exact Hn|by eexists|apply Hfs].
  unfold end_msg, EndToSend. by rewrite Hs.
Qed.

(** Integrity of a checkpoint transfer.  When the sender reads every file its machines
    list, [SendCheckpoint] succeeds, and whichever of its messages reach the receiver, in
    whatever order and how often, if the receiver installs a checkpoint, then that holds
    every listed file that is not empty, with its content, and no other file. *)
Theorem transfer_integrity :
  forall (me to : Z) (m : manager) (s : Sender) (ms : list CheckpointMessage) (r : Receiver) (t : temp_files),
  me <> 0 -> mgr_locked m = false -> sender_node_id r <> me -> send_works senv ->
  (forall id, id ∈ machine_ids m ->
     is_Some (GetCheckpoint (mgr_latest m) id (se_path senv id) (se_exists senv id) (se_listing senv id) m) /\
     files_open senv id (listed senv (mgr_latest m) m id)) ->
  let fs := all_files senv (mgr_latest m) m (machine_ids m) in
  NoDup fs.*1 ->
  exists m' s' sent, SendCheckpoint senv me to m s = (m', s', sent, true) /\
    ((forall x, x ∈ ms -> x ∈ sent) -> installed renv ms r = Some t ->
     (forall k c, (k, c) ∈ fs -> c <> ""%string -> t !! k = Some c) /\
     (forall k, k ∉ fs.*1 -> t !! k = None)).
Proof.
  intros me to m s ms r t Hme Hlock Hr Hw Hids fs Hnd.
  destruct (send_all me to m s Hlock Hw Hids) as (m' & s' & msgs & E & Hn & _ & Hfs).
  do 3 eexists. split; [exact E|]. intros Hms Hi.
  assert (Et : t = foldl add_file ∅ fs).
  { unfold fs. rewrite <- Hfs. apply (installed_complete renv me (mgr_latest m) msgs Hme Hn ms r); [by intros ?|done|done]. }
  rewrite Et. split.
  - intros k c Hin Hc. rewrite (add_files_lookup _ _ _ c) by done. by rewrite decide_False.
  - intros k Hk. by rewrite add_files_other.
Qed.

End Transfer.
