(* ===== verification/NetworkModel.v ===== *)
(** Model of [network/network.cc]: the map of connections and the framing of
    messages over a byte stream.

    The sockets and buffers are voyager's; here the effects on them are values
    ([NetEffect]) and the readable bytes of a buffer a string.  A message on
    the wire is its length, header included, and its serialization. *)

From S2P Require Import Prelude Proto Storage NodeState.

(** * Connections *)

(** [NSend]: bytes written to the connection of a node; [NConnect]: a new client that
    writes the bytes when it is connected. *)
Inductive NetEffect :=
| NSend (node_id : Z) (s : string)
| NConnect (member : MemberMessage) (s : string).

(** [connection_map_] is a map that tells whether the client of a node has a
    connection yet. *)

Definition SendMessageInLoop (member : MemberMessage) (s : string) (m : gmap Z bool)
  : gmap Z bool * list NetEffect :=
  ((if decide (is_Some (m !! mb_id member)) then m else <[mb_id member := false]> m),
   [NConnect member s]).

(** What is done for one node; [member] is its address, when it is known. *)
Definition send_to (node_id : Z) (member : option MemberMessage) (s : string) (m : gmap Z bool)
  : gmap Z bool * list NetEffect :=
  match m !! node_id with
  | Some true => (m, [NSend node_id s])
  | Some false => (m, [])
  | None => match member with Some mb => SendMessageInLoop mb s m | None => (m, []) end
  end.

(** Without a [Cluster] the address comes from the membership. *)
Definition Network_SendMessage (node_id : Z) (members : gmap Z MemberMessage)
    (cluster : option (list (Z * Member))) (s : string) (m : gmap Z bool) : gmap Z bool * list NetEffect :=
  let member :=
    match cluster with
    | Some l =>
        v ← list_to_map (M := gmap Z Member) l !! node_id;
        Some (mkMemberMessage (m_id v) (m_host v) (m_port v) "")
    | None => members !! node_id
    end in
  send_to node_id member s m.

Fixpoint broadcast_loop (my : Z) (l : list (Z * MemberMessage)) (s : string) (m : gmap Z bool)
  : gmap Z bool * list NetEffect :=
  match l with
  | [] => (m, [])
  | (id, mb) :: l =>
      if negb (id =? my) then
        let '(m, e) := send_to id (Some mb) s m in
        let '(m, es) := broadcast_loop my l s m in (m, e ++ es)
      else broadcast_loop my l s m
  end.

Definition Network_Broadcast (my : Z) (members : gmap Z MemberMessage) (s : string) (m : gmap Z bool) :=
  broadcast_loop my (map_to_list members) s m.

(** The callbacks of a client. *)
Definition on_connected (node_id : Z) (m : gmap Z bool) : gmap Z bool := alter (fun _ => true) node_id m.
Definition on_closed (node_id : Z) (m : gmap Z bool) : gmap Z bool := delete node_id m.

(** The network of a node: [nw_server] is the address its server listens on. *)
Record Network := mkNetwork {
  nw_my : Member;
  nw_thread_size : nat;
  nw_connections : gmap Z bool;
  nw_server : option (string * Z);
}.

Definition Network_new (my : Member) (thread_size : nat) : Network := mkNetwork my thread_size ∅ None.

Definition StartServer (n : Network) : Network :=
  mkNetwork (nw_my n) (nw_thread_size n) (nw_connections n) (Some (m_host (nw_my n), m_port (nw_my n))).

(** * Framing *)

Section Framing.
Context {FC : FixedCoding} {PC : ProtoCodec Content}.

(** Whether protobuf's [AppendToString] succeeds (it does not beyond 2 GB), and what its
    [ParseFromArray] answers when it is given a negative size. *)
Variable append_ok : Content -> bool.
Variable parse_negative : Z -> string -> bool * Content.

Definition net_header : nat := 4.

(** The string and the result, which the callers ignore; they send the empty string then. *)
Definition SerializeToString (content : Content) : string * bool :=
  let data := SerializeAsString content in
  let s := EncodeFixed32 (wrap32 (4 + Z.of_nat (String.length data))) in
  if append_ok content then (s +:+ data, true) else (""%string, false).

(** The conversion of an unsigned number to [int]. *)
Definition to_int32 (z : Z) : Z := if z <? 2 ^ 31 then z else z - 2 ^ 32.

(** The tail of a buffer after [Retrieve(n)]. *)
Definition retrieve (n : nat) (buf : string) : string :=
  String.substring n (String.length buf - n) buf.

(** The loop of [OnMessage].  The results are the contents handed to [cb_], the bytes left
    and whether the connection was shut down. *)
Fixpoint OnMessage_loop (fuel : nat) (buf : string) : list Content * string * bool :=
  match fuel with
  | O => ([], buf, false)
  | S fuel =>
      if (net_header <=? String.length buf)%nat then
        let size := DecodeFixed32 buf in
        if size <=? Z.of_nat (String.length buf) then
          let '(res, content) :=
            let n := to_int32 (wrap32 (size - 4)) in
            if n <? 0 then parse_negative n buf
            else ParseFromString (String.substring net_header (Z.to_nat n) buf) in
          if res then
            let '(cs, rest, down) := OnMessage_loop fuel (retrieve (Z.to_nat size) buf) in
            (content :: cs, rest, down)
          else ([], buf, true)
        else ([], buf, false)
      else ([], buf, false)
  end.

(** Each frame takes at least four bytes. *)
Definition OnMessage (buf : string) : list Content * string * bool :=
  OnMessage_loop (S (String.length buf)) buf.

(** The bytes arrive in pieces. *)
Fixpoint receive (chunks : list string) (buf : string) : list Content * string * bool :=
  match chunks with
  | [] => ([], buf, false)
  | c :: chunks =>
      match OnMessage (buf +:+ c) with
      | (cs, rest, true) => (cs, rest, true)
      | (cs, rest, false) =>
          let '(cs', rest, down) := receive chunks rest in (cs ++ cs', rest, down)
      end
  end.

Definition join (l : list string) : string := foldr (fun a b => a +:+ b) ""%string l.

(** What is on the wire for a content, and contents that are there. *)
Definition frame (c : Content) : string := (SerializeToString c).1.
Definition small (c : Content) : Prop :=
  append_ok c = true /\ Z.of_nat (String.length (SerializeAsString c)) < 2 ^ 31.

Context {FCL : FixedCodingLaws} {PCL : ProtoCodecLaws Content}.

Lemma frame_small c :
  small c -> frame c = EncodeFixed32 (4 + Z.of_nat (String.length (SerializeAsString c))) +:+ SerializeAsString c.
Proof.
  intros [Ho Hs]. unfold frame, SerializeToString. rewrite Ho. unfold wrap32. by rewrite Z.mod_small by lia.
Qed.

Lemma frame_length c :
  small c -> String.length (frame c) = (4 + String.length (SerializeAsString c))%nat.
Proof. intros Hs. rewrite frame_small by done. by rewrite string_length_app, encode32_length. Qed.

Lemma app_prefix_eq a b c d :
  a +:+ b = c +:+ d -> (String.length a <= String.length c)%nat -> exists e, c = a +:+ e /\ b = e +:+ d.
Proof.
  revert c. induction a as [|x a IH]; intros c E Hl; [by exists c|].
  destruct c as [|y c]; [simpl in Hl; lia|]. injection E as -> E.
  destruct (IH c E) as (e & -> & ->); [simpl in Hl; lia|]. by exists e.
Qed.

Lemma retrieve_app a b : retrieve (String.length a) (a +:+ b) = b.
Proof.
  unfold retrieve. rewrite string_length_app.
  replace (String.length a + String.length b - String.length a)%nat with (String.length b) by lia.
  induction a as [|x a IH]; [apply substring_all|exact IH].
Qed.

Lemma substring_mid a b c : String.substring (String.length a) (String.length b) (a +:+ (b +:+ c)) = b.
Proof.
  induction a as [|x a IH]; [|exact IH]. induction b as [|x b IH]; [by destruct c|].
  exact (f_equal (String x) IH).
Qed.

(** Reading a buffer that starts with a whole frame. *)
Lemma OnMessage_frame fuel c rest :
  small c ->
  OnMessage_loop (S fuel) (frame c +:+ rest) =
    let '(cs, r, d) := OnMessage_loop fuel rest in (c :: cs, r, d).
Proof.
  intros Hs. cbn [OnMessage_loop]. set (len := String.length (SerializeAsString c)).
  assert (Hl : Z.of_nat len < 2 ^ 31) by apply Hs.
  assert (Hd : DecodeFixed32 (frame c +:+ rest) = 4 + Z.of_nat len).
  { rewrite frame_small, string_app_assoc by done. apply decode_encode32. unfold in_u32. fold len. lia. }
  assert (Hn : to_int32 (wrap32 (4 + Z.of_nat len - 4)) = Z.of_nat len).
  { unfold to_int32, wrap32. rewrite Z.mod_small, (proj2 (Z.ltb_lt _ _)) by lia. lia. }
  rewrite Hd, Hn, string_length_app, frame_length by done. unfold net_header. fold len.
  rewrite (proj2 (Nat.leb_le _ _)), (proj2 (Z.leb_le _ _)), (proj2 (Z.ltb_ge _ _)) by lia.
  replace (Z.to_nat (4 + Z.of_nat len)) with (String.length (frame c)) by (rewrite frame_length by done; lia).
  rewrite retrieve_app, Nat2Z.id. replace (String.substring 4 len _) with (SerializeAsString c).
  - by rewrite parse_serialize.
  - symmetry. rewrite frame_small, string_app_assoc by done.
    rewrite <- (encode32_length (4 + Z.of_nat (String.length (SerializeAsString c)))) at 1. apply substring_mid.
Qed.

(** A buffer that holds less than a frame is left. *)
Lemma OnMessage_partial fuel c buf rem :
  small c -> buf +:+ rem = frame c -> rem <> ""%string ->
  OnMessage_loop fuel buf = ([], buf, false).
Proof.
  intros Hs E Hr. destruct fuel as [|fuel]; [done|]. cbn [OnMessage_loop]. unfold net_header.
  destruct (Nat.leb_spec 4 (String.length buf)) as [H4|]; [|done].
  assert (Hl : (String.length buf < 4 + String.length (SerializeAsString c))%nat).
  { rewrite <- frame_length, <- E, string_length_app by done. destruct rem; simpl; [done|lia]. }
  assert (Hd : DecodeFixed32 buf = 4 + Z.of_nat (String.length (SerializeAsString c))).
  { rewrite frame_small in E by done. symmetry in E. apply app_prefix_eq in E as (e & -> & _).
    - apply decode_encode32. destruct Hs. unfold in_u32. lia.
    - by rewrite encode32_length. }
  rewrite Hd. by rewrite (proj2 (Z.leb_gt _ _)) by lia.
Qed.

Definition frames (cs : list Content) : string := join (frame <$> cs).

Lemma frames_ok cs : frames cs = frames (filter (fun c => append_ok c = true) cs).
Proof.
  unfold frames. induction cs as [|c cs IH]; [done|]. rewrite filter_cons, fmap_cons. simpl.
  rewrite IH. case_decide as Ho; [done|]. apply not_true_is_false in Ho.
  unfold frame, SerializeToString. by rewrite Ho.
Qed.

Lemma OnMessage_prefix fuel cs buf rem :
  Forall small cs -> buf +:+ rem = frames cs -> (String.length buf < fuel)%nat ->
  exists done rest left, OnMessage_loop fuel buf = (done, rest, false) /\ cs = done ++ left /\
    rest +:+ rem = frames left /\ (rem = ""%string -> left = []).
Proof.
  intros Hs. revert fuel buf. induction Hs as [|c cs Hc Hcs IH]; intros fuel buf E Hf.
  - destruct buf; [|done]. destruct fuel; [simpl in Hf; lia|]. by exists [], ""%string, [].
  - unfold frames in E. rewrite fmap_cons in E. simpl in E. fold (frames cs) in E.
    destruct (Nat.le_gt_cases (String.length (frame c)) (String.length buf)) as [Hl|Hl].
    + symmetry in E. apply app_prefix_eq in E as (e & -> & E); [|done].
      rewrite frame_length in Hl by done. rewrite string_length_app, frame_length in Hf by done.
      destruct fuel as [|fuel]; [lia|]. rewrite OnMessage_frame by done.
      destruct (IH fuel e (eq_sym E) ltac:(lia)) as (d & rest & left & -> & -> & E' & Hn).
      by exists (c :: d), rest, left.
    + apply app_prefix_eq in E as (e & E & E2); [|lia].
      assert (He : e <> ""%string).
      { intros ->. rewrite E, string_app_empty in Hl. lia. }
      rewrite (OnMessage_partial fuel c buf e) by done.
      exists [], buf, (c :: cs). split_and!; try done.
      * unfold frames. rewrite fmap_cons. simpl. rewrite E2, <- string_app_assoc, <- E. done.
      * intros ->. destruct e; done.
Qed.

Lemma receive_prefix chunks cs buf :
  Forall small cs -> buf +:+ join chunks = frames cs -> (chunks = [] -> cs = []) ->
  receive chunks buf = (cs, ""%string, false).
Proof.
  revert cs buf. induction chunks as [|k chunks IH]; intros cs buf Hs E Hn; cbn [receive].
  - rewrite (Hn eq_refl) in *. simpl in E. rewrite string_app_empty in E. by subst.
  - simpl in E. rewrite <- string_app_assoc in E.
    destruct (OnMessage_prefix (S (String.length (buf +:+ k))) cs _ _ Hs E ltac:(lia))
      as (d & rest & left & Hr & -> & E' & Hl).
    unfold OnMessage. rewrite Hr. rewrite (IH left rest); [done|by apply Forall_app in Hs as []|done|].
    intros ->. by apply Hl.
Qed.

(** (C35) Messages survive the stream.  Contents framed by [SerializeToString] and sent one
    after the other, cut into arbitrary pieces by the network, are handed to the
    node in order, each once, and nothing is left in the buffer; one that protobuf cannot
    serialize is left out and does not disturb the others. *)
Theorem frames_roundtrip : forall (cs : list Content) (chunks : list string),
  (forall c, c ∈ cs -> append_ok c = true -> Z.of_nat (String.length (SerializeAsString c)) < 2 ^ 31) ->
  chunks <> [] -> join chunks = frames cs ->
  receive chunks "" = (filter (fun c => append_ok c = true) cs, ""%string, false).
Proof.
  intros cs chunks Hs Hc E. rewrite frames_ok in E. apply receive_prefix; [|done|done].
  apply Forall_forall. intros c [Ho Hin]%list_elem_of_filter. split; [done|by apply Hs].
Qed.

End Framing.

(** * Who a broadcast reaches *)

Definition effect_node (e : NetEffect) : Z :=
  match e with NSend id _ => id | NConnect mb _ => mb_id mb end.

Lemma send_to_other id mb s (m m' : gmap Z bool) es k :
  mb_id mb = id -> k <> id -> send_to id (Some mb) s m = (m', es) -> m' !! k = m !! k.
Proof.
  intros <- Hk. unfold send_to, SendMessageInLoop. repeat case_match; intros [= <- <-]; try done.
  by rewrite lookup_insert_ne.
Qed.

Lemma filter_ext_in {A} (P Q : A -> Prop) `{!forall x, Decision (P x), !forall x, Decision (Q x)} (l : list A) :
  (forall x, x ∈ l -> P x <-> Q x) -> filter P l = filter Q l.
Proof.
  induction l as [|x l IH]; intros Hl; [done|]. assert (Hx := Hl x ltac:(set_solver)).
  destruct (decide (P x)).
  - rewrite !filter_cons_True by tauto. f_equal. apply IH. set_solver.
  - rewrite !filter_cons_False by tauto. apply IH. set_solver.
Qed.

Lemma broadcast_nodes my l s (m : gmap Z bool) :
  Forall (fun x => mb_id x.2 = x.1) l -> NoDup l.*1 ->
  effect_node <$> (broadcast_loop my l s m).2 =
    filter (fun id => id <> my /\ m !! id <> Some false) l.*1.
Proof.
  revert m. induction l as [|[id mb] l IH]; intros m Hl Hn; [done|].
  rewrite fmap_cons in *. apply Forall_cons in Hl as [Hid Hl]. apply NoDup_cons in Hn as [Hni Hn].
  simpl in *. cbn [broadcast_loop]. destruct (Z.eqb_spec id my) as [->|Hne]; simpl.
  - rewrite filter_cons_False by tauto. by apply IH.
  - destruct (send_to id (Some mb) s m) as [m1 e] eqn:E.
    specialize (IH m1 Hl Hn). destruct (broadcast_loop my l s m1) as [m2 es]. simpl in *.
    rewrite fmap_app, IH.
    assert (Hrest : filter (fun k => k <> my /\ m1 !! k <> Some false) l.*1
                  = filter (fun k => k <> my /\ m !! k <> Some false) l.*1).
    { apply filter_ext_in. intros k Hk.
      rewrite (send_to_other id mb s m m1 e k Hid) by (try done; by intros ->). done. }
    rewrite Hrest. unfold send_to, SendMessageInLoop in E.
    destruct (m !! id) as [[]|] eqn:Em; injection E as <- <-.
    + rewrite filter_cons_True by (by rewrite Em). done.
    + rewrite filter_cons_False by (rewrite Em; tauto). done.
    + rewrite filter_cons_True by (by rewrite Em). simpl. by rewrite Hid.
Qed.

(** A broadcast goes once to every other member, except those whose connection is
    still being made, and never to the node itself. *)
Theorem broadcast_reaches : forall (my : Z) (members : gmap Z MemberMessage) (s : string) (m : gmap Z bool),
  (forall id mb, members !! id = Some mb -> mb_id mb = id) ->
  let reached := effect_node <$> (Network_Broadcast my members s m).2 in
  NoDup reached /\
  forall id, id ∈ reached <-> is_Some (members !! id) /\ id <> my /\ m !! id <> Some false.
Proof.
  intros my members s m Hm reached. unfold reached, Network_Broadcast.
  rewrite broadcast_nodes.
  - split; [apply NoDup_filter, NoDup_fst_map_to_list|]. intros id. rewrite list_elem_of_filter.
    rewrite list_elem_of_fmap. split.
    + intros (? & [k mb] & -> & Hin). apply elem_of_map_to_list in Hin. simpl in *.
      split; [by eexists|done].
    + intros ([mb Hin] & ?). split; [done|]. exists (id, mb). split; [done|]. by apply elem_of_map_to_list.
  - apply Forall_forall. intros [k mb] Hin. apply elem_of_map_to_list in Hin. by apply Hm.
  - apply NoDup_fst_map_to_list.
Qed.
