(* ===== verification/Loops.v ===== *)
(** The run loop with its timers: [util/runloop.cc] over [util/timerlist.cc].

    [Runtime.RunLoop] is the queue of a loop as other threads see it.  Here is one iteration
    of [Loop] as its own thread runs it: how long it waits, which timers and functions it
    runs, and that it comes to an end.  A function or timer callback acts on a world [W] and on
    its own loop, of which it may use every operation. *)

From S2P Require Import Prelude TimerList.
From Stdlib Require Import Sorted.

Section Loops.
Context {AL : Allocator} {W F : Type}.

Record LoopState := mkLoopState {
  lp_exit : bool;
  lp_funcs : list F;
  lp_timers : TimerList F;
}.

Definition Loop_new (now : Z) : LoopState := mkLoopState false [] (TimerList_new now).

Definition set_funcs (fs : list F) (l : LoopState) : LoopState := mkLoopState (lp_exit l) fs (lp_timers l).
Definition set_timers (tl : TimerList F) (l : LoopState) : LoopState := mkLoopState (lp_exit l) (lp_funcs l) tl.

Definition Loop_Exit (l : LoopState) : LoopState := mkLoopState true (lp_funcs l) (lp_timers l).
Definition Loop_Queue (f : F) (l : LoopState) : LoopState := set_funcs (lp_funcs l ++ [f]) l.

Definition Loop_RunAt (value : Z) (f : F) (l : LoopState) : LoopState * TimerId :=
  let '(tl, id) := RunAt value f (lp_timers l) in (set_timers tl l, id).
Definition Loop_RunAfter (now delay : Z) (f : F) (l : LoopState) : LoopState * TimerId :=
  let '(tl, id) := RunAfter now delay f (lp_timers l) in (set_timers tl l, id).
Definition Loop_RunEvery (now interval : Z) (f : F) (l : LoopState) : LoopState * TimerId :=
  let '(tl, id) := RunEvery now interval f (lp_timers l) in (set_timers tl l, id).
Definition Loop_Remove (id : TimerId) (l : LoopState) : LoopState := set_timers (Remove id (lp_timers l)) l.

(** The argument of [cond_.wait_for], if the loop waits: [std::chrono::milliseconds] counts in
    a signed type of 64 bits. *)
Definition milliseconds (timeout : Z) : Z := if timeout <? 2 ^ 63 then timeout else timeout - 2 ^ 64.

Definition Loop_wait (now : Z) (l : LoopState) : option Z :=
  match lp_funcs l with
  | [] => Some (milliseconds (TimeoutMs now (lp_timers l)))
  | _ => None
  end.

Variable call : F -> W * LoopState -> W * LoopState.

Definition loop_timers (s : W * LoopState) : TimerList F := lp_timers s.2.
Definition with_timers (tl : TimerList F) (s : W * LoopState) : W * LoopState := (s.1, set_timers tl s.2).

Definition RunTimerProcs (fuel : nat) (now : Z) (s : W * LoopState) : W * LoopState :=
  timer_loop loop_timers with_timers call fuel now (with_timers (adjust_clock now (loop_timers s)) s).

(** The body of the loop after the wait; [now] is the clock when the timers are run. *)
Definition Loop_iteration (fuel : nat) (now : Z) (s : W * LoopState) : W * LoopState :=
  let funcs := lp_funcs s.2 in
  let s := RunTimerProcs fuel now (s.1, set_funcs [] s.2) in
  foldl (fun s f => call f s) s funcs.

(** [Loop] for a sequence of clock readings: [exit_] is cleared, then read before each
    iteration. *)
Fixpoint Loop_while (fuel : nat) (clock : list Z) (s : W * LoopState) : W * LoopState :=
  match clock with
  | [] => s
  | now :: clock => if lp_exit s.2 then s else Loop_while fuel clock (Loop_iteration fuel now s)
  end.

Definition Loop (fuel : nat) (clock : list Z) (s : W * LoopState) : W * LoopState :=
  Loop_while fuel clock (s.1, mkLoopState false (lp_funcs s.2) (lp_timers s.2)).

(** * How long a loop waits *)

(** A loop with nothing queued waits until the earliest deadline, if that is less than 2^63
    milliseconds away; but with no timer at all it does not wait: the largest unsigned
    number becomes -1, so an idle loop goes round without pause. *)
Lemma Loop_wait_spec now l :
  lp_funcs l = [] -> 0 <= now < 2 ^ 63 -> last_time_out (lp_timers l) <= now ->
  (forall it rest, timers (lp_timers l) = it :: rest -> now <= it.1 < 2 ^ 63 -> Loop_wait now l = Some (it.1 - now)) /\
  (timers (lp_timers l) = [] -> Loop_wait now l = Some (-1)).
Proof.
  intros Hf Hn Hl. unfold Loop_wait, TimeoutMs. rewrite Hf. split.
  - intros it rest -> Hit. rewrite (proj2 (Z.ltb_ge _ _)) by done. unfold milliseconds, sub64, wrap64.
    destruct (Z.leb_spec it.1 now); [f_equal; simpl; lia|].
    rewrite Z.mod_small by lia. by rewrite (proj2 (Z.ltb_lt _ _)) by lia.
  - by intros ->.
Qed.

(** * An iteration ends *)

Definition due (now : Z) (tl : TimerList F) : nat := length (filter (fun it : TimerId => it.1 <= now) (timers tl)).

(** Consistent timers, whose periods do not overflow the clock. *)
Record loop_ok (now : Z) (l : LoopState) : Prop := {
  lk_timers : timers_ok (lp_timers l);
  lk_interval : forall p t, timer_heap (lp_timers l) !! p = Some t -> 0 <= ms_interval t /\ now + ms_interval t < 2 ^ 64;
}.

(** A function that keeps the loop in order and adds no timer that is due at once. *)
Definition behaved (now : Z) (f : F) : Prop :=
  forall s, loop_ok now s.2 -> loop_ok now (call f s).2 /\ (due now (lp_timers (call f s).2) <= due now (lp_timers s.2))%nat.

Lemma filter_insert_later now t l :
  now < t.1 -> filter (fun it : TimerId => it.1 <= now) (tid_insert t l) = filter (fun it : TimerId => it.1 <= now) l.
Proof.
  intros Ht. induction l as [|u l IH]; simpl; [by rewrite filter_cons_False by lia|].
  destruct (tid_ltb t u); [by rewrite (filter_cons_False _ t) by lia|].
  destruct (tid_ltb u t); [|done]. by rewrite !filter_cons, IH.
Qed.

Lemma filter_erase t l (P : TimerId -> Prop) `{!forall x, Decision (P x)} :
  (length (filter P (tid_erase t l)) <= length (filter P l))%nat.
Proof.
  induction l as [|u l IH]; simpl; [lia|]. case_decide; rewrite !filter_cons; repeat case_decide; simpl; lia.
Qed.

Lemma adjust_intervals now (tl : TimerList F) p t :
  timer_heap (adjust_clock now tl) !! p = Some t -> exists t', timer_heap tl !! p = Some t' /\ ms_interval t = ms_interval t'.
Proof.
  unfold adjust_clock. destruct (timers tl) as [|it l]; [by exists t|].
  destruct (now <? last_time_out tl); cbn [timer_heap]; [|by exists t].
  generalize (it :: l). intros l'. unfold shift_heap. revert t. induction l' as [|u l' IH]; intros t; [by exists t|].
  cbn [foldr].
  rewrite lookup_alter_Some. intros [(_ & x & Hx & ->)|[_ Hx]]; destruct (IH _ Hx) as (t' & ? & ?); by exists t'.
Qed.

Section Ends.
Context {ALL : AllocatorLaws}.

Lemma insert_later_ok now v i f l :
  loop_ok now l -> now < v -> 0 <= i -> now + i < 2 ^ 64 ->
  loop_ok now (set_timers (insert_timer v i f (lp_timers l)).1 l) /\
  due now (insert_timer v i f (lp_timers l)).1 = due now (lp_timers l).
Proof.
  intros [H1 H2] Hv Hi Ho. split; [constructor|].
  - by apply insert_timer_ok.
  - intros p t. cbn. rewrite lookup_insert. case_decide; [by intros [= <-]|apply H2].
  - unfold due. cbn [insert_timer fst timers]. by rewrite filter_insert_later.
Qed.

(** A timer armed for later, or removed, and a function queued are what a well-behaved
    function may ask of its loop. *)
Lemma RunAfter_later now delay f l :
  loop_ok now l -> 0 <= now -> 0 < delay -> now + delay < 2 ^ 64 ->
  loop_ok now (Loop_RunAfter now delay f l).1 /\ due now (lp_timers (Loop_RunAfter now delay f l).1) = due now (lp_timers l).
Proof.
  intros H Hn Hd Ho. unfold Loop_RunAfter, RunAfter, add64, wrap64. rewrite Z.mod_small by lia.
  pose proof (insert_later_ok now (now + delay) 0 f l H ltac:(lia) ltac:(lia) ltac:(lia)) as [A B].
  destruct (insert_timer _ _ _ _). done.
Qed.

Lemma RunEvery_later now interval f l :
  loop_ok now l -> 0 <= now -> 0 < interval -> now + interval < 2 ^ 64 ->
  loop_ok now (Loop_RunEvery now interval f l).1 /\ due now (lp_timers (Loop_RunEvery now interval f l).1) = due now (lp_timers l).
Proof.
  intros H Hn Hd Ho. unfold Loop_RunEvery, RunEvery, add64, wrap64. rewrite Z.mod_small by lia.
  pose proof (insert_later_ok now (now + interval) interval f l H ltac:(lia) ltac:(lia) ltac:(lia)) as [A B].
  destruct (insert_timer _ _ _ _). done.
Qed.

Lemma Remove_later now id l :
  loop_ok now l -> loop_ok now (Loop_Remove id l) /\ (due now (lp_timers (Loop_Remove id l)) <= due now (lp_timers l))%nat.
Proof.
  intros [H1 H2]. split; [constructor|].
  - by apply Remove_ok.
  - intros p t. cbn. unfold Remove. case_decide; [|apply H2]. destruct (_ !! id.2); [|apply H2]. cbn.
    rewrite lookup_delete. case_decide; [done|apply H2].
  - unfold Loop_Remove, due. cbn. unfold Remove. case_decide; [|done]. destruct (_ !! id.2); [|done]. cbn. apply filter_erase.
Qed.

(** The timer that fires is due no longer. *)
Lemma pop_due now l f tl :
  0 <= now -> loop_ok now l -> pop_expired now (lp_timers l) = Some (f, tl) ->
  loop_ok now (set_timers tl l) /\ S (due now tl) = due now (lp_timers l).
Proof.
  intros Hn [H1 H2] E. pose proof (pop_expired_ok _ _ _ _ H1 E) as H3.
  revert E. unfold pop_expired, due. destruct (timers (lp_timers l)) as [|it rest]; [done|].
  destruct (Z.leb_spec it.1 now) as [Hd|]; [|done]. rewrite filter_cons_True by done.
  destruct (timer_heap (lp_timers l) !! it.2) as [t|] eqn:Et; [|done]. pose proof (H2 _ _ Et) as [Hi Ho].
  destruct (Z.ltb_spec 0 (ms_interval t)) as [Hp|Hp]; intros [= <- <-]; (split; [constructor; [done|]|]); cbn.
  - intros p u. rewrite lookup_insert. case_decide; [by intros [= <-]|apply H2].
  - rewrite filter_insert_later; [done|]. cbn. unfold add64, wrap64. rewrite Z.mod_small by lia. lia.
  - intros p u. rewrite lookup_delete. case_decide; [done|apply H2].
  - done.
Qed.

Lemma no_due now l : loop_ok now l -> due now (lp_timers l) = 0%nat -> pop_expired now (lp_timers l) = None.
Proof.
  intros _. unfold due, pop_expired. destruct (timers (lp_timers l)) as [|it rest]; [done|].
  rewrite filter_cons. destruct (Z.leb_spec it.1 now); [|done]. by rewrite decide_True.
Qed.

Lemma timer_loop_ends now s n fuel :
  0 <= now -> (forall f, behaved now f) -> loop_ok now s.2 ->
  (due now (loop_timers s) <= n)%nat -> (n <= fuel)%nat ->
  let s' := timer_loop loop_timers with_timers call n now s in
  timer_loop loop_timers with_timers call fuel now s = s' /\ loop_ok now s'.2 /\ due now (loop_timers s') = 0%nat.
Proof.
  intros Hn Hb. revert s fuel. induction n as [|n IH]; intros s fuel Hok Hd Hf.
  - assert (E : due now (loop_timers s) = 0%nat) by lia. pose proof (no_due now s.2 Hok E) as Hp.
    change (pop_expired now (loop_timers s) = None) in Hp. destruct fuel; simpl; [done|]. by rewrite Hp.
  - destruct fuel as [|fuel]; [lia|]. simpl.
    destruct (pop_expired now (loop_timers s)) as [[f tl]|] eqn:E.
    + destruct (pop_due now s.2 f tl Hn Hok E) as [H1 H2].
      destruct (Hb f (with_timers tl s) H1) as [H3 H4]. unfold loop_timers in Hd. cbn in H4.
      apply IH; [done| |lia]. unfold loop_timers. lia.
    + split; [done|]. split; [done|]. unfold loop_timers, due. clear -E Hok. unfold pop_expired, loop_timers in E.
      destruct (timers (lp_timers s.2)) as [|it rest] eqn:El; [done|].
      pose proof (tl_sorted _ (lk_timers _ _ Hok)) as Hs. rewrite El in Hs. inversion Hs as [|? ? _ Hall]; subst.
      assert (Hit : now < it.1).
      { destruct (Z.leb_spec it.1 now); [|done].
        destruct (timer_heap (lp_timers s.2) !! it.2) as [t|] eqn:Et; [by destruct (0 <? ms_interval t)|].
        destruct it as [v q]. destruct (proj1 (tl_set _ (lk_timers _ _ Hok) v q)) as (t & Ht & _);
          [rewrite El; by left|]. simpl in Et. congruence. }
      rewrite filter_cons_False by lia. apply length_zero_iff_nil, elem_of_nil_inv.
      intros x (Hx & Hin)%list_elem_of_filter. rewrite Forall_forall in Hall. apply Hall in Hin. unfold tid_lt in Hin. lia.
Qed.

Lemma funcs_ok now fs s :
  (forall f, behaved now f) -> loop_ok now s.2 ->
  let s' := foldl (fun s f => call f s) s fs in
  loop_ok now s'.2 /\ (due now (loop_timers s') <= due now (loop_timers s))%nat.
Proof.
  intros Hb. revert s. induction fs as [|f fs IH]; intros s Hok; [done|]. simpl.
  destruct (Hb f s Hok) as [H1 H2]. destruct (IH (call f s) H1) as [H3 H4]. split; [done|]. unfold loop_timers in *. lia.
Qed.

(** (C37) An iteration of a run loop comes to an end and leaves nothing undone: when the functions
    and callbacks of the loop arm timers for later than now only, [RunTimerProcs] runs at most
    as many callbacks as timers are due (more fuel changes nothing), although callbacks
    arm and remove timers while it runs; then each function queued before the iteration is
    run once, in order; and at the end the timers are consistent and none of them is due. *)
Theorem Loop_iteration_ends : forall (now : Z) (s : W * LoopState) (fuel : nat),
  0 <= now -> (forall f, behaved now f) -> loop_ok now s.2 ->
  let n := due now (adjust_clock now (loop_timers s)) in
  (n <= fuel)%nat ->
  let s' := Loop_iteration n now s in
  Loop_iteration fuel now s = s' /\
  s' = foldl (fun s f => call f s) (RunTimerProcs n now (s.1, set_funcs [] s.2)) (lp_funcs s.2) /\
  loop_ok now s'.2 /\ forall p t, timer_heap (lp_timers s'.2) !! p = Some t -> now < ms_value t.
Proof.
  intros now s fuel Hn Hb [H1 H2] n Hf s'.
  set (s0 := with_timers (adjust_clock now (loop_timers s)) (s.1, set_funcs [] s.2)).
  assert (Hok : loop_ok now s0.2).
  { constructor; [by apply adjust_clock_ok|]. intros p t Ht.
    apply adjust_intervals in Ht as (t' & Ht' & ->). by eapply H2. }
  destruct (timer_loop_ends now s0 n fuel Hn Hb Hok ltac:(done) Hf) as (E1 & O1 & D1).
  destruct (timer_loop_ends now s0 n n Hn Hb Hok ltac:(done) ltac:(done)) as (_ & O2 & D2).
  destruct (funcs_ok now (lp_funcs s.2) _ Hb O2) as [O3 D3].
  split_and!; [unfold s', Loop_iteration, RunTimerProcs; fold s0; f_equal; exact E1|done|exact O3|].
  intros p t Ht. change (timer_heap (lp_timers s'.2) !! p = Some t) in Ht.
  assert (Hin : (ms_value t, p) ∈ timers (lp_timers s'.2)) by (apply (tl_set _ (lk_timers _ _ O3)); by exists t).
  assert (D4 : due now (lp_timers s'.2) = 0%nat) by (rewrite D2 in D3; apply Nat.le_0_r; exact D3).
  destruct (Z.lt_ge_cases now (ms_value t)) as [|Hle]; [done|]. exfalso. unfold due in D4.
  apply length_zero_iff_nil in D4. 
  assert (Hx : (ms_value t, p) ∈ filter (fun it : TimerId => it.1 <= now) (timers (lp_timers s'.2)))
    by by apply list_elem_of_filter.
  rewrite D4 in Hx. by apply elem_of_nil in Hx.
Qed.

End Ends.

End Loops.
