(* ===== verification/Runtime.v ===== *)
(** Model of what runs a node: [util/runloop.cc], the loops of
    [paxos/threadpool.cc] and [NodeImpl::StartWorking] of [paxos/node_impl.cc].

    A run loop is shared between its own thread and the threads that queue
    functions into it.  Its steps are atomic at the mutex: a thread queues a
    function, the loop swaps the queue out and runs the timers, or it runs the
    next function it has swapped out.  [W] is the world the functions act on;
    the history fields record what was queued and what was run. *)

From S2P Require Import Prelude.

(** * The run loop *)

Section RunLoop.
Context {W F : Type}.
(** Running a function or the due timers may queue functions into the same loop. *)
Variable call : F -> W -> W * list F.
Variable RunTimerProcs : W -> W * list F.

Record RunLoop := mkRunLoop {
  funcs_ : list F;                   (* guarded by mutex_ *)
  swapped : list F;                  (* the local vector of Loop *)
  world_ : W;
  queued : list F;                   (* everything that was queued *)
  ran : list F;                      (* everything that was run *)
}.

Definition QueueInLoop (f : F) (l : RunLoop) : RunLoop :=
  mkRunLoop (funcs_ l ++ [f]) (swapped l) (world_ l) (queued l ++ [f]) (ran l).

(** From another thread [RunInLoop] queues; in the loop's own thread it calls. *)
Definition RunInLoop (in_my_loop : bool) (f : F) (l : RunLoop) : RunLoop :=
  if in_my_loop then
    let '(w, fs) := call f (world_ l) in
    mkRunLoop (funcs_ l ++ fs) (swapped l) w (queued l ++ fs) (ran l)
  else QueueInLoop f l.

(** The next thing the loop's thread does. *)
Definition Loop_step (l : RunLoop) : RunLoop :=
  match swapped l with
  | f :: fs =>
      let '(w, qs) := call f (world_ l) in
      mkRunLoop (funcs_ l ++ qs) fs w (queued l ++ qs) (ran l ++ [f])
  | [] =>
      let '(w, qs) := RunTimerProcs (world_ l) in
      mkRunLoop qs (funcs_ l) w (queued l ++ qs) (ran l)
  end.

Inductive LoopAct := AQueue (f : F) | ALoop.

Definition loop_act (a : LoopAct) (l : RunLoop) : RunLoop :=
  match a with AQueue f => QueueInLoop f l | ALoop => Loop_step l end.

Definition loop_run (acts : list LoopAct) (l : RunLoop) : RunLoop :=
  foldl (fun l a => loop_act a l) l acts.

Definition loop_steps (acts : list LoopAct) : nat :=
  length (List.filter (fun a => match a with ALoop => true | _ => false end) acts).

Definition pending (l : RunLoop) : list F := swapped l ++ funcs_ l.

(** Everything queued was run or is pending, in order. *)
Definition loop_inv (l : RunLoop) : Prop := queued l = ran l ++ pending l.

Lemma act_inv a l : loop_inv l -> loop_inv (loop_act a l).
Proof.
  unfold loop_inv, pending. intros H. destruct a as [f|]; simpl.
  - by rewrite H, <- !app_assoc.
  - unfold Loop_step. destruct (swapped l) as [|f fs] eqn:E.
    + destruct (RunTimerProcs _) as [w qs]. simpl. rewrite H, ?E. by rewrite <- !app_assoc.
    + destruct (call f _) as [w qs]. simpl. rewrite H, ?E. by rewrite <- !app_assoc.
Qed.

Lemma run_inv_loop acts l : loop_inv l -> loop_inv (loop_run acts l).
Proof. revert l. induction acts as [|a acts IH]; intros l H; [done|]. by apply IH, act_inv. Qed.

Lemma act_ran a l : ran l `prefix_of` ran (loop_act a l).
Proof.
  destruct a as [f|]; simpl; [done|]. unfold Loop_step. destruct (swapped l).
  - by destruct (RunTimerProcs _).
  - destruct (call _ _). by eexists.
Qed.

Lemma run_ran acts l : ran l `prefix_of` ran (loop_run acts l).
Proof.
  revert l. induction acts as [|a acts IH]; intros l; [done|]. etrans; [apply act_ran|apply IH].
Qed.

(** The loop's steps needed until the first [k] pending functions have run. *)
Definition cost (k : nat) (l : RunLoop) : nat := if (k <=? length (swapped l))%nat then k else S k.

(** One step runs the first pending function, or brings the queue to the loop. *)
Lemma act_pending a l x p rest :
  pending l = (x :: p) ++ rest ->
  exists d p' rest', x :: p = d ++ p' /\ pending (loop_act a l) = p' ++ rest' /\
    ran (loop_act a l) = ran l ++ d /\
    (cost (length p') (loop_act a l) + match a with ALoop => 1 | AQueue _ => 0 end
       <= cost (length (x :: p)) l)%nat.
Proof.
  unfold pending, cost. intros E. destruct a as [f|]; simpl.
  - exists [], (x :: p), (rest ++ [f]). rewrite app_nil_r. split_and!; [done| |done|simpl; lia].
    by rewrite app_assoc, E, <- app_assoc.
  - unfold Loop_step. destruct (swapped l) as [|g fs] eqn:Es.
    + destruct (RunTimerProcs _) as [w qs]. simpl in *. exists [], (x :: p), (rest ++ qs).
      rewrite app_nil_r. split_and!; [done|by rewrite E; simpl; rewrite app_assoc|done|].
      rewrite E. simpl. rewrite length_app. rewrite (proj2 (Nat.leb_le (length p) _)) by lia. lia.
    + destruct (call g _) as [w qs]. simpl in *. injection E as -> E. exists [x], p, (rest ++ qs). simpl.
      split_and!; [done|by rewrite app_assoc, E, <- app_assoc|done|].
      destruct (Nat.leb_spec (length p) (length fs)); lia.
Qed.

Lemma run_pending acts l p rest :
  pending l = p ++ rest -> (cost (length p) l <= loop_steps acts)%nat ->
  ran l ++ p `prefix_of` ran (loop_run acts l).
Proof.
  revert l p rest. induction acts as [|a acts IH]; intros l p rest E Hc;
    (destruct p as [|x p]; [rewrite app_nil_r; apply run_ran|]).
  - unfold cost, loop_steps in Hc. destruct (length (x :: p) <=? _)%nat; simpl in Hc; lia.
  - destruct (act_pending a l x p rest E) as (d & p' & rest' & Ep & E' & Hr & Hc').
    rewrite Ep, app_assoc, <- Hr. apply (IH (loop_act a l) p' rest' E').
    assert (Hn : loop_steps (a :: acts)
      = (loop_steps acts + match a with ALoop => 1 | AQueue _ => 0 end)%nat)
      by (unfold loop_steps; destruct a; simpl; lia). lia.
Qed.

(** The run loop serves its queue: in any interleaving of the loop with threads that
    queue functions, what was queued is what was run followed by what is pending, so
    every function runs at most once and in the order of queueing; and what is pending
    now has run after as many steps of the loop as there are pending functions, plus
    one, whatever is queued meanwhile. *)
Theorem RunLoop_serves : forall (acts : list LoopAct) (l : RunLoop),
  loop_inv l ->
  loop_inv (loop_run acts l) /\
  ((S (length (pending l)) <= loop_steps acts)%nat ->
   ran l ++ pending l `prefix_of` ran (loop_run acts l)).
Proof.
  intros acts l H. split; [by apply run_inv_loop|]. intros Hs.
  apply (run_pending acts l (pending l) []); [by rewrite app_nil_r|].
  unfold cost. destruct (_ <=? _)%nat; lia.
Qed.

End RunLoop.

(** * Threads *)

(** [ThreadPool::GetNextIOLoop] and the others: the index of the loop returned and the new
    [next].  [n] is the number of loops; an index out of range is undefined behaviour. *)
Definition GetNextLoop (n next : nat) : nat * nat :=
  let next := if (next =? n)%nat then 0%nat else next in (next, S next).

(** Its result for the master loops, of which there may be none. *)
Definition GetNextMasterLoop (n next : nat) : option nat * nat :=
  if (n =? 0)%nat then (None, next) else let '(i, next) := GetNextLoop n next in (Some i, next).

(** The loops handed to [k] groups in a row. *)
Fixpoint assign_loops (n next k : nat) : list nat :=
  match k with
  | O => []
  | S k => let '(i, next) := GetNextLoop n next in i :: assign_loops n next k
  end.

(** The sizes [StartWorking] computes from the options, for [groups] groups. *)
Definition io_threads (size groups : nat) : nat :=
  if (size =? 0)%nat then ((groups + 1) / 2)%nat
  else if (groups <? size)%nat then groups else size.

(** Callback, learn and clean threads. *)
Definition other_threads (size groups : nat) : nat :=
  if (size =? 0)%nat then 1%nat else if (groups <? size)%nat then groups else size.

Definition master_threads (size groups : nat) : nat := if (groups <? size)%nat then groups else size.

Lemma assign_lookup n next k j :
  (0 < n)%nat -> (next <= n)%nat -> (j < k)%nat ->
  assign_loops n next k !! j = Some ((next + j) mod n)%nat.
Proof.
  revert next j. induction k as [|k IH]; intros next j Hn Hx Hj; [lia|]. cbn [assign_loops GetNextLoop].
  destruct (Nat.eqb_spec next n) as [->|Hne]; destruct j as [|j]; simpl.
  - by rewrite Nat.add_0_r, Nat.Div0.mod_same.
  - rewrite IH by lia. f_equal. replace (n + S j)%nat with (1 + j + 1 * n)%nat by lia.
    by rewrite Nat.Div0.mod_add.
  - by rewrite Nat.add_0_r, Nat.mod_small by lia.
  - rewrite IH by lia. f_equal. f_equal. lia.
Qed.

(** The threads of a node: with at least one group, every kind of thread a group needs
    has between one and as many threads as there are groups, and the groups get them in
    turn, so that no index is out of range. *)
Theorem StartWorking_threads : forall (size groups : nat),
  (1 <= groups)%nat ->
  forall n, n = io_threads size groups \/ n = other_threads size groups ->
  (1 <= n <= groups)%nat /\
  forall j, (j < groups)%nat -> assign_loops n 0 groups !! j = Some (j mod n)%nat /\ (j mod n < n)%nat.
Proof.
  intros size groups Hg n Hn.
  assert (Hb : (1 <= n <= groups)%nat).
  { unfold io_threads, other_threads in Hn.
    pose proof (Nat.div_mod_eq (groups + 1) 2). pose proof (Nat.mod_upper_bound (groups + 1) 2).
    destruct (Nat.eqb_spec size 0), (Nat.ltb_spec groups size); destruct Hn; subst; lia. }
  split; [done|]. intros j Hj. rewrite assign_lookup by lia. simpl. split; [done|].
  apply Nat.mod_upper_bound. lia.
Qed.

(** * The thread of a loop *)

(** [RunLoopThread] of [util/runloop_thread.cc] with [Loop] and [Exit] of
    [util/runloop.cc], at the steps where the owner and the thread can interleave.  The
    body of the loop ends by itself: its wait has a timeout. *)

(** Where the thread is. *)
Inductive ThreadAt :=
| TStart                             (* the thread runs, loop_ is null *)
| TPublished                         (* loop_ is set, Loop() is not entered *)
| TTest                              (* at the condition of the while *)
| TBody
| TLeft                              (* Loop() has returned *)
| TDone.

(** Where its owner is. *)
Inductive OwnerAt :=
| OLoop                              (* in RunLoopThread::Loop *)
| OUse
| OJoin                              (* in the destructor, after Exit() *)
| OGone.

#[global] Instance ThreadAt_eq_dec : EqDecision ThreadAt.
Proof. solve_decision. Defined.
#[global] Instance OwnerAt_eq_dec : EqDecision OwnerAt.
Proof. solve_decision. Defined.

Record LoopThread := mkLoopThread {
  lt_thread : ThreadAt;
  lt_owner : OwnerAt;
  lt_loop : bool;                    (* loop_ is not null *)
  lt_exit : bool;                    (* exit_ of the loop *)
}.

Definition LoopThread_new : LoopThread := mkLoopThread TStart OLoop false false.

(** The next step of [ThreadFunc]. *)
Definition ThreadFunc_step (s : LoopThread) : LoopThread :=
  match lt_thread s with
  | TStart => mkLoopThread TPublished (lt_owner s) true (lt_exit s)
  | TPublished => mkLoopThread TTest (lt_owner s) (lt_loop s) false
  | TTest => mkLoopThread (if lt_exit s then TLeft else TBody) (lt_owner s) (lt_loop s) (lt_exit s)
  | TBody => mkLoopThread TTest (lt_owner s) (lt_loop s) (lt_exit s)
  | TLeft => mkLoopThread TDone (lt_owner s) false (lt_exit s)
  | TDone => s
  end.

(** The next step of the owner: [Loop] returns, the destructor calls [Exit], [join]
    returns. *)
Definition owner_step (s : LoopThread) : LoopThread :=
  match lt_owner s with
  | OLoop => if lt_loop s then mkLoopThread (lt_thread s) OUse (lt_loop s) (lt_exit s) else s
  | OUse => mkLoopThread (lt_thread s) OJoin (lt_loop s) (if lt_loop s then true else lt_exit s)
  | OJoin =>
      if decide (lt_thread s = TDone) then mkLoopThread (lt_thread s) OGone (lt_loop s) (lt_exit s) else s
  | OGone => s
  end.

(** A schedule: [true] is a step of the thread. *)
Definition thread_run (sched : list bool) (s : LoopThread) : LoopThread :=
  foldl (fun s (b : bool) => if b then ThreadFunc_step s else owner_step s) s sched.

(** The request to exit was made and not reset. *)
Definition exiting (s : LoopThread) : Prop :=
  lt_owner s = OJoin /\ lt_exit s = true /\ lt_thread s <> TStart /\ lt_thread s <> TPublished.

(** The thread's steps to its end once it sees the request. *)
Definition steps_left (t : ThreadAt) : nat :=
  match t with TBody => 3 | TTest => 2 | TLeft => 1 | _ => 0 end.

Lemma exiting_owner s : exiting s -> lt_thread s <> TDone -> owner_step s = s.
Proof. intros (H & _) Hd. unfold owner_step. rewrite H. by rewrite decide_False. Qed.

Lemma exiting_thread s :
  exiting s -> lt_thread s <> TDone ->
  exiting (ThreadFunc_step s) /\ (steps_left (lt_thread (ThreadFunc_step s)) < steps_left (lt_thread s))%nat.
Proof.
  unfold exiting, ThreadFunc_step. destruct s as [t o l e]. simpl. intros (-> & -> & H1 & H2) Hd.
  destruct t; try done; simpl; split_and!; try done; lia.
Qed.

Lemma exit_ends sched s :
  exiting s -> (steps_left (lt_thread s) <= length (List.filter (fun b => b) sched))%nat ->
  lt_owner (owner_step (thread_run sched s)) = OGone.
Proof.
  assert (Hdone : forall sched s, lt_thread s = TDone -> lt_owner s = OJoin \/ lt_owner s = OGone ->
    lt_owner (owner_step (thread_run sched s)) = OGone).
  { clear. induction sched as [|b sched IH]; intros s Ht Ho; cbn [thread_run foldl].
    - unfold owner_step. destruct Ho as [Ho|Ho]; rewrite Ho; [by rewrite decide_True|done].
    - apply IH; destruct b; unfold ThreadFunc_step, owner_step; rewrite ?Ht; try done;
        destruct Ho as [Ho|Ho]; rewrite Ho, ?decide_True by done; auto. }
  revert s. induction sched as [|b sched IH]; intros s Hs Hl.
  - apply Hdone; [|left; apply Hs]. destruct Hs as (_ & _ & H1 & H2).
    destruct (lt_thread s); simpl in Hl; try done; lia.
  - destruct (decide (lt_thread s = TDone)) as [Hd|Hd]; [apply Hdone; [done|left; apply Hs]|].
    destruct b; cbn [thread_run foldl].
    + destruct (exiting_thread s Hs Hd) as (Hs' & Hlt). apply IH; [done|]. simpl in Hl. lia.
    + rewrite (exiting_owner s Hs Hd). by apply IH.
Qed.

(** The request was made before the loop resets it. *)
Definition request_lost (s : LoopThread) : Prop :=
  lt_owner s = OJoin /\
  (lt_thread s = TPublished \/ lt_exit s = false /\ (lt_thread s = TTest \/ lt_thread s = TBody)).

Lemma lost_step s b : request_lost s -> request_lost (if b : bool then ThreadFunc_step s else owner_step s).
Proof.
  unfold request_lost, ThreadFunc_step, owner_step. destruct s as [t o l e]. simpl. intros [-> H].
  destruct b; destruct H as [->|[-> [-> | ->]]]; simpl; auto.
Qed.

Lemma lost_forever sched s : request_lost s -> request_lost (thread_run sched s).
Proof. revert s. induction sched as [|b sched IH]; intros s H; [done|]. by apply IH, lost_step. Qed.

(** (C36) Ending a loop's thread.  When the destructor asks a loop that has entered [Loop] to exit,
    the thread ends within three of its steps and [join] returns, whatever the
    interleaving.  But [Loop] clears [exit_] when it is entered: a request that is made
    between the publication of the loop and that moment is lost, and the
    destructor never returns.  Such a state is reached: the owner only has to be faster than
    the thread it made. *)
Theorem thread_exit :
  (forall sched s, exiting s -> (3 <= length (List.filter (fun b => b) sched))%nat ->
     lt_owner (owner_step (thread_run sched s)) = OGone) /\
  (forall sched s, request_lost s -> lt_owner (thread_run sched s) = OJoin) /\
  request_lost (thread_run [true; false; false] LoopThread_new) /\
  exiting (thread_run [true; false; true; false] LoopThread_new).
Proof.
  split; [|split; [|split]].
  - intros sched s Hs Hl. apply exit_ends; [done|]. destruct (lt_thread s); simpl; lia.
  - intros sched s H. by apply lost_forever.
  - split; [done|by left].
  - by split_and!.
Qed.
