(* ===== verification/ProposeQueue.v ===== *)
(** Model of [paxos/propose_queue.cc]: proposals wait here, one at a time is
    handed to the io loop, and their callbacks are run in the callback loop.

    [H] is the type of handlers, [C] of callbacks and [A] of the arguments of a
    callback.  The two loops are the lists of what was queued into them.  The
    operations run under the queue's mutex and are atomic.

    The abstract queue is the list of accepted proposals and the number of
    completed ones; [ProposeQueue_refines] relates the two over every sequence
    of operations. *)

From S2P Require Import Prelude.

Section ProposeQueue.
Context {H C A : Type}.

Record queue := mkQueue {
  capacity_ : nat;
  last_finished : bool;
  propose_queue : list H;
  cb_queue : list C;
  io_queued : list H;                (* io_loop_->QueueInLoop *)
  callbacks : list (C * A);          (* callback_loop_->QueueInLoop *)
}.

Definition ProposeQueue_new (capacity : nat) : queue := mkQueue capacity true [] [] [] [].

Definition CheckCapacity (q : queue) : bool :=
  negb (negb (capacity_ q =? 0)%nat && (capacity_ q <? length (propose_queue q))%nat).

Definition Put (f : H) (cb : C) (q : queue) : queue * bool :=
  if last_finished q then
    (mkQueue (capacity_ q) false (propose_queue q) (cb_queue q ++ [cb]) (io_queued q ++ [f])
       (callbacks q), true)
  else if negb (CheckCapacity q) then (q, false)
  else
    (mkQueue (capacity_ q) (last_finished q) (propose_queue q ++ [f]) (cb_queue q ++ [cb])
       (io_queued q) (callbacks q), true).

(** [None]: one of the two assertions fails. *)
Definition ProposeComplete (a : A) (q : queue) : option queue :=
  if last_finished q then None
  else
    match cb_queue q with
    | [] => None
    | cb :: cbs =>
        match propose_queue q with
        | f :: fs =>
            Some (mkQueue (capacity_ q) (last_finished q) fs cbs (io_queued q ++ [f])
                    (callbacks q ++ [(cb, a)]))
        | [] =>
            Some (mkQueue (capacity_ q) true [] cbs (io_queued q) (callbacks q ++ [(cb, a)]))
        end
    end.

(** * Sequences of operations *)

Inductive op := OpPut (f : H) (cb : C) | OpComplete (a : A).

Definition step (o : op) (q : queue) : option (queue * bool) :=
  match o with
  | OpPut f cb => Some (Put f cb q)
  | OpComplete a => (fun q => (q, true)) <$> ProposeComplete a q
  end.

Fixpoint run (ops : list op) (q : queue) : option (queue * list bool) :=
  match ops with
  | [] => Some (q, [])
  | o :: ops => '(q, b) ← step o q; '(q, bs) ← run ops q; Some (q, b :: bs)
  end.

(** * The abstract queue *)

Record fifo := mkFifo {
  f_capacity : nat;
  f_accepted : list (H * C);
  f_results : list A;                (* of the completed proposals, in order *)
}.

Definition fifo_new (capacity : nat) : fifo := mkFifo capacity [] [].

(** One proposal is in progress, the others wait; a new one is taken when none is in
    progress, when there is no capacity or when at most [capacity] others wait. *)
Definition fifo_waiting (s : fifo) : nat := length (f_accepted s) - length (f_results s) - 1.

Definition fifo_step (o : op) (s : fifo) : option (fifo * bool) :=
  let idle := (length (f_accepted s) =? length (f_results s))%nat in
  match o with
  | OpPut f cb =>
      if idle || (f_capacity s =? 0)%nat || (fifo_waiting s <=? f_capacity s)%nat then
        Some (mkFifo (f_capacity s) (f_accepted s ++ [(f, cb)]) (f_results s), true)
      else Some (s, false)
  | OpComplete a =>
      if idle then None
      else Some (mkFifo (f_capacity s) (f_accepted s) (f_results s ++ [a]), true)
  end.

Fixpoint fifo_run (ops : list op) (s : fifo) : option (fifo * list bool) :=
  match ops with
  | [] => Some (s, [])
  | o :: ops => '(s, b) ← fifo_step o s; '(s, bs) ← fifo_run ops s; Some (s, b :: bs)
  end.

(** What the program's queue shows of an abstract one. *)
Definition implements (q : queue) (s : fifo) : Prop :=
  let k := length (f_results s) in
  (k <= length (f_accepted s))%nat /\
  capacity_ q = f_capacity s /\
  last_finished q = (length (f_accepted s) =? k)%nat /\
  io_queued q = take (S k) (f_accepted s).*1 /\
  propose_queue q = drop (S k) (f_accepted s).*1 /\
  cb_queue q = drop k (f_accepted s).*2 /\
  callbacks q = zip (f_accepted s).*2 (f_results s).

Definition same_result (r : option (queue * list bool)) (r' : option (fifo * list bool)) : Prop :=
  match r, r' with
  | Some (q, bs), Some (s, bs') => bs = bs' /\ implements q s
  | None, None => True
  | _, _ => False
  end.

Definition same_step (r : option (queue * bool)) (r' : option (fifo * bool)) : Prop :=
  match r, r' with
  | Some (q, b), Some (s, b') => b = b' /\ implements q s
  | None, None => True
  | _, _ => False
  end.

Lemma zip_snoc (l : list C) (k : list A) c a :
  drop (length k) l = c -> forall x xs, c = x :: xs -> zip l (k ++ [a]) = zip l k ++ [(x, a)].
Proof.
  revert l. induction k as [|y k IH]; intros l Hd x xs ->.
  - cbn [length] in Hd. rewrite drop_0 in Hd. subst l. by destruct xs.
  - destruct l as [|z l]; [done|]. simpl in *. f_equal. by eapply IH.
Qed.

Lemma zip_app_l (l l' : list C) (k : list A) :
  (length k <= length l)%nat -> zip (l ++ l') k = zip l k.
Proof.
  revert l. induction k as [|y k IH]; intros l Hl; [by destruct l, l'|].
  destruct l as [|z l]; simpl in *; [lia|]. f_equal. apply IH. lia.
Qed.

Lemma Put_refines f cb q s :
  implements q s -> same_step (Some (Put f cb q)) (fifo_step (OpPut f cb) s).
Proof.
  destruct s as [cap acc res]. intros Himp. destruct Himp as (Hk & Hc & Hl & Hi & Hp & Hcb & Hcs) eqn:Eimp.
  clear Eimp. simpl in *. unfold Put, CheckCapacity, fifo_waiting. rewrite Hl, Hc, Hp. simpl.
  rewrite length_drop, length_fmap. destruct (Nat.eqb_spec (length acc) (length res)) as [E|E]; simpl.
  - rewrite Hi, Hcb, Hcs. split; [done|]. unfold implements; simpl.
    rewrite !fmap_app, length_app. simpl. split_and!; try done; [lia| | | | |].
    + symmetry. apply Nat.eqb_neq. lia.
    + rewrite !take_ge by (rewrite ?length_app, length_fmap; simpl; lia). done.
    + rewrite !drop_ge by (rewrite ?length_app, length_fmap; simpl; lia). done.
    + by rewrite drop_app_le by (rewrite length_fmap; lia).
    + rewrite zip_app_l; [done|]. rewrite length_fmap. lia.
  - assert (Hfull : negb (negb (negb (cap =? 0)%nat && (cap <? length acc - S (length res))%nat))
      = negb ((cap =? 0)%nat || (length acc - length res - 1 <=? cap)%nat)).
    { rewrite negb_involutive, negb_orb. f_equal. rewrite Nat.leb_antisym, negb_involutive.
      f_equal. lia. }
    rewrite Hfull. destruct ((cap =? 0)%nat || _)%bool; simpl; [|by split].
    split; [done|]. unfold implements; simpl. rewrite Hi, Hcb, Hcs, !fmap_app, length_app. simpl.
    split_and!; try done; [lia| | | | |].
    + symmetry. apply Nat.eqb_neq. lia.
    + rewrite take_app_le; [done|]. rewrite length_fmap. lia.
    + rewrite drop_app_le; [done|]. rewrite length_fmap. lia.
    + by rewrite drop_app_le by (rewrite length_fmap; lia).
    + rewrite zip_app_l; [done|]. rewrite length_fmap. lia.
Qed.

Lemma drop_S_tail {B} (l : list B) k x xs : drop k l = x :: xs -> drop (S k) l = xs.
Proof.
  intros E. rewrite <- Nat.add_1_r, <- drop_drop, E. done.
Qed.

Lemma Complete_refines a q s :
  implements q s -> same_step (step (OpComplete a) q) (fifo_step (OpComplete a) s).
Proof.
  destruct s as [cap acc res]. intros (Hk & Hc & Hl & Hi & Hp & Hcb & Hcs). simpl in *.
  unfold ProposeComplete. rewrite Hl.
  destruct (Nat.eqb_spec (length acc) (length res)) as [E|E]; simpl; [done|].
  destruct (cb_queue q) as [|cb cbs] eqn:Ecb.
  { apply (f_equal length) in Hcb. rewrite length_drop, length_fmap in Hcb. simpl in Hcb. lia. }
  assert (Hz := zip_snoc _ _ _ a (eq_sym Hcb) _ _ eq_refl).
  assert (Ht := drop_S_tail _ _ _ _ (eq_sym Hcb)).
  destruct (propose_queue q) as [|f fs] eqn:Epq; simpl; (split; [done|]); unfold implements; simpl;
    rewrite length_app, Nat.add_1_r; rewrite Hz, Ht, Hi, Hcs.
  - apply (f_equal length) in Hp. rewrite length_drop, length_fmap in Hp. simpl in Hp.
    split_and!; try done; [lia|symmetry; apply Nat.eqb_eq; lia| |].
    + rewrite !take_ge by (rewrite length_fmap; lia). done.
    + rewrite drop_ge by (rewrite length_fmap; lia). done.
  - assert (Hlen := f_equal length Hp). rewrite length_drop, length_fmap in Hlen. simpl in Hlen.
    split_and!; try done; [lia|symmetry; apply Nat.eqb_neq; lia| |].
    + symmetry. apply take_S_r. rewrite <- (Nat.add_0_r (S _)), <- lookup_drop, <- Hp. done.
    + symmetry. by apply (drop_S_tail _ _ f).
Qed.

Lemma new_implements cap : implements (ProposeQueue_new cap) (fifo_new cap).
Proof. by split_and!. Qed.

Lemma run_refines ops q s : implements q s -> same_result (run ops q) (fifo_run ops s).
Proof.
  revert q s. induction ops as [|o ops IH]; intros q s Hi; [done|]. simpl.
  assert (Hs : same_step (step o q) (fifo_step o s))
    by (destruct o; [by apply Put_refines|by apply Complete_refines]).
  destruct (step o q) as [[q' b]|], (fifo_step o s) as [[s' b']|]; simpl in Hs; try done.
  destruct Hs as [-> Hi']. specialize (IH q' s' Hi'). simpl.
  destruct (run ops q') as [[q'' bs]|], (fifo_run ops s') as [[s'' bs']|]; simpl in *; try done.
  by destruct IH as [-> ?].
Qed.

(** (C22) The queue implements the abstract one over every sequence of proposals and
    completions: the same proposals are accepted, an assertion fails exactly when there
    is nothing to complete, the handlers reach the io loop in the order of acceptance,
    one more than are completed, and the callback of the n-th accepted proposal runs
    exactly once, with the n-th result. *)
Theorem ProposeQueue_refines : forall (ops : list op) (cap : nat),
  same_result (run ops (ProposeQueue_new cap)) (fifo_run ops (fifo_new cap)).
Proof. intros ops cap. apply run_refines, new_implements. Qed.

End ProposeQueue.

Arguments queue : clear implicits.
Arguments fifo : clear implicits.
Arguments op : clear implicits.
