(* ===== verification/Proposals.v ===== *)
(** A proposal is completed exactly once.

    [Instance] completes a proposal in [CheckLearn] (a value was learned), in the
    closure of the propose timer, or at once in [OnPropose] (the node is not a
    member).  This file proves that between two calls of [OnPropose] there is
    exactly one completion: [load] counts the completions made and the proposal
    in progress, [OnPropose] adds one to it and nothing else changes it.  The
    argument needs an invariant on the io loop's timers, because
    [TimerList::Remove] goes by address and addresses are reused. *)

From S2P Require Import Prelude Ballot Proto Storage Random TimerList Counter NodeState.
From S2P Require Import AcceptorModel ProposerModel LearnerModel LogModel InstanceModel Traces.

(** * Timers by callback *)

#[export] Instance timer_cb_eq_dec : EqDecision TimerCb.
Proof. solve_decision. Defined.

Section Timers.
Context {AL : Allocator} {ALL : AllocatorLaws}.

(** All timers are one-shot, and the propose timer is the one at [p], if [b]. *)
Definition propose_timers (p : Z) (b : bool) (tl : TimerList TimerCb) : Prop :=
  timers_ok tl /\
  forall q t, timer_heap tl !! q = Some t ->
    ms_interval t = 0 /\ (timerproc_cb t = ProposeTimer -> q = p /\ b = true).

Lemma RunAfter_propose_timers p b now d cb tl :
  cb <> ProposeTimer -> propose_timers p b tl -> propose_timers p b (RunAfter now d cb tl).1.
Proof.
  intros Hcb [Hok H]. split; [by apply insert_timer_ok|]. intros q t.
  unfold RunAfter, insert_timer. simpl. intros [(<- & <-)|(_ & Hq)]%lookup_insert_Some; [done|]. by apply H.
Qed.

Lemma RunAfter_arms p now d tl tl' t :
  RunAfter now d ProposeTimer tl = (tl', t) -> propose_timers p false tl -> propose_timers t.2 true tl'.
Proof.
  intros E [Hok H]. split.
  - replace tl' with (RunAfter now d ProposeTimer tl).1 by (by rewrite E). by apply insert_timer_ok.
  - unfold RunAfter, insert_timer in E. injection E as <- <-. intros q u. simpl.
    intros [(<- & <-)|(_ & Hq)]%lookup_insert_Some; [done|].
    destruct (H q u Hq) as [? H']. split; [done|]. intros Hu. by destruct (H' Hu).
Qed.

Lemma Remove_propose_timers p b id tl : propose_timers p b tl -> propose_timers p b (Remove id tl).
Proof.
  intros [Hok H]. split; [by apply Remove_ok|]. intros q t. unfold Remove.
  case_decide; [|by apply H]. destruct (timer_heap tl !! id.2); [|by apply H]. simpl.
  intros (_ & Hq)%lookup_delete_Some. by apply H.
Qed.

(** Removing the propose timer leaves none, whatever is at its address. *)
Lemma Remove_propose_timer p b id tl :
  id.2 = p -> propose_timers p b tl -> forall p', propose_timers p' false (Remove id tl).
Proof.
  intros <- [Hok H] p'. split; [by apply Remove_ok|]. intros q t Hq. unfold Remove in Hq.
  assert (Hne : forall u, timer_heap tl !! q = Some u -> timerproc_cb u = ProposeTimer -> q <> id.2 -> False)
    by (intros u Hu Hp Hn; apply (H q u Hu) in Hp; naive_solver).
  case_decide as Hin.
  - destruct (timer_heap tl !! id.2) eqn:E.
    + simpl in Hq. apply lookup_delete_Some in Hq as [Hn Hq]. split; [by apply (H q t)|naive_solver].
    + split; [by apply (H q t)|]. intros Hp. apply (H q t Hq) in Hp as [-> _]. congruence.
  - split; [by apply (H q t)|]. intros Hp. destruct (proj2 (H q t Hq) Hp) as [-> _].
    rewrite (tl_ptrs _ Hok) in Hin. apply not_elem_of_dom in Hin. congruence.
Qed.

Lemma shift_heap_same diff l (h : gmap Z (Timer TimerCb)) q t :
  shift_heap diff l h !! q = Some t ->
  exists t', h !! q = Some t' /\ ms_interval t' = ms_interval t /\ timerproc_cb t' = timerproc_cb t.
Proof.
  revert t. induction l as [|it l IH]; simpl; intros t; [by eauto|].
  destruct (decide (it.2 = q)) as [<-|Hn].
  - rewrite lookup_alter_eq. intros (u & Hu & ->)%fmap_Some. apply IH in Hu as (t' & ? & ? & ?). by exists t'.
  - rewrite lookup_alter_ne by done. apply IH.
Qed.

Lemma adjust_propose_timers p b now tl :
  propose_timers p b tl -> propose_timers p b (adjust_clock now tl).
Proof.
  intros [Hok H]. split; [by apply adjust_clock_ok|]. intros q t. unfold adjust_clock.
  destruct (timers tl); [by apply H|]. split_if; [|by apply H]. cbn [timer_heap].
  intros (t' & Ht & <- & <-)%shift_heap_same. by apply H.
Qed.

(** A timer that fires leaves the list. *)
Lemma pop_propose_timers p b now tl cb tl' :
  pop_expired now tl = Some (cb, tl') -> propose_timers p b tl ->
  propose_timers p (if decide (cb = ProposeTimer) then false else b) tl' /\
  (cb = ProposeTimer -> b = true).
Proof.
  intros E [Hok H]. split.
  - split; [by eapply pop_expired_ok|]. revert E. unfold pop_expired.
    destruct (timers tl) as [|it rest]; [done|]. split_if; [|done].
    destruct (timer_heap tl !! it.2) as [u|] eqn:Eu; [|done]. destruct (H _ _ Eu) as [Hi Hp].
    rewrite Hi. simpl. intros [= <- <-] q t. simpl. intros [Hn Hq]%lookup_delete_Some.
    destruct (H q t Hq) as [Ht Htp]. split; [done|]. intros Hc. case_decide; naive_solver.
  - revert E. unfold pop_expired. destruct (timers tl) as [|it rest]; [done|]. split_if; [|done].
    destruct (timer_heap tl !! it.2) as [u|] eqn:Eu; [|done]. destruct (H _ _ Eu) as [Hi Hp].
    rewrite Hi. simpl. intros [= <- _] Hc. by apply Hp.
Qed.

End Timers.

Section Proposals.
Context {FC : FixedCoding} {LD : LevelDB} {MM : MachineManager} {CM : CheckpointManager}.
Context {AL : Allocator} {ALL : AllocatorLaws} {PI : ProtoCodec PaxosInstance}.

(** * The invariant and the count *)

Definition propose_inv (n : node) : Prop :=
  propose_timers (propose_timer n).2 (is_proposing n) (io_timers n) /\
  (is_proposing n = false -> context_ n = 0).

Definition is_completion (o : Output) : bool :=
  match o with OProposeComplete _ _ _ => true | _ => false end.

(** One of the two assertions at the head of [OnPropose] failed. *)
Definition is_propose_assert (o : Output) : bool :=
  match o with
  | OAssertFail e => bool_decide (e = "!is_proposing_"%string) || bool_decide (e = "!context_"%string)
  | _ => false
  end.

Definition completions (l : list Output) : list Output := List.filter is_completion l.
Definition propose_asserts (l : list Output) : list Output := List.filter is_propose_assert l.

Definition load (n : node) : nat := length (completions (out_ n)) + Nat.b2n (is_proposing n).

Definition steady (n n' : node) : Prop :=
  propose_inv n ->
  propose_inv n' /\ load n' = load n /\ propose_asserts (out_ n') = propose_asserts (out_ n).

#[global] Instance steady_preorder : PreOrder steady.
Proof.
  split; [by intros n H|]. intros n1 n2 n3 H1 H2 I. destruct (H1 I) as (I2 & L2 & A2).
  destruct (H2 I2) as (I3 & L3 & A3). split_and!; [done|congruence..].
Qed.

Lemma filter_snoc (f : Output -> bool) l o :
  List.filter f (l ++ [o]) = List.filter f l ++ (if f o then [o] else []).
Proof. rewrite List.filter_app. simpl. by destruct (f o). Qed.

Lemma quiet_steady o n : quiet_output o -> steady n (emit o n).
Proof.
  intros Q I. split; [exact I|]. unfold load, completions, propose_asserts. simpl. rewrite !filter_snoc.
  destruct o; simpl in *; try done; rewrite ?app_nil_r; try done.
  rewrite !bool_decide_eq_false_2 by tauto. simpl. by rewrite app_nil_r.
Qed.

Lemma execute_steady v my n : steady n (MachineExecute v my n).1.
Proof.
  intros I. unfold MachineExecute, Execute. destruct (mm_Execute _ _ _ _ _ _) as [m r]. simpl.
  split; [exact I|]. unfold load, completions, propose_asserts. simpl. by rewrite !filter_snoc, !app_nil_r.
Qed.

(** Completing the proposal in progress, once no propose timer is left. *)
Lemma complete_steady i s ctx n n1 :
  is_proposing n = true -> (propose_inv n -> forall p, propose_timers p false (io_timers n1)) ->
  completions (out_ n1) = completions (out_ n) ->
  propose_asserts (out_ n1) = propose_asserts (out_ n) ->
  steady n ((emit (OProposeComplete i s ctx) n1) <| is_proposing := false |> <| context_ := 0 |>).
Proof.
  intros Hp Ht Hc Ha I. split; [split; [|done]|].
  - exact (Ht I _).
  - unfold load, completions, propose_asserts in *. simpl. rewrite !filter_snoc, Hp, Hc, Ha. simpl.
    rewrite length_app, app_nil_r. simpl. split; [lia|done].
Qed.

Lemma same_steady n n' :
  out_ n' = out_ n -> io_timers n' = io_timers n -> propose_timer n' = propose_timer n ->
  is_proposing n' = is_proposing n -> context_ n' = context_ n -> steady n n'.
Proof. intros H1 H2 H3 H4 H5 I. unfold propose_inv, load in *. by rewrite H1, H2, H3, H4, H5. Qed.

Lemma next_instance_steady n : steady n (Instance_NextInstance n).
Proof.
  unfold Instance_NextInstance, Acceptor_NextInstance, Acceptor_SetInstanceId.
  split_if; by apply same_steady.
Qed.

Lemma view_steady n n' : same_view n n' -> steady n n'.
Proof. intros (H1 & H2 & H3 & H4 & H5 & _). by apply same_steady. Qed.

Lemma CheckLearn_steady n : steady n (CheckLearn n).
Proof.
  unfold CheckLearn. destruct (has_learned _); [|done]. cbv zeta. set (v := learned_value _).
  set (my := is_proposing n && _). set (n0 := if is_proposing n then _ else _).
  destruct (MachineExecute v my n0) as [n1 success] eqn:E.
  assert (E1 : is_proposing n1 = is_proposing n /\ io_timers n1 = io_timers n0 /\
    completions (out_ n1) = completions (out_ n) /\ propose_asserts (out_ n1) = propose_asserts (out_ n)).
  { revert E. unfold MachineExecute, Execute. destruct (mm_Execute _ _ _ _ _ _). intros [= <- <-].
    unfold completions, propose_asserts. simpl. rewrite !filter_snoc, !app_nil_r.
    unfold n0. by destruct (is_proposing n) eqn:P; split_and!. }
  destruct E1 as (Ep & Et & Ec & Ea). set (n2 := if is_proposing n1 then _ else _).
  assert (H2 : steady n n2).
  { unfold n2. rewrite Ep. destruct (is_proposing n) eqn:P.
    - apply complete_steady; try done. intros [Ht _] p. rewrite Et. unfold n0. rewrite P in *.
      exact (Remove_propose_timer _ _ _ _ eq_refl Ht p).
    - pose proof (execute_steady v my n0) as H. by rewrite E in H. }
  etrans; [exact H2|]. split_if; [apply next_instance_steady|by apply same_steady].
Qed.

#[global] Instance steady_frame : Frame steady.
Proof.
  constructor; [apply _|apply view_steady|intros; by apply quiet_steady| | |apply CheckLearn_steady|done].
  - intros d cb n Hcb [Ht Hc]. unfold io_RunAfter.
    pose proof (RunAfter_propose_timers _ _ (now_ n) d cb _ Hcb Ht) as H.
    destruct (RunAfter _ _ _ _) as [tl id]. done.
  - intros id n [Ht Hc]. split_and!; try done. split; [|done]. by apply Remove_propose_timers.
Qed.

(** * Events *)

Lemma propose_timer_steady n n1 :
  is_proposing n = true -> (propose_inv n -> forall p, propose_timers p false (io_timers n1)) ->
  out_ n1 = out_ n -> steady n (on_propose_timer n1).
Proof.
  intros Hp Ht Ho I. split; [split; [|done]|].
  - apply (Remove_propose_timers _ _ (retry_timer (proposer_ n1))). exact (Ht I _).
  - unfold load, completions, propose_asserts. rewrite on_propose_timer_out, Ho, !filter_snoc, Hp.
    rewrite length_app, app_nil_r. simpl. split; [lia|done].
Qed.

Lemma timers_turn_steady n : steady n (timers_turn n).
Proof.
  unfold timers_turn. cbv zeta. set (n0 := n <| io_timers ::= _ |>).
  assert (H0 : steady n n0).
  { intros [Ht Hc]. split_and!; try done. split; [|done]. by apply adjust_propose_timers. }
  etrans; [exact H0|]. clearbody n0. clear H0 n. rename n0 into n.
  destruct (pop_expired (now_ n) (io_timers n)) as [[cb tl]|] eqn:E; [|done].
  destruct (decide (cb = ProposeTimer)) as [->|Hcb].
  - intros [Ht Hc]. destruct (pop_propose_timers _ _ _ _ _ _ E Ht) as [Htl Hb].
    specialize (Hb eq_refl). rewrite decide_True in Htl by done.
    apply (propose_timer_steady n); try done. intros _ p. destruct Htl as [Hok H]. split; [done|].
    intros q t Hq. destruct (H q t Hq) as [? H']. split; [done|]. intros Hp. by destruct (H' Hp).
  - trans (n <| io_timers := tl |>).
    + intros [Ht Hc]. destruct (pop_propose_timers _ _ _ _ _ _ E Ht) as [Htl _].
      rewrite decide_False in Htl by done. done.
    + destruct cb; cbn [run_timer]; [|apply (AskForLearn_maintains steady)|done].
      apply (on_retry_timer_maintains steady), (OnPaxosMessage_maintains steady).
Qed.

Lemma handle_steady e n :
  (match e with EvPropose _ _ _ _ => False | _ => True end) -> steady n (handle e n).
Proof.
  intros He. destruct e; try done; try (by apply (handle_maintains steady)).
  unfold handle. destruct (existsb _ _); [done|]. apply timers_turn_steady.
Qed.

Lemma OnPropose_starts mid v c r n :
  propose_inv n -> is_proposing n = false -> IsValidNodeId (cf_node_id (config_ n)) n = true ->
  exists val n1, OnPropose mid v c r n = NewPropose OnPaxosMessage val n1 /\ propose_inv n1 /\
    out_ n1 = out_ n /\ is_proposing n1 = true /\ context_ n1 = c /\
    propose_value n1 = mkPaxosValue (GetPaxosValueId r n).2 mid v.
Proof.
  intros [Ht Hc] Hp Hv. specialize (Hc Hp). unfold OnPropose. rewrite Hv. cbn [negb]. cbv zeta. rewrite Hp.
  unfold assert_ at 2. cbn [negb].
  change (context_ (n <| is_proposing := true |>)) with (context_ n). rewrite Hc.
  unfold assert_. cbn [Z.eqb]. unfold GetPaxosValueId, io_RunAfter. cbv zeta.
  destruct (RunAfter _ _ _ _) as [tl t] eqn:E. do 2 eexists. split; [reflexivity|].
  split_and!; try done. split; [|done]. rewrite Hp in Ht. exact (RunAfter_arms _ _ _ _ _ _ E Ht).
Qed.

Lemma OnPropose_load mid v c r n :
  propose_inv n -> is_proposing n = false ->
  propose_inv (OnPropose mid v c r n) /\ load (OnPropose mid v c r n) = S (load n) /\
  propose_asserts (out_ (OnPropose mid v c r n)) = propose_asserts (out_ n).
Proof.
  intros I0 Hp. destruct (IsValidNodeId (cf_node_id (config_ n)) n) eqn:Hv.
  - destruct (OnPropose_starts mid v c r n I0 Hp Hv) as (val & n1 & -> & I1 & O1 & P1 & _).
    destruct (NewPropose_maintains steady _ (OnPaxosMessage_maintains steady) val n1 I1) as (I & L & A).
    split_and!; [exact I| |by rewrite A, O1]. rewrite L. unfold load. rewrite O1, P1, Hp. simpl. lia.
  - unfold OnPropose. rewrite Hv. cbn [negb]. destruct I0 as [Ht Hc]. split_and!; [by split| |].
    + unfold load, completions. simpl. rewrite filter_snoc, length_app. simpl. lia.
    + unfold propose_asserts. simpl. by rewrite filter_snoc, app_nil_r.
Qed.

End Proposals.
