(* ===== verification/GroupModel.v ===== *)
(** Model of [paxos/group.cc]: one group of a node as its clients see it.

    A group ties the [Instance] (a [node] of [InstanceModel.v] over the machine
    manager of [MachinesModel.v]) to the [ProposeQueue] and competes for the
    mastership.  Its operations run in several threads; each definition below is
    what one of them does between two waits, and [GroupEvent] is what can happen
    next.  [TryBeMaster] waits for its proposal in the middle: its two halves are
    [TryBeMaster] and [TryBeMaster_resume].

    Completions reach [ProposeQueue::ProposeComplete] through [propose_cb_], in
    the order in which [Instance] makes them; the queue does not call back into
    the instance, so they are handed over when the handler has returned
    ([deliver]).  A failed assertion of the queue stops the group ([None]).

    The context of a master proposal is the pointer [&now_].  It is represented
    by the value behind it, [g_now]: it is written in [TryBeMasterInLoop] only, which
    runs when no proposal is in progress. *)

From S2P Require Import Prelude Ballot Proto Storage Random TimerList Counter NodeState.
From S2P Require Import AcceptorModel ProposerModel LearnerModel LogModel InstanceModel.
From S2P Require Import System Simulation MachinesModel ProposeQueue.

Section Group.
Context {FC : FixedCoding} {LD : LevelDB} {CM : CheckpointManager} {AL : Allocator}.
Context {PI : ProtoCodec PaxosInstance} {PCM : ProtoCodec MemberChangeMessage} {PS : ProtoCodec MasterState}.
Context {UM : UserMachines}.
Variable env : CheckpointEnv.

#[local] Instance group_machines : MachineManager := manager_instance env (fun c => c).

(** * State *)

(** The handlers [Group] puts into the queue. *)
Inductive Handler :=
| HPropose (machine : Z) (value : string) (context : Z)
| HTryBeMaster.

(** A callback of the user, by name, or [Group::ProposeComplete]. *)
Inductive Callback := UserCallback (id : Z) | MasterCallback.

Record group := mkGroup {
  g_node : node;
  g_queue : queue Handler Callback (Z * Status * Z);
  g_started : nat;                   (* handlers the io loop has run *)
  g_calls : list (Callback * (Z * Status * Z));  (* the calls the callback loop has made *)
  g_use_master : bool;
  g_retrie_master : bool;
  g_lease_timeout : Z;
  g_waiting : bool;                  (* TryBeMaster waits for cond_ *)
  g_propose_end : bool;
  g_result : Status;
  g_master_timers : TimerList unit;  (* master loop *)
  g_now : Z;                         (* now_ *)
}.

Definition g_called (g : group) : nat := length (g_calls g).

Definition with_node (n : node) (g : group) : group :=
  mkGroup n (g_queue g) (g_started g) (g_calls g) (g_use_master g) (g_retrie_master g)
    (g_lease_timeout g) (g_waiting g) (g_propose_end g) (g_result g) (g_master_timers g) (g_now g).

Definition with_queue (q : queue Handler Callback (Z * Status * Z)) (g : group) : group :=
  mkGroup (g_node g) q (g_started g) (g_calls g) (g_use_master g) (g_retrie_master g)
    (g_lease_timeout g) (g_waiting g) (g_propose_end g) (g_result g) (g_master_timers g) (g_now g).

Definition with_master (retrie waiting propose_end : bool) (tl : TimerList unit) (g : group) : group :=
  mkGroup (g_node g) (g_queue g) (g_started g) (g_calls g) (g_use_master g) retrie
    (g_lease_timeout g) waiting propose_end (g_result g) tl (g_now g).

Definition with_now (now : Z) (g : group) : group :=
  mkGroup (g_node g) (g_queue g) (g_started g) (g_calls g) (g_use_master g) (g_retrie_master g)
    (g_lease_timeout g) (g_waiting g) (g_propose_end g) (g_result g) (g_master_timers g) now.

Definition propose_capacity : nat := 100.

Definition Group_new (n : node) (use_master : bool) (lease : Z) (now : Z) : group :=
  mkGroup n (ProposeQueue_new propose_capacity) 0 [] use_master false lease false false Status_OK
    (TimerList_new now) 0.

(** * Proposals of the clients *)

Definition Group_OnPropose (machine : Z) (value : string) (context : Z) (cb : Callback) (g : group)
  : group * bool :=
  let '(q, res) := Put (HPropose machine value context) cb (g_queue g) in
  (with_queue q g, res).

Definition ChangeMember (value : list (Member * bool)) (context : Z) (cb : Callback) (g : group)
  : group * bool :=
  Group_OnPropose 1 (SerializeAsString (change_message value)) context cb g.

(** * Completions *)

Definition completion (o : Output) : option (Z * Status * Z) :=
  match o with OProposeComplete i s c => Some (i, s, c) | _ => None end.

Fixpoint complete_all (l : list (Z * Status * Z)) (q : queue Handler Callback (Z * Status * Z))
  : option (queue Handler Callback (Z * Status * Z)) :=
  match l with
  | [] => Some q
  | a :: l => q ← ProposeComplete a q; complete_all l q
  end.

(** [n] is the instance after a handler has run. *)
Definition deliver (n : node) (g : group) : option group :=
  let fresh := drop (length (out_ (g_node g))) (out_ n) in
  q ← complete_all (omap completion fresh) (g_queue g);
  Some (with_queue q (with_node n g)).

(** * The master *)

Definition GetMasterState (g : group) : MasterState := mgr_master (mm_ (g_node g)).

Definition already_master_text : string := "Already has master".

(** [r] is the draw of [GetPaxosValueId]. *)
Definition TryBeMasterInLoop (r : Z) (g : group) : option group :=
  let n := g_node g in
  let state := GetMasterState g in
  let now := now_ n in
  let g := with_now now g in
  if (mst_lease_time state <=? now) || (mst_node_id state =? cf_node_id (config_ n)) then
    let state := mkMasterState (mst_version state) (cf_node_id (config_ n)) (g_lease_timeout g) in
    deliver (OnPropose 2 (SerializeAsString state) now r n) g
  else
    q ← ProposeComplete (instance_id_ n, Status_of kConflict already_master_text, 0) (g_queue g);
    Some (with_queue q g).

(** The end of [TryBeMaster]. *)
Definition arm_master (next : Z) (propose_end : bool) (g : group) : group :=
  with_master false false propose_end (RunAt next tt (g_master_timers g)).1 g.

Definition TryBeMaster (now : Z) (g : group) : group :=
  let state := GetMasterState g in
  if (mst_lease_time state <=? now)
     || ((mst_node_id state =? cf_node_id (config_ (g_node g))) && negb (g_retrie_master g)) then
    let '(q, b) := Put HTryBeMaster MasterCallback (g_queue g) in
    let g := with_queue q g in
    if b then with_master (g_retrie_master g) true false (g_master_timers g) g
    else arm_master (now +64 g_lease_timeout g) false g
  else arm_master (mst_lease_time state) (g_propose_end g) g.

(** After the wait. *)
Definition TryBeMaster_resume (now : Z) (g : group) : group :=
  if g_waiting g && g_propose_end g then
    let state := GetMasterState g in
    let next := if Status_ok (g_result g) then mst_lease_time state -64 100
                else if IsConflict (g_result g) then mst_lease_time state else 0 in
    let next := if next =? 0 then now +64 g_lease_timeout g else next in
    arm_master next (g_propose_end g) g
  else g.

(** [Group::ProposeComplete]. *)
Definition Group_ProposeComplete (result : Status) (g : group) : group :=
  mkGroup (g_node g) (g_queue g) (g_started g) (g_calls g) (g_use_master g) (g_retrie_master g)
    (g_lease_timeout g) (g_waiting g) true result (g_master_timers g) (g_now g).

(** The function queued into the master loop, which does not run while [TryBeMaster]
    waits in that loop. *)
Definition RetireMaster (g : group) : group :=
  if g_use_master g && negb (g_waiting g) then
    with_master true (g_waiting g) (g_propose_end g) (g_master_timers g) g
  else g.

(** * The loops *)

(** The io loop runs the next handler the queue gave it. *)
Definition run_handler (r : Z) (g : group) : option group :=
  match io_queued (g_queue g) !! g_started g with
  | None => Some g
  | Some h =>
      let g := mkGroup (g_node g) (g_queue g) (S (g_started g)) (g_calls g) (g_use_master g)
                 (g_retrie_master g) (g_lease_timeout g) (g_waiting g) (g_propose_end g) (g_result g)
                 (g_master_timers g) (g_now g) in
      match h with
      | HPropose machine value context => deliver (OnPropose machine value context r (g_node g)) g
      | HTryBeMaster => TryBeMasterInLoop r g
      end
  end.

(** The callback loop runs the next callback. *)
Definition run_callback (g : group) : group :=
  match callbacks (g_queue g) !! g_called g with
  | None => g
  | Some (cb, (i, s, c)) =>
      let g := mkGroup (g_node g) (g_queue g) (g_started g) (g_calls g ++ [(cb, (i, s, c))]) (g_use_master g)
                 (g_retrie_master g) (g_lease_timeout g) (g_waiting g) (g_propose_end g) (g_result g)
                 (g_master_timers g) (g_now g) in
      match cb with
      | UserCallback _ => g
      | MasterCallback => Group_ProposeComplete s g
      end
  end.

Lemma run_callback_called g x :
  callbacks (g_queue g) !! g_called g = Some x -> g_called (run_callback g) = S (g_called g).
Proof.
  intros E. unfold run_callback. rewrite E. destruct x as [[] [[i s] c]]; unfold g_called; simpl;
    rewrite length_app; simpl; lia.
Qed.

(** A turn of the master loop's timers; the loop is blocked while [TryBeMaster]
    waits. *)
Definition master_turn (now : Z) (g : group) : group :=
  if g_waiting g then g
  else
    let tl := adjust_clock now (g_master_timers g) in
    match pop_expired now tl with
    | None => with_master (g_retrie_master g) (g_waiting g) (g_propose_end g) tl g
    | Some (_, tl) =>
        TryBeMaster now (with_master (g_retrie_master g) (g_waiting g) (g_propose_end g) tl g)
    end.

(** The second half of [Sync]; the first is the event [EvSyncData]. *)
Definition Group_Sync (now : Z) (g : group) : group :=
  if g_use_master g then TryBeMaster now g else g.

Inductive GroupEvent :=
| GPropose (machine : Z) (value : string) (context : Z) (cb : Z)
| GChangeMember (value : list (Member * bool)) (context : Z) (cb : Z)
| GHandler (r : Z)
| GNode (e : Event)                  (* anything but a proposal *)
| GCallback
| GSync (now : Z)
| GMasterTurn (now : Z)
| GMasterResume (now : Z)
| GRetire.

Definition group_step (e : GroupEvent) (g : group) : option group :=
  match e with
  | GPropose m v c cb => Some (Group_OnPropose m v c (UserCallback cb) g).1
  | GChangeMember v c cb => Some (ChangeMember v c (UserCallback cb) g).1
  | GHandler r => run_handler r g
  | GNode (EvPropose _ _ _ _) => Some g
  | GNode e => deliver (handle e (g_node g)) g
  | GCallback => Some (run_callback g)
  | GSync now => Some (Group_Sync now g)
  | GMasterTurn now => Some (master_turn now g)
  | GMasterResume now => Some (TryBeMaster_resume now g)
  | GRetire => Some (RetireMaster g)
  end.

Fixpoint group_run (es : list GroupEvent) (g : group) : option group :=
  match es with
  | [] => Some g
  | e :: es => g ← group_step e g; group_run es g
  end.

(** * Queries *)

(** [static_cast<uint16_t>] of the port. *)
Definition member_of (m : MemberMessage) : Member :=
  mkMember (mb_id m) (mb_host m) (mb_port m mod 2 ^ 16) (mb_context m).

Definition Group_GetMembership (g : group) : list Member * Z :=
  let temp := mgr_membership (mm_ (g_node g)) in
  (member_of <$> (map_to_list (ms_members temp)).*2, ms_version temp).

Definition Group_GetMaster (now_micros : Z) (g : group) : option (Member * Z) :=
  match MasterMachine_GetMaster now_micros (GetMasterState g) with
  | Some (node_id, version) =>
      m ← ms_members (mgr_membership (mm_ (g_node g))) !! node_id; Some (member_of m, version)
  | None => None
  end.

Definition Group_IsMaster (now : Z) (g : group) : bool :=
  MasterMachine_IsMaster (cf_node_id (config_ (g_node g))) now (GetMasterState g).

End Group.
