(* ===== verification/Groups.v ===== *)
(** A group completes the proposals it accepts one after the other.

    [ProposeQueue] asserts that a completion belongs to a proposal, [Instance]
    that a proposal does not start while another is in progress.  The two keep
    each other's assertions: the queue hands over a handler only when the
    previous one was completed, and the instance completes each exactly once
    ([Proposals.v]). *)

From S2P Require Import Prelude Ballot Proto Storage Random TimerList Counter NodeState.
From S2P Require Import AcceptorModel ProposerModel LearnerModel LogModel InstanceModel Traces.
From S2P Require Import System Simulation MachinesModel ProposeQueue Proposals GroupModel.

Section Groups.
Context {FC : FixedCoding} {LD : LevelDB} {CM : CheckpointManager}.
Context {AL : Allocator} {ALL : AllocatorLaws}.
Context {PI : ProtoCodec PaxosInstance} {PCM : ProtoCodec MemberChangeMessage} {PS : ProtoCodec MasterState}.
Context {UM : UserMachines}.
Variable env : CheckpointEnv.

#[local] Existing Instance group_machines.
#[local] Notation gnode := (node (MM := group_machines env)).
#[local] Notation ggroup := (group env).

(** * What a group accepts *)

(** The proposal an event makes and the queue accepts. *)
Definition master_put (now : Z) (g : ggroup) : list (Handler * Callback) :=
  let state := GetMasterState env g in
  if ((mst_lease_time state <=? now)
      || ((mst_node_id state =? cf_node_id (config_ (g_node env g))) && negb (g_retrie_master env g)))
     && (Put HTryBeMaster MasterCallback (g_queue env g)).2
  then [(HTryBeMaster, MasterCallback)] else [].

Definition put_of (e : GroupEvent) (g : ggroup) : list (Handler * Callback) :=
  match e with
  | GPropose m v c cb =>
      if (Group_OnPropose env m v c (UserCallback cb) g).2
      then [(HPropose m v c, UserCallback cb)] else []
  | GChangeMember v c cb =>
      if (ChangeMember env v c (UserCallback cb) g).2
      then [(HPropose 1 (SerializeAsString (change_message v)) c, UserCallback cb)] else []
  | GSync now => if g_use_master env g then master_put now g else []
  | GMasterTurn now =>
      if g_waiting env g then []
      else match pop_expired now (adjust_clock now (g_master_timers env g)) with
           | None => []
           | Some _ => master_put now g
           end
  | _ => []
  end.

Fixpoint accepted (es : list GroupEvent) (g : ggroup) : list (Handler * Callback) :=
  match es with
  | [] => []
  | e :: es =>
      put_of e g ++ match group_step env e g with Some g => accepted es g | None => [] end
  end.

(** * The invariant *)

Record group_inv (acc : list (Handler * Callback)) (res : list (Z * Status * Z)) (g : ggroup) : Prop := {
  gi_queue : implements (g_queue env g) (mkFifo propose_capacity acc res);
  gi_node : propose_inv (g_node env g);
  gi_asserts : propose_asserts (out_ (g_node env g)) = [];
  gi_started : g_started env g = (length res + Nat.b2n (is_proposing (g_node env g)))%nat;
  gi_busy : is_proposing (g_node env g) = true -> (length res < length acc)%nat;
}.

Lemma omap_completions l : length (omap completion l) = length (completions l).
Proof.
  induction l as [|o l IH]; [done|]. destruct o; first [exact IH|exact (f_equal S IH)].
Qed.

Lemma complete_one (acc : list (Handler * Callback)) (res : list (Z * Status * Z)) q a :
  implements q (mkFifo propose_capacity acc res) -> (length res < length acc)%nat ->
  exists q', ProposeComplete a q = Some q' /\
    implements q' (mkFifo propose_capacity acc (res ++ [a])).
Proof.
  intros Hi Hl. pose proof (Complete_refines a q _ Hi) as H. simpl in H.
  rewrite (proj2 (Nat.eqb_neq _ _)) in H by lia.
  destruct (ProposeComplete a q) as [q'|]; [|done]. destruct H as [_ H]. by exists q'.
Qed.

(** The instance has run and [n] is its state; [b] tells whether a proposal was in
    progress or has just been started. *)
Lemma deliver_inv (acc : list (Handler * Callback)) (res : list (Z * Status * Z)) b (g : ggroup) (n : gnode) :
  implements (g_queue env g) (mkFifo propose_capacity acc res) ->
  out_ (g_node env g) `prefix_of` out_ n ->
  propose_inv n -> propose_asserts (out_ n) = [] ->
  load n = (length (completions (out_ (g_node env g))) + Nat.b2n b)%nat ->
  g_started env g = (length res + Nat.b2n b)%nat -> (b = true -> (length res < length acc)%nat) ->
  exists g' res', deliver env n g = Some g' /\ group_inv acc res' g'.
Proof.
  intros Hq [k Hk] Hn Ha Hl Hs Hb. unfold deliver. rewrite Hk, drop_app_length.
  assert (Hlen : (length (omap completion k) + Nat.b2n (is_proposing n) = Nat.b2n b)%nat).
  { unfold load in Hl. unfold completions in Hl. rewrite Hk, List.filter_app, length_app in Hl.
    rewrite omap_completions. unfold completions. lia. }
  destruct (omap completion k) as [|a [|a' l]]; simpl in Hlen.
  - simpl. do 2 eexists. split; [done|]. constructor; simpl; try done.
    + rewrite Hs, Hlen. done.
    + intros P. apply Hb. rewrite P in Hlen. destruct b; done.
  - destruct b; [|simpl in Hlen; lia]. simpl in Hlen.
    destruct (complete_one acc res (g_queue env g) a Hq (Hb eq_refl)) as (q' & E & Hq').
    simpl. rewrite E. simpl. do 2 eexists. split; [done|].
    destruct (is_proposing n) eqn:P; simpl in Hlen; [lia|].
    constructor; simpl; try done.
    + rewrite Hs, P, length_app. simpl. lia.
    + congruence.
  - destruct b; simpl in Hlen; lia.
Qed.

Lemma put_inv acc res (g : ggroup) h cb :
  group_inv acc res g ->
  group_inv (acc ++ (if (Put h cb (g_queue env g)).2 then [(h, cb)] else [])) res
    (with_queue env (Put h cb (g_queue env g)).1 g).
Proof.
  intros [Hq Hn Ha Hs Hb]. pose proof (Put_refines h cb _ _ Hq) as H. simpl in H.
  destruct (Put h cb (g_queue env g)) as [q b]. destruct (_ || _)%bool; simpl in H; destruct H as [-> H].
  - constructor; simpl; try done. intros P. specialize (Hb P). rewrite length_app. lia.
  - constructor; simpl; rewrite ?app_nil_r; done.
Qed.

(** Nothing but the queue, the instance and the count of started handlers matters. *)
Lemma same_inv acc res (g g' : ggroup) :
  g_queue env g' = g_queue env g -> g_node env g' = g_node env g -> g_started env g' = g_started env g ->
  group_inv acc res g -> group_inv acc res g'.
Proof. intros E1 E2 E3 [Hq Hn Ha Hs Hb]. constructor; rewrite ?E1, ?E2, ?E3; done. Qed.

Lemma master_inv acc res now (g : ggroup) :
  group_inv acc res g -> group_inv (acc ++ master_put now g) res (TryBeMaster env now g).
Proof.
  intros I. unfold TryBeMaster, master_put. destruct (_ || _)%bool; simpl.
  - pose proof (put_inv acc res g HTryBeMaster MasterCallback I) as H.
    destruct (Put HTryBeMaster MasterCallback (g_queue env g)) as [q b].
    destruct b; simpl in *; eapply same_inv; try exact H; done.
  - rewrite app_nil_r. eapply same_inv; [..|exact I]; done.
Qed.

Lemma handler_inv acc res r (g : ggroup) :
  group_inv acc res g -> exists g' res', run_handler env r g = Some g' /\ group_inv acc res' g'.
Proof.
  intros I. unfold run_handler. destruct (io_queued (g_queue env g) !! g_started env g) as [h|] eqn:E;
    [|by do 2 eexists]. destruct I as [Hq Hn Ha Hs Hb].
  assert (Hlt : is_proposing (g_node env g) = false /\ (length res < length acc)%nat).
  { destruct Hq as (_ & _ & _ & Hio & _). simpl in Hio. rewrite Hio in E.
    apply lookup_lt_Some in E. rewrite length_take, length_fmap in E.
    destruct (is_proposing (g_node env g)); simpl in Hs; [lia|]. split; [done|lia]. }
  destruct Hlt as [Hp Hl].
  assert (Hpropose : forall g0 mid v c, g_node env g0 = g_node env g -> g_queue env g0 = g_queue env g ->
    g_started env g0 = S (g_started env g) ->
    exists g' res', deliver env (OnPropose mid v c r (g_node env g)) g0 = Some g' /\ group_inv acc res' g').
  { intros g0 mid v c E1 E2 E3. destruct (OnPropose_load mid v c r _ Hn Hp) as (I1 & L1 & A1).
    apply (deliver_inv acc res true); rewrite ?E1, ?E2, ?E3; try done.
    - apply OnPropose_keeps.
    - by rewrite A1.
    - rewrite L1. unfold load. rewrite Hp. simpl. lia.
    - rewrite Hs, Hp. simpl. lia. }
  destruct h as [mid v c|]; [by apply Hpropose|].
  unfold TryBeMasterInLoop. cbv zeta. destruct (_ || _)%bool; [by apply Hpropose|].
  destruct (complete_one acc res (g_queue env g) (instance_id_ (g_node env g),
    Status_of kConflict already_master_text, 0) Hq Hl) as (q' & E' & Hq').
  simpl. rewrite E'. simpl. do 2 eexists. split; [done|]. constructor; simpl; try done.
  - rewrite Hs, Hp, length_app. simpl. lia.
  - congruence.
Qed.

Lemma node_inv acc res e (g : ggroup) :
  (match e with EvPropose _ _ _ _ => False | _ => True end) -> group_inv acc res g ->
  exists g' res', deliver env (handle e (g_node env g)) g = Some g' /\ group_inv acc res' g'.
Proof.
  intros He [Hq Hn Ha Hs Hb]. destruct (handle_steady e (g_node env g) He Hn) as (I & L & A).
  apply (deliver_inv acc res (is_proposing (g_node env g))); try done.
  - apply handle_keeps.
  - by rewrite A.
Qed.

Lemma step_inv acc res e (g : ggroup) :
  group_inv acc res g ->
  exists g' res', group_step env e g = Some g' /\ group_inv (acc ++ put_of e g) res' g'.
Proof.
  intros I. destruct e as [m v c cb|v c cb|r|e| |now|now|now|]; cbn [group_step put_of]; rewrite ?app_nil_r.
  - do 2 eexists. split; [done|]. unfold Group_OnPropose.
    pose proof (put_inv acc res g (HPropose m v c) (UserCallback cb) I) as H.
    by destruct (Put _ _ _).
  - do 2 eexists. split; [done|]. unfold ChangeMember, Group_OnPropose.
    pose proof (put_inv acc res g (HPropose 1 (SerializeAsString (change_message v)) c) (UserCallback cb) I) as H.
    by destruct (Put _ _ _).
  - by apply handler_inv with (r := r) in I.
  - destruct e; try (by eapply node_inv); by do 2 eexists.
  - do 2 eexists. split; [done|]. unfold run_callback. destruct (_ !! _) as [[[] [[]]]|];
      (eapply same_inv; [..|exact I]; done).
  - do 2 eexists. split; [done|]. unfold Group_Sync. destruct (g_use_master env g).
    + by apply master_inv.
    + by rewrite app_nil_r.
  - do 2 eexists. split; [done|]. unfold master_turn. destruct (g_waiting env g); [by rewrite app_nil_r|].
    cbv zeta. destruct (pop_expired _ _) as [[u tl]|].
    + apply (master_inv acc res now (with_master env _ _ _ tl g)). eapply same_inv; [..|exact I]; done.
    + rewrite app_nil_r. eapply same_inv; [..|exact I]; done.
  - do 2 eexists. split; [done|]. unfold TryBeMaster_resume.
    destruct (_ && _); [|exact I]. eapply same_inv; [..|exact I]; done.
  - do 2 eexists. split; [done|]. unfold RetireMaster. destruct (_ && _); [|exact I].
    eapply same_inv; [..|exact I]; done.
Qed.

Lemma run_inv es acc res (g : ggroup) :
  group_inv acc res g ->
  exists g' res', group_run env es g = Some g' /\ group_inv (acc ++ accepted es g) res' g'.
Proof.
  revert acc res g. induction es as [|e es IH]; intros acc res g I.
  - exists g, res. split; [done|]. simpl. by rewrite app_nil_r.
  - destruct (step_inv acc res e g I) as (g1 & res1 & E1 & I1). cbn [group_run accepted].
    rewrite E1. simpl. destruct (IH _ _ _ I1) as (g2 & res2 & E2 & I2). exists g2, res2.
    split; [done|]. by rewrite app_assoc.
Qed.

Lemma idle_propose_inv (n : gnode) :
  timer_heap (io_timers n) = ∅ -> timers_ok (io_timers n) -> is_proposing n = false -> context_ n = 0 ->
  propose_inv n.
Proof.
  intros Hh Hok Hp Hc. split; [|done]. split; [done|]. intros q t. rewrite Hh. by rewrite lookup_empty.
Qed.

(** * Leases *)

(** (C33) When two nodes can both hold the lease.  A node executes the value by which it became
    master counting its lease from [start]: from the clock reading its proposal carried
    ([ctx]), or, when the proposal has been given up (it timed out, or the value is replayed
    after a restart), from its own clock at the execution, [tp].  Another node executes the
    same value at [to] of the same clock.  If [start] is not later than [to], then at every
    moment at which the first node is master by [IsMaster] the other one only arms its timer
    for the end of the lease it saw, and refuses to propose itself from the loop.  If it is
    later, there is a moment at which the first node is still master and the other one
    queues and makes its own proposal to be master. *)
Theorem lease_overlap {PSL : ProtoCodecLaws MasterState} :
  forall (i tp to node lease ver : Z) (ctx : option Z) (s1 s2 s1' : MasterState) (g : ggroup),
  let v := SerializeAsString (mkMasterState ver node lease) in
  let start := match ctx with Some t0 => t0 | None => tp end in
  let me := cf_node_id (config_ (g_node env g)) in
  0 < lease -> 0 <= start -> 0 <= to -> start + lease < 2 ^ 64 -> to + lease < 2 ^ 64 -> me <> node ->
  MasterMachine_Execute tp i v ctx s1 = (s1', true) ->
  MasterMachine_Execute to i v None s2 = (GetMasterState env g, true) ->
  (start <= to -> forall t, MasterMachine_IsMaster node t s1' = true ->
     TryBeMaster env t g = arm_master env (to + lease) (g_propose_end env g) g /\
     forall r, now_ (g_node env g) = t ->
       TryBeMasterInLoop env r g =
         q ← ProposeComplete (instance_id_ (g_node env g), Status_of kConflict already_master_text, 0) (g_queue env g);
         Some (with_queue env q (with_now env t g))) /\
  (to < start -> exists t, start <= t /\ MasterMachine_IsMaster node t s1' = true /\
     (forall q, Put HTryBeMaster MasterCallback (g_queue env g) = (q, true) ->
        TryBeMaster env t g =
          with_master env (g_retrie_master env g) true false (g_master_timers env g) (with_queue env q g)) /\
     forall r, now_ (g_node env g) = t ->
       TryBeMasterInLoop env r g =
         deliver env (OnPropose 2 (SerializeAsString (mkMasterState i me (g_lease_timeout env g))) t r (g_node env g))
           (with_now env t g)).
Proof.
  intros i tp to node lease ver ctx s1 s2 s1' g v start me Hl Hs Ho Bs Bo Hme. unfold MasterMachine_Execute, v.
  rewrite parse_serialize. destruct (i <=? mst_version s1); [done|]. destruct (i <=? mst_version s2); [done|].
  intros [= <-] [= Eg]. unfold MasterMachine_IsMaster, TryBeMaster, TryBeMasterInLoop. rewrite <- Eg. simpl.
  fold start me. rewrite !add64_small, Z.eqb_refl, (proj2 (Z.eqb_neq node me)) by lia. simpl.
  split; intros H.
  - intros t Ht. apply Z.ltb_lt in Ht. rewrite (proj2 (Z.leb_gt (to + lease) t)) by lia. split; [done|].
    intros r ->. by rewrite (proj2 (Z.leb_gt (to + lease) t)) by lia.
  - exists (start + lease - 1). rewrite (proj2 (Z.leb_le (to + lease) (start + lease - 1))) by lia.
    split_and!; [lia|apply Z.ltb_lt; lia|by intros q ->|].
    intros r ->. by rewrite (proj2 (Z.leb_le (to + lease) (start + lease - 1))) by lia.
Qed.

End Groups.
