(* ===== verification/Reference.v ===== *)
(** Concrete instances of the third-party interfaces: little-endian coding, an
    in-memory ordered store, a bit-string message codec, the lowest-address
    allocator, state machines that accept everything under a fixed membership.
    They satisfy the laws the development assumes, and the runs of [Runs.v] are
    evaluated on them. *)

From S2P Require Import Prelude Ballot Proto Storage Random TimerList Counter NodeState.
From S2P Require Import System Simulation MachinesModel.
From Stdlib Require Import Sorted Ascii.

(** * Little-endian coding *)

Fixpoint le_encode (k : nat) (z : Z) : string :=
  match k with
  | O => ""
  | S k => String (ascii_of_N (Z.to_N (z mod 256))) (le_encode k (z / 256))
  end.

Fixpoint le_decode (k : nat) (s : string) : Z :=
  match k, s with
  | S k, String c s => Z.of_N (N_of_ascii c) + 256 * le_decode k s
  | _, _ => 0
  end.

#[export] Instance le_coding : FixedCoding := {|
  EncodeFixed32 := le_encode 4;
  DecodeFixed32 := le_decode 4;
  EncodeFixed64 := le_encode 8;
  DecodeFixed64 := le_decode 8;
|}.

Lemma ascii_byte z : 0 <= z < 256 -> Z.of_N (N_of_ascii (ascii_of_N (Z.to_N z))) = z.
Proof. intros H. rewrite N_ascii_embedding by lia. lia. Qed.

Lemma le_decode_encode k z s :
  0 <= z < 256 ^ Z.of_nat k -> le_decode k (le_encode k z +:+ s) = z.
Proof.
  revert z. induction k as [|k IH]; intros z Hz; [simpl; lia|].
  change (le_encode (S k) z +:+ s)
    with (String (ascii_of_N (Z.to_N (z mod 256))) (le_encode k (z / 256) +:+ s)).
  cbn [le_decode]. rewrite ascii_byte by (apply Z.mod_pos_bound; lia).
  rewrite IH; [pose proof (Z.div_mod z 256); lia|].
  rewrite Nat2Z.inj_succ, Z.pow_succ_r in Hz by lia. split.
  - apply Z.div_pos; lia.
  - apply Z.div_lt_upper_bound; lia.
Qed.

Lemma le_encode_length k z : String.length (le_encode k z) = k.
Proof. revert z. induction k; intros; simpl; [done|]. by f_equal. Qed.

Lemma le_decode_range k s : 0 <= le_decode k s < 256 ^ Z.of_nat k.
Proof.
  revert s. induction k as [|k IH]; intros s; [simpl; lia|].
  rewrite Nat2Z.inj_succ, Z.pow_succ_r by lia. destruct s as [|c s]; simpl.
  - lia.
  - pose proof (N_ascii_bounded c). specialize (IH s). lia.
Qed.

#[export] Instance le_coding_laws : FixedCodingLaws.
Proof.
  constructor.
  - intros z s H. apply (le_decode_encode 4). exact H.
  - intros z s H. apply (le_decode_encode 8). exact H.
  - intros. apply le_encode_length.
  - intros. apply le_encode_length.
  - intros s. apply (le_decode_range 8).
Qed.

(** * An in-memory store with the comparator's notion of key *)

Definition mem_apply (op : BatchOp) (m : gmap Z string) : gmap Z string :=
  match op with
  | BatchPut k v => <[DecodeFixed64 k := v]> m
  | BatchDelete k => delete (DecodeFixed64 k) m
  end.

Definition mem_get (k : string) (m : gmap Z string) : LStatus * string :=
  match m !! DecodeFixed64 k with Some v => (LOk, v) | None => (LNotFound, ""%string) end.

Definition mem_ids (m : gmap Z string) : list Z :=
  merge_sort Z.le (filter (fun z => 0 <= z < 2 ^ 64) (map_to_list m).*1).

#[export] Instance mem_db : LevelDB := {|
  ldb := gmap Z string;
  ldb_Put _ k v m := (mem_apply (BatchPut k v) m, LOk);
  ldb_Delete _ k m := (mem_apply (BatchDelete k) m, LOk);
  ldb_Write _ ops m := (foldl (fun m op => mem_apply op m) m ops, LOk);
  ldb_Get := mem_get;
  ldb_Keys m := EncodeFixed64 <$> mem_ids m;
|}.

Lemma mem_get_apply op m k :
  mem_get k (mem_apply op m) =
    match op with
    | BatchPut k' v => if same_key k' k then (LOk, v) else mem_get k m
    | BatchDelete k' => if same_key k' k then (LNotFound, ""%string) else mem_get k m
    end.
Proof.
  unfold mem_get. destruct op as [k' v|k']; cbn [mem_apply];
    destruct (same_key k' k) eqn:E.
  - apply same_key_spec in E. rewrite E. by rewrite lookup_insert_eq.
  - rewrite lookup_insert_ne; [done|]. intros H. apply same_key_spec in H. congruence.
  - apply same_key_spec in E. rewrite E. by rewrite lookup_delete_eq.
  - rewrite lookup_delete_ne; [done|]. intros H. apply same_key_spec in H. congruence.
Qed.

Lemma mem_get_batch ops m k :
  mem_get k (foldl (fun m op => mem_apply op m) m ops) =
    match batch_last ops k with
    | Some (Some v) => (LOk, v)
    | Some None => (LNotFound, ""%string)
    | None => mem_get k m
    end.
Proof.
  revert m. induction ops as [|op ops IH]; intros m; [done|].
  cbn [foldl batch_last]. rewrite IH. destruct (batch_last ops k) as [[]|]; [done..|].
  rewrite mem_get_apply. by destruct op as [k' v|k']; destruct (same_key k' k).
Qed.

Lemma mem_get_ok k m : (mem_get k m).1 = LOk -> is_Some (m !! DecodeFixed64 k).
Proof. unfold mem_get. destruct (m !! DecodeFixed64 k); [by eexists|discriminate]. Qed.

Lemma mem_ids_elem m z : z ∈ mem_ids m <-> in_u64 z /\ is_Some (m !! z).
Proof.
  unfold mem_ids. rewrite merge_sort_Permutation, list_elem_of_filter, list_elem_of_fmap.
  split.
  - intros (H & [k v] & -> & Hin). apply elem_of_map_to_list in Hin. split; [done|]. by eexists.
  - intros [H [v Hv]]. split; [done|]. exists (z, v). split; [done|].
    by apply elem_of_map_to_list.
Qed.

Lemma mem_ids_sorted m : StronglySorted Z.lt (mem_ids m).
Proof.
  assert (Hs : StronglySorted Z.le (mem_ids m)) by (apply (StronglySorted_merge_sort Z.le)).
  assert (Hn : NoDup (mem_ids m)).
  { unfold mem_ids. rewrite merge_sort_Permutation. apply NoDup_filter, NoDup_fst_map_to_list. }
  revert Hs Hn. generalize (mem_ids m). induction 1 as [|z l Hs IH Hall]; intros Hn; constructor.
  - apply IH. by apply NoDup_cons_1_2 in Hn.
  - apply NoDup_cons in Hn as [Hz _]. rewrite Forall_forall. rewrite Forall_forall in Hall. intros y Hy.
    specialize (Hall y Hy). assert (z <> y) by (intros ->; done). lia.
Qed.

Lemma sorted_encode l :
  (forall z, z ∈ l -> in_u64 z) -> StronglySorted Z.lt l ->
  StronglySorted (fun a b => SComparator_Compare a b = -1) (EncodeFixed64 <$> l).
Proof.
  intros Hr Hs. induction Hs as [|z l Hs IH Hall]; rewrite ?fmap_cons; constructor.
  - apply IH. set_solver.
  - rewrite Forall_forall. rewrite Forall_forall in Hall. intros k (y & -> & Hy)%list_elem_of_fmap.
    specialize (Hall y Hy). unfold SComparator_Compare.
    rewrite !decode_encode64' by (apply Hr; set_solver).
    destruct (Z.eqb_spec z y); [lia|]. destruct (Z.ltb_spec y z); [lia|done].
Qed.

#[export] Instance mem_db_laws : LevelDBLaws.
Proof.
  constructor.
  - intros sync k v db db' [= <-] k'. apply (mem_get_apply (BatchPut k v)).
  - intros sync k db db' [= <-] k'. apply (mem_get_apply (BatchDelete k)).
  - intros sync ops db db' [= <-] k. apply mem_get_batch.
  - intros db k k' E%same_key_spec. cbn [ldb_Get mem_db]. unfold mem_get. by rewrite E.
  - intros db k (z & -> & Hz)%list_elem_of_fmap. apply mem_ids_elem in Hz as [Hr [v Hv]].
    cbn [ldb_Get mem_db]. unfold mem_get. by rewrite decode_encode64', Hv.
  - intros db k Hk%mem_get_ok.
    assert (Hr : in_u64 (DecodeFixed64 k)) by apply (le_decode_range 8).
    exists (EncodeFixed64 (DecodeFixed64 k)). split.
    + apply list_elem_of_fmap. exists (DecodeFixed64 k). split; [done|].
      by apply mem_ids_elem.
    + apply same_key_spec. by rewrite decode_encode64'.
  - intros db. apply sorted_encode; [|apply mem_ids_sorted].
    intros z Hz. by apply mem_ids_elem in Hz as [].
Qed.

#[export] Instance mem_db_reliable : LevelDBReliable.
Proof. by constructor. Qed.

(** * A codec for log records *)

Fixpoint string_of_pos (p : positive) : string :=
  match p with
  | xH => ""
  | xO p => String "0" (string_of_pos p)
  | xI p => String "1" (string_of_pos p)
  end.

Fixpoint pos_of_string (s : string) : positive :=
  match s with
  | "" => 1
  | String c s => if decide (c = "1"%char) then (pos_of_string s)~1 else (pos_of_string s)~0
  end%positive.

Lemma pos_of_string_of_pos p : pos_of_string (string_of_pos p) = p.
Proof. induction p as [p IH|p IH|]; cbn; [by rewrite IH|by rewrite IH|done]. Qed.

#[export] Instance paxos_value_countable : Countable PaxosValue.
Proof.
  refine (inj_countable' (fun v => (value_id v, machine_id v, user_data v))
            (fun t => mkPaxosValue t.1.1 t.1.2 t.2) _). by intros [].
Defined.

#[export] Instance paxos_instance_countable : Countable PaxosInstance.
Proof.
  refine (inj_countable' (fun r => ((pi_instance_id r, pi_promised_id r),
            (pi_promised_node_id r, pi_accepted_id r), (pi_accepted_node_id r, pi_accepted_value r)))
          (fun t => mkPaxosInstance t.1.1.1 t.1.1.2 t.1.2.1 t.1.2.2 t.2.1 t.2.2) _).
  by intros [].
Defined.

Definition countable_codec `{Countable A} (dflt : A) : ProtoCodec A := {|
  SerializeAsString a := string_of_pos (encode a);
  ParseFromString s :=
    match decode (pos_of_string s) with Some a => (true, a) | None => (false, dflt) end;
|}.

#[export] Instance log_codec : ProtoCodec PaxosInstance :=
  countable_codec (mkPaxosInstance 0 0 0 0 0 PaxosValue_default).

#[export] Instance log_codec_laws : ProtoCodecLaws PaxosInstance.
Proof. intros a. cbn. by rewrite pos_of_string_of_pos, decode_encode. Qed.

(** * The lowest free address *)

Fixpoint first_free (fuel : nat) (p : Z) (s : gset Z) : Z :=
  match fuel with
  | O => p
  | S fuel => if decide (p ∈ s) then first_free fuel (p + 1) s else p
  end.

(** The fallback is beyond every address in use. *)
Definition beyond (s : gset Z) : Z := set_fold Z.max 0 s + 1.

#[export] Instance lowest_allocator : Allocator :=
  fun s => let p := first_free (size s) 1 s in if decide (p ∈ s) then beyond s else p.

Lemma set_fold_max_ge (s : gset Z) x : x ∈ s -> x <= set_fold Z.max 0 s.
Proof.
  revert x. apply (set_fold_ind_L (fun r s => forall x, x ∈ s -> x <= r)); [set_solver|].
  intros y X r Hy IH x Hx. apply elem_of_union in Hx as [->%elem_of_singleton|Hx]; [lia|].
  specialize (IH x Hx). lia.
Qed.

#[export] Instance lowest_allocator_laws : AllocatorLaws.
Proof.
  intros s. unfold new_ptr, lowest_allocator. case_decide as D; [|done].
  intros H. apply set_fold_max_ge in H. unfold beyond in H. lia.
Qed.

(** * State machines that accept every value *)

(** They keep nothing but the membership; its version numbers the checkpoint a node was
    started from. *)
#[export] Instance fixed_machines : MachineManager := {|
  mm := Membership;
  mm_GetMembership m := m;
  mm_Execute _ _ _ _ _ m := (m, true);
  mm_GetLatestCheckpointInstanceId m := ms_version m;
  mm_GetOldestCheckpointInstanceId _ := 0;
  mm_FinishMakeCheckpoint _ _ _ m := m;
|}.

#[export] Instance no_checkpoints : CheckpointManager := {|
  ckpt := unit;
  ckpt_ReceiveCheckpoint _ _ := Some (tt, true, []);
|}.

#[export] Instance fixed_machines_laws : MachineManagerLaws.
Proof. by split. Qed.

#[export] Instance no_checkpoints_laws : CheckpointManagerLaws.
Proof. intros m c c' b ps [= <- <- <-] d p H. by apply elem_of_nil in H. Qed.

(** A membership of the given ids. *)
Definition members_of (ids : list Z) : Membership :=
  mkMembership 0 (list_to_map ((fun i => (i, mkMemberMessage i "" 0 "")) <$> ids)).

Lemma members_of_dom ids : dom (ms_members (members_of ids)) = list_to_set ids.
Proof.
  unfold members_of. simpl. rewrite dom_list_to_map_L. f_equal.
  rewrite <- list_fmap_compose. apply list_fmap_id.
Qed.

(** * The other codecs, a checksum and user machines *)

#[export] Instance member_message_countable : Countable MemberMessage.
Proof.
  refine (inj_countable' (fun m => ((mb_id m, mb_host m), (mb_port m, mb_context m)))
            (fun t => mkMemberMessage t.1.1 t.1.2 t.2.1 t.2.2) _). by intros [].
Defined.

#[export] Instance member_change_type_countable : Countable MemberChangeType.
Proof.
  refine (inj_countable' (fun t => match t with MEMBER_ADD => inl true | MEMBER_REMOVE => inl false
              | MemberChangeType_unknown z => inr z end)
            (fun b : bool + Z => match b with inl true => MEMBER_ADD | inl false => MEMBER_REMOVE
              | inr z => MemberChangeType_unknown z end) _). by intros [].
Defined.

#[export] Instance member_change_message_eq_dec : EqDecision MemberChangeMessage.
Proof. solve_decision. Defined.

#[export] Instance member_change_message_countable : Countable MemberChangeMessage.
Proof.
  refine (inj_countable' (fun m => (mc_member m, mc_type m))
            (fun t => mkMemberChangeMessage t.1 t.2) _). by intros [].
Defined.

#[export] Instance membership_eq_dec : EqDecision Membership.
Proof. solve_decision. Defined.

#[export] Instance membership_countable : Countable Membership.
Proof.
  refine (inj_countable' (fun m => (ms_version m, ms_members m))
            (fun t => mkMembership t.1 t.2) _). by intros [].
Defined.

#[export] Instance master_state_countable : Countable MasterState.
Proof.
  refine (inj_countable' (fun m => (mst_version m, mst_node_id m, mst_lease_time m))
            (fun t => mkMasterState t.1.1 t.1.2 t.2) _). by intros [].
Defined.

Lemma countable_codec_laws `{Countable A} (dflt : A) : @ProtoCodecLaws A (countable_codec dflt).
Proof. intros a. cbn. by rewrite pos_of_string_of_pos, decode_encode. Qed.

#[export] Instance member_change_codec : ProtoCodec MemberChangeMessage :=
  countable_codec (mkMemberChangeMessage [] []).
#[export] Instance member_change_codec_laws : ProtoCodecLaws MemberChangeMessage :=
  countable_codec_laws _.
#[export] Instance membership_codec : ProtoCodec Membership := countable_codec (mkMembership 0 ∅).
#[export] Instance membership_codec_laws : ProtoCodecLaws Membership := countable_codec_laws _.
#[export] Instance master_codec : ProtoCodec MasterState := countable_codec (mkMasterState 0 0 0).
#[export] Instance master_codec_laws : ProtoCodecLaws MasterState := countable_codec_laws _.

Fixpoint byte_sum (s : string) : Z :=
  match s with "" => 0 | String c s => Z.of_N (N_of_ascii c) + byte_sum s end.

#[export] Instance sum_checksum : Crc32c := fun s => wrap32 (byte_sum s).
#[export] Instance sum_checksum_laws : Crc32cLaws.
Proof. intros s. apply Z.mod_pos_bound. lia. Qed.

(** A machine that appends every value to a list. *)
#[export] Instance list_machines : UserMachines := {|
  um := list string;
  um_Execute _ _ _ v _ l := (l ++ [v], true);
  um_Recover _ _ _ l := (l, true);
|}.

(** * A codec for whole messages *)

Definition type_code (t : PaxosMessageType) : Z + Z :=
  match t with
  | PREPARE => inl 0 | PREPARE_REPLY => inl 1 | ACCEPT => inl 2 | ACCEPT_REPLY => inl 3
  | NEW_CHOSEN_VALUE => inl 4 | ASK_FOR_LEARN => inl 5 | SEND_LEARNED_VALUE => inl 6
  | SEND_NOW_INSTANCE_ID => inl 7 | COMFIRM_ASK_FOR_LEARN => inl 8 | ASK_FOR_CHECKPOINT => inl 9
  | PaxosMessageType_unknown z => inr z
  end.

Definition type_of_code (z : Z + Z) : PaxosMessageType :=
  match z with
  | inl 0 => PREPARE | inl 1 => PREPARE_REPLY | inl 2 => ACCEPT | inl 3 => ACCEPT_REPLY
  | inl 4 => NEW_CHOSEN_VALUE | inl 5 => ASK_FOR_LEARN | inl 6 => SEND_LEARNED_VALUE
  | inl 7 => SEND_NOW_INSTANCE_ID | inl 8 => COMFIRM_ASK_FOR_LEARN | inl _ => ASK_FOR_CHECKPOINT
  | inr z => PaxosMessageType_unknown z
  end.

#[export] Instance paxos_message_type_countable : Countable PaxosMessageType.
Proof. refine (inj_countable' type_code type_of_code _). by intros []. Defined.

#[export] Instance paxos_message_countable : Countable PaxosMessage.
Proof.
  refine (inj_countable' (fun m => ((pm_type m, pm_node_id m, pm_instance_id m),
            (pm_proposal_id m, pm_proposal_node_id m, pm_pre_accepted_id m),
            (pm_pre_accepted_node_id m, pm_rejected_id m, pm_now_instance_id m),
            (pm_min_chosen_instance_id m, pm_value m)))
          (fun '((a, b, c), (d, e, f), (g, h, i), (j, k)) => mkPaxosMessage a b c d e f g h i j k) _).
  by intros [].
Defined.

#[export] Instance checkpoint_type_countable : Countable CheckpointMessageType.
Proof.
  refine (inj_countable' (fun t => match t with CHECKPOINT_BEGIN => inl 0 | CHECKPOINT_FILE => inl 1
              | CHECKPOINT_END => inl 2 | CHECKPOINT_COMFIRM => inl 3
              | CheckpointMessageType_unknown z => inr z end)
            (fun z : Z + Z => match z with inl 0 => CHECKPOINT_BEGIN | inl 1 => CHECKPOINT_FILE
              | inl 2 => CHECKPOINT_END | inl _ => CHECKPOINT_COMFIRM
              | inr z => CheckpointMessageType_unknown z end) _). by intros [].
Defined.

#[export] Instance checkpoint_message_countable : Countable CheckpointMessage.
Proof.
  refine (inj_countable' (fun m => ((cm_type m, cm_node_id m, cm_instance_id m),
            (cm_sequence_id m, cm_machine_id m, cm_file m), (cm_offset m, cm_data m, cm_flag m)))
          (fun '((a, b, c), (d, e, f), (g, h, i)) => mkCheckpointMessage a b c d e f g h i) _).
  by intros [].
Defined.

#[export] Instance content_countable : Countable Content.
Proof.
  refine (inj_countable' (fun c => (match ct_type c with PAXOS_MESSAGE => inl true | CHECKPOINT_MESSAGE => inl false
              | ContentType_unknown z => inr z end, ct_group_id c,
            (ct_paxos_msg c, ct_checkpoint_msg c)))
          (fun '(b, g, (p, k)) => mkContent (match (b : bool + Z) with inl true => PAXOS_MESSAGE
             | inl false => CHECKPOINT_MESSAGE | inr z => ContentType_unknown z end) g p k) _).
  by intros [[]].
Defined.

#[export] Instance content_codec : ProtoCodec Content :=
  countable_codec (paxos_content 0 PaxosMessage_default).
#[export] Instance content_codec_laws : ProtoCodecLaws Content := countable_codec_laws _.
