(* ===== verification/Runs.v ===== *)
(** Concrete runs of the group, evaluated on the reference instances. *)

From S2P Require Import Prelude Ballot Proto Storage Random TimerList Counter NodeState.
From S2P Require Import AcceptorModel ProposerModel LearnerModel LogModel InstanceModel.
From S2P Require Import Consensus System Simulation Refinement Progress Catchup Reference.

(** * Setting *)

Definition cfg (id : Z) : Config := mkConfig id 0 1000 true 5 100000 None.

Definition boot (ids : list Z) (id : Z) : node :=
  (Instance_Recover (new_node (cfg id) 0 ∅ (members_of ids) tt)).1.

Definition boot_all (ids : list Z) : gmap Z node :=
  list_to_map ((fun i => (i, boot ids i)) <$> ids).

(** The messages of a schedule. *)
Definition msg (t : PaxosMessageType) (from i p : Z) : PaxosMessage :=
  PaxosMessage_default <| pm_type := t |> <| pm_node_id := from |>
    <| pm_instance_id := i |> <| pm_proposal_id := p |>.

Definition deliver (m : PaxosMessage) : Event := EvContent (paxos_content 0 m).
Definition prepare (from i p : Z) : Event := deliver (msg PREPARE from i p).
Definition promise (from i p : Z) : Event := deliver (msg PREPARE_REPLY from i p).
Definition promise_with (from i p pre pre_node : Z) (v : PaxosValue) : Event :=
  deliver (msg PREPARE_REPLY from i p <| pm_pre_accepted_id := pre |>
             <| pm_pre_accepted_node_id := pre_node |> <| pm_value := v |>).
Definition reject (from i p r : Z) : Event :=
  deliver (msg PREPARE_REPLY from i p <| pm_rejected_id := r |>).
Definition accept (from i p : Z) (v : PaxosValue) : Event :=
  deliver (msg ACCEPT from i p <| pm_value := v |>).
Definition accepted (from i p : Z) : Event := deliver (msg ACCEPT_REPLY from i p).
Definition new_chosen (from i p : Z) : Event := deliver (msg NEW_CHOSEN_VALUE from i p).
Definition ask_for_learn (from i : Z) : Event := deliver (msg ASK_FOR_LEARN from i 0).
Definition learned (from i p p_node : Z) (v : PaxosValue) : Event :=
  deliver (msg SEND_LEARNED_VALUE from i p <| pm_proposal_node_id := p_node |> <| pm_value := v |>).

(** The user proposes [data] for machine 1001; the random draw is 256. *)
Definition propose (data : string) : Event := EvPropose 1001 data 0 256.

(** The value such a proposal makes: clock 0, the [k]-th proposal of the node. *)
Definition val (t k : Z) (data : string) : PaxosValue :=
  mkPaxosValue (Z.lor (Z.lor (Z.shiftl t 22) 256) k) 1001 data.

(** * Three schedules *)

Definition stale_reply_schedule : list (Z * Event) :=
  [ (3, propose "x"); (1, propose "w");
    (2, prepare 1 1 1);
    (3, prepare 1 1 1); (1, reject 3 1 1 1);
    (2, prepare 3 1 1); (3, promise 2 1 1);
    (2, accept 3 1 1 (val 0 1 "x")); (3, accepted 2 1 1);
    (1, EvClock 1000); (1, EvTimer); (1, propose "w2");
    (1, promise 2 1 1);
    (2, accept 1 1 2 (val 1000 2 "w2")); (1, accepted 2 1 2) ].

Definition reused_ballot_schedule : list (Z * Event) :=
  [ (1, propose "v"); (2, prepare 1 1 1); (1, promise 2 1 1);
    (2, accept 1 1 1 (val 0 1 "v"));
    (1, EvClock 1000); (1, EvTimer);
    (3, propose "x"); (2, prepare 3 1 1);
    (3, promise_with 2 1 1 1 1 (val 0 1 "v"));
    (2, accept 3 1 1 (val 0 1 "v")); (3, accepted 2 1 1);
    (1, propose "w");
    (1, accepted 2 1 1) ].

Definition inference_schedule : list (Z * Event) :=
  [ (1, propose "v"); (2, prepare 1 1 1); (4, prepare 1 1 1);
    (1, promise 2 1 1); (1, promise 4 1 1); (2, accept 1 1 1 (val 0 1 "v"));
    (3, propose "u"); (4, prepare 3 1 1); (5, prepare 3 1 1);
    (3, promise 4 1 1); (3, promise 5 1 1);
    (4, accept 3 1 1 (val 0 1 "u")); (5, accept 3 1 1 (val 0 1 "u"));
    (3, accepted 4 1 1); (3, accepted 5 1 1);
    (1, EvSyncData false); (3, ask_for_learn 1 1);
    (1, learned 3 1 1 3 (val 0 1 "u"));
    (1, propose "w");
    (2, accept 1 2 1 (val 0 2 "w")) ].

(** A run with nothing unusual: node 1 proposes twice, the second time without
    a prepare phase; node 2 follows, node 3 learns both values from node 1. *)
Definition happy_schedule : list (Z * Event) :=
  [ (1, propose "a"); (2, prepare 1 1 1); (1, promise 2 1 1);
    (2, accept 1 1 1 (val 0 1 "a")); (1, accepted 2 1 1); (2, new_chosen 1 1 1);
    (1, propose "b"); (2, accept 1 2 1 (val 0 2 "b")); (1, accepted 2 2 1);
    (3, EvSyncData false); (1, ask_for_learn 3 1); (1, EvLearnTask);
    (3, deliver (msg SEND_NOW_INSTANCE_ID 1 1 0 <| pm_now_instance_id := 3 |>));
    (1, deliver (msg COMFIRM_ASK_FOR_LEARN 3 1 0)); (1, EvLearnTask);
    (3, learned 1 1 1 1 (val 0 1 "a")); (3, learned 1 2 1 1 (val 0 2 "b")) ].

Definition happy_end : gmap Z node :=
  default ∅ (clean_run happy_schedule (boot_all [1; 2; 3])).

(** Node 1 at the end of that run. *)
Definition happy_node : node := default (boot [1; 2; 3] 1) (happy_end !! 1).

(** * The runs start fresh *)

Lemma boot_recovers ids id :
  Instance_Recover (new_node (cfg id) 0 ∅ (members_of ids) tt) = (boot ids id, true).
Proof. unfold boot. rewrite recover_empty; [done|done|done|]. by vm_compute. Qed.

Lemma boot_all_fresh ids : fresh_system (list_to_set ids) (boot_all ids).
Proof.
  split.
  - unfold boot_all. rewrite dom_list_to_map_L, <- list_fmap_compose. f_equal. apply list_fmap_id.
  - intros me n Hn. unfold boot_all in Hn.
    apply elem_of_list_to_map_2, list_elem_of_fmap in Hn as (id & [= -> ->] & _).
    exists (cfg id), 0, ∅, (members_of ids), tt.
    split_and!; [done|by vm_compute|by vm_compute|done|apply members_of_dom|done|].
    apply boot_recovers.
Qed.

Lemma executed_intro s me i v : bool_decide ((i, v) ∈ executions s me) = true -> executed s me i v.
Proof.
  intros H%bool_decide_eq_true. unfold executions in H.
  destruct (s !! me) as [n|] eqn:E; [by eapply exec_log_executed|by apply elem_of_nil in H].
Qed.

Lemma some_default {A} (d : A) (o : option A) : bool_decide (is_Some o) = true -> o = Some (default d o).
Proof. destruct o; [done|]. intros []%bool_decide_eq_true. done. Qed.

Lemma happy_clean : clean_run happy_schedule (boot_all [1; 2; 3]) = Some happy_end.
Proof. apply some_default. vm_compute. reflexivity. Qed.

(** * Witnesses of the theorems on clean runs *)

Lemma clean_run_refines_witness :
  exists a0 a, ainit a0 /\ rtc (astep_any (list_to_set [1; 2; 3])) a0 a /\
    chosen (list_to_set [1; 2; 3]) a 2 (val 0 2 "b").
Proof.
  destruct (clean_run_refines (list_to_set [1; 2; 3]) (boot_all [1; 2; 3]) happy_end happy_schedule
              (boot_all_fresh _) happy_clean) as (a0 & a & H0 & S & _ & Hch).
  exists a0, a. split; [exact H0|]. split; [exact S|]. apply (Hch 3).
  apply executed_intro. vm_compute. reflexivity.
Defined.

Lemma executed_values_agree_witness :
  executed happy_end 1 2 (val 0 2 "b") /\ executed happy_end 3 2 (val 0 2 "b") /\
  val 0 2 "b" = val 0 2 "b".
Proof.
  assert (H1 : executed happy_end 1 2 (val 0 2 "b"))
    by (apply executed_intro; vm_compute; reflexivity).
  assert (H3 : executed happy_end 3 2 (val 0 2 "b"))
    by (apply executed_intro; vm_compute; reflexivity).
  split; [exact H1|]. split; [exact H3|].
  exact (executed_values_agree (list_to_set [1; 2; 3]) (boot_all [1; 2; 3]) happy_end happy_schedule
           1 3 2 _ _ (boot_all_fresh _) happy_clean H1 H3).
Defined.

Lemma executions_prefix_witness :
  length (executions happy_end 1) = 2%nat /\ length (executions happy_end 2) = 1%nat /\
  (executions happy_end 1 `prefix_of` executions happy_end 2 \/
   executions happy_end 2 `prefix_of` executions happy_end 1).
Proof.
  split; [vm_compute; reflexivity|]. split; [vm_compute; reflexivity|].
  exact (proj2 (executions_prefix (list_to_set [1; 2; 3]) (boot_all [1; 2; 3]) happy_end
                  happy_schedule 1 2 (boot_all_fresh _) happy_clean)).
Defined.

(** After [happy_schedule] node 3 has learned both values and proposes the third; node 1, whose
    promise is lower, makes a majority with it. *)
Definition third_node : node := default (boot [1; 2; 3] 3) (happy_end !! 3).
Definition third_value : PaxosValue := mkPaxosValue (GetPaxosValueId 256 third_node).2 1001 "c".

Lemma third_in : happy_end !! 3 = Some third_node.
Proof. apply some_default. vm_compute. reflexivity. Qed.

Lemma happy_in : happy_end !! 1 = Some happy_node.
Proof. apply some_default. vm_compute. reflexivity. Qed.

Lemma third_ready : each (fun _ => ready (instance_id_ third_node) (Ballot (round_id (proposer_ third_node)) 3)) [3; 1] happy_end.
Proof.
  intros q [->|[->|Hq]%elem_of_cons]%elem_of_cons; [| |by apply elem_of_nil in Hq].
  - exists third_node. split; [exact third_in|].
    split_and!; [done| |vm_compute; reflexivity|vm_compute; reflexivity].
    apply ballot_geb_spec. vm_compute. reflexivity.
  - exists happy_node. split; [exact happy_in|].
    split_and!; [vm_compute; reflexivity| |vm_compute; reflexivity|vm_compute; reflexivity].
    apply ballot_geb_spec. vm_compute. reflexivity.
Qed.

Lemma third_candidate v : candidate happy_end [3; 1] third_value v -> v = third_value.
Proof.
  intros [->|(q & n & Hq & Hn & Hpos & _)]; [done|]. exfalso.
  assert (Hno : forall m, happy_end !! q = Some m -> GetProposalId (accepted_ballot (acceptor_ m)) <= 0 ->
    False) by (intros m Hm Hle; rewrite Hn in Hm; injection Hm as <-; lia).
  apply elem_of_cons in Hq as [->|[->|Hq]%elem_of_cons]; [| |by apply elem_of_nil in Hq].
  - apply (Hno _ third_in). vm_compute. congruence.
  - apply (Hno _ happy_in). vm_compute. congruence.
Qed.

Lemma proposal_succeeds_witness :
  exists evs s, follows (round_plan 3 (round_id (proposer_ third_node)) 3 (skips_prepare (proposer_ third_node)) [1]) evs /\
    run ((3, EvPropose 1001 "c" 7 256) :: evs) happy_end = Some s /\
    executed s 3 3 third_value /\ executed s 1 3 third_value /\
    exists n, s !! 3 = Some n /\ OProposeComplete 3 Status_OK 7 ∈ out_ n.
Proof.
  destruct (proposal_succeeds (list_to_set [1; 2; 3]) (boot_all [1; 2; 3]) happy_end happy_schedule 3 third_node [1]
    1001 "c" 7 256 (boot_all_fresh _) happy_clean third_in) as (evs & s & v & Hp & Hr & Hv & Hall & n & Hn & Ho).
  - vm_compute. reflexivity.
  - vm_compute. congruence.
  - apply NoDup_cons. split; [set_solver|]. apply NoDup_singleton.
  - vm_compute. reflexivity.
  - exact third_ready.
  - done.
  - apply third_candidate in Hv as ->.
    assert (Ei : instance_id_ third_node = 3) by (vm_compute; reflexivity).
    rewrite Ei in Hp, Hall, Ho. exists evs, s. split; [exact Hp|]. split; [exact Hr|].
    split; [exact (proj1 (Hall 3 (list_elem_of_here 3 [1])))|].
    split; [exact (proj1 (Hall 1 (list_elem_of_further 1 3 [1] (list_elem_of_here 1 []))))|].
    exists n. split; [exact Hn|].
    fold third_value in Ho. rewrite Z.eqb_refl in Ho. exact Ho.
Defined.

(** Half-way through [happy_schedule] node 1 has executed two instances, node 3 none. *)
Definition behind : gmap Z node := default ∅ (clean_run (take 9 happy_schedule) (boot_all [1; 2; 3])).
Definition ahead_node : node := default (boot [1; 2; 3] 1) (behind !! 1).
Definition behind_node : node := default (boot [1; 2; 3] 3) (behind !! 3).

Lemma behind_clean : clean_run (take 9 happy_schedule) (boot_all [1; 2; 3]) = Some behind.
Proof. apply some_default. vm_compute. reflexivity. Qed.

Lemma ahead_in : behind !! 1 = Some ahead_node.
Proof. apply some_default. vm_compute. reflexivity. Qed.

Lemma behind_in : behind !! 3 = Some behind_node.
Proof. apply some_default. vm_compute. reflexivity. Qed.

Lemma lagging_node_catches_up_witness :
  instance_id_ behind_node = 1 /\
  exists evs s n, length evs = 8%nat /\ run evs behind = Some s /\ s !! 3 = Some n /\ instance_id_ n = 3 /\
    executed s 3 1 (val 0 1 "a") /\ executed s 3 2 (val 0 2 "b").
Proof.
  split; [vm_compute; reflexivity|].
  destruct (lagging_node_catches_up (list_to_set [1; 2; 3]) (boot_all [1; 2; 3]) behind (take 9 happy_schedule)
    1 3 ahead_node behind_node (boot_all_fresh _) behind_clean ahead_in behind_in)
    as (evs & s & n & Hp & Hr & Hn & Hi & Hall).
  - vm_compute. reflexivity.
  - vm_compute. congruence.
  - vm_compute. reflexivity.
  - vm_compute. reflexivity.
  - vm_compute. reflexivity.
  - vm_compute. reflexivity.
  - vm_compute. reflexivity.
  - vm_compute. reflexivity.
  - vm_compute. reflexivity.
  - reflexivity.
  - assert (Ei : instance_id_ ahead_node = 3) by (vm_compute; reflexivity). rewrite Ei in Hi.
    exists evs, s, n. split; [symmetry; exact (Forall2_length _ _ _ Hp)|]. split; [exact Hr|]. split; [exact Hn|]. split; [exact Hi|].
    split; apply Hall, executed_intro; vm_compute; reflexivity.
Defined.

(** * Without one of the conditions, agreement is lost *)

(** Two nodes executed different values in instance 1. *)
Definition disagree (s : gmap Z node) (n1 n2 : Z) : bool :=
  match executions s n1, executions s n2 with
  | (i1, v1) :: _, (i2, v2) :: _ =>
      bool_decide (i1 = 1) && bool_decide (i2 = 1) && negb (bool_decide (v1 = v2))
  | _, _ => false
  end.

Lemma disagree_spec s n1 n2 :
  disagree s n1 n2 = true ->
  exists v1 v2, executed s n1 1 v1 /\ executed s n2 1 v2 /\ v1 <> v2.
Proof.
  unfold disagree. destruct (executions s n1) as [|[i1 v1] l1] eqn:E1; [done|].
  destruct (executions s n2) as [|[i2 v2] l2] eqn:E2; [done|]. intros H. reflect_bools.
  repeat match goal with
  | H : bool_decide _ = true |- _ => apply bool_decide_eq_true in H
  | H : bool_decide _ = false |- _ => apply bool_decide_eq_false in H
  end. subst. exists v1, v2.
  split_and!; [..|done]; apply executed_intro, bool_decide_eq_true; [rewrite E1|rewrite E2]; set_solver.
Qed.

(** A schedule that [ok] lets through and that ends in disagreement. *)
Lemma broken_run ok evs s0 n1 n2 :
  match checked_run ok evs s0 with Some s => disagree s n1 n2 | None => false end = true ->
  exists s v1 v2, checked_run ok evs s0 = Some s /\
    executed s n1 1 v1 /\ executed s n2 1 v2 /\ v1 <> v2.
Proof.
  destruct (checked_run ok evs s0) as [s|]; [|done]. intros (v1 & v2 & H)%disagree_spec.
  exists s, v1, v2. tauto.
Qed.

(** (C13) Replies are not matched with the round they answer: [OnPrepareReply]
    compares the instance but not the proposal id of a reply.  With three nodes and
    no other condition of clean runs violated, a late promise for an old ballot is
    counted for a new one, and two nodes execute different values in instance 1. *)
Theorem stale_reply_breaks_agreement :
  exists s v1 v2,
    checked_run (fun s n e => inferences_fine s n e && ballots_fine s n e && limits_fine s n e)
      stale_reply_schedule (boot_all [1; 2; 3]) = Some s /\
    executed s 1 1 v1 /\ executed s 3 1 v2 /\ v1 <> v2.
Proof. apply broken_run. vm_compute. reflexivity. Qed.

(** (C14) A ballot can carry two values: after a proposal times out, [skip_prepare_]
    is still set, and the next [NewPropose] sends another value in the same instance
    and ballot.  With three nodes and no other condition violated, two nodes execute
    different values in instance 1. *)
Theorem reused_ballot_breaks_agreement :
  exists s v1 v2,
    checked_run (fun s n e => replies_fine s n e && inferences_fine s n e && limits_fine s n e)
      reused_ballot_schedule (boot_all [1; 2; 3]) = Some s /\
    executed s 1 1 v1 /\ executed s 3 1 v2 /\ v1 <> v2.
Proof. apply broken_run. vm_compute. reflexivity. Qed.

(** (C15) A request of the next instance does not prove the present one chosen: the
    acceptor concludes from a PREPARE or ACCEPT of instance i+1 in the ballot it
    accepted in instance i that its value was chosen, but the sender may have learned
    another value.  With five nodes and no other condition violated, two nodes
    execute different values in instance 1. *)
Theorem inference_breaks_agreement :
  exists s v1 v2,
    checked_run (fun s n e => replies_fine s n e && ballots_fine s n e && limits_fine s n e)
      inference_schedule (boot_all [1; 2; 3; 4; 5]) = Some s /\
    executed s 2 1 v1 /\ executed s 3 1 v2 /\ v1 <> v2.
Proof. apply broken_run. vm_compute. reflexivity. Qed.
