(* ===== verification/RestartRuns.v ===== *)
(** Restarts of a node on its database, on the reference instances: runs in which the
    restarted nodes continue as [Recovery.v] and [Restarts.v] say, one in which a node forgets
    a promise because the record of a learned value overwrote it, and one in which a node
    that starts from a checkpoint passes a value it only accepted off as learned. *)

From S2P Require Import Prelude Ballot Proto Storage Random TimerList Counter NodeState.
From S2P Require Import AcceptorModel ProposerModel LearnerModel LogModel InstanceModel.
From S2P Require Import Consensus System Simulation Refinement Recovery Restarts Reference Runs.

(** Node [id] of the group [ids] is started again on the database of [n]; its machines
    have no checkpoint. *)
Definition restart (ids : list Z) (id : Z) (n : node) : node * bool :=
  Instance_Recover (new_node (cfg id) 0 (db_ n) (members_of ids) tt).

(** * A restart that continues *)

(** After the values of [happy_schedule], node 3 proposes and node 1 votes for its value. *)
Definition vote_schedule : list (Z * Event) :=
  happy_schedule ++ [ (3, propose "c"); (1, prepare 3 3 1); (3, promise 1 3 1); (1, accept 3 3 1 (val 0 1 "c")) ].

Definition vote_end : gmap Z node := default ∅ (clean_run vote_schedule (boot_all [1; 2; 3])).
Definition voter : node := default (boot [1; 2; 3] 1) (vote_end !! 1).

Lemma vote_clean : clean_run vote_schedule (boot_all [1; 2; 3]) = Some vote_end.
Proof. apply some_default. vm_compute. reflexivity. Qed.

Lemma voter_in : vote_end !! 1 = Some voter.
Proof. apply some_default. vm_compute. reflexivity. Qed.

Lemma mem_reads (db : ldb) (k : string) : (ldb_Get k db).1 <> LIOError.
Proof. cbn [ldb_Get mem_db]. unfold mem_get. by case_match. Qed.

Lemma restart_replays_witness :
  exists n', restart [1; 2; 3] 1 voter = (n', true) /\
    exec_log (out_ n') = [(1, val 0 1 "a"); (2, val 0 2 "b")] /\
    instance_id_ n' = 3 /\ promised_ballot (acceptor_ n') = Ballot 1 3 /\
    accepted_value (acceptor_ n') = val 0 1 "c".
Proof.
  destruct (restart_replays (list_to_set [1; 2; 3]) (boot_all [1; 2; 3]) vote_end vote_schedule 1 voter
              (cfg 1) 0 (members_of [1; 2; 3]) tt (boot_all_fresh _) vote_clean voter_in)
    as (n' & H1 & _ & H2 & _ & _ & H3);
    [vm_compute; split; congruence|vm_compute; congruence|apply mem_reads|].
  destruct H3 as (E1 & E2 & _ & E4 & _); [vm_compute; reflexivity|vm_compute; reflexivity|].
  exists n'. split; [exact H1|]. rewrite H2, E1, E2, E4.
  split_and!; vm_compute; reflexivity.
Defined.

(** * Restarts in a run *)

Definition events (evs : list (Z * Event)) : list GroupEvent := (fun x => GEvent x.1 x.2) <$> evs.

(** Node 1 restarts in its instance, with its vote; node 2, which has executed two values and
    has no record of the third instance, goes back to the second.  Then node 2 is told again
    that the second value is chosen, the vote of node 1 is counted, and both learn the third
    value. *)
Definition restarts_schedule : list GroupEvent :=
  events (vote_schedule ++ [ (2, new_chosen 1 2 1) ]) ++
  [ GRestart 1 7 (members_of [1; 2; 3]) tt; GRestart 2 8 (members_of [1; 2; 3]) tt ] ++
  events [ (2, new_chosen 1 2 1); (3, accepted 1 3 1); (1, new_chosen 3 3 1);
           (2, EvSyncData false); (1, ask_for_learn 2 3); (2, learned 1 3 1 3 (val 0 1 "c")) ].

Definition restarts_end : gmap Z node := default ∅ (restart_run restarts_schedule (boot_all [1; 2; 3])).

Lemma restarts_fine : restart_run restarts_schedule (boot_all [1; 2; 3]) = Some restarts_end.
Proof. apply some_default. vm_compute. reflexivity. Qed.

(** Both executed the first two values again, and all executions agree. *)
Lemma restarts_agree_witness :
  restart_run restarts_schedule (boot_all [1; 2; 3]) = Some restarts_end /\
  (executions restarts_end 1).*1 = [1; 2; 1; 2; 3] /\ (executions restarts_end 2).*1 = [1; 2; 1; 2; 3] /\
  forall n1 n2 i v1 v2, executed restarts_end n1 i v1 -> executed restarts_end n2 i v2 -> v1 = v2.
Proof.
  split; [exact restarts_fine|]. split; [vm_compute; reflexivity|]. split; [vm_compute; reflexivity|].
  exact (proj2 (restarts_agree (list_to_set [1; 2; 3]) (boot_all [1; 2; 3]) restarts_end restarts_schedule
    (boot_all_fresh _) restarts_fine)).
Defined.

(** Node 1 alone, at the moment of its restart. *)
Definition voter_again : node := default voter (restarted 7 (members_of [1; 2; 3]) tt voter).

Lemma voter_restarts : restarted 7 (members_of [1; 2; 3]) tt voter = Some voter_again.
Proof. apply some_default. vm_compute. reflexivity. Qed.

Lemma vote_run : restart_run (events vote_schedule) (boot_all [1; 2; 3]) = Some vote_end.
Proof. unfold events. rewrite clean_restart_run. exact vote_clean. Qed.

Lemma answered_restart_is_fine_witness :
  promise_kept voter voter_again = true /\ instance_kept voter voter_again = true /\
  requests_kept voter voter_again = true /\ restart_fine voter voter_again = true.
Proof.
  destruct (answered_restart_is_fine (list_to_set [1; 2; 3]) (boot_all [1; 2; 3]) vote_end
    (events vote_schedule) 1 7 (members_of [1; 2; 3]) tt voter voter_again
    (boot_all_fresh _) vote_run voter_in) as (H1 & H2 & H3 & H4);
    [vm_compute; reflexivity|vm_compute; split; congruence|exact voter_restarts|].
  split_and!; [exact H1|exact H2|exact H3|]. rewrite H4. vm_compute. reflexivity.
Defined.

(** * A restart that breaks agreement *)

Definition five : list Z := [1; 2; 3; 4; 5].

(** Node 2 has two votes for "w" in ballot (1,2); node 5 gets a majority for "v" in
    ballot (1,5), with the promise of node 3; node 3 learns "v" from node 1. *)
Definition forget_schedule : list (Z * Event) :=
  [ (2, propose "w"); (1, prepare 2 1 1); (3, prepare 2 1 1);
    (2, promise 1 1 1); (2, promise 3 1 1);
    (1, accept 2 1 1 (val 0 1 "w")); (2, accepted 1 1 1);
    (5, propose "v"); (3, prepare 5 1 1); (4, prepare 5 1 1);
    (5, promise 3 1 1); (5, promise 4 1 1);
    (4, accept 5 1 1 (val 0 1 "v")); (1, accept 5 1 1 (val 0 1 "v"));
    (5, accepted 4 1 1); (5, accepted 1 1 1); (1, new_chosen 5 1 1);
    (3, EvSyncData false); (1, ask_for_learn 3 1); (3, learned 1 1 1 5 (val 0 1 "v")) ].

(** Node 3 restarts; then the ACCEPT of node 2 reaches it. *)
Definition forget_run : list GroupEvent :=
  events forget_schedule ++ [ GRestart 3 0 (members_of five) tt ] ++
  events [ (3, accept 2 1 1 (val 0 1 "w")); (2, accepted 3 1 1) ].

(** A schedule whose restarts [fine] accepts and that ends in disagreement. *)
Lemma broken_restart fine gs s0 n1 n2 :
  match checked_restart_run fine gs s0 with Some s => disagree s n1 n2 | None => false end = true ->
  exists s v1 v2, checked_restart_run fine gs s0 = Some s /\
    executed s n1 1 v1 /\ executed s n2 1 v2 /\ v1 <> v2.
Proof.
  destruct (checked_restart_run fine gs s0) as [s|]; [|done]. intros (v1 & v2 & H)%disagree_spec.
  exists s, v1, v2. tauto.
Qed.

(** (C16) A restart can make a node forget a promise: [Learner::WriteToDB] stores the
    sender of a learned value as the node of the promised and of the accepted ballot,
    over the record with the acceptor's promise.  With five nodes, every event clean and no
    other condition on restarts violated: node 3 had promised ballot (1,5), recovers in
    instance 1 with the promise (1,1), accepts a late ACCEPT of ballot (1,2),
    and two nodes execute different values in instance 1. *)
Theorem restart_breaks_agreement :
  exists s v1 v2,
    checked_restart_run
      (fun n n' => instance_kept n n' && requests_kept n n' && bounds_kept n n' && trace_fine (out_ n'))
      forget_run (boot_all five) = Some s /\
    executed s 5 1 v1 /\ executed s 2 1 v2 /\ v1 <> v2.
Proof. apply broken_restart. vm_compute. reflexivity. Qed.

(** * A checkpoint that breaks agreement *)

(** Nodes 1 and 3 vote for "v" in ballot (1,1); node 5 gets a majority for "w" in ballot
    (1,5) without them. *)
Definition stale_record_schedule : list (Z * Event) :=
  [ (1, propose "v"); (2, prepare 1 1 1); (3, prepare 1 1 1);
    (1, promise 2 1 1); (1, promise 3 1 1); (3, accept 1 1 1 (val 0 1 "v"));
    (5, propose "w"); (2, prepare 5 1 1); (4, prepare 5 1 1);
    (5, promise 2 1 1); (5, promise 4 1 1);
    (2, accept 5 1 1 (val 0 1 "w")); (4, accept 5 1 1 (val 0 1 "w"));
    (5, accepted 2 1 1); (5, accepted 4 1 1) ].

(** Node 3 starts from a checkpoint of instance 1; then node 1 asks it for the value. *)
Definition stale_record_run : list GroupEvent :=
  events stale_record_schedule ++ [ GRestart 3 0 (mkMembership 1 (ms_members (members_of five))) tt ] ++
  events [ (1, EvSyncData false); (3, ask_for_learn 1 1); (1, learned 3 1 1 1 (val 0 1 "v")) ].

(** (C17) A checkpoint does not clear the log: a node that has accepted a value in its
    instance and then starts from a checkpoint beyond it ([LogManager::Recover] takes the
    checkpoint's instance and leaves the record) answers [ASK_FOR_LEARN] with that
    record, although its value was never chosen.  With five nodes, every event clean and no
    other condition on restarts violated, two nodes execute different values in instance 1. *)
Theorem checkpoint_breaks_agreement :
  exists s v1 v2,
    checked_restart_run
      (fun n n' => promise_kept n n' && requests_kept n n' && bounds_kept n n' && trace_fine (out_ n'))
      stale_record_run (boot_all five) = Some s /\
    executed s 1 1 v1 /\ executed s 5 1 v2 /\ v1 <> v2.
Proof. apply broken_restart. vm_compute. reflexivity. Qed.
