(* ===== verification/Witnesses.v ===== *)
(** Concrete instances of the component theorems: each applies a theorem on the
    reference implementations of [Reference.v], where its hypotheses hold. *)

From S2P Require Import Prelude Ballot Proto Storage Random TimerList Counter NodeState.
From S2P Require Import AcceptorModel ProposerModel LearnerModel LogModel InstanceModel.
From S2P Require Import Util Loops Runtime Reference Runs.

(** * Storage *)

(** Instances 3 and 7 are stored, and the minimum chosen id. *)
Definition sample_db : ldb :=
  (DB_SetMinChosenInstanceId 2 (DB_Put true 7 "b" (DB_Put true 3 "a" (∅ : gmap Z string)).1).1).1.

Lemma GetMaxInstanceId_spec_witness :
  DB_GetMaxInstanceId 0 sample_db = (0, 7) /\
  (forall k, (ldb_Get k sample_db).1 = LOk -> DecodeFixed64 k <> kMinChosenKey ->
     DecodeFixed64 k <= 7).
Proof.
  pose proof (GetMaxInstanceId_spec sample_db 0) as H.
  assert (E : DB_GetMaxInstanceId 0 sample_db = (0, 7)) by (vm_compute; reflexivity).
  split; [exact E|]. rewrite E in H.
  destruct H as [(_ & _ & _ & H)|(H & _)]; [exact H|discriminate H].
Defined.

Lemma MinChosen_roundtrip_witness :
  DB_GetMinChosenInstanceId 0 (DB_SetMinChosenInstanceId 2 sample_db).1 = (0, 2) /\
  DB_Get 9 (DB_Put true 9 "c" (DB_SetMinChosenInstanceId 2 sample_db).1).1 = (0, "c"%string).
Proof.
  destruct (MinChosen_roundtrip 2 9 "c" true 0 sample_db (DB_SetMinChosenInstanceId 2 sample_db).1
              (DB_Put true 9 "c" (DB_SetMinChosenInstanceId 2 sample_db).1).1)
    as (H1 & _ & _ & H2);
    [vm_compute; split; congruence|vm_compute; split; congruence|vm_compute; congruence
    |vm_compute; reflexivity|vm_compute; reflexivity|].
  split; [exact H1|exact H2].
Defined.

(** * Timers *)

Lemma timers_ok_empty : timers_ok (TimerList_new (CB := nat) 0).
Proof.
  constructor; simpl; [by rewrite dom_empty_L|constructor|].
  intros v p. rewrite lookup_empty. set_solver.
Qed.

Definition two_timers : TimerList nat := (RunAfter 0 20 2%nat (RunAfter 0 10 1%nat (TimerList_new 0)).1).1.

Lemma two_timers_ok : timers_ok two_timers.
Proof. apply insert_timer_ok, insert_timer_ok, timers_ok_empty. Qed.

Lemma TimerList_invariant_witness :
  timers_ok (RunAt 5 3%nat two_timers).1 /\
  timers_ok (Remove (20, 2) two_timers) /\
  timers_ok (adjust_clock 4 two_timers) /\
  exists tl', pop_expired 10 two_timers = Some (1%nat, tl') /\ timers_ok tl'.
Proof.
  destruct (TimerList_invariant 10 5 0 3%nat (20, 2) two_timers two_timers_ok)
    as (_ & H1 & _ & _ & H2 & _ & H3).
  destruct (TimerList_invariant 4 5 0 3%nat (20, 2) two_timers two_timers_ok)
    as (_ & _ & _ & _ & _ & H4 & _).
  split; [exact H1|]. split; [exact H2|]. split; [exact H4|].
  destruct (pop_expired 10 two_timers) as [[cb tl']|] eqn:E; [|vm_compute in E; discriminate E].
  exists tl'. split; [|exact (H3 cb tl' eq_refl)].
  assert (Hcb : option_map fst (pop_expired 10 two_timers) = Some 1%nat) by (vm_compute; reflexivity).
  rewrite E in Hcb. injection Hcb as ->. reflexivity.
Defined.

Lemma TimerList_fires_in_order_witness :
  (forall p t, timer_heap two_timers !! p = Some t -> 9 < ms_value t) /\
  timer_heap (Remove (RunAfter 9 5 3%nat two_timers).2 (RunAfter 9 5 3%nat two_timers).1)
    = timer_heap two_timers.
Proof.
  destruct (TimerList_fires_in_order 9 two_timers two_timers_ok) as (H1 & _ & H3).
  split; [apply H1; vm_compute; reflexivity|].
  specialize (H3 5 3%nat). destruct (RunAfter 9 5 3%nat two_timers) as [tl' id].
  exact (proj1 H3).
Defined.

(** * The run loop *)

(** A function is a number: it is written down, and arms a timer that many milliseconds later. *)
Definition record_and_rearm (f : nat) (s : list nat * LoopState (F := nat)) : list nat * LoopState :=
  (s.1 ++ [f], if (f =? 0)%nat then s.2 else (Loop_RunAfter 100 (Z.of_nat (f mod 1000) + 1) 0%nat s.2).1).

Lemma record_behaved f : behaved record_and_rearm 100 f.
Proof.
  intros s Hs. unfold record_and_rearm. simpl. destruct (f =? 0)%nat; [split; [exact Hs|lia]|].
  pose proof (Nat.mod_upper_bound f 1000 ltac:(lia)).
  destruct (RunAfter_later 100 (Z.of_nat (f mod 1000) + 1) 0%nat s.2 Hs) as [H1 H2]; [lia..|].
  split; [exact H1|]. apply Nat.eq_le_incl. exact H2.
Qed.

(** Two timers, of which the first two are due at 100, and two queued functions. *)
Definition busy_loop : LoopState (F := nat) :=
  Loop_Queue 9%nat (Loop_Queue 8%nat (Loop_RunAfter 0 200 3%nat (Loop_RunEvery 0 60 2%nat (Loop_RunAfter 0 80 1%nat (Loop_new 0)).1).1).1).

Lemma busy_loop_ok : loop_ok 100 busy_loop.
Proof.
  constructor.
  - apply insert_timer_ok, insert_timer_ok, insert_timer_ok, timers_ok_empty.
  - intros p t Ht. change (timer_heap (lp_timers busy_loop)) with
      (timer_heap (insert_timer 200 0 3%nat (insert_timer 60 60 2%nat (insert_timer 80 0 1%nat (TimerList_new 0)).1).1).1) in Ht.
    unfold insert_timer in Ht. cbn [fst timer_heap] in Ht.
    rewrite !lookup_insert_Some in Ht.
    repeat (destruct Ht as [[_ <-]|[_ Ht]]; [simpl; lia|]). destruct p; discriminate Ht.
Qed.

Lemma Loop_iteration_ends_witness :
  (Loop_iteration record_and_rearm 2 100 ([], busy_loop)).1 = [2%nat; 1%nat; 8%nat; 9%nat] /\
  Loop_iteration record_and_rearm 50 100 ([], busy_loop) = Loop_iteration record_and_rearm 2 100 ([], busy_loop) /\
  (forall p t, timer_heap (lp_timers (Loop_iteration record_and_rearm 2 100 ([], busy_loop)).2) !! p = Some t -> 100 < ms_value t).
Proof.
  destruct (Loop_iteration_ends record_and_rearm 100 ([], busy_loop) 50 ltac:(lia) record_behaved busy_loop_ok)
    as (H1 & _ & _ & H2); [vm_compute; lia|].
  assert (E : due 100 (adjust_clock 100 (loop_timers (W := list nat) ([], busy_loop))) = 2%nat) by (vm_compute; reflexivity).
  rewrite E in H1, H2. split; [vm_compute; reflexivity|]. split; [exact H1|exact H2].
Defined.

(** * The log *)

(** A node with three learned instances, all chosen. *)
Definition logged_node : node :=
  happy_node <| min_chosen_id := 1 |> <| max_chosen_id := 100005 |>.

Lemma GCLoop_deletes_only_old_witness :
  min_chosen_id logged_node <= min_chosen_id (GCLoop logged_node) /\
  DB_Get 2 (db_ (GCLoop logged_node)) = DB_Get 2 (db_ logged_node).
Proof.
  destruct (GCLoop_deletes_only_old logged_node) as (H1 & _ & _ & H4);
    [vm_compute; split; congruence|exact _|].
  split; [exact H1|]. apply H4; try (vm_compute; split; congruence); vm_compute; intuition congruence.
Defined.

Lemma logged_check db i r :
  bool_decide (DB_Get i db = (0, SerializeAsString r)) = true -> logged db i (pi_accepted_value r).
Proof. intros H%bool_decide_eq_true. by exists r. Qed.

Lemma sample_logged k v :
  [val 0 1 "a"; val 0 2 "b"] !! k = Some v -> logged (db_ logged_node) (1 + Z.of_nat k) v.
Proof.
  intros Hk. destruct k as [|[|k]]; [injection Hk as <-|injection Hk as <-|discriminate Hk].
  - apply (logged_check _ _ (acceptor_record (mkAcceptor 1 0 (Ballot 1 1) (Ballot 1 1) (val 0 1 "a")))).
    vm_compute. reflexivity.
  - apply (logged_check _ _ (acceptor_record (mkAcceptor 2 0 (Ballot 1 1) (Ballot 1 1) (val 0 2 "b")))).
    vm_compute. reflexivity.
Qed.

Lemma ReplayLog_in_order_witness :
  (ReplayLog 1 3 logged_node).2 = true /\
  exists r1 r2, out_ (ReplayLog 1 3 logged_node).1 =
    out_ logged_node ++ [OExecute 1 (val 0 1 "a") r1; OExecute 2 (val 0 2 "b") r2].
Proof.
  destruct (ReplayLog_in_order logged_node 1 [val 0 1 "a"; val 0 2 "b"])
    as (rs & Hl & H1 & _ & H2).
  - lia.
  - vm_compute. congruence.
  - exact sample_logged.
  - assert (E : 1 + Z.of_nat (length [val 0 1 "a"; val 0 2 "b"]) = 3) by reflexivity.
    rewrite E in H1, H2. split; [exact H1|].
    destruct rs as [|r1 [|r2 [|r3 rs]]]; try discriminate Hl. exists r1, r2. rewrite H2.
    apply (f_equal (app (out_ logged_node))). reflexivity.
Defined.

(** * Slices, ids and loops *)

Lemma Slice_as_string_witness :
  Slice_compare (mkSlice "abcd" 2) (Slice_of "abc") = -1 /\
  starts_with (Slice_of "abc") (mkSlice "abcd" 2) = true.
Proof.
  destruct (Slice_as_string (mkSlice "abcd" 2) (Slice_of "abc") 1) as (H1 & _);
    [vm_compute; lia|vm_compute; lia|].
  destruct (Slice_as_string (Slice_of "abc") (mkSlice "abcd" 2) 1) as (_ & _ & H2 & _);
    [vm_compute; lia|vm_compute; lia|].
  split; [rewrite H1; vm_compute; reflexivity|]. apply H2. exists "c"%string. vm_compute. reflexivity.
Defined.

(** Two addresses, in network byte order. *)
#[export] Instance two_addresses : Inet := {|
  inet_addr s := if decide (s = "127.0.0.1"%string) then 16777343 else 0;
  inet_ntoa z := if z =? 16777343 then "127.0.0.1"%string else "0.0.0.0"%string;
|}.

Lemma node_id_roundtrip_witness :
  ParseId (MakeId "127.0.0.1" 4010) = ("127.0.0.1"%string, 4010).
Proof.
  apply (node_id_roundtrip "127.0.0.1" 4010);
    [vm_compute; split; congruence|vm_compute; split; congruence|vm_compute; reflexivity].
Defined.

(** A function that is a number queues its predecessor; the world counts the calls. *)
Definition countdown (f : nat) (w : nat) : nat * list nat :=
  (S w, match f with O => [] | S f => [f] end).

Lemma RunLoop_serves_witness :
  let l := mkRunLoop [2%nat; 0%nat] [] 0%nat [2%nat; 0%nat] [] in
  loop_inv l /\
  [2%nat; 0%nat] `prefix_of` ran (loop_run countdown (fun w => (w, [])) [ALoop; AQueue 5%nat; ALoop; ALoop] l).
Proof.
  cbv zeta. split; [vm_compute; reflexivity|].
  destruct (RunLoop_serves countdown (fun w => (w, [])) [ALoop; AQueue 5%nat; ALoop; ALoop]
    (mkRunLoop [2%nat; 0%nat] [] 0%nat [2%nat; 0%nat] [])) as [_ H]; [vm_compute; reflexivity|].
  apply H. vm_compute. lia.
Defined.

Lemma StartWorking_threads_witness :
  (1 <= io_threads 0 5 <= 5)%nat /\ assign_loops (io_threads 0 5) 0 5 = [0; 1; 2; 0; 1]%nat.
Proof.
  destruct (StartWorking_threads 0 5 ltac:(lia) (io_threads 0 5) (or_introl eq_refl)) as [H1 H2].
  split; [exact H1|]. vm_compute. reflexivity.
Defined.

Lemma thread_exit_witness :
  lt_owner (owner_step (thread_run [true; false; true; true] (thread_run [true; false; true; false] LoopThread_new))) = OGone /\
  lt_owner (thread_run [true; true; false; true] (thread_run [true; false; false] LoopThread_new)) = OJoin.
Proof.
  destruct thread_exit as (H1 & H2 & H3 & H4). split; [apply H1; [exact H4|vm_compute; lia]|]. apply H2. exact H3.
Defined.
