(* ===== verification/MachineWitnesses.v ===== *)
(** Concrete instances of the theorems on the internal machines and the machine
    manager. *)

From S2P Require Import Prelude Proto Storage NodeState System Simulation.
From S2P Require Import MachinesModel Machines Reference.
From Stdlib Require Import Sorted.

(** * Checkpoint files *)

Definition sample_state : MasterState := mkMasterState 7 2 10000.

Lemma checkpoint_file_roundtrip_witness :
  ReadCheckpoint 1 9 (Some (WriteCheckpoint 1 9 sample_state)) = (true, Some sample_state) /\
  ReadCheckpoint (A := MasterState) 1 8 (Some (WriteCheckpoint 1 9 sample_state)) = (false, None).
Proof.
  split.
  - apply (checkpoint_file_roundtrip 1 9 1 9 sample_state); vm_compute; split; congruence.
  - apply (checkpoint_file_roundtrip 1 9 1 8 sample_state); vm_compute; split; congruence.
Defined.

Lemma ReadCheckpoint_validates_witness :
  exists d m, Some (WriteCheckpoint 1 9 sample_state) = Some d /\ Some sample_state = Some m /\
    (kHeaderSize <= String.length d)%nat /\ DecodeFixed32 d = 1 /\ DecodeFixed64 (str_from 4 d) = 9.
Proof.
  destruct (ReadCheckpoint_validates 1 9 (Some (WriteCheckpoint 1 9 sample_state)) (Some sample_state))
    as (d & m & H1 & H2 & H3 & _ & H4 & H5); [vm_compute; reflexivity|].
  exists d, m. repeat split; assumption.
Defined.

(** * The internal machines *)

Lemma GetMaster_misses_master_witness :
  MasterMachine_IsMaster 2 1500000000000 (mkMasterState 8 2 1500000010000) = true /\
  MasterMachine_GetMaster 1500000000000000 (mkMasterState 8 2 1500000010000) = None.
Proof.
  apply (GetMaster_misses_master 8 1500000000000 2 10000 0 sample_state);
    vm_compute; first [reflexivity|split; congruence].
Defined.

(** * Checkpoints *)

Lemma sorted_sample : StronglySorted Z.lt [10; 20; 30; 40].
Proof. repeat (constructor; [|repeat constructor]). constructor. Qed.

Lemma clean_one_surplus_witness :
  exists v, clean_checkpoints 0 3 [10; 20; 30; 40] = (v, 20, [10]) /\ Permutation v [20; 30; 40].
Proof.
  destruct (clean_one_surplus 0 3 10 20 [30; 40] sorted_sample) as (v & H1 & H2 & _); [reflexivity|].
  exists v. split; assumption.
Defined.

Lemma recover_misses_newest_witness :
  exists v, clean_checkpoints 0 3 [10; 20; 30; 40] = (v, 20, [10]) /\ 40 ∈ v /\ List.last v 0 < 40.
Proof. apply (recover_misses_newest 0 3 [30] 10 20 40 sorted_sample). reflexivity. Defined.

Lemma clean_deletes_newest_witness : 40 ∈ (clean_checkpoints 0 2 [10; 20; 30; 40]).2.
Proof. apply (clean_deletes_newest 0 2 [30] 10 20 40 sorted_sample). simpl. lia. Defined.

(** * The manager *)

Definition good_env : CheckpointEnv := mkCheckpointEnv (fun _ => 1) (fun _ => true)
  (fun _ _ => true) (fun _ _ => true) (fun _ => true) (fun _ => true) 0.

(** A manager with a user machine, that keeps two checkpoints. *)
Definition sample_manager : manager :=
  mkManager (members_of [1; 2; 3]) MasterState_default ([] : um) {[1; 2; 1001]} 4 2 true false
    [10; 20] [10; 20] 20 10 false ∅.

Lemma Execute_dispatch_witness :
  let m := (MachineManager_Execute good_env (fun _ => 0) 5 0 21 (mkPaxosValue 1 1001 "x") 0 sample_manager).1 in
  mgr_membership m = mgr_membership sample_manager /\ mgr_user m = (["x"%string] : um) /\
  mgr_latest m = 20.
Proof.
  destruct (MachineManager_Execute good_env (fun _ => 0) 5 0 21 (mkPaxosValue 1 1001 "x") 0 sample_manager)
    as [m r] eqn:E.
  destruct (Execute_dispatch good_env (fun _ => 0) 5 0 21 (mkPaxosValue 1 1001 "x") 0 sample_manager m r E)
    as (_ & H1 & _ & _ & H2 & _).
  simpl. split; [apply H1; vm_compute; congruence|]. split; [|exact H2].
  assert (Hm : mgr_user (MachineManager_Execute good_env (fun _ => 0) 5 0 21 (mkPaxosValue 1 1001 "x") 0
                 sample_manager).1 = (["x"%string] : um)) by (vm_compute; reflexivity).
  rewrite E in Hm. exact Hm.
Defined.

Lemma checkpoint_round_witness :
  exists m1, MakeCheckpoint good_env 25 sample_manager = (m1, true) /\
    let m2 := foldl (fun m id => FinishMakeCheckpoint good_env id 25 true m) m1 [1001; 1; 2] in
    mgr_latest m2 = 25 /\ mgr_disk m2 = [25; 20] /\ mgr_oldest m2 = 20.
Proof.
  exists (MakeCheckpoint good_env 25 sample_manager).1.
  assert (E : MakeCheckpoint good_env 25 sample_manager
              = ((MakeCheckpoint good_env 25 sample_manager).1, true)) by (vm_compute; reflexivity).
  split; [exact E|].
  destruct (checkpoint_round good_env 25 2 sample_manager (MakeCheckpoint good_env 25 sample_manager).1
              [1001; 1] []) as (_ & _ & H); [exact E| |].
  - assert (Em : machine_ids sample_manager = [1; 2; 1001]) by (vm_compute; reflexivity).
    rewrite Em. apply (Permutation_app_comm [1001] [1; 2]).
  - destruct (H eq_refl) as (_ & H1 & H2 & H3). cbn [foldl] in *. split; [exact H1|].
    rewrite H2, H3. split; vm_compute; reflexivity.
Defined.

Lemma stale_answers_complete_round_witness :
  exists m1, MakeCheckpoint good_env 30 sample_manager = (m1, true) /\
    mgr_latest (foldl (fun m id => FinishMakeCheckpoint good_env id 25 true m) m1 [1001; 1; 2]) = 25.
Proof.
  exists (MakeCheckpoint good_env 30 sample_manager).1.
  assert (E : MakeCheckpoint good_env 30 sample_manager
              = ((MakeCheckpoint good_env 30 sample_manager).1, true)) by (vm_compute; reflexivity).
  split; [exact E|].
  apply (stale_answers_complete_round good_env 25 30 2 sample_manager
           (MakeCheckpoint good_env 30 sample_manager).1 [1001; 1]); [exact E| |reflexivity].
  assert (Em : machine_ids sample_manager = [1; 2; 1001]) by (vm_compute; reflexivity).
  rewrite Em. apply (Permutation_app_comm [1001] [1; 2]).
Defined.

(** * Membership *)

(** Node 4 joins and node 2 leaves, in instance 7. *)
Definition sample_change : list (Member * bool) :=
  [(mkMember 4 "h" 80 "", true); (mkMember 2 "" 0 "", false)].

Lemma membership_change_spec_witness :
  exists m, MembershipMachine_Execute 7 (SerializeAsString (change_message sample_change)) (members_of [1; 2; 3])
      = (m, true) /\
    ms_members m !! 4 = Some (mkMemberMessage 4 "h" 80 "") /\ ms_members m !! 2 = None /\
    MembershipMachine_Execute 7 (SerializeAsString (change_message sample_change)) m = (m, false).
Proof.
  destruct (membership_change_spec 7 sample_change (members_of [1; 2; 3])) as [H _].
  destruct H as (m & H1 & _ & H2 & H3); [vm_compute; reflexivity|].
  exists m. split; [exact H1|]. rewrite !H2. split; [vm_compute; reflexivity|].
  split; [vm_compute; reflexivity|exact H3].
Defined.
