(* ===== verification/Logging.v ===== *)
(** The logger ([util/logging.cc], [include/skywalker/logging.h]) and the clock
    ([util/timeops.cc]).

    A reading of [gettimeofday] is a [timeval]; [localtime_r] depends on the time zone and is
    a parameter.  What [format] and its arguments produce is the argument [text], since the
    handler hands both to [vsnprintf] unread.  The effects of the logger are a list of
    [LogEffect]. *)

From S2P Require Import Prelude Proto.
From Stdlib Require Import Ascii.

(** * The clock *)

Record timeval := mkTimeval { tv_sec : Z; tv_usec : Z }.

Definition NowMillis (tv : timeval) : Z :=
  wrap64 (wrap64 (wrap64 (tv_sec tv) * 1000) + wrap64 (tv_usec tv) / 1000).

Definition NowMicros (tv : timeval) : Z :=
  wrap64 (wrap64 (wrap64 (tv_sec tv) * 1000000) + wrap64 (tv_usec tv)).

(** What [gettimeofday] returns, from 1970 on and before the microseconds overflow. *)
Definition valid_timeval (tv : timeval) : Prop :=
  0 <= tv_sec tv < 2 ^ 44 /\ 0 <= tv_usec tv < 1000000.

Lemma NowMillis_exact tv :
  valid_timeval tv -> NowMillis tv = tv_sec tv * 1000 + tv_usec tv / 1000.
Proof.
  intros [? ?]. unfold NowMillis.
  assert (0 <= tv_usec tv / 1000 < 1000) by (split; [apply Z.div_pos | apply Z.div_lt_upper_bound]; lia).
  rewrite !wrap64_small; unfold in_u64; rewrite ?wrap64_small; unfold in_u64;
    rewrite ?wrap64_small; unfold in_u64; lia.
Qed.

Lemma NowMicros_exact tv :
  valid_timeval tv -> NowMicros tv = tv_sec tv * 1000000 + tv_usec tv.
Proof.
  intros [? ?]. unfold NowMicros.
  rewrite !wrap64_small; unfold in_u64; rewrite ?wrap64_small; unfold in_u64;
    rewrite ?wrap64_small; unfold in_u64; lia.
Qed.

Lemma NowMicros_millis tv : valid_timeval tv -> NowMicros tv / 1000 = NowMillis tv.
Proof.
  intros H. rewrite NowMicros_exact, NowMillis_exact by done.
  replace (tv_sec tv * 1000000 + tv_usec tv) with (tv_usec tv + tv_sec tv * 1000 * 1000) by lia.
  rewrite Z.div_add by lia. lia.
Qed.

(** * Levels, handlers and effects *)

Inductive LogLevel := LOGLEVEL_DEBUG | LOGLEVEL_INFO | LOGLEVEL_WARN | LOGLEVEL_ERROR | LOGLEVEL_FATAL.

#[export] Instance LogLevel_eq_dec : EqDecision LogLevel.
Proof. solve_decision. Defined.

Definition level_value (l : LogLevel) : Z :=
  match l with
  | LOGLEVEL_DEBUG => 0 | LOGLEVEL_INFO => 1 | LOGLEVEL_WARN => 2 | LOGLEVEL_ERROR => 3
  | LOGLEVEL_FATAL => 4
  end.

Definition loglevel_names (l : LogLevel) : string :=
  match l with
  | LOGLEVEL_DEBUG => "DEBUG" | LOGLEVEL_INFO => "INFO" | LOGLEVEL_WARN => "WARN"
  | LOGLEVEL_ERROR => "ERROR" | LOGLEVEL_FATAL => "FATAL"
  end.

(** A [LogHandler*] that is not null: the default one or a function of the user. *)
Inductive LogHandler := DefaultHandler | UserHandler (id : Z).

Inductive LogEffect :=
| LPrint (line : string)                                 (* to stderr *)
| LCall (id : Z) (level : LogLevel) (filename : string) (line : Z) (text : string)
| LAbort.

(** * Formatting *)

(** [%0wd] of a number that is not negative; [%d] is [pretty]. *)
Definition pad (w : nat) (n : Z) : string :=
  let s := pretty n in String.string_of_list_ascii (repeat "0"%char (w - String.length s)) +:+ s.

Definition str_take (n : Z) (s : string) : string := String.substring 0 (Z.to_nat n) s.

(** [snprintf] and [vsnprintf] with room for [size > 0] bytes: the string left in the
    buffer and the value returned, the length of all of [s]. *)
Definition snprintf (size : Z) (s : string) : string * Z :=
  (str_take (size - 1) s, Z.of_nat (String.length s)).

(** The string [%s] prints from a buffer: up to its first NUL. *)
Fixpoint c_str (s : string) : string :=
  match s with
  | EmptyString => EmptyString
  | String c s => if Ascii.eqb c Ascii.zero then EmptyString else String c (c_str s)
  end.

(** [struct tm], as far as it is printed. *)
Record tm := mkTm { tm_year : Z; tm_mon : Z; tm_mday : Z; tm_hour : Z; tm_min : Z; tm_sec : Z }.

Section Logger.
Variable localtime : Z -> tm.

Definition log_header (tv : timeval) (level : LogLevel) (filename : string) (line : Z) : string :=
  let t := localtime (tv_sec tv) in
  "[" +:+ pad 4 (tm_year t + 1900) +:+ "/" +:+ pad 2 (tm_mon t + 1) +:+ "/" +:+ pad 2 (tm_mday t) +:+
  "-" +:+ pad 2 (tm_hour t) +:+ ":" +:+ pad 2 (tm_min t) +:+ ":" +:+ pad 2 (tm_sec t) +:+ "." +:+
  pad 6 (tv_usec tv) +:+ "][" +:+ loglevel_names level +:+ " " +:+ filename +:+ ":" +:+
  pretty line +:+ "] ".

(** One round of the loop: the string in the buffer and [p - base]. *)
Definition format_pass (bufsize : Z) (header text : string) : string * Z :=
  let '(base, p) := snprintf bufsize header in
  if p <? bufsize then
    let '(rest, k) := snprintf (bufsize - p) text in (base +:+ rest, p + k)
  else (base, p).

(** [clock 0] and [clock 1] are the readings of the two rounds.  The adjustment
    [p = limit - 1] has no effect: [p] is not used after it. *)
Definition DefaultLogHandler (clock : nat -> timeval) (level : LogLevel) (filename : string)
    (line : Z) (text : string) : list LogEffect :=
  let '(base, p) := format_pass 500 (log_header (clock 0%nat) level filename line) text in
  let out :=
    if p >=? 500 then
      let '(base, p) := format_pass 30000 (log_header (clock 1%nat) level filename line) text in
      LPrint (c_str base +:+ String "010" EmptyString)
    else LPrint (c_str base +:+ String "010" EmptyString) in
  out :: (if decide (level = LOGLEVEL_FATAL) then [LAbort] else []).

(** * The global logger *)

Record logger := mkLogger { log_handler_ : option LogHandler; log_level_ : LogLevel }.

Definition logger_init : logger := mkLogger (Some DefaultHandler) LOGLEVEL_DEBUG.

Definition Log (clock : nat -> timeval) (level : LogLevel) (filename : string) (line : Z)
    (text : string) (l : logger) : list LogEffect :=
  match log_handler_ l with
  | Some h =>
      if level_value level >=? level_value (log_level_ l) then
        match h with
        | DefaultHandler => DefaultLogHandler clock level filename line text
        | UserHandler id => [LCall id level filename line text]
        end
      else []
  | None => []
  end.

Definition SetLogHandler (new_handler : option LogHandler) (l : logger) : logger * option LogHandler :=
  (mkLogger new_handler (log_level_ l), log_handler_ l).

Definition SetLogLevel (new_level : LogLevel) (l : logger) : logger * LogLevel :=
  (mkLogger (log_handler_ l) new_level, log_level_ l).

(** * Properties *)

Lemma str_take_length n s :
  0 <= n -> Z.of_nat (String.length (str_take n s)) = Z.min n (Z.of_nat (String.length s)).
Proof.
  unfold str_take. intros Hn. rewrite <- (Z2Nat.id n) at 2 by done. generalize (Z.to_nat n). clear.
  intros k. revert s. induction k as [|k IH]; intros [|c s]; simpl; try lia. rewrite !Nat2Z.inj_succ.
  rewrite IH. lia.
Qed.

Lemma take_whole n s : Z.of_nat (String.length s) <= n -> str_take n s = s.
Proof.
  unfold str_take. intros H. assert (Hk : (String.length s <= Z.to_nat n)%nat) by lia.
  clear H. revert Hk. generalize (Z.to_nat n). induction s as [|c s IH]; intros [|k] Hk;
    simpl in *; try done; [lia|]. f_equal. apply IH. lia.
Qed.

Lemma str_take_app n s t :
  Z.of_nat (String.length s) <= n ->
  str_take n (s +:+ t) = s +:+ str_take (n - Z.of_nat (String.length s)) t.
Proof.
  unfold str_take. intros H.
  replace (Z.to_nat (n - Z.of_nat (String.length s))) with (Z.to_nat n - String.length s)%nat by lia.
  assert (Hk : (String.length s <= Z.to_nat n)%nat) by lia. clear H.
  revert Hk. generalize (Z.to_nat n). induction s as [|c s IH]; intros k Hk; simpl in *.
  - by rewrite Nat.sub_0_r.
  - destruct k as [|k]; [lia|]. simpl. rewrite IH by lia. done.
Qed.

Lemma str_take_app_short n s t :
  n <= Z.of_nat (String.length s) -> str_take n (s +:+ t) = str_take n s.
Proof.
  unfold str_take. intros H. assert (Hk : (Z.to_nat n <= String.length s)%nat) by lia. clear H.
  revert Hk. generalize (Z.to_nat n). induction s as [|c s IH]; intros [|k] Hk; simpl in *;
    try done; [by destruct t|lia|]. f_equal. apply IH. lia.
Qed.

(** A round leaves the first [bufsize - 1] bytes of the line in the buffer, and [p] is past
    the buffer exactly when it is not the whole line. *)
Lemma format_pass_spec bufsize header text :
  0 < bufsize ->
  let '(base, p) := format_pass bufsize header text in
  base = str_take (bufsize - 1) (header +:+ text) /\
  (p <? bufsize) = (Z.of_nat (String.length (header +:+ text)) <? bufsize).
Proof.
  intros Hb. unfold format_pass, snprintf. rewrite string_length_app, Nat2Z.inj_add.
  destruct (Z.ltb_spec (Z.of_nat (String.length header)) bufsize) as [Hh|Hh].
  - split; [|done]. rewrite str_take_app by lia. rewrite (take_whole _ header) by lia.
    do 2 f_equal. lia.
  - split; [by rewrite str_take_app_short by lia|].
    destruct (Z.ltb_spec (Z.of_nat (String.length header)) bufsize),
      (Z.ltb_spec (Z.of_nat (String.length header) + Z.of_nat (String.length text)) bufsize); lia.
Qed.

Definition log_line (tv : timeval) (level : LogLevel) (filename : string) (line : Z) (text : string)
  : string := log_header tv level filename line +:+ text.

(** (C40) A message at the level of the logger or above that reaches the default handler is
    printed as one line, the header followed by the text, and the small buffer makes no
    difference to it: the line is complete when it has fewer than 30000 bytes, otherwise its
    first 29999 bytes are printed.  The program is aborted after a fatal message and after
    no other, and a message below the level of the logger has no effect, nor has any
    message when there is no handler. *)
Theorem Log_spec (clock : nat -> timeval) (level : LogLevel) (filename : string) (line : Z)
    (text : string) (l : logger) :
  (log_handler_ l = Some DefaultHandler ->
   level_value (log_level_ l) <= level_value level ->
   exists k shown,
     Log clock level filename line text l =
       LPrint (c_str shown +:+ String "010" EmptyString) ::
       (if decide (level = LOGLEVEL_FATAL) then [LAbort] else []) /\
     shown = str_take 29999 (log_line (clock k) level filename line text) /\
     (Z.of_nat (String.length (log_line (clock k) level filename line text)) < 30000 ->
      shown = log_line (clock k) level filename line text)) /\
  (log_handler_ l = None \/ level_value level < level_value (log_level_ l) ->
   Log clock level filename line text l = []).
Proof.
  split.
  - intros Hh Hl. unfold Log. rewrite Hh. replace (_ >=? _) with true by (symmetry; apply Z.geb_le; lia).
    unfold DefaultLogHandler.
    pose proof (format_pass_spec 500 (log_header (clock 0%nat) level filename line) text ltac:(lia)) as H0.
    destruct (format_pass 500 _ text) as [b0 p0]. destruct H0 as [-> H0].
    rewrite Z.geb_leb, Z.leb_antisym, H0, <- Z.leb_antisym. fold (log_line (clock 0%nat) level filename line text).
    pose proof (format_pass_spec 30000 (log_header (clock 1%nat) level filename line) text ltac:(lia)) as H1.
    destruct (format_pass 30000 _ text) as [b1 p1]. destruct H1 as [-> _].
    destruct (Z.leb_spec 500 (Z.of_nat (String.length (log_line (clock 0%nat) level filename line text)))).
    + exists 1%nat. eexists. split_and!; [done|done|]. intros ?. apply take_whole. lia.
    + exists 0%nat. eexists. split_and!; [done| |]; rewrite !take_whole by lia; done.
  - unfold Log. intros [->|Hl]; [done|]. destruct (log_handler_ l) as [h|]; [|done].
    destruct (Z.geb_spec (level_value level) (level_value (log_level_ l))); [lia|done].
Qed.

Lemma set_log_handler_restores h l :
  let '(l', old) := SetLogHandler h l in SetLogHandler old l' = (l, h).
Proof. by destruct l. Qed.

Lemma set_log_level_restores v l :
  let '(l', old) := SetLogLevel v l in SetLogLevel old l' = (l, v).
Proof. by destruct l. Qed.

End Logger.

(** A line of more than 500 bytes is formatted a second time, by a later clock. *)
Definition utc_midnight (_ : Z) : tm := mkTm 126 0 2 0 0 0.

Definition sample_clock (k : nat) : timeval := mkTimeval 1767312000 (Z.of_nat k).
Definition sample_text : string := String.string_of_list_ascii (repeat "x"%char 500).

Example Log_second_round :
  Log utc_midnight sample_clock LOGLEVEL_INFO "db.cc" 42 sample_text logger_init =
  [LPrint ("[2026/01/02-00:00:00.000001][INFO db.cc:42] " +:+ sample_text +:+ String "010" EmptyString)].
Proof. vm_compute. reflexivity. Qed.

Lemma Log_spec_witness :
  exists k shown,
    Log utc_midnight sample_clock LOGLEVEL_FATAL "db.cc" 42 sample_text logger_init =
      [LPrint (c_str shown +:+ String "010" EmptyString); LAbort] /\
    shown = str_take 29999 (log_line utc_midnight (sample_clock k) LOGLEVEL_FATAL "db.cc" 42 sample_text) /\
    (Z.of_nat (String.length (log_line utc_midnight (sample_clock k) LOGLEVEL_FATAL "db.cc" 42 sample_text))
       < 30000 ->
     shown = log_line utc_midnight (sample_clock k) LOGLEVEL_FATAL "db.cc" 42 sample_text).
Proof.
  apply (proj1 (Log_spec utc_midnight sample_clock LOGLEVEL_FATAL "db.cc" 42 sample_text logger_init)).
  - reflexivity.
  - vm_compute. discriminate.
Defined.
