(* ===== verification/Replication.v ===== *)
(** The machines of a node are a function of its log.

    [mm_run] says what the machine manager has been through: the executions, in order and
    with their results, and the ends of checkpoints in between.  Every handler of a node
    drives its manager by the executions it reports and by nothing else ([driven], another
    [Frame]).  With deterministic user machines, nodes that have executed the same values
    have machines in equivalent states; with the agreement of [Refinement.v] this is state
    machine replication. *)

From S2P Require Import Prelude Ballot Proto Storage Random TimerList Counter NodeState.
From S2P Require Import AcceptorModel ProposerModel LearnerModel LogModel InstanceModel Traces.
From S2P Require Import Consensus System Simulation AcceptorSim ProposerSim LearnerSim Refinement.
From S2P Require Import MachinesModel Machines.

(** * Histories of a machine manager *)

(** An execution with its result. *)
Definition run_of (o : Output) : option (Z * PaxosValue * bool) :=
  match o with OExecute i v r => Some (i, v, r) | _ => None end.

Definition run_log (out : list Output) : list (Z * PaxosValue * bool) := omap run_of out.

Lemma run_log_exec out : (run_log out).*1 = exec_log out.
Proof. unfold run_log, exec_log. induction out as [|o out IH]; [done|].
  destruct o; first [exact IH|exact (f_equal (cons _) IH)].
Qed.

Lemma run_log_quiet o : run_of o = None -> run_log [o] = [].
Proof. unfold run_log. simpl. by intros ->. Qed.

Section History.
Context {FC : FixedCoding} {LD : LevelDB} {MM : MachineManager} {CM : CheckpointManager}.
Context {AL : Allocator} {PI : ProtoCodec PaxosInstance}.

(** [P] holds of the contexts the executions were given. *)
Inductive mm_run (P : Z -> Prop) (g : Z) : mm -> list (Z * PaxosValue * bool) -> mm -> Prop :=
| mm_run_nil m : mm_run P g m [] m
| mm_run_finish id i r m l m' :
    mm_run P g (mm_FinishMakeCheckpoint id i r m) l m' -> mm_run P g m l m'
| mm_run_execute now ctx i v r m m1 l m' :
    P ctx -> mm_Execute now g i v ctx m = (m1, r) -> mm_run P g m1 l m' ->
    mm_run P g m ((i, v, r) :: l) m'.

#[local] Notation any_context := (fun _ : Z => True).

Lemma mm_run_mono (P Q : Z -> Prop) g m l m' :
  (forall c, P c -> Q c) -> mm_run P g m l m' -> mm_run Q g m l m'.
Proof.
  intros HPQ. induction 1; [constructor|by eapply mm_run_finish|eapply mm_run_execute; eauto].
Qed.

Lemma mm_run_trans P g m1 l1 m2 l2 m3 :
  mm_run P g m1 l1 m2 -> mm_run P g m2 l2 m3 -> mm_run P g m1 (l1 ++ l2) m3.
Proof.
  induction 1; intros H'; simpl; [done|eapply mm_run_finish; eauto|eapply mm_run_execute; eauto].
Qed.

Lemma mm_run_app P g m l1 l2 m' :
  mm_run P g m (l1 ++ l2) m' -> exists m1, mm_run P g m l1 m1 /\ mm_run P g m1 l2 m'.
Proof.
  intros H. remember (l1 ++ l2) as l eqn:E. revert l1 E.
  induction H as [m|id i r m l m' H IH|now ctx i v r m m1 l m' Hc Ex H IH]; intros l1 E.
  - symmetry in E. apply app_eq_nil in E as [-> ->]. exists m. split; constructor.
  - destruct (IH l1 E) as (m1 & H1 & H2). exists m1. split; [by eapply mm_run_finish|done].
  - destruct l1 as [|x l1]; simpl in E.
    + subst. exists m. split; [constructor|by eapply mm_run_execute].
    + injection E as <- E. destruct (IH l1 E) as (m2 & H1 & H2). exists m2.
      split; [by eapply mm_run_execute|done].
Qed.

(** * Every handler drives the manager *)

Definition drives (P : Z -> Prop) (n n' : node) : Prop :=
  config_ n' = config_ n /\
  exists k, out_ n' = out_ n ++ k /\ mm_run P (cf_group_id (config_ n)) (mm_ n) (run_log k) (mm_ n').

#[global] Instance drives_preorder P : PreOrder (drives P).
Proof.
  split.
  - intros n. split; [done|]. exists []. rewrite app_nil_r. split; [done|constructor].
  - intros n1 n2 n3 [C1 (k1 & E1 & R1)] [C2 (k2 & E2 & R2)]. split; [congruence|].
    exists (k1 ++ k2). rewrite E2, E1, app_assoc. split; [done|]. unfold run_log. rewrite omap_app.
    eapply mm_run_trans; [exact R1|]. by rewrite C1 in R2.
Qed.

Lemma drives_mono (P Q : Z -> Prop) n n' : (forall c, P c -> Q c) -> drives P n n' -> drives Q n n'.
Proof. intros H [C (k & O & R)]. split; [done|]. exists k. split; [done|]. by eapply mm_run_mono. Qed.

Lemma drives_quiet P n n' k :
  config_ n' = config_ n -> mm_ n' = mm_ n -> out_ n' = out_ n ++ k -> run_log k = [] -> drives P n n'.
Proof. intros C E O K. split; [done|]. exists k. rewrite K, E. split; [done|constructor]. Qed.

(** The contexts a node can hand to its machines: none, or that of its proposal. *)
Definition own_context (n : node) (c : Z) : Prop := c = 0 \/ is_proposing n = true /\ c = context_ n.

(** Outside [OnPropose] a node starts no proposal. *)
Definition driven (n n' : node) : Prop :=
  drives (own_context n) n n' /\
  (is_proposing n' = true -> is_proposing n = true /\ context_ n' = context_ n).

#[global] Instance driven_preorder : PreOrder driven.
Proof.
  split; [by intros n; split|]. intros n1 n2 n3 [D1 P1] [D2 P2]. split.
  - etrans; [exact D1|]. eapply drives_mono; [|exact D2]. unfold own_context.
    intros c [->|[Hp ->]]; [by left|]. right. by destruct (P1 Hp) as [? ->].
  - intros H3. destruct (P2 H3) as [H2 ->]. by apply P1.
Qed.

Lemma driven_quiet n n' k :
  config_ n' = config_ n -> mm_ n' = mm_ n -> out_ n' = out_ n ++ k -> run_log k = [] ->
  (is_proposing n' = true -> is_proposing n = true /\ context_ n' = context_ n) -> driven n n'.
Proof. intros ????. split; [by eapply drives_quiet|done]. Qed.

Lemma driven_same n n' :
  config_ n' = config_ n -> mm_ n' = mm_ n -> out_ n' = out_ n ->
  is_proposing n' = is_proposing n -> context_ n' = context_ n -> driven n n'.
Proof.
  intros ?? O P C. apply (driven_quiet n n' []); [done..|by rewrite app_nil_r|done|]. by rewrite P, C.
Qed.

Lemma driven_emit o n : run_of o = None -> driven n (emit o n).
Proof. intros H. eapply driven_quiet; [done..| |done]. by apply run_log_quiet. Qed.

Lemma Execute_drives (P : Z -> Prop) i v ctx n : P ctx -> drives P n (Execute i v ctx n).1.
Proof.
  intros HP. unfold Execute. destruct (mm_Execute _ _ _ _ _ _) as [m r] eqn:E. split; [done|].
  eexists. split; [done|]. eapply mm_run_execute; [exact HP|exact E|constructor].
Qed.

Lemma MachineExecute_driven v my n :
  (my = true -> is_proposing n = true) -> driven n (MachineExecute v my n).1.
Proof.
  intros Hmy. split.
  - apply Execute_drives. destruct my; [right; auto|by left].
  - unfold MachineExecute, Execute. by destruct (mm_Execute _ _ _ _ _ _).
Qed.

Lemma next_instance_driven n : driven n (Instance_NextInstance n).
Proof.
  unfold Instance_NextInstance, Acceptor_NextInstance, Acceptor_SetInstanceId.
  split_if; by apply driven_same.
Qed.

Lemma CheckLearn_driven n : driven n (CheckLearn n).
Proof.
  unfold CheckLearn. destruct (has_learned _); [|done]. cbv zeta. set (v := learned_value _).
  set (my := is_proposing n && _). set (n0 := if is_proposing n then _ else _).
  assert (H0 : driven n n0) by (unfold n0; split_if; by apply driven_same).
  assert (Hmy : my = true -> is_proposing n0 = true).
  { intros [E _]%andb_prop. unfold n0. by destruct (is_proposing n) eqn:P. }
  pose proof (MachineExecute_driven v my n0 Hmy) as H1. destruct (MachineExecute v my n0) as [n1 success].
  etrans; [exact H0|]. etrans; [exact H1|]. set (n2 := if is_proposing n1 then _ else _).
  assert (H2 : driven n1 n2).
  { unfold n2. split_if; [|done]. by eapply driven_quiet. }
  etrans; [exact H2|]. destruct success; [apply next_instance_driven|by apply driven_same].
Qed.

#[global] Instance driven_frame : Frame driven.
Proof.
  constructor; [apply _| | | | |apply CheckLearn_driven|].
  - intros n n' (O & _ & _ & P & C & M & F & _). by apply driven_same.
  - intros o n Ho. apply driven_emit. by destruct o.
  - intros d cb n _. unfold io_RunAfter. destruct (RunAfter _ _ _ _). by apply driven_same.
  - intros id n. by apply driven_same.
  - intros id i r n. split; [|done]. split; [done|]. exists []. rewrite app_nil_r. split; [done|].
    eapply mm_run_finish. constructor.
Qed.

(** A proposal hands its own context to the machines, if any. *)
Lemma OnPropose_drives mid v c r n :
  drives (fun x => x = 0 \/ x = c) n (OnPropose mid v c r n) /\
  (is_proposing (OnPropose mid v c r n) = true ->
   is_proposing n = true /\ context_ (OnPropose mid v c r n) = context_ n \/
   context_ (OnPropose mid v c r n) = c).
Proof.
  unfold OnPropose, GetPaxosValueId, io_RunAfter. split_if.
  { split; [|by left]. by eapply drives_quiet. }
  destruct (RunAfter _ _ _ _) as [tl t]. cbv zeta.
  match goal with |- drives _ _ (NewPropose ?f ?x ?n1) /\ _ =>
    pose proof (NewPropose_maintains driven f (OnPaxosMessage_maintains driven) x n1) as [D Q];
    set (n1' := n1) in *; set (n2 := NewPropose f x n1') in * end.
  assert (Hc : context_ n1' = c) by done.
  assert (H1 : drives (fun x => x = 0 \/ x = c) n n1').
  { subst n1'. unfold assert_. repeat split_if; (eapply drives_quiet; [done|done| |]); simpl;
      rewrite <- ?app_assoc; first [by rewrite app_nil_r|done|reflexivity]. }
  split.
  - etrans; [exact H1|]. eapply drives_mono; [|exact D]. unfold own_context. rewrite Hc. tauto.
  - intros H2. right. destruct (Q H2) as [_ ->]. done.
Qed.

Lemma timers_turn_driven n : driven n (timers_turn n).
Proof.
  unfold timers_turn. cbv zeta. destruct (pop_expired _ _) as [[cb tl]|]; [|by apply driven_same].
  trans (n <| io_timers ::= adjust_clock (now_ n) |> <| io_timers := tl |>); [by apply driven_same|].
  destruct cb; cbn [run_timer].
  - apply (on_retry_timer_maintains driven), (OnPaxosMessage_maintains driven).
  - apply (AskForLearn_maintains driven).
  - by eapply driven_quiet.
Qed.

Lemma handle_driven e n :
  (match e with EvPropose _ _ _ _ => False | _ => True end) -> driven n (handle e n).
Proof.
  intros He. destruct e; try done; try (by apply (handle_maintains driven)).
  unfold handle. destruct (existsb _ _); [done|]. apply timers_turn_driven.
Qed.

Lemma handle_drives e n : drives any_context n (handle e n).
Proof.
  destruct e; try (eapply drives_mono; [|by apply handle_driven]; done).
  unfold handle. destruct (existsb _ _); [done|].
  eapply drives_mono; [|apply OnPropose_drives]. done.
Qed.

(** * Executions go through the instances in order *)

(** The instance a node is in after the executions [l], if it was in [i]: each is made in
    the present instance, a successful one ends it and a failed one does not. *)
Fixpoint advance (i : Z) (l : list (Z * PaxosValue * bool)) : option Z :=
  match l with
  | [] => Some i
  | (j, _, r) :: l => if decide (j = i) then advance (if r : bool then i +64 1 else i) l else None
  end.

Lemma advance_app i l1 j l2 : advance i l1 = Some j -> advance i (l1 ++ l2) = advance j l2.
Proof.
  revert i. induction l1 as [|[[k v] r] l1 IH]; intros i; simpl; [by intros [= ->]|].
  case_decide; [|done]. apply IH.
Qed.

Lemma advance_failed i l : Forall (fun x => x.2 = false) l -> advance i l = Some i \/ advance i l = None.
Proof.
  induction 1 as [|[[j v] r] l Hr _ IH]; simpl; [by left|]. simpl in Hr. subst r. case_decide; [done|by right].
Qed.

Definition advances (n n' : node) : Prop :=
  exists k, out_ n' = out_ n ++ k /\ advance (instance_id_ n) (run_log k) = Some (instance_id_ n').

#[global] Instance advances_preorder : PreOrder advances.
Proof.
  split; [intros n; exists []; by rewrite app_nil_r|].
  intros n1 n2 n3 (k1 & E1 & A1) (k2 & E2 & A2). exists (k1 ++ k2).
  rewrite E2, E1, app_assoc. split; [done|]. unfold run_log in *. rewrite omap_app.
  by rewrite (advance_app _ _ _ _ A1).
Qed.

Lemma advances_quiet n n' k :
  out_ n' = out_ n ++ k -> run_log k = [] -> instance_id_ n' = instance_id_ n -> advances n n'.
Proof. intros O K I. exists k. rewrite K, I. done. Qed.

Lemma advances_same n n' : out_ n' = out_ n -> instance_id_ n' = instance_id_ n -> advances n n'.
Proof. intros O I. apply (advances_quiet n n' []); [by rewrite app_nil_r|done|done]. Qed.

Lemma next_instance_id n : instance_id_ (Instance_NextInstance n) = instance_id_ n +64 1.
Proof.
  unfold Instance_NextInstance, Acceptor_NextInstance, Acceptor_SetInstanceId. by split_if.
Qed.

Lemma CheckLearn_advances n : advances n (CheckLearn n).
Proof.
  unfold CheckLearn. destruct (has_learned _); [|done]. cbv zeta. set (v := learned_value _).
  set (my := is_proposing n && _). set (n0 := if is_proposing n then _ else _).
  assert (H0 : out_ n0 = out_ n /\ instance_id_ n0 = instance_id_ n) by (unfold n0; by split_if).
  destruct H0 as [O0 I0]. unfold MachineExecute, Execute. destruct (mm_Execute _ _ _ _ _ _) as [m success].
  set (n1 := emit _ _). set (n2 := if is_proposing n1 then _ else _).
  assert (H2 : exists k, out_ n2 = out_ n1 ++ k /\ run_log k = [] /\ instance_id_ n2 = instance_id_ n1).
  { unfold n2. destruct (is_proposing n1); [by eexists|]. exists []. by rewrite app_nil_r. }
  destruct H2 as (k & O2 & K & I2). exists (OExecute (instance_id_ n0) v success :: k).
  assert (E : run_log (OExecute (instance_id_ n0) v success :: k) = [(instance_id_ n0, v, success)])
    by exact (f_equal (cons _) K).
  rewrite E. cbn [advance]. rewrite I0, decide_True by done.
  assert (O : out_ n2 = out_ n ++ OExecute (instance_id_ n) v success :: k)
    by (rewrite O2; unfold n1; cbn; rewrite O0, I0, <- app_assoc; done).
  assert (I : instance_id_ n2 = instance_id_ n) by (rewrite I2; exact I0).
  destruct success; [by rewrite next_instance_out, next_instance_id, O, I|].
  split; [exact O|by rewrite <- I].
Qed.

#[global] Instance advances_frame : Frame advances.
Proof.
  constructor; [apply _| | | | |apply CheckLearn_advances|by intros; apply advances_same].
  - intros n n' (O & _ & _ & _ & _ & _ & _ & I & _). by apply advances_same.
  - intros o n Ho. eapply advances_quiet; [done| |done]. apply run_log_quiet. by destruct o.
  - intros d cb n _. unfold io_RunAfter. destruct (RunAfter _ _ _ _). by apply advances_same.
  - intros id n. by apply advances_same.
Qed.

Lemma OnPropose_advances mid v c r n : advances n (OnPropose mid v c r n).
Proof.
  unfold OnPropose, GetPaxosValueId, io_RunAfter. split_if; [by eapply advances_quiet|].
  destruct (RunAfter _ _ _ _) as [tl t]. cbv zeta.
  etrans; [|apply (NewPropose_maintains advances), (OnPaxosMessage_maintains advances)].
  unfold assert_. repeat split_if; (eapply advances_quiet; [|..|done]); simpl;
    rewrite <- ?app_assoc; first [by rewrite app_nil_r|done|reflexivity].
Qed.

Lemma handle_advances e n : advances n (handle e n).
Proof.
  destruct e; try (by apply (handle_maintains advances));
    unfold handle; (destruct (existsb _ _); [done|]); [apply OnPropose_advances|].
  unfold timers_turn. cbv zeta. destruct (pop_expired _ _) as [[cb tl]|]; [|by apply advances_same].
  trans (n <| io_timers ::= adjust_clock (now_ n) |> <| io_timers := tl |>); [by apply advances_same|].
  destruct cb; cbn [run_timer].
  - apply (on_retry_timer_maintains advances), (OnPaxosMessage_maintains advances).
  - apply (AskForLearn_maintains advances).
  - by eapply advances_quiet.
Qed.

(** A relation every event maintains holds between the ends of a run. *)
Lemma run_maintains (R : relation node) {PR : PreOrder R} ok evs s s' me n' :
  (forall e n, R n (handle e n)) ->
  checked_run ok evs s = Some s' -> s' !! me = Some n' -> exists n, s !! me = Some n /\ R n n'.
Proof.
  intros HR. revert s. induction evs as [|[k e] evs IH]; intros s; simpl.
  - intros [= ->] Hn. by exists n'.
  - unfold checked_event. destruct (s !! k) as [n|] eqn:Hk; [|done].
    destruct (_ && _); [|done]. intros Hr Hn. destruct (IH _ Hr Hn) as (n1 & H1 & D).
    destruct (decide (k = me)) as [->|Hne].
    + rewrite lookup_insert_eq in H1. injection H1 as <-. exists n. split; [done|].
      etrans; [apply HR|exact D].
    + rewrite lookup_insert_ne in H1 by done. by exists n1.
Qed.

(** Replaying the log drives it too. *)
Lemma ReplayLog_loop_drives fuel i n : drives (fun c => c = 0) n (ReplayLog_loop fuel i n).1.
Proof.
  revert i n. induction fuel as [|fuel IH]; intros i n; simpl; [done|].
  destruct (DB_Get i (db_ n)) as [res s]. destruct (negb _); [done|].
  pose proof (Execute_drives (fun c => c = 0) i (pi_accepted_value (ParseFromString s).2) 0 n eq_refl) as H.
  destruct (Execute _ _ _ _) as [n1 b]. etrans; [exact H|]. apply IH.
Qed.

Lemma drives_same P n n' : config_ n' = config_ n -> mm_ n' = mm_ n -> out_ n' = out_ n -> drives P n n'.
Proof. intros ?? O. apply (drives_quiet P n n' []); [done..|by rewrite app_nil_r|done]. Qed.

Lemma Acceptor_Recover_drives P n : drives P n (Acceptor_Recover n).1.
Proof.
  unfold Acceptor_Recover, Acceptor_ReadFromDB. repeat case_match; simplify_eq; by apply drives_same.
Qed.

Lemma LogManager_Recover_drives id n : drives (fun c => c = 0) n (LogManager_Recover id n).1.1.
Proof.
  unfold LogManager_Recover. destruct (DB_GetMinChosenInstanceId _ _) as [ret min].
  destruct (ret =? -1); [done|]. cbv zeta. split_if; [|by apply drives_same]. unfold ReplayLog.
  match goal with |- context [ReplayLog_loop ?f ?i ?n1] =>
    pose proof (ReplayLog_loop_drives f i n1) as H; destruct (ReplayLog_loop f i n1) as [n2 ok] end.
  etrans; [|exact H]. by apply drives_same.
Qed.

Lemma Instance_Recover_drives n : drives (fun c => c = 0) n (Instance_Recover n).1.
Proof.
  unfold Instance_Recover. pose proof (Acceptor_Recover_drives (fun c => c = 0) n) as H1.
  destruct (Acceptor_Recover n) as [n1 [id|]]; [|done]. cbn [fst] in H1.
  pose proof (LogManager_Recover_drives id n1) as H2.
  destruct (LogManager_Recover id n1) as [[n2 id2] ok]. cbn [fst] in H2.
  etrans; [exact H1|]. etrans; [exact H2|]. cbv zeta. destruct (negb ok); [by apply drives_same|].
  unfold Acceptor_SetInstanceId. split_if; by apply drives_same.
Qed.

(** A recovered node: its machines are those it was given after the replayed executions. *)
Lemma recovered_history c now db m ck n ok :
  Instance_Recover (new_node c now db m ck) = (n, ok) ->
  config_ n = c /\ mm_run (fun c => c = 0) (cf_group_id c) m (run_log (out_ n)) (mm_ n).
Proof.
  intros E. pose proof (Instance_Recover_drives (new_node c now db m ck)) as [C (k & O & R)].
  rewrite E in C, O, R. cbn in C, O, R. split; [done|]. by rewrite O.
Qed.

Lemma run_drives ok evs s s' me n' :
  checked_run ok evs s = Some s' -> s' !! me = Some n' ->
  exists n, s !! me = Some n /\ drives any_context n n'.
Proof. apply run_maintains; [apply _|apply handle_drives]. Qed.

Lemma run_advances ok evs s s' me n' :
  checked_run ok evs s = Some s' -> s' !! me = Some n' -> exists n, s !! me = Some n /\ advances n n'.
Proof. apply run_maintains; [apply _|apply handle_advances]. Qed.

(** (C18) In every run of every group, whatever the network delivers and however often,
    each node executes in order and without a gap: an execution is made in the instance the
    node is in, the node goes on to the next instance exactly when it succeeds, and a value
    whose execution failed is executed again in the same instance.  No condition on the run
    is needed. *)
Theorem executions_in_order :
  forall (s0 s : gmap Z node) (evs : list (Z * Event)) (me : Z) (n : node),
  run evs s0 = Some s -> s !! me = Some n ->
  exists n0 k, s0 !! me = Some n0 /\ out_ n = out_ n0 ++ k /\
    advance (instance_id_ n0) (run_log k) = Some (instance_id_ n).
Proof.
  intros s0 s evs me n Hr Hn. destruct (run_advances _ _ _ _ _ _ Hr Hn) as (n0 & H0 & k & O & A).
  by exists n0, k.
Qed.

End History.

(** * Deterministic machines *)

(** What the application promises: an execution depends on the value, the group and the
    instance, but not on the context, on the clock or on parts of the state that are not
    replicated ([um_equiv] ignores them). *)
Class DeterministicMachines `{!UserMachines} := {
  um_equiv : relation um;
  um_equivalence :: Equivalence um_equiv;
  um_Execute_equiv : forall id g i v c1 c2 u1 u2,
    um_equiv u1 u2 ->
    um_equiv (um_Execute id g i v c1 u1).1 (um_Execute id g i v c2 u2).1 /\
    (um_Execute id g i v c1 u1).2 = (um_Execute id g i v c2 u2).2;
}.

Section Machines.
Context {UM : UserMachines} {DM : DeterministicMachines}.
Context {PC : ProtoCodec MemberChangeMessage} {PS : ProtoCodec MasterState}.
Variables (env : CheckpointEnv) (deref : Z -> Z).

(** The replicated part of the machines: all but the end of the lease, which is counted
    from the clock of each node. *)
Definition machines_equiv (m1 m2 : manager) : Prop :=
  mgr_membership m1 = mgr_membership m2 /\
  mst_version (mgr_master m1) = mst_version (mgr_master m2) /\
  mst_node_id (mgr_master m1) = mst_node_id (mgr_master m2) /\
  mgr_ids m1 = mgr_ids m2 /\ um_equiv (mgr_user m1) (mgr_user m2).

#[export] Instance machines_equivalence : Equivalence machines_equiv.
Proof.
  split.
  - intros m. by split_and!.
  - intros m1 m2 (H1 & H2 & H3 & H4 & H). by split_and!.
  - intros m1 m2 m3 (A1 & A2 & A3 & A4 & A5) (B1 & B2 & B3 & B4 & B5).
    split_and!; by etrans.
Qed.

Lemma Finish_equiv id i r m : machines_equiv (FinishMakeCheckpoint env id i r m) m.
Proof.
  destruct (FinishMakeCheckpoint_machines env id i r m) as (H1 & H2 & H3 & H4).
  unfold machines_equiv. rewrite H1, H2, H3, H4. by split_and!.
Qed.

Lemma Make_equiv i m : machines_equiv (MakeCheckpoint env i m).1 m.
Proof.
  destruct (MakeCheckpoint_machines env i m) as (H1 & H2 & H3 & H4 & _).
  unfold machines_equiv. rewrite H1, H2, H3, H4. by split_and!.
Qed.

Lemma machine_execute_equiv n1 n2 g i v c1 c2 m1 m2 :
  machines_equiv m1 m2 ->
  machines_equiv (machine_execute deref n1 g i v c1 m1).1 (machine_execute deref n2 g i v c2 m2).1 /\
  (machine_execute deref n1 g i v c1 m1).2 = (machine_execute deref n2 g i v c2 m2).2.
Proof.
  intros (H1 & H2 & H3 & H4 & H5). unfold machine_execute.
  destruct (machine_id v =? 1); [|destruct (machine_id v =? 2)].
  - rewrite H1. destruct (MembershipMachine_Execute _ _ _). by split_and!.
  - unfold MasterMachine_Execute. rewrite H2. destruct (_ <=? _); [by split_and!|].
    destruct (ParseFromString _) as [[] st]; by split_and!.
  - destruct (um_Execute_equiv (machine_id v) g i (user_data v) c1 c2 _ _ H5) as [Hu Hr].
    destruct (um_Execute _ _ _ _ c1 _), (um_Execute _ _ _ _ c2 _). by split_and!.
Qed.

Lemma Execute_equiv n1 n2 g i v c1 c2 m1 m2 :
  machines_equiv m1 m2 ->
  machines_equiv (MachineManager_Execute env deref n1 g i v c1 m1).1
    (MachineManager_Execute env deref n2 g i v c2 m2).1 /\
  (MachineManager_Execute env deref n1 g i v c1 m1).2 = (MachineManager_Execute env deref n2 g i v c2 m2).2.
Proof.
  intros H. unfold MachineManager_Execute. pose proof H as (_ & _ & _ & -> & _).
  case_decide; [|done].
  destruct (machine_execute_equiv n1 n2 g i v c1 c2 _ _ H) as [Hm Hr].
  destruct (machine_execute deref n1 _ _ _ _ _) as [a1 r1], (machine_execute deref n2 _ _ _ _ _) as [a2 r2].
  simpl in Hm, Hr. subst r2. destruct r1; [|done]. split; [|done]. simpl.
  rewrite !Make_equiv. done.
Qed.

(** Equivalent managers that execute the same values stay equivalent and give the same
    results. *)
Lemma mm_run_equiv P Q g m1 l1 m1' m2 l2 m2' :
  mm_run (MM := manager_instance env deref) P g m1 l1 m1' ->
  mm_run (MM := manager_instance env deref) Q g m2 l2 m2' ->
  machines_equiv m1 m2 -> l1.*1 = l2.*1 -> machines_equiv m1' m2' /\ l1 = l2.
Proof.
  intros H. revert m2 l2. induction H as [m|id i r m l m' H IH|now ctx i v r m a l m' _ Ex H IH];
    intros m2 l2 H2 He El.
  - destruct l2; [|done]. split; [|done]. remember [] as l eqn:E. revert E He. clear El.
    induction H2 as [x|id i r x l x' H' IH'|]; intros E He; [done| |done].
    apply IH'; [done|]. etrans; [exact He|]. symmetry. apply Finish_equiv.
  - apply (IH _ _ H2); [|done]. etrans; [apply Finish_equiv|exact He].
  - revert He El.
    induction H2 as [x|id i' r' x l2 x' H' IH'|now' ctx' i' v' r' x a' l2 x' _ Ex' H' _]; intros He El; [done| |].
    + apply IH'; [exact IH| |done]. etrans; [exact He|]. symmetry. apply Finish_equiv.
    + injection El as <- <- El. pose proof (Execute_equiv now now' g i v ctx ctx' _ _ He) as [Hm Hr].
      cbn in Ex, Ex'. rewrite Ex, Ex' in Hm, Hr. simpl in Hm, Hr. subst r'.
      destruct (IH _ _ H' Hm El) as [? ->]. done.
Qed.

End Machines.

(** * Values no machine executes *)

Section Unknown.
Context {FC : FixedCoding} {LD : LevelDB} {CM : CheckpointManager}.
Context {AL : Allocator} {PI : ProtoCodec PaxosInstance} {UM : UserMachines}.
Context {PC : ProtoCodec MemberChangeMessage} {PS : ProtoCodec MasterState}.
Variables (env : CheckpointEnv) (deref : Z -> Z).

#[local] Instance unknown_machines : MachineManager := manager_instance env deref.

(** An execution does not register a machine, and needs one. *)
Lemma Execute_unknown now g i v ctx m :
  machine_id v ∉ mgr_ids m -> MachineManager_Execute env deref now g i v ctx m = (m, false).
Proof. intros H. unfold MachineManager_Execute. by rewrite decide_False. Qed.

Lemma mm_run_unknown P g m l m' :
  mm_run P g m l m' -> Forall (fun x => machine_id x.1.2 ∉ mgr_ids m) l -> Forall (fun x => x.2 = false) l.
Proof.
  induction 1 as [m|id i r m l m' H IH|now ctx i v r m m1 l m' _ Ex H IH]; intros F; [done| |].
  - apply IH. cbn. destruct (FinishMakeCheckpoint_machines env id i r m) as (_ & _ & _ & ->). done.
  - apply Forall_cons in F as [Hv F]. simpl in Hv. cbn in Ex. rewrite Execute_unknown in Ex by done.
    injection Ex as <- <-. apply Forall_cons. split; [done|]. by apply IH.
Qed.

(** (C19) A value for a machine that is not registered stops the group: as long as what a
    node learns names no machine of its manager, every execution fails and the node stays
    in its instance, whatever else happens. *)
Theorem unknown_machine_blocks :
  forall (s0 s : gmap Z node) (evs : list (Z * Event)) (me : Z) (n0 n : node) (k : list Output),
  run evs s0 = Some s -> s0 !! me = Some n0 -> s !! me = Some n -> out_ n = out_ n0 ++ k ->
  (forall i v r, OExecute i v r ∈ k -> machine_id v ∉ mgr_ids (mm_ n0)) ->
  instance_id_ n = instance_id_ n0 /\ (forall i v r, OExecute i v r ∈ k -> r = false).
Proof.
  intros s0 s evs me n0 n k Hr H0 Hn O Hk.
  destruct (run_drives _ _ _ _ _ _ Hr Hn) as (n1 & H1 & _ & k1 & O1 & R). rewrite H0 in H1. injection H1 as <-.
  assert (k1 = k) as -> by (rewrite O in O1; by apply app_inv_head in O1).
  assert (F : Forall (fun x => x.2 = false) (run_log k)).
  { eapply mm_run_unknown; [exact R|]. apply Forall_forall. intros [[i v] r] Hx.
    apply list_elem_of_omap in Hx as (o & Ho & E). destruct o; try done. injection E as -> -> ->. by eapply Hk. }
  destruct (run_advances _ _ _ _ _ _ Hr Hn) as (n1 & H1 & k1 & O2 & A). rewrite H0 in H1. injection H1 as <-.
  assert (k1 = k) as -> by (rewrite O in O2; by apply app_inv_head in O2). split.
  - destruct (advance_failed (instance_id_ n0) (run_log k) F) as [E|E]; congruence.
  - intros i v r Ho. rewrite Forall_forall in F.
    apply (F (i, v, r)), list_elem_of_omap. by exists (OExecute i v r).
Qed.

End Unknown.

(** * State machine replication *)

#[local] Notation any_context := (fun _ : Z => True).

Section Replication.
Context {FC : FixedCoding} {FCL : FixedCodingLaws} {LD : LevelDB} {LDL : LevelDBLaws}.
Context {LDR : LevelDBReliable} {CM : CheckpointManager} {CML : CheckpointManagerLaws}.
Context {AL : Allocator} {PI : ProtoCodec PaxosInstance} {PIL : ProtoCodecLaws PaxosInstance}.
Context {UM : UserMachines} {DM : DeterministicMachines}.
Context {PC : ProtoCodec MemberChangeMessage} {PS : ProtoCodec MasterState}.
Variables (env : CheckpointEnv) (deref : Z -> Z) (M : gset Z).

#[local] Existing Instance no_restarts.
#[local] Instance replica_machines : MachineManager := manager_instance env deref.

(** The nodes belong to one group and start with equivalent machines. *)
Definition same_start (s : gmap Z node) : Prop :=
  forall me1 n1 me2 n2, s !! me1 = Some n1 -> s !! me2 = Some n2 ->
    cf_group_id (config_ n1) = cf_group_id (config_ n2) /\ machines_equiv (mm_ n1) (mm_ n2).

Lemma fresh_no_runs s me n : fresh_system M s -> s !! me = Some n -> run_log (out_ n) = [].
Proof.
  intros H Hn. pose proof (fresh_system_rel M s H me n Hn) as [(_ & _ & Mo) Hi].
  pose proof (r_exec _ _ _ _ Mo Hi) as E. unfold ran in E. simpl in E. apply (f_equal length) in E.
  rewrite <- run_log_exec, !length_fmap, length_seqZ in E.
  destruct H as [_ Hf]. destruct (Hf me n Hn) as (c & now & db & m & ck & _ & _ & Hdb & _ & Hcp & Hr).
  assert (Hid : instance_id_ n = 1).
  { unfold Instance_Recover, Acceptor_Recover, Acceptor_ReadFromDB, DB_GetMaxInstanceId in Hr.
    simpl in Hr. rewrite Hdb in Hr. simpl in Hr. unfold LogManager_Recover in Hr.
    destruct (DB_GetMinChosenInstanceId _ _) as [ret min]. destruct (ret =? -1); [done|].
    cbv zeta in Hr. cbn in Hr, Hcp. rewrite Hcp in Hr. simpl in Hr. by injection Hr as <-. }
  rewrite Hid in E. simpl in E. by destruct (run_log (out_ n)).
Qed.

(** What a node's machines have been through since the start. *)
Lemma clean_history s0 s evs me n :
  fresh_system M s0 -> clean_run evs s0 = Some s -> s !! me = Some n ->
  exists n0, s0 !! me = Some n0 /\ config_ n = config_ n0 /\
    mm_run any_context (cf_group_id (config_ n0)) (mm_ n0) (run_log (out_ n)) (mm_ n).
Proof.
  intros H0 Hr Hn. destruct (run_drives _ _ _ _ _ _ Hr Hn) as (n0 & Hn0 & C & k & O & R).
  exists n0. split_and!; [done|done|]. rewrite O. unfold run_log in *. rewrite omap_app.
  pose proof (fresh_no_runs _ _ _ H0 Hn0) as E. unfold run_log in E. by rewrite E.
Qed.

(** (C5) State machine replication, for the machines themselves.  In a clean run of a group
    whose nodes start with equivalent machines, take two nodes of which the first has not
    executed more instances than the second.  Then the machines of the first (membership,
    master, and the application's, up to what is not replicated) are in the state in which
    those of the second were when it had executed as many instances, and the executions the
    second has made since are those by which its log is longer.  In particular
    nodes at the same instance have the same machines.  The application's machines are
    deterministic up to their equivalence ([DeterministicMachines]) and writes to the
    databases succeed ([LevelDBReliable]). *)
Theorem replicas_agree :
  forall (s0 s : gmap Z node) (evs : list (Z * Event)) (me1 me2 : Z) (n1 n2 : node),
  fresh_system M s0 -> same_start s0 -> clean_run evs s0 = Some s ->
  s !! me1 = Some n1 -> s !! me2 = Some n2 -> instance_id_ n1 <= instance_id_ n2 ->
  (exists m l, machines_equiv (mm_ n1) m /\ mm_run any_context (cf_group_id (config_ n2)) m l (mm_ n2) /\
     executions s me2 = executions s me1 ++ l.*1) /\
  (instance_id_ n1 = instance_id_ n2 -> machines_equiv (mm_ n1) (mm_ n2)).
Proof.
  intros s0 s evs me1 me2 n1 n2 H0 Hst Hr H1 H2 Hle.
  destruct (clean_run_simulated M _ _ _ H0 Hr) as (a & _ & I & Hrel).
  destruct (Hrel me1 n1 H1) as [(_ & _ & Mo1) I1], (Hrel me2 n2 H2) as [(_ & _ & Mo2) I2].
  assert (E1 : (executions s me1).*1 = seqZ 1 (instance_id_ n1 - 1))
    by (unfold executions; rewrite H1; by apply Mo1).
  assert (E2 : (executions s me2).*1 = seqZ 1 (instance_id_ n2 - 1))
    by (unfold executions; rewrite H2; by apply Mo2).
  pose proof (exec_pairs_agree M _ _ _ _ _ _ I Hrel E1 E2 ltac:(lia)) as [k Hk].
  destruct (clean_history _ _ _ _ _ H0 Hr H1) as (m01 & S1 & C1 & R1).
  destruct (clean_history _ _ _ _ _ H0 Hr H2) as (m02 & S2 & C2 & R2).
  destruct (Hst _ _ _ _ S1 S2) as [Eg He].
  assert (L1 : (run_log (out_ n1)).*1 = executions s me1) by (unfold executions; by rewrite H1, run_log_exec).
  assert (L2 : (run_log (out_ n2)).*1 = executions s me2) by (unfold executions; by rewrite H2, run_log_exec).
  set (j := length (executions s me1)).
  rewrite <- (take_drop j (run_log (out_ n2))) in R2. apply mm_run_app in R2 as (m & Ra & Rb).
  assert (Em : machines_equiv (mm_ n1) m).
  { eapply (mm_run_equiv env deref); [exact R1|rewrite Eg; exact Ra|exact He|].
    rewrite fmap_take, L1, L2, Hk. unfold j. by rewrite take_app_length. }
  split.
  - exists m, (drop j (run_log (out_ n2))). rewrite C2. split_and!; [done|done|].
    rewrite fmap_drop, L2, Hk. unfold j. by rewrite drop_app_length.
  - intros Ei. eapply (mm_run_equiv env deref); [apply (mm_run_nil any_context)|exact Rb|exact Em|].
    rewrite fmap_drop, L2. unfold j. rewrite drop_ge; [done|].
    apply (f_equal length) in E1, E2. rewrite length_fmap, length_seqZ in E1, E2. lia.
Qed.

End Replication.
