(* ===== verification/Notifications.v ===== *)
(** The callbacks by which a user learns of a new membership or a new master.

    The internal machines call them at the end of a successful [Execute], before the
    instance goes on; [NodeImpl::StartWorking] registers them after the recovery of a group,
    so that nothing is called for executions replayed from the log. *)

From S2P Require Import Prelude Ballot Proto Storage Random TimerList Counter NodeState.
From S2P Require Import AcceptorModel ProposerModel LearnerModel LogModel InstanceModel Traces.
From S2P Require Import System MachinesModel Machines Replication.

(** A callback is given the group. *)
Inductive Notification := NewMembership (group : Z) | NewMaster (group : Z).

(** [membership_cb] and [master_cb] of the options: whether the user has set them. *)
Record UserCallbacks := mkUserCallbacks { has_membership_cb : bool; has_master_cb : bool }.

Section Notifications.
Context {UM : UserMachines} {PC : ProtoCodec MemberChangeMessage} {PS : ProtoCodec MasterState}.
Variables (env : CheckpointEnv) (deref : Z -> Z).

(** ** What the machines call *)

(** [MembershipMachine::Execute] with [cb_]: whether it is set; third, the calls made. *)
Definition MembershipMachine_Execute_cb (cb : bool) (group instance_id : Z) (value : string) (m : Membership)
  : Membership * bool * list Notification :=
  if instance_id <=? ms_version m then (m, false, [])
  else
    let '(ok, temp) := ParseFromString value in
    if ok then
      (mkMembership instance_id (apply_changes temp (ms_members m)), true, if cb then [NewMembership group] else [])
    else (m, false, []).

(** [MasterMachine::Execute] with [cb_]. *)
Definition MasterMachine_Execute_cb (cb : bool) (now group instance_id : Z) (value : string) (context : option Z)
    (s : MasterState) : MasterState * bool * list Notification :=
  if instance_id <=? mst_version s then (s, false, [])
  else
    let '(ok, state) := ParseFromString value in
    if ok then
      (mkMasterState instance_id (mst_node_id state)
         (match context with Some t => t | None => now end +64 mst_lease_time state), true,
       if cb then [NewMaster group] else [])
    else (s, false, []).

(** The machine that [MachineManager::Execute] calls; a machine of the user has no callback. *)
Definition machine_execute_cb (cbs : UserCallbacks) (now group instance_id : Z) (v : PaxosValue) (context : Z)
    (m : manager) : manager * bool * list Notification :=
  if machine_id v =? 1 then
    let '(ms, r, calls) :=
      MembershipMachine_Execute_cb (has_membership_cb cbs) group instance_id (user_data v) (mgr_membership m) in
    (set_machines ms (mgr_master m) (mgr_user m) m, r, calls)
  else if machine_id v =? 2 then
    let ctx := if context =? 0 then None else Some (deref context) in
    let '(st, r, calls) :=
      MasterMachine_Execute_cb (has_master_cb cbs) now group instance_id (user_data v) ctx (mgr_master m) in
    (set_machines (mgr_membership m) st (mgr_user m) m, r, calls)
  else
    let '(u, r) := um_Execute (machine_id v) group instance_id (user_data v) context (mgr_user m) in
    (set_machines (mgr_membership m) (mgr_master m) u m, r, []).

(** [MachineManager::Execute] with the calls made in it. *)
Definition Execute_cb (cbs : UserCallbacks) (now group instance_id : Z) (v : PaxosValue) (context : Z) (m : manager)
  : manager * bool * list Notification :=
  let '(m, result, calls) :=
    if decide (machine_id v ∈ mgr_ids m) then machine_execute_cb cbs now group instance_id v context m
    else (m, false, []) in
  if result then ((MakeCheckpoint env instance_id m).1, true, calls) else (m, false, calls).

(** ** A manager that makes the calls *)

(** The manager of a group, the callbacks its two internal machines hold, and the calls
    they have made. *)
Record notifying := mkNotifying {
  nt_manager : manager;
  nt_cbs : UserCallbacks;
  nt_calls : list Notification;
}.

(** [Group::SetNewMembershipCallback] and [Group::SetNewMasterCallback]; [cb] says whether
    the callback given holds a function. *)
Definition SetNewMembershipCallback (cb : bool) (x : notifying) : notifying :=
  mkNotifying (nt_manager x) (mkUserCallbacks cb (has_master_cb (nt_cbs x))) (nt_calls x).

Definition SetNewMasterCallback (cb : bool) (x : notifying) : notifying :=
  mkNotifying (nt_manager x) (mkUserCallbacks (has_membership_cb (nt_cbs x)) cb) (nt_calls x).

Definition notifying_Execute (now group instance_id : Z) (v : PaxosValue) (context : Z) (x : notifying)
  : notifying * bool :=
  let '(m, r, calls) := Execute_cb (nt_cbs x) now group instance_id v context (nt_manager x) in
  (mkNotifying m (nt_cbs x) (nt_calls x ++ calls), r).

Definition notifying_FinishMakeCheckpoint (id instance_id : Z) (r : bool) (x : notifying) : notifying :=
  mkNotifying (FinishMakeCheckpoint env id instance_id r (nt_manager x)) (nt_cbs x) (nt_calls x).

Definition notifying_machines : MachineManager := {|
  mm := notifying;
  mm_GetMembership x := mgr_membership (nt_manager x);
  mm_Execute := notifying_Execute;
  mm_GetLatestCheckpointInstanceId x := mgr_latest (nt_manager x);
  mm_GetOldestCheckpointInstanceId x := mgr_oldest (nt_manager x);
  mm_FinishMakeCheckpoint := notifying_FinishMakeCheckpoint;
|}.

(** ** Which executions are told *)

(** The calls an execution with its result must make. *)
Definition notified (cbs : UserCallbacks) (group : Z) (x : Z * PaxosValue * bool) : list Notification :=
  if x.2 then
    if machine_id x.1.2 =? 1 then if has_membership_cb cbs then [NewMembership group] else []
    else if machine_id x.1.2 =? 2 then if has_master_cb cbs then [NewMaster group] else []
    else []
  else [].

Lemma machine_execute_cb_notified cbs now g i v ctx m :
  machine_execute_cb cbs now g i v ctx m =
    let '(m', r) := machine_execute deref now g i v ctx m in (m', r, notified cbs g (i, v, r)).
Proof.
  unfold machine_execute_cb, machine_execute, notified. simpl.
  destruct (machine_id v =? 1); [|destruct (machine_id v =? 2)].
  - unfold MembershipMachine_Execute_cb, MembershipMachine_Execute. destruct (i <=? _); [done|].
    by destruct (ParseFromString _) as [[] ?].
  - unfold MasterMachine_Execute_cb, MasterMachine_Execute. destruct (i <=? _); [done|].
    by destruct (ParseFromString _) as [[] ?].
  - by destruct (um_Execute _ _ _ _ _ _) as [? []].
Qed.

(** The calls change nothing else, and are those the result tells of. *)
Lemma Execute_cb_notified cbs now g i v ctx m :
  Execute_cb cbs now g i v ctx m =
    let '(m', r) := MachineManager_Execute env deref now g i v ctx m in (m', r, notified cbs g (i, v, r)).
Proof.
  unfold Execute_cb, MachineManager_Execute. case_decide; [|done]. rewrite machine_execute_cb_notified.
  by destruct (machine_execute _ _ _ _ _ _ _) as [? []].
Qed.

(** ** What the user knows *)

(** The instance of the last successful execution of a machine. *)
Definition last_success (id : Z) (l : list (Z * PaxosValue * bool)) : option Z :=
  last (omap (fun x => if x.2 && (machine_id x.1.2 =? id) then Some x.1.1 else None) l).

Lemma last_success_cons id x l :
  last_success id (x :: l) =
    match last_success id l with
    | Some i => Some i
    | None => if x.2 && (machine_id x.1.2 =? id) then Some x.1.1 else None
    end.
Proof.
  unfold last_success. simpl. destruct (x.2 && _); [|by destruct (last _)]. rewrite last_cons.
  by destruct (last _).
Qed.

Lemma execute_versions now g i v ctx m m' r :
  MachineManager_Execute env deref now g i v ctx m = (m', r) ->
  (if r && (machine_id v =? 1) then ms_version (mgr_membership m') = i else mgr_membership m' = mgr_membership m) /\
  (if r && (machine_id v =? 2) then mst_version (mgr_master m') = i else mgr_master m' = mgr_master m).
Proof.
  unfold MachineManager_Execute. case_decide; [|by intros [= <- <-]].
  unfold machine_execute.
  destruct (Z.eqb_spec (machine_id v) 1) as [E|_]; [|destruct (Z.eqb_spec (machine_id v) 2) as [E|_]].
  - unfold MembershipMachine_Execute. destruct (i <=? _); [by intros [= <- <-]|].
    destruct (ParseFromString _) as [[] temp]; intros [= <- <-]; [|done].
    rewrite E. simpl. destruct (MakeCheckpoint_machines env i (set_machines (mkMembership i (apply_changes temp (ms_members (mgr_membership m)))) (mgr_master m) (mgr_user m) m)) as (-> & -> & _). done.
  - unfold MasterMachine_Execute. destruct (i <=? _); [by intros [= <- <-]|].
    destruct (ParseFromString _) as [[] temp]; intros [= <- <-]; [|done].
    match goal with |- context [MakeCheckpoint env i ?x] => destruct (MakeCheckpoint_machines env i x) as (-> & -> & _) end. done.
  - destruct (um_Execute _ _ _ _ _ _) as [u []]; intros [= <- <-]; [|done].
    match goal with |- context [MakeCheckpoint env i ?x] => destruct (MakeCheckpoint_machines env i x) as (-> & -> & _) end. done.
Qed.

Context {FC : FixedCoding} {LD : LevelDB} {CM : CheckpointManager} {AL : Allocator} {PI : ProtoCodec PaxosInstance}.

#[local] Existing Instance notifying_machines.

(** A manager driven through executions: the calls it makes, and what its machines hold. *)
Lemma mm_run_notifies P g x l x' :
  mm_run P g x l x' ->
  nt_cbs x' = nt_cbs x /\ nt_calls x' = nt_calls x ++ concat (notified (nt_cbs x) g <$> l) /\
  match last_success 1 l with
  | Some i => ms_version (mgr_membership (nt_manager x')) = i
  | None => mgr_membership (nt_manager x') = mgr_membership (nt_manager x)
  end /\
  match last_success 2 l with
  | Some i => mst_version (mgr_master (nt_manager x')) = i
  | None => mgr_master (nt_manager x') = mgr_master (nt_manager x)
  end.
Proof.
  induction 1 as [x|id i r x l x' H (IHc & IHn & IH1 & IH2)|now ctx i v r x x1 l x' _ Ex H (IHc & IHn & IH1 & IH2)].
  - by rewrite app_nil_r.
  - cbn in IHc, IHn, IH1, IH2. destruct (FinishMakeCheckpoint_machines env id i r (nt_manager x)) as (E1 & E2 & _).
    rewrite E1 in IH1. rewrite E2 in IH2. done.
  - cbn in Ex. unfold notifying_Execute in Ex. rewrite Execute_cb_notified in Ex.
    destruct (MachineManager_Execute env deref now g i v ctx (nt_manager x)) as [m1 r1] eqn:Em.
    injection Ex as <- ->. destruct (execute_versions _ _ _ _ _ _ _ _ Em) as [V1 V2].
    cbn in IHc, IHn, IH1, IH2. rewrite IHc, IHn, <- app_assoc, !last_success_cons. cbn [concat fmap list_fmap].
    split_and!; [done|done| |].
    + destruct (last_success 1 l); [done|]. rewrite IH1. clear -V1. revert V1. simpl. by destruct (r && _).
    + destruct (last_success 2 l); [done|]. rewrite IH2. clear -V2. revert V2. simpl. by destruct (r && _).
Qed.

(** With both callbacks set, a call for a machine is a successful execution of it. *)
Lemma notified_success g l :
  (NewMembership g ∈ concat (notified (mkUserCallbacks true true) g <$> l) <-> is_Some (last_success 1 l)) /\
  (NewMaster g ∈ concat (notified (mkUserCallbacks true true) g <$> l) <-> is_Some (last_success 2 l)).
Proof.
  induction l as [|[[i v] r] l [IH1 IH2]].
  - split; (split; [by intros ?%elem_of_nil|by intros [? ?]]).
  - rewrite !last_success_cons, fmap_cons. cbn [concat]. rewrite !elem_of_app, IH1, IH2. unfold notified. simpl.
    destruct r; simpl; destruct (Z.eqb_spec (machine_id v) 1) as [E1|E1];
      destruct (Z.eqb_spec (machine_id v) 2) as [E2|E2]; try lia;
      destruct (last_success 1 l), (last_success 2 l); rewrite ?list_elem_of_singleton, ?elem_of_nil;
      split; split; intros H; try (by eexists); try (by destruct H as [H|H]; try done; by eexists);
      try (by left); try (by right; eexists); by destruct H.
Qed.

(** (C32) A user who asks for the membership (the master) whenever the callback for it is called is
    never behind.  In any run of a group that starts with a node whose two callbacks have just
    been set, the machines of that node call them exactly for its successful executions on the
    two machines, in order and once each; as long as no call was for the membership, the
    membership is the one there was when the callbacks were set, and after some its version is
    the instance of the last execution told; and likewise for the master. *)
Theorem changes_are_notified :
  forall (s0 s : gmap Z node) (evs : list (Z * Event)) (me : Z) (n0 n : node) (x : notifying),
  run evs s0 = Some s -> s0 !! me = Some n0 -> s !! me = Some n ->
  mm_ n0 = SetNewMasterCallback true (SetNewMembershipCallback true x) ->
  let group := cf_group_id (config_ n) in
  exists calls log,
    nt_calls (mm_ n) = nt_calls x ++ calls /\ run_log (out_ n) = run_log (out_ n0) ++ log /\
    calls = concat (notified (mkUserCallbacks true true) group <$> log) /\
    (NewMembership group ∉ calls -> mgr_membership (nt_manager (mm_ n)) = mgr_membership (nt_manager x)) /\
    (NewMembership group ∈ calls -> last_success 1 log = Some (ms_version (mgr_membership (nt_manager (mm_ n))))) /\
    (NewMaster group ∉ calls -> mgr_master (nt_manager (mm_ n)) = mgr_master (nt_manager x)) /\
    (NewMaster group ∈ calls -> last_success 2 log = Some (mst_version (mgr_master (nt_manager (mm_ n))))).
Proof.
  intros s0 s evs me n0 n x Hr H0 Hn Hx group.
  destruct (run_drives _ _ _ _ _ _ Hr Hn) as (n1 & H1 & C & k & O & R). rewrite H0 in H1. injection H1 as <-.
  destruct (mm_run_notifies _ _ _ _ _ R) as (_ & N & V1 & V2). rewrite Hx in N, V1, V2. cbn in N, V1, V2.
  rewrite <- C in N. fold group in N. destruct (notified_success group (run_log k)) as [M1 M2].
  exists (concat (notified (mkUserCallbacks true true) group <$> run_log k)), (run_log k). rewrite M1, M2.
  split_and!; [done| |done|..].
  - rewrite O. unfold run_log. by rewrite omap_app.
  - intros H. destruct (last_success 1 (run_log k)); [|done]. destruct H. by eexists.
  - intros [i E]. rewrite E in V1 |- *. by rewrite V1.
  - intros H. destruct (last_success 2 (run_log k)); [|done]. destruct H. by eexists.
  - intros [i E]. rewrite E in V2 |- *. by rewrite V2.
Qed.

End Notifications.
