(* ===== verification/Contexts.v ===== *)
(** The pointers clients hand to [Propose] are used only while they may be.

    A client's context is passed to [StateMachine::Execute] and to its callback, after which
    the client may free it.  An invariant of the group ties the context of the proposal in
    progress to the queue: it belongs to the first accepted proposal that is not completed,
    and the callbacks that were run belong to completed ones. *)

From S2P Require Import Prelude Ballot Proto Storage Random TimerList Counter NodeState.
From S2P Require Import AcceptorModel ProposerModel LearnerModel LogModel InstanceModel Traces.
From S2P Require Import System Simulation MachinesModel ProposeQueue Proposals GroupModel Groups Replication.

Section Contexts.
Context {FC : FixedCoding} {LD : LevelDB} {CM : CheckpointManager}.
Context {AL : Allocator} {ALL : AllocatorLaws}.
Context {PI : ProtoCodec PaxosInstance} {PCM : ProtoCodec MemberChangeMessage} {PS : ProtoCodec MasterState}.
Context {UM : UserMachines}.
Variable env : CheckpointEnv.

#[local] Existing Instance group_machines.
#[local] Notation gnode := (node (MM := group_machines env)).
#[local] Notation ggroup := (group env).

(** The context a handler proposes with; that of [TryBeMasterInLoop] is the member [now_] of
    the group. *)
Definition handler_context (now : Z) (h : Handler) (c : Z) : Prop :=
  match h with HPropose _ _ c' => c = c' | HTryBeMaster => c = now end.

(** [c] is null or belongs to an accepted proposal whose callback was not run yet, when
    [called] callbacks were. *)
Definition live_context (acc : list (Handler * Callback)) (called : nat) (now c : Z) : Prop :=
  c = 0 \/ exists j h cb, acc !! j = Some (h, cb) /\ (called <= j)%nat /\ handler_context now h c.

(** * The invariant *)

Record context_inv (acc : list (Handler * Callback)) (res : list (Z * Status * Z)) (g : ggroup) : Prop := {
  ci_group : group_inv env acc res g;
  ci_called : (g_called env g <= length res)%nat;
  ci_context : is_proposing (g_node env g) = true ->
    exists h cb, acc !! length res = Some (h, cb) /\
      handler_context (g_now env g) h (context_ (g_node env g));
}.

Lemma own_live acc res g c :
  context_inv acc res g -> own_context (g_node env g) c -> live_context acc (g_called env g) (g_now env g) c.
Proof.
  intros [_ Hc Hx] [->|[Hp ->]]; [by left|]. right.
  destruct (Hx Hp) as (h & cb & Hl & Hh). by exists (length res), h, cb.
Qed.

(** A step of the instance: as long as the proposal stays in progress, nothing was completed. *)
Lemma context_inv_node acc (res res' : list (Z * Status * Z)) g g' :
  group_inv env acc res' g' -> g_called env g' = g_called env g -> (g_called env g <= length res)%nat ->
  (length res <= length res')%nat ->
  (is_proposing (g_node env g') = true ->
   length res' = length res /\
   exists h cb, acc !! length res = Some (h, cb) /\
     handler_context (g_now env g') h (context_ (g_node env g'))) ->
  context_inv acc res' g'.
Proof.
  intros G Ec Hc Hl Hx. constructor; [done|rewrite Ec; lia|]. intros Hp.
  destruct (Hx Hp) as [E H]. by rewrite E.
Qed.

Lemma deliver_node n g g' :
  deliver env n g = Some g' ->
  g_node env g' = n /\ g_started env g' = g_started env g /\ g_called env g' = g_called env g /\
  g_now env g' = g_now env g.
Proof. unfold deliver. destruct (complete_all _ _); [|done]. by intros [= <-]. Qed.

(** * Steps *)

Lemma node_context acc res e (g g' : ggroup) :
  (match e with EvPropose _ _ _ _ => False | _ => True end) -> context_inv acc res g ->
  deliver env (handle e (g_node env g)) g = Some g' ->
  drives (live_context acc (g_called env g) (g_now env g')) (g_node env g) (g_node env g') /\
  exists res', context_inv acc res' g'.
Proof.
  intros He C E. pose proof C as [G Hc Hx]. destruct (deliver_node _ _ _ E) as (En & Es & Ec & Ew).
  destruct (handle_driven e (g_node env g) He) as [D P]. rewrite <- En in D, P. split.
  - eapply drives_mono; [|exact D]. intros c. rewrite Ew. by eapply own_live.
  - destruct (node_inv env acc res e g He G) as (g1 & res' & E1 & G1). rewrite E in E1.
    injection E1 as <-. exists res'.
    assert (Hl : (length res + Nat.b2n (is_proposing (g_node env g)) =
                  length res' + Nat.b2n (is_proposing (g_node env g')))%nat)
      by (destruct G as [_ _ _ S1 _], G1 as [_ _ _ S2 _]; lia).
    apply (context_inv_node acc res res' g g'); [done|done|done| |].
    + destruct (is_proposing (g_node env g')) eqn:Hp; simpl in Hl; [|lia].
      destruct (P eq_refl) as [P1 _]. rewrite P1 in Hl. simpl in Hl. lia.
    + intros Hp. destruct (P Hp) as [P1 ->]. rewrite Hp, P1 in Hl. simpl in Hl. rewrite Ew.
      split; [lia|by apply Hx].
Qed.

(** The handler the io loop runs next is that of the first proposal not completed. *)
Lemma next_handler acc res (g : ggroup) h :
  group_inv env acc res g -> io_queued (g_queue env g) !! g_started env g = Some h ->
  is_proposing (g_node env g) = false /\ g_started env g = length res /\
  exists cb, acc !! length res = Some (h, cb).
Proof.
  intros [Hq Hn Ha Hs Hb] E. destruct Hq as (_ & _ & _ & Hio & _). simpl in Hio. rewrite Hio in E.
  apply lookup_take_Some in E as [E Hlt]. apply list_lookup_fmap_Some_1 in E as ([h' cb] & -> & E).
  destruct (is_proposing (g_node env g)); simpl in Hs; [lia|].
  rewrite Hs, Nat.add_0_r in E. split_and!; [done|lia|by exists cb].
Qed.

Lemma propose_context acc res mid v c r (g g1 g' : ggroup) h cb res' :
  context_inv acc res g -> is_proposing (g_node env g) = false -> acc !! length res = Some (h, cb) ->
  handler_context (g_now env g1) h c -> g_node env g1 = g_node env g -> g_called env g1 = g_called env g ->
  deliver env (OnPropose mid v c r (g_node env g)) g1 = Some g' ->
  g_started env g1 = S (length res) -> group_inv env acc res' g' ->
  drives (live_context acc (g_called env g) (g_now env g')) (g_node env g) (g_node env g') /\
  context_inv acc res' g'.
Proof.
  intros [G Hc Hx] Hp Hl Hh E1 E2 E Es G'. destruct (deliver_node _ _ _ E) as (En & Es' & Ec & Ew).
  destruct (OnPropose_drives mid v c r (g_node env g)) as [D P]. rewrite <- En in D, P. split.
  - eapply drives_mono; [|exact D]. intros x [->| ->]; [by left|].
    right. exists (length res), h, cb. by rewrite Ew.
  - assert (Hs : (S (length res) = length res' + Nat.b2n (is_proposing (g_node env g')))%nat)
      by (destruct G' as [_ _ _ S2 _]; lia).
    apply (context_inv_node acc res res' g g'); [done|by rewrite Ec, E2|done| |].
    + destruct (is_proposing (g_node env g')); simpl in Hs; lia.
    + intros Hp'. destruct (P Hp') as [[? _]| ->]; [congruence|]. rewrite Hp' in Hs. simpl in Hs.
      split; [lia|]. exists h, cb. by rewrite Ew.
Qed.

Lemma handler_step acc res r (g g' : ggroup) :
  context_inv acc res g -> run_handler env r g = Some g' ->
  drives (live_context acc (g_called env g) (g_now env g')) (g_node env g) (g_node env g') /\
  exists res', context_inv acc res' g'.
Proof.
  intros C E. pose proof C as [G Hc Hx]. destruct (handler_inv env acc res r g G) as (g2 & res' & E2 & G2).
  rewrite E in E2. injection E2 as <-. revert E. unfold run_handler.
  destruct (io_queued (g_queue env g) !! g_started env g) as [h|] eqn:Eh.
  2: { intros [= <-]. split; [done|]. by exists res. }
  destruct (next_handler _ _ _ _ G Eh) as (Hp & Hst & cb & Hl).
  set (g1 := mkGroup env _ _ (S (g_started env g)) _ _ _ _ _ _ _ _ _).
  assert (H1 : forall mid v c now, handler_context now h c ->
    deliver env (OnPropose mid v c r (g_node env g)) (with_now env now g1) = Some g' ->
    drives (live_context acc (g_called env g) (g_now env g')) (g_node env g) (g_node env g') /\
    exists res', context_inv acc res' g').
  { intros mid v c now Hh E.
    destruct (propose_context acc res mid v c r g (with_now env now g1) g' h cb res') as [D K]; try done.
    - simpl. congruence.
    - split; [done|by exists res']. }
  destruct h as [mid v c|]; [by apply (H1 mid v c (g_now env g))|]. unfold TryBeMasterInLoop. cbv zeta.
  destruct (_ || _)%bool; [by eapply H1|]. simpl. destruct (ProposeComplete _ _) as [q|] eqn:Eq; [|done].
  simpl. intros [= <-]. split; [done|]. exists res'. constructor; [done| |].
  - destruct G2 as [_ _ _ S2 _]. simpl in S2. rewrite Hp in S2. unfold g_called in *. simpl in *. lia.
  - simpl. congruence.
Qed.

Lemma callback_called acc res (g : ggroup) :
  group_inv env acc res g -> (g_called env g <= length res)%nat ->
  (g_called env (run_callback env g) <= length res)%nat.
Proof.
  intros [Hq _ _ _ _] Hc.
  destruct (callbacks (g_queue env g) !! g_called env g) as [x|] eqn:E.
  2: { unfold run_callback. by rewrite E. }
  rewrite (run_callback_called env g x E). destruct Hq as (_ & _ & _ & _ & _ & _ & Hcb). simpl in Hcb. rewrite Hcb in E.
  apply lookup_lt_Some in E. rewrite length_zip in E. lia.
Qed.

Lemma step_context acc res e (g g' : ggroup) :
  context_inv acc res g -> group_step env e g = Some g' ->
  drives (live_context acc (g_called env g) (g_now env g')) (g_node env g) (g_node env g') /\
  exists res', context_inv (acc ++ put_of env e g) res' g'.
Proof.
  intros C E. pose proof C as [G Hc Hx].
  assert (Hquiet : forall g2 : ggroup, group_step env e g = Some g2 -> g_node env g2 = g_node env g ->
    g_called env g2 = g_called env g -> g_started env g2 = g_started env g -> g_now env g2 = g_now env g ->
    drives (live_context acc (g_called env g) (g_now env g2)) (g_node env g) (g_node env g2) /\
    exists res', context_inv (acc ++ put_of env e g) res' g2).
  { intros g2 E2 En Ec Es Ew. rewrite En. split; [done|].
    destruct (step_inv env acc res e g G) as (g3 & res' & E3 & G3). rewrite E2 in E3. injection E3 as <-.
    assert (Hlen : length res' = length res)
      by (destruct G as [_ _ _ S1 _], G3 as [_ _ _ S2 _]; rewrite En in S2; lia).
    exists res'. constructor; [done|rewrite Ec; lia|]. rewrite En, Hlen, Ew. intros Hp.
    destruct (Hx Hp) as (h & cb & Hl & Hh). exists h, cb. split; [|done]. by apply lookup_app_l_Some. }
  destruct e as [m v c cb|v c cb|r|e| |now|now|now|]; cbn [group_step put_of] in *; rewrite ?app_nil_r in *.
  - apply Hquiet; [done|..]; injection E as <-; unfold Group_OnPropose; by destruct (Put _ _ _).
  - apply Hquiet; [done|..]; injection E as <-; unfold ChangeMember, Group_OnPropose; by destruct (Put _ _ _).
  - by apply (handler_step acc res r).
  - destruct e; try (eapply node_context; [|exact C|exact E]; done). by apply Hquiet; injection E as <-.
  - injection E as <-.
    assert (H : g_node env (run_callback env g) = g_node env g /\
                g_started env (run_callback env g) = g_started env g /\
                g_queue env (run_callback env g) = g_queue env g /\
                g_now env (run_callback env g) = g_now env g)
      by (unfold run_callback; by destruct (callbacks (g_queue env g) !! g_called env g) as [[[] [[]]]|]).
    destruct H as (En & Es & Eq & Ew). rewrite En. split; [done|]. exists res.
    constructor; [by eapply (same_inv env acc res g)|by eapply callback_called|by rewrite En, Ew].
  - apply Hquiet; [done|..]; injection E as <-; unfold Group_Sync; destruct (g_use_master env g); try done;
      unfold TryBeMaster, arm_master; repeat split_if; try done; destruct (Put _ _ _) as [q []]; done.
  - apply Hquiet; [done|..]; injection E as <-; unfold master_turn; destruct (g_waiting env g); try done;
      cbv zeta; destruct (pop_expired _ _) as [[u tl]|]; try done;
      unfold TryBeMaster, arm_master; repeat split_if; try done; destruct (Put _ _ _) as [q []]; done.
  - apply Hquiet; [done|..]; injection E as <-; unfold TryBeMaster_resume; by destruct (_ && _).
  - apply Hquiet; [done|..]; injection E as <-; unfold RetireMaster; by destruct (_ && _).
Qed.

Lemma run_context es acc res (g g' : ggroup) :
  context_inv acc res g -> group_run env es g = Some g' ->
  exists res', context_inv (acc ++ accepted env es g) res' g'.
Proof.
  revert acc res g. induction es as [|e es IH]; intros acc res g C.
  - intros [= <-]. simpl. rewrite app_nil_r. by exists res.
  - cbn [group_run accepted]. destruct (group_step env e g) as [g1|] eqn:E; [|done]. simpl. intros Hr.
    destruct (step_context _ _ _ _ _ C E) as (_ & res1 & C1).
    destruct (IH _ _ _ C1 Hr) as (res2 & C2). exists res2. by rewrite app_assoc.
Qed.

(** (C9) No context is used after its callback.  Whatever the clients, the network and the
    timers of a group do, the machines are handed in each step only contexts that are null
    or belong to a proposal the queue has accepted and whose callback has not been run: the
    context the client gave for it, or the member [now_] of the group for a lease; so a
    client may free the object behind its context in the callback. *)
Theorem contexts_are_live :
  forall (es : list GroupEvent) (e : GroupEvent) (n : gnode) (use_master : bool) (lease now : Z) (g g' : ggroup),
  timer_heap (io_timers n) = ∅ -> timers_ok (io_timers n) -> is_proposing n = false -> context_ n = 0 ->
  propose_asserts (out_ n) = [] ->
  let g0 := Group_new env n use_master lease now in
  group_run env es g0 = Some g -> group_step env e g = Some g' ->
  drives (live_context (accepted env es g0) (g_called env g) (g_now env g')) (g_node env g) (g_node env g').
Proof.
  intros es e n um lease now g g' Hh Hok Hp Hc Ha g0 Hr He.
  assert (C0 : context_inv [] [] g0).
  { constructor; [|unfold g_called; simpl; lia|simpl; congruence].
    constructor; simpl; try done; [by apply idle_propose_inv|by rewrite Hp|congruence]. }
  destruct (run_context es [] [] g0 g C0 Hr) as (res & C). by apply (step_context _ _ e g g' C).
Qed.

End Contexts.
