(* ===== verification/Answers.v ===== *)
(** What a completed proposal is told.

    A client's callback gets an instance, a status and the context of the proposal.  This file
    ties them to what the instance did: [reports] is a relation ([Frame]) all handlers
    maintain, by which a completion follows the execution it reports, with the status of that
    execution and the context of the proposal in progress; an invariant of the group carries it
    to the callbacks and to the calls the callback loop makes. *)

From S2P Require Import Prelude Ballot Proto Storage Random TimerList Counter NodeState.
From S2P Require Import AcceptorModel ProposerModel LearnerModel LogModel InstanceModel Traces.
From S2P Require Import System Simulation MachinesModel ProposeQueue Proposals GroupModel Groups Replication Contexts.

(** * The instance *)

Section Instance.
Context {FC : FixedCoding} {LD : LevelDB} {MM : MachineManager} {CM : CheckpointManager}.
Context {AL : Allocator} {ALL : AllocatorLaws} {PI : ProtoCodec PaxosInstance}.

(** A completion in [k] comes right after an execution in the instance it names, and says of the
    proposal [own] what that execution means for it. *)
Definition reported (own : PaxosValue) (ctx : Z) (k : list Output) : Prop :=
  forall k0 k1 i s c, k = k0 ++ OProposeComplete i s c :: k1 ->
  c = ctx /\ exists k2 v ok, k0 = k2 ++ [OExecute i v ok] /\
    s = learn_status ok (value_id own =? value_id v) v.

Lemma reported_quiet own ctx k : completions k = [] -> reported own ctx k.
Proof.
  intros H k0 k1 i s c ->. unfold completions in H. rewrite List.filter_app in H. simpl in H.
  by apply app_nil in H as [_ H].
Qed.

Lemma reported_app own ctx k k' : reported own ctx k -> reported own ctx k' -> reported own ctx (k ++ k').
Proof.
  intros H H' k0 k1 i s c E. apply List.app_eq_app in E as (l & [[-> E]|[-> E]]).
  - destruct l as [|o l]; simpl in E.
    + destruct (H' [] k1 i s c (eq_sym E)) as (_ & k2 & v & ok & E2 & _). by destruct k2.
    + injection E as <- ->. by eapply H.
  - destruct (H' l k1 i s c E) as (-> & k2 & v & ok & -> & ->). split; [done|].
    exists (k ++ k2), v, ok. by rewrite app_assoc.
Qed.

Definition reports (n n' : node) : Prop :=
  (is_proposing n' = true -> is_proposing n = true /\ context_ n' = context_ n /\ propose_value n' = propose_value n) /\
  exists k, out_ n' = out_ n ++ k /\ (is_proposing n = false -> completions k = []) /\
    reported (propose_value n) (context_ n) k.

#[global] Instance reports_preorder : PreOrder reports.
Proof.
  split.
  - intros n. split; [done|]. exists []. rewrite app_nil_r. split_and!; [done..|by apply reported_quiet].
  - intros n1 n2 n3 [P1 (k1 & E1 & Q1 & R1)] [P2 (k2 & E2 & Q2 & R2)]. split.
    + intros H3. destruct (P2 H3) as (H2 & -> & ->). by apply P1.
    + exists (k1 ++ k2). rewrite E2, E1, app_assoc. split; [done|].
      assert (Hk : is_proposing n2 = false -> completions (k1 ++ k2) = completions k1).
      { intros H. unfold completions in *. by rewrite List.filter_app, (Q2 H), app_nil_r. }
      split.
      * intros H1. destruct (is_proposing n2) eqn:H2; [destruct (P1 eq_refl); congruence|].
        by rewrite Hk, Q1.
      * apply reported_app; [done|]. destruct (is_proposing n2) eqn:H2; [|by apply reported_quiet, Q2].
        by destruct (P1 eq_refl) as (_ & <- & <-).
Qed.

Lemma reports_quiet n n' k :
  out_ n' = out_ n ++ k -> completions k = [] -> is_proposing n' = is_proposing n -> context_ n' = context_ n ->
  propose_value n' = propose_value n -> reports n n'.
Proof.
  intros O K P C V. split; [by rewrite P, C, V|]. exists k. split_and!; [done..|by apply reported_quiet].
Qed.

Lemma reports_same n n' :
  out_ n' = out_ n -> is_proposing n' = is_proposing n -> context_ n' = context_ n ->
  propose_value n' = propose_value n -> reports n n'.
Proof. intros O P C V. apply (reports_quiet n n' []); [by rewrite app_nil_r|done..]. Qed.

Lemma next_instance_reports n : reports n (Instance_NextInstance n).
Proof.
  unfold Instance_NextInstance, Acceptor_NextInstance, Acceptor_SetInstanceId. split_if; by apply reports_same.
Qed.

Lemma CheckLearn_reports n : reports n (CheckLearn n).
Proof.
  unfold CheckLearn. destruct (has_learned _); [|done]. cbv zeta. set (v := learned_value _).
  set (my := is_proposing n && _). set (n0 := if is_proposing n then _ else _).
  assert (H0 : reports n n0) by (unfold n0; split_if; by apply reports_same).
  assert (E0 : out_ n0 = out_ n /\ is_proposing n0 = is_proposing n /\ context_ n0 = context_ n /\
    instance_id_ n0 = instance_id_ n) by (unfold n0; by split_if).
  destruct E0 as (O0 & P0 & C0 & I0). unfold MachineExecute, Execute.
  destruct (mm_Execute _ _ _ _ _ _) as [m ok]. set (n1 := emit _ _). set (n2 := if is_proposing n1 then _ else _).
  assert (H2 : reports n n2).
  { unfold n2. change (is_proposing n1) with (is_proposing n0). rewrite P0. destruct (is_proposing n) eqn:P.
    - split; [done|].
      exists [OExecute (instance_id_ n) v ok; OProposeComplete (instance_id_ n) (learn_status ok my v) (context_ n)].
      rewrite <- O0, <- C0, <- I0. split_and!; [exact (eq_sym (app_assoc (out_ n0) [_] [_]))|by rewrite P|].
      intros k0 k1 i s c E. destruct k0 as [|o [|o' k0]]; [done| |]; simpl in E.
      + injection E as <- <- <- <- _. split; [done|]. exists [], v, ok. split; [done|]. done.
      + injection E as _ _ E. by destruct k0.
    - etrans; [exact H0|]. eapply reports_quiet; done. }
  etrans; [exact H2|]. destruct ok; [apply next_instance_reports|by apply reports_same].
Qed.

#[global] Instance reports_frame : Frame reports.
Proof.
  constructor; [apply _| | | | |apply CheckLearn_reports|by intros; apply reports_same].
  - intros n n' (O & _ & _ & P & C & _ & _ & _ & V). by apply reports_same.
  - intros o n Ho. eapply reports_quiet; try done. unfold completions. simpl. by destruct o.
  - intros d cb n _. unfold io_RunAfter. destruct (RunAfter _ _ _ _). by apply reports_same.
  - intros id n. by apply reports_same.
Qed.

(** What the propose timer says. *)
Definition timed_out (n n' : node) : Prop :=
  is_proposing n = true /\ is_proposing n' = false /\
  out_ n' = out_ n ++ [OProposeComplete (instance_id_ n) (Status_of kTimeout timeout_text) (context_ n)].

Lemma handle_reports e n :
  (match e with EvPropose _ _ _ _ => False | _ => True end) -> propose_inv n ->
  reports n (handle e n) \/ e = EvTimer /\ timed_out n (handle e n).
Proof.
  intros He [Ht _]. destruct e; try done; try (left; by apply (handle_maintains reports)).
  unfold handle. destruct (existsb _ _); [by left|]. unfold timers_turn. cbv zeta.
  apply adjust_propose_timers with (now := now_ n) in Ht.
  set (n0 := n <| io_timers ::= _ |>).
  destruct (pop_expired (now_ n0) (io_timers n0)) as [[cb tl]|] eqn:E; [|left; by apply reports_same].
  destruct (decide (cb = ProposeTimer)) as [->|Hcb].
  - right. split; [done|]. destruct (pop_propose_timers _ _ _ _ _ _ E Ht) as [_ Hb].
    split_and!; [by apply Hb|done|]. cbn [run_timer]. by rewrite on_propose_timer_out.
  - left. trans (n0 <| io_timers := tl |>); [by apply reports_same|].
    destruct cb; cbn [run_timer]; [|apply (AskForLearn_maintains reports)|done].
    apply (on_retry_timer_maintains reports), (OnPaxosMessage_maintains reports).
Qed.

(** A proposal: refused at once, or started with its own value and context. *)
Lemma OnPropose_reports mid v c r n :
  propose_inv n -> is_proposing n = false ->
  let n' := OnPropose mid v c r n in
  let own := mkPaxosValue (GetPaxosValueId r n).2 mid v in
  (IsValidNodeId (cf_node_id (config_ n)) n = false /\ is_proposing n' = false /\
   out_ n' = out_ n ++ [OProposeComplete (instance_id_ n) (Status_of kInvalidNode invalid_node_text) c]) \/
  (IsValidNodeId (cf_node_id (config_ n)) n = true /\
   (is_proposing n' = true -> context_ n' = c /\ propose_value n' = own) /\
   exists k, out_ n' = out_ n ++ k /\ reported own c k).
Proof.
  intros I Hp. cbv zeta. destruct (IsValidNodeId (cf_node_id (config_ n)) n) eqn:Hv.
  - right. split; [done|]. destruct (OnPropose_starts mid v c r n I Hp Hv) as (x & n1 & -> & _ & O1 & _ & C1 & V1).
    destruct (NewPropose_maintains reports _ (OnPaxosMessage_maintains reports) x n1) as [P (k & O & _ & R)].
    rewrite C1, V1 in R. split; [intros H; destruct (P H) as (_ & -> & ->); done|].
    exists k. by rewrite O, O1.
  - left. unfold OnPropose. by rewrite Hv.
Qed.

End Instance.

(** * The group *)

Section Group.
Context {FC : FixedCoding} {LD : LevelDB} {CM : CheckpointManager}.
Context {AL : Allocator} {ALL : AllocatorLaws}.
Context {PI : ProtoCodec PaxosInstance} {PCM : ProtoCodec MemberChangeMessage} {PS : ProtoCodec MasterState}.
Context {UM : UserMachines}.
Variable env : CheckpointEnv.

#[local] Existing Instance group_machines.
#[local] Notation gnode := (node (MM := group_machines env)).
#[local] Notation ggroup := (group env).

(** The value the next handler proposes with the draw [r]; [None] for a lease that is not
    proposed because another node has it. *)
Definition proposed_of (e : GroupEvent) (g : ggroup) : list (option PaxosValue) :=
  let n := g_node env g in
  match e with
  | GHandler r =>
      let id := (GetPaxosValueId r n).2 in
      match io_queued (g_queue env g) !! g_started env g with
      | None => []
      | Some (HPropose m v _) => [Some (mkPaxosValue id m v)]
      | Some HTryBeMaster =>
          let state := GetMasterState env g in
          if (mst_lease_time state <=? now_ n) || (mst_node_id state =? cf_node_id (config_ n)) then
            [Some (mkPaxosValue id 2 (SerializeAsString
              (mkMasterState (mst_version state) (cf_node_id (config_ n)) (g_lease_timeout env g))))]
          else [None]
      end
  | _ => []
  end.

Fixpoint proposed (es : list GroupEvent) (g : ggroup) : list (option PaxosValue) :=
  match es with
  | [] => []
  | e :: es =>
      proposed_of e g ++ match group_step env e g with Some g => proposed es g | None => [] end
  end.

(** The steps of the instance: the event, the state before and the state after. *)
Fixpoint node_steps (es : list GroupEvent) (g : ggroup) : list (GroupEvent * gnode * gnode) :=
  match es with
  | [] => []
  | e :: es =>
      match group_step env e g with
      | Some g' => (e, g_node env g, g_node env g') :: node_steps es g'
      | None => []
      end
  end.

(** The result a step of the instance gives to the proposal of a value: the meaning for it of the
    execution just made, a timeout when its timer fires, or a refusal. *)
Inductive concludes : option PaxosValue -> GroupEvent -> gnode -> gnode -> Z * Status * Z -> Prop :=
| concludes_learned own e n n' k0 k1 i v ok c :
    out_ n' = out_ n ++ k0 ++ OExecute i v ok ::
      OProposeComplete i (learn_status ok (value_id own =? value_id v) v) c :: k1 ->
    concludes (Some own) e n n' (i, learn_status ok (value_id own =? value_id v) v, c)
| concludes_timeout own n n' c :
    out_ n' = out_ n ++ [OProposeComplete (instance_id_ n) (Status_of kTimeout timeout_text) c] ->
    concludes (Some own) (GNode EvTimer) n n' (instance_id_ n, Status_of kTimeout timeout_text, c)
| concludes_invalid own r n n' c :
    IsValidNodeId (cf_node_id (config_ n)) n = false ->
    out_ n' = out_ n ++ [OProposeComplete (instance_id_ n) (Status_of kInvalidNode invalid_node_text) c] ->
    concludes (Some own) (GHandler r) n n' (instance_id_ n, Status_of kInvalidNode invalid_node_text, c)
| concludes_refused r (n : gnode) :
    let state := mgr_master (mm_ n : manager) in
    now_ n < mst_lease_time state -> mst_node_id state <> cf_node_id (config_ n) ->
    concludes None (GHandler r) n n (instance_id_ n, Status_of kConflict already_master_text, 0).

(** The value and the context of a result are those of the handler. *)
Definition own_value (h : Handler) (o : option PaxosValue) : Prop :=
  match h, o with
  | HPropose m v _, Some w => machine_id w = m /\ user_data w = v
  | HTryBeMaster, Some w => machine_id w = 2
  | HTryBeMaster, None => True
  | HPropose _ _ _, None => False
  end.

Definition own_result (h : Handler) (r : Z * Status * Z) : Prop :=
  match h with HPropose _ _ c => r.2 = c | HTryBeMaster => True end.

Notation results g := ((callbacks (g_queue env g)).*2).

Definition explained (steps : list (GroupEvent * gnode * gnode)) (h : Handler) (o : option PaxosValue)
    (r : Z * Status * Z) : Prop :=
  own_result h r /\ exists e n n', (e, n, n') ∈ steps /\ concludes o e n n' r.

Record answer_inv (acc : list (Handler * Callback)) (vals : list (option PaxosValue))
    (steps : list (GroupEvent * gnode * gnode)) (g : ggroup) : Prop := {
  an_ctx : context_inv env acc (results g) g;
  an_len : length vals = g_started env g;
  an_own : forall j h cb o, acc !! j = Some (h, cb) -> vals !! j = Some o -> own_value h o;
  an_now : is_proposing (g_node env g) = true ->
    vals !! length (results g) = Some (Some (propose_value (g_node env g)));
  an_res : forall j h cb r, acc !! j = Some (h, cb) -> results g !! j = Some r ->
    exists o, vals !! j = Some o /\ explained steps h o r;
  an_calls : g_calls env g `prefix_of` callbacks (g_queue env g);
}.

Lemma inv_results acc res (g : ggroup) : group_inv env acc res g -> res = results g.
Proof.
  intros [Hq _ _ _ _]. destruct Hq as (Hl & _ & _ & _ & _ & _ & ->). simpl in *.
  rewrite snd_zip; [done|]. by rewrite length_fmap.
Qed.

Lemma context_results acc res (g : ggroup) : context_inv env acc res g -> context_inv env acc (results g) g.
Proof. intros C. pose proof C as [G _ _]. by rewrite <- (inv_results _ _ _ G). Qed.

Lemma complete_callbacks a (q q' : queue Handler Callback (Z * Status * Z)) :
  ProposeComplete a q = Some q' -> exists cb, callbacks q' = callbacks q ++ [(cb, a)].
Proof.
  unfold ProposeComplete. destruct (last_finished q); [done|]. destruct (cb_queue q) as [|cb cbs]; [done|].
  destruct (propose_queue q); intros [= <-]; by exists cb.
Qed.

Lemma complete_all_callbacks l (q q' : queue Handler Callback (Z * Status * Z)) :
  complete_all l q = Some q' -> exists k, callbacks q' = callbacks q ++ k /\ k.*2 = l.
Proof.
  revert q. induction l as [|a l IH]; intros q; simpl.
  - intros [= <-]. exists []. by rewrite app_nil_r.
  - destruct (ProposeComplete a q) as [q1|] eqn:E; [|done]. simpl. intros H.
    destruct (complete_callbacks _ _ _ E) as [cb E1]. destruct (IH q1 H) as (k & E2 & <-).
    exists ((cb, a) :: k). by rewrite E2, E1, <- app_assoc.
Qed.

Lemma deliver_callbacks (n : gnode) k (g g' : ggroup) :
  out_ n = out_ (g_node env g) ++ k -> deliver env n g = Some g' ->
  exists cs, callbacks (g_queue env g') = callbacks (g_queue env g) ++ cs /\ cs.*2 = omap completion k /\
    g_calls env g' = g_calls env g.
Proof.
  intros O. unfold deliver. rewrite O, drop_app_length.
  destruct (complete_all _ _) as [q|] eqn:E; [|done]. intros [= <-].
  destruct (complete_all_callbacks _ _ _ E) as (cs & E1 & E2). by exists cs.
Qed.

Lemma omap_completion k i s c :
  omap completion k = [(i, s, c)] -> exists k0 k1, k = k0 ++ OProposeComplete i s c :: k1.
Proof.
  induction k as [|o k IH]; [done|]. simpl. destruct (completion o) as [x|] eqn:E.
  - intros [= -> _]. destruct o; try done. injection E as -> -> ->. by exists [], k.
  - intros (k0 & k1 & ->)%IH. by exists (o :: k0), k1.
Qed.

(** At most one result more; everything else follows from what is known of it. *)
Lemma answer_extend acc vals steps new cs e (g g' : ggroup) res' :
  answer_inv acc vals steps g -> context_inv env acc res' g' ->
  callbacks (g_queue env g') = callbacks (g_queue env g) ++ cs -> g_calls env g' = g_calls env g ->
  length (vals ++ new) = g_started env g' ->
  (forall h cb o, acc !! length vals = Some (h, cb) -> new = [o] -> own_value h o) -> (length new <= 1)%nat ->
  (is_proposing (g_node env g') = true ->
   cs = [] /\ (vals ++ new) !! length (results g) = Some (Some (propose_value (g_node env g')))) ->
  (forall h cb r, acc !! length (results g) = Some (h, cb) -> cs.*2 = [r] ->
   exists o, (vals ++ new) !! length (results g) = Some o /\
     explained [(e, g_node env g, g_node env g')] h o r) -> (length cs <= 1)%nat ->
  answer_inv acc (vals ++ new) (steps ++ [(e, g_node env g, g_node env g')]) g'.
Proof.
  intros [C L V N A K] C' E Ec El Hnew Hl1 Hnow Hres Hl2. apply context_results in C'.
  assert (Er : results g' = results g ++ cs.*2) by (by rewrite E, fmap_app).
  constructor; [done|done| | | |].
  - intros j h cb o Hj [Ho|[Hlen Ho]]%lookup_app_Some; [by eapply V|].
    destruct new as [|x [|]]; [done| |simpl in Hl1; lia].
    destruct (j - length vals)%nat eqn:Ej; [|done]. injection Ho as ->.
    replace j with (length vals) in Hj by lia. by eapply Hnew.
  - intros Hp. destruct (Hnow Hp) as [-> H]. rewrite Er, app_nil_r. done.
  - intros j h cb r Hj. rewrite Er. intros [Hr|[Hlen Hr]]%lookup_app_Some.
    + destruct (A j h cb r Hj Hr) as (o & Ho & X & e1 & n1 & n1' & Hin & X2). exists o.
      split; [by apply lookup_app_l_Some|]. split; [done|]. exists e1, n1, n1'. split; [set_solver|done].
    + destruct cs as [|x [|]]; [done| |simpl in Hl2; lia].
      destruct (j - length (results g))%nat eqn:Ej; [|done]. injection Hr as <-.
      replace j with (length (results g)) in * by lia.
      destruct (Hres h cb x.2 Hj eq_refl) as (o & Ho & X & e1 & n1 & n1' & Hin & X2).
      exists o. split; [done|]. split; [done|]. exists e1, n1, n1'. split; [set_solver|done].
  - rewrite Ec, E. destruct K as [k ->]. exists (k ++ cs). by rewrite app_assoc.
Qed.

Lemma count_results acc acc' res' d cs (g g' : ggroup) :
  group_inv env acc (results g) g -> group_inv env acc' res' g' ->
  callbacks (g_queue env g') = callbacks (g_queue env g) ++ cs -> g_started env g' = (g_started env g + d)%nat ->
  (length cs + Nat.b2n (is_proposing (g_node env g')) = Nat.b2n (is_proposing (g_node env g)) + d)%nat.
Proof.
  intros G G' E Es. pose proof (inv_results _ _ _ G') as ->.
  pose proof (gi_started _ _ _ _ G) as S. pose proof (gi_started _ _ _ _ G') as S'.
  rewrite E, fmap_app, length_app, !length_fmap in S'. rewrite length_fmap in S. lia.
Qed.

Lemma own_context_result acc vals steps (g : ggroup) h cb i s :
  answer_inv acc vals steps g -> is_proposing (g_node env g) = true ->
  acc !! length (results g) = Some (h, cb) -> own_result h (i, s, context_ (g_node env g)).
Proof.
  intros [[_ _ X] _ _ _ _ _] Hp Hj. destruct (X Hp) as (h' & cb' & Hj' & Hh). rewrite Hj in Hj'.
  injection Hj' as <- <-. by destruct h.
Qed.

(** ** Steps *)

Lemma node_answer acc vals steps e (g g' : ggroup) :
  (match e with EvPropose _ _ _ _ => False | _ => True end) -> answer_inv acc vals steps g ->
  deliver env (handle e (g_node env g)) g = Some g' ->
  answer_inv acc vals (steps ++ [(GNode e, g_node env g, g_node env g')]) g'.
Proof.
  intros He I E. pose proof I as [C L V N A K]. set (n := g_node env g) in *.
  destruct (node_context env acc (results g) e g g' He C E) as [_ [res' C']].
  destruct (deliver_node env _ _ _ E) as (En & Es & _). pose proof C as [G _ _]. pose proof C' as [G' _ _].
  assert (H : exists k, out_ (handle e n) = out_ n ++ k /\
    (is_proposing (handle e n) = true -> is_proposing n = true /\ propose_value (handle e n) = propose_value n) /\
    forall i s c, is_proposing n = true -> omap completion k = [(i, s, c)] -> c = context_ n /\
      concludes (Some (propose_value n)) (GNode e) n (handle e n) (i, s, c)).
  { destruct (handle_reports e n He (gi_node _ _ _ _ G)) as [[P (k & O & _ & R)]|(-> & Hp & Hp' & O)].
    - exists k. split_and!; [done|by intros ?%P; naive_solver|]. intros i s c _ (k0 & k1 & Ek)%omap_completion.
      destruct (R k0 k1 i s c Ek) as (-> & k2 & v & ok & -> & ->). split; [done|].
      apply (concludes_learned _ _ _ _ k2 k1). by rewrite O, Ek, <- app_assoc.
    - eexists. split; [exact O|]. split; [congruence|]. intros i s c _ [= <- <- <-].
      split; [done|]. by apply concludes_timeout. }
  destruct H as (k & O & P & R). destruct (deliver_callbacks _ k _ _ O E) as (cs & E1 & E2 & Ec).
  pose proof (count_results acc acc res' 0 cs g g' G G' E1 ltac:(lia)) as Hn. fold n in Hn.
  rewrite <- (app_nil_r vals). apply (answer_extend acc vals steps [] cs (GNode e) g g' res'); try done.
  - rewrite app_nil_r. congruence.
  - simpl. lia.
  - rewrite app_nil_r, En in *. intros Hp. destruct (P Hp) as [Hp0 ->]. rewrite Hp, Hp0 in Hn. simpl in Hn.
    split; [destruct cs; [done|simpl in Hn; lia]|by apply N].
  - intros h cb [[i s] c] Hj Hr. rewrite app_nil_r, En. fold n. rewrite E2 in Hr.
    assert (Hp : is_proposing n = true).
    { rewrite <- E2 in Hr. destruct cs; [done|]. simpl in Hn. by destruct (is_proposing n). }
    destruct (R i s c Hp Hr) as [-> Hc]. exists (Some (propose_value n)). split; [by apply N|].
    split; [by eapply own_context_result|]. exists (GNode e), n, (handle e n). split; [by left|done].
  - destruct (is_proposing n); simpl in Hn; lia.
Qed.

(** A handler that proposes [own]. *)
Lemma propose_answer acc vals steps r mid v c h cb (g g1 g' : ggroup) res' :
  let n := g_node env g in
  let own := mkPaxosValue (GetPaxosValueId r n).2 mid v in
  answer_inv acc vals steps g -> is_proposing n = false -> acc !! length vals = Some (h, cb) ->
  length vals = length (results g) -> own_value h (Some own) -> (forall i s, own_result h (i, s, c)) ->
  g_node env g1 = n -> g_queue env g1 = g_queue env g -> g_calls env g1 = g_calls env g ->
  g_started env g1 = S (g_started env g) ->
  deliver env (OnPropose mid v c r n) g1 = Some g' -> context_inv env acc res' g' ->
  answer_inv acc (vals ++ [Some own]) (steps ++ [(GHandler r, n, g_node env g')]) g'.
Proof.
  intros n own I Hp Hj Hl Hown Hres En Eq Ecl Es E C'. pose proof I as [C L V N A K].
  destruct (deliver_node env _ _ _ E) as (En' & Es' & _). pose proof C as [G _ _]. pose proof C' as [G' _ _].
  assert (H : exists k, out_ (OnPropose mid v c r n) = out_ n ++ k /\
    (is_proposing (OnPropose mid v c r n) = true -> propose_value (OnPropose mid v c r n) = own) /\
    forall i s c', omap completion k = [(i, s, c')] -> c' = c /\
      concludes (Some own) (GHandler r) n (OnPropose mid v c r n) (i, s, c')).
  { destruct (OnPropose_reports mid v c r n (gi_node _ _ _ _ G) Hp) as [(Hv & Hp' & O)|(_ & P & k & O & R)].
    - eexists. split; [exact O|]. split; [congruence|]. intros i s c' [= <- <- <-]. split; [done|].
      by apply concludes_invalid.
    - exists k. split_and!; [done|by intros ?%P; naive_solver|]. intros i s c' (k0 & k1 & Ek)%omap_completion.
      destruct (R k0 k1 i s c' Ek) as (-> & k2 & w & ok & -> & ->). split; [done|].
      apply (concludes_learned _ _ _ _ k2 k1). by rewrite O, Ek, <- app_assoc. }
  destruct H as (k & O & P & R).
  destruct (deliver_callbacks _ k g1 g' ltac:(rewrite En; exact O) E) as (cs & E1 & E2 & Ec). rewrite Eq in E1.
  pose proof (count_results acc acc res' 1 cs g g' G G' E1 ltac:(lia)) as Hn. fold n in Hn. rewrite Hp in Hn.
  assert (Hown' : (vals ++ [Some own]) !! length (results g) = Some (Some own))
    by (rewrite <- Hl; by apply list_lookup_middle).
  apply (answer_extend acc vals steps [Some own] cs (GHandler r) g g' res'); try done.
  - congruence.
  - rewrite length_app. simpl. lia.
  - intros h' cb' o Hj' [= <-]. rewrite Hj in Hj'. by injection Hj' as <- <-.
  - rewrite En'. intros Hp'. rewrite (P Hp'). rewrite En', Hp' in Hn. simpl in Hn.
    split; [destruct cs; [done|simpl in Hn; lia]|done].
  - intros h' cb' [[i s] c'] Hj' Hr. rewrite <- Hl, Hj in Hj'. injection Hj' as <- <-.
    rewrite E2 in Hr. destruct (R i s c' Hr) as [-> Hc]. exists (Some own). split; [done|]. split; [done|].
    exists (GHandler r), n, (OnPropose mid v c r n). rewrite En'. split; [by left|done].
  - simpl in Hn. lia.
Qed.

(** A step in which the instance does nothing. *)
Lemma answer_quiet acc acc' vals steps x (g g' : ggroup) res' :
  answer_inv acc vals steps g -> context_inv env acc' res' g' -> acc `prefix_of` acc' ->
  g_node env g' = g_node env g -> callbacks (g_queue env g') = callbacks (g_queue env g) ->
  g_started env g' = g_started env g -> g_calls env g' `prefix_of` callbacks (g_queue env g) ->
  answer_inv acc' vals (steps ++ [x]) g'.
Proof.
  intros [C L V N A K] C' [more ->] En Eq Es Ec. apply context_results in C'. pose proof C as [[Q _ _ S B] _ _].
  assert (Hb : (length (results g) <= length acc /\ length vals <= length acc)%nat).
  { destruct Q as (Q & _). simpl in Q. rewrite L, S. destruct (is_proposing _); simpl; [specialize (B eq_refl)|]; lia. }
  assert (Hacc : forall j h cb, (j < length acc)%nat -> (acc ++ more) !! j = Some (h, cb) -> acc !! j = Some (h, cb))
    by (intros j h cb Hj; by rewrite lookup_app_l).
  constructor; rewrite ?En, ?Eq; [by rewrite <- Eq|congruence| |done| |done].
  - intros j h cb o Hj Ho. eapply V; [|exact Ho]. apply Hacc; [|done]. apply lookup_lt_Some in Ho. lia.
  - intros j h cb r Hj Hr. destruct (A j h cb r) as (o & Ho & X & e1 & n1 & n2 & Hin & X2); [|done|].
    + apply Hacc; [|done]. apply lookup_lt_Some in Hr. lia.
    + exists o. split; [done|]. split; [done|]. exists e1, n1, n2. split; [set_solver|done].
Qed.

Lemma handler_answer acc vals steps r (g g' : ggroup) :
  answer_inv acc vals steps g -> run_handler env r g = Some g' ->
  answer_inv acc (vals ++ proposed_of (GHandler r) g) (steps ++ [(GHandler r, g_node env g, g_node env g')]) g'.
Proof.
  intros I E. pose proof I as [C L V N A K]. pose proof C as [G _ _].
  destruct (handler_step env acc (results g) r g g' C E) as [_ [res' C']]. pose proof C' as [G' _ _].
  revert E. unfold run_handler. cbn [proposed_of].
  destruct (io_queued (g_queue env g) !! g_started env g) as [h|] eqn:Eh.
  2: { intros [= <-]. rewrite app_nil_r. by apply (answer_quiet acc acc vals steps _ g g res'). }
  destruct (next_handler env _ _ _ _ G Eh) as (Hp & Hst & cb & Hj).
  assert (Hl : length vals = length (results g)) by congruence. rewrite <- Hl in Hj.
  set (g1 := mkGroup env _ _ (S (g_started env g)) _ _ _ _ _ _ _ _ _).
  destruct h as [mid v c|].
  - intros E. by apply (propose_answer acc vals steps r mid v c (HPropose mid v c) cb g g1 g' res').
  - unfold TryBeMasterInLoop. cbv zeta. change (GetMasterState env g1) with (GetMasterState env g).
    change (g_node env g1) with (g_node env g). change (g_lease_timeout env g1) with (g_lease_timeout env g).
    destruct (_ || _)%bool eqn:Ef.
    + intros E. set (state := mkMasterState (mst_version (GetMasterState env g)) (cf_node_id (config_ (g_node env g)))
        (g_lease_timeout env g)).
      by apply (propose_answer acc vals steps r 2 (SerializeAsString state) (now_ (g_node env g)) HTryBeMaster cb g
        (with_now env (now_ (g_node env g)) g1) g' res').
    + destruct (ProposeComplete _ _) as [q|] eqn:Eq; [|done]. simpl. intros [= <-].
      apply orb_false_iff in Ef as [Ef1%Z.leb_gt Ef2%Z.eqb_neq].
      destruct (complete_callbacks _ _ _ Eq) as [cb' E1]. cbn [g_queue with_now g1] in E1.
      apply (answer_extend acc vals steps [None] [(cb', (instance_id_ (g_node env g), Status_of kConflict already_master_text, 0))]
        (GHandler r) g _ res'); try done.
      * rewrite length_app. simpl. lia.
      * intros h cb2 o Hj' [= <-]. rewrite Hj in Hj'. by injection Hj' as <- <-.
      * simpl. congruence.
      * intros h cb2 x Hj' [= <-]. rewrite <- Hl, Hj in Hj'. injection Hj' as <- <-. exists None.
        split; [rewrite <- Hl; by apply list_lookup_middle|]. split; [done|].
        exists (GHandler r), (g_node env g), (g_node env g). split; [by left|]. by apply concludes_refused.
Qed.

Lemma step_answer acc vals steps e (g g' : ggroup) :
  answer_inv acc vals steps g -> group_step env e g = Some g' ->
  answer_inv (acc ++ put_of env e g) (vals ++ proposed_of e g) (steps ++ [(e, g_node env g, g_node env g')]) g'.
Proof.
  intros I E. pose proof I as [C _ _ _ _ K]. destruct (step_context env acc _ e g g' C E) as [_ [res' C']].
  assert (Hquiet : forall g2 : ggroup, g' = g2 -> proposed_of e g = [] -> g_node env g2 = g_node env g ->
    callbacks (g_queue env g2) = callbacks (g_queue env g) -> g_started env g2 = g_started env g ->
    g_calls env g2 `prefix_of` callbacks (g_queue env g) ->
    answer_inv (acc ++ put_of env e g) (vals ++ proposed_of e g) (steps ++ [(e, g_node env g, g_node env g')]) g').
  { intros g2 -> -> En Eq Es Ec. rewrite app_nil_r. eapply answer_quiet; try done. by eexists. }
  assert (Hput : forall h cb, callbacks (Put h cb (g_queue env g)).1 = callbacks (g_queue env g)).
  { intros h cb. unfold Put. destruct (last_finished _); [done|]. by destruct (negb _). }
  assert (Hmaster : forall now g1, g_node env g1 = g_node env g -> g_queue env g1 = g_queue env g ->
    g_started env g1 = g_started env g -> g_calls env g1 = g_calls env g ->
    let g2 := TryBeMaster env now g1 in g_node env g2 = g_node env g /\
    callbacks (g_queue env g2) = callbacks (g_queue env g) /\ g_started env g2 = g_started env g /\
    g_calls env g2 = g_calls env g).
  { intros now g1 E1 E2 E3 E4. unfold TryBeMaster. pose proof (Hput HTryBeMaster MasterCallback) as H. rewrite <- E2 in H.
    destruct (_ || _)%bool; [|by rewrite <- E2]. destruct (Put _ _ _) as [q []]; simpl in H; rewrite E2 in H; done. }
  destruct e as [m v c cb|v c cb|r|e| |now|now|now|]; cbn [group_step put_of] in *.
  - injection E as <-. unfold Group_OnPropose in *. pose proof (Hput (HPropose m v c) (UserCallback cb)) as H.
    destruct (Put _ _ _) as [q b]. by eapply Hquiet.
  - injection E as <-. unfold ChangeMember, Group_OnPropose in *.
    pose proof (Hput (HPropose 1 (SerializeAsString (change_message v)) c) (UserCallback cb)) as H.
    destruct (Put _ _ _) as [q b]. by eapply Hquiet.
  - rewrite app_nil_r in *. by apply handler_answer.
  - rewrite !app_nil_r in *. destruct e; try (by apply node_answer).
    injection E as <-. by eapply (answer_quiet acc acc).
  - injection E as <-. unfold run_callback in *.
    destruct (callbacks (g_queue env g) !! g_called env g) as [[cb [[i s] c]]|] eqn:Ex; [|by eapply Hquiet].
    assert (Hpre : g_calls env g ++ [(cb, (i, s, c))] `prefix_of` callbacks (g_queue env g)).
    { destruct K as [k Hk]. rewrite Hk in Ex |- *. unfold g_called in Ex.
      rewrite lookup_app_r, Nat.sub_diag in Ex by done. destruct k as [|y k]; [done|]. injection Ex as ->.
      exists k. by rewrite <- app_assoc. }
    destruct cb; by eapply Hquiet.
  - injection E as <-. unfold Group_Sync in *. destruct (g_use_master env g); [|by eapply Hquiet].
    destruct (Hmaster now g) as (E1 & E2 & E3 & E4); try done. eapply Hquiet; try done. by rewrite E4.
  - injection E as <-. unfold master_turn in *. destruct (g_waiting env g); [by eapply Hquiet|]. cbv zeta in *.
    destruct (pop_expired _ _) as [[u tl]|]; [|by eapply Hquiet].
    destruct (Hmaster now (with_master env (g_retrie_master env g) false (g_propose_end env g) tl g))
      as (E1 & E2 & E3 & E4); try done. eapply Hquiet; try done. by rewrite E4.
  - injection E as <-. unfold TryBeMaster_resume in *. destruct (_ && _); by eapply Hquiet.
  - injection E as <-. unfold RetireMaster in *. destruct (_ && _); by eapply Hquiet.
Qed.

Lemma run_answer es acc vals steps (g g' : ggroup) :
  answer_inv acc vals steps g -> group_run env es g = Some g' ->
  answer_inv (acc ++ accepted env es g) (vals ++ proposed es g) (steps ++ node_steps es g) g'.
Proof.
  revert acc vals steps g. induction es as [|e es IH]; intros acc vals steps g I.
  - intros [= <-]. simpl. by rewrite !app_nil_r.
  - cbn [group_run accepted proposed node_steps]. destruct (group_step env e g) as [g1|] eqn:E; [|done]. simpl.
    intros Hr. pose proof (IH _ _ _ _ (step_answer _ _ _ _ _ _ I E) Hr) as H. by rewrite <- !app_assoc in H.
Qed.

(** The callback loop makes the calls that wait. *)
Lemma drain_callbacks k (g : ggroup) :
  g_calls env g `prefix_of` callbacks (g_queue env g) -> (length (callbacks (g_queue env g)) = g_called env g + k)%nat ->
  exists g', group_run env (replicate k GCallback) g = Some g' /\ g_calls env g' = callbacks (g_queue env g).
Proof.
  revert g. induction k as [|k IH]; intros g [l Hl] Hk.
  - exists g. split; [done|]. rewrite Hl, length_app in Hk. unfold g_called in Hk.
    destruct l; [by rewrite app_nil_r in Hl|simpl in Hk; lia].
  - cbn [replicate group_run group_step]. cbn [mbind option_bind].
    assert (Hx : exists x, callbacks (g_queue env g) !! g_called env g = Some x) by (apply lookup_lt_is_Some_2; lia).
    destruct Hx as [[cb [[i s] c]] Hx].
    assert (Hr : g_queue env (run_callback env g) = g_queue env g /\
      g_calls env (run_callback env g) = g_calls env g ++ [(cb, (i, s, c))])
      by (unfold run_callback; rewrite Hx; by destruct cb).
    destruct Hr as [Eq Er]. destruct (IH (run_callback env g)) as (g' & E & Hg').
    + rewrite Eq, Er. rewrite Hl in Hx |- *. unfold g_called in Hx. rewrite lookup_app_r, Nat.sub_diag in Hx by done.
      destruct l as [|y l]; [done|]. injection Hx as ->. exists l. by rewrite <- app_assoc.
    + rewrite Eq, (run_callback_called env g _ Hx). lia.
    + exists g'. split; [exact E|]. by rewrite Hg', Eq.
Qed.

(** (C8) Every accepted proposal is completed exactly once, in order and with its own result.  A
    group starts with an idle instance; clients propose values and membership changes, the
    master loop competes for the lease, the loops run handlers, messages, timers and
    callbacks, in any order.  Then no assertion of [ProposeQueue::ProposeComplete] fails, neither
    does one of [Instance::OnPropose] that there is no proposal in progress; the handlers
    are run in the order in which their proposals were accepted, and all of them but the one in
    progress are completed.  The j-th result is that of the value the j-th handler proposed, with
    the machine, the data and the context its client gave: it comes from a step of the instance in
    which the execution just before it gave this status to that value, the propose timer fired,
    the node was found not to be a member, or the lease was found to be another node's.  The
    callback loop calls the callbacks in order, each once, with these results, and after as many
    further turns as there are results left it has called all of them. *)
Theorem proposals_complete_exactly_once :
  forall (es : list GroupEvent) (n : gnode) (use_master : bool) (lease now : Z),
  timer_heap (io_timers n) = ∅ -> timers_ok (io_timers n) -> is_proposing n = false -> context_ n = 0 ->
  propose_asserts (out_ n) = [] ->
  let g0 := Group_new env n use_master lease now in
  let acc := accepted env es g0 in
  exists g, group_run env es g0 = Some g /\ propose_asserts (out_ (g_node env g)) = [] /\
    let res := (callbacks (g_queue env g)).*2 in
    (length res <= length acc)%nat /\
    g_started env g = (length res + Nat.b2n (is_proposing (g_node env g)))%nat /\
    io_queued (g_queue env g) = take (S (length res)) acc.*1 /\
    callbacks (g_queue env g) = zip acc.*2 res /\
    (forall j h cb r, acc !! j = Some (h, cb) -> res !! j = Some r ->
       exists own e n1 n2, proposed es g0 !! j = Some own /\ own_value h own /\ own_result h r /\
         (e, n1, n2) ∈ node_steps es g0 /\ concludes own e n1 n2 r) /\
    g_calls env g `prefix_of` zip acc.*2 res /\
    exists g', group_run env (replicate (length res - g_called env g) GCallback) g = Some g' /\
      g_calls env g' = zip acc.*2 res.
Proof.
  intros es n um lease now Hh Hok Hp Hc Ha g0 acc.
  assert (G0 : group_inv env [] [] g0)
    by (constructor; simpl; try done; [by apply idle_propose_inv|by rewrite Hp|congruence]).
  assert (I0 : answer_inv [] [] [] g0).
  { constructor; simpl; try done; [|congruence]. constructor; [done|done|simpl; congruence]. }
  destruct (run_inv env es [] [] g0 G0) as (g & res & E & G). pose proof (inv_results _ _ _ G) as ->.
  pose proof (run_answer es [] [] [] g0 g I0 E) as [[_ Hcl _] L V N A K]. simpl in *. fold acc in V, A, G.
  exists g. destruct G as [(H1 & _ & _ & H2 & _ & _ & H3) _ Has Hs _]. simpl in *.
  split_and!; try done.
  - intros j h cb r Hj Hr. destruct (A j h cb r Hj Hr) as (o & Ho & X & e & n1 & n2 & Hin & Hx).
    exists o, e, n1, n2. split_and!; try done. by eapply V.
  - by rewrite <- H3.
  - rewrite <- H3. apply drain_callbacks; [done|]. rewrite length_fmap in *. unfold g_called in *. lia.
Qed.

End Group.
