(* ===== verification/TransferRuns.v ===== *)
(** Checkpoint transfers and network streams on concrete data: instances of the
    theorems of [Checkpoints.v], [NetworkModel.v] and [Groups.v], and the runs
    in which a transfer installs something else than the sender's checkpoint. *)

From S2P Require Import Prelude Ballot Proto Storage Random TimerList Counter NodeState.
From S2P Require Import AcceptorModel ProposerModel LearnerModel LogModel InstanceModel.
From S2P Require Import System Simulation MachinesModel CheckpointModel Checkpoints NetworkModel.
From S2P Require Import ProposeQueue Proposals GroupModel Groups Contexts Answers Reference MachineWitnesses.

(** * Checkpoint transfers *)

(** A manager whose latest checkpoint is that of instance [i]. *)
Definition source_manager (i : Z) : manager :=
  mkManager (members_of [1; 2; 3]) MasterState_default ([] : um) {[1; 2; 1001]} 4 2 true false
    [i] [i] i i false ∅.

(** Every machine has one file [f]; [bad] is a file that does not open. *)
Definition files_env (tag bad : string) : SendEnv :=
  mkSendEnv (fun id => "m" +:+ pretty id) (fun _ => true) (fun _ => Some ["f"%string])
    (fun fname => if decide (fname = bad) then None else Some (tag +:+ fname))
    (fun _ _ => false) (fun _ => []).

Definition good_recv : RecvEnv :=
  mkRecvEnv 0 2 (fun _ => true) (fun _ => true) (fun _ => None) (fun _ => true).

Definition idle_receiver : Receiver := mkReceiver 0 0 ∅ ∅.

(** What node 1 sends of the checkpoint of instance [i]. *)
Definition sent_by (env : SendEnv) (i : Z) : list CheckpointMessage :=
  (SendCheckpoint env 1 2 (source_manager i) Sender_new).1.2.

(** A property of an optional map, evaluated. *)
Lemma evaluated {A} (o : option A) (P : A -> bool) :
  from_option P false o = true -> exists t, o = Some t /\ P t = true.
Proof. destruct o as [t|]; [|done]. by exists t. Qed.

Definition holds (l : list ((Z * string) * option string)) (t : temp_files) : bool :=
  forallb (fun x => bool_decide (t !! x.1 = x.2)) l.

Lemma holds_lookup l t k c : holds l t = true -> (k, c) ∈ l -> t !! k = c.
Proof.
  intros H Hin. unfold holds in H. rewrite forallb_forall in H.
  specialize (H (k, c)). simpl in H. apply bool_decide_eq_true in H; [done|]. by apply list_elem_of_In.
Qed.

Lemma source_ids i : machine_ids (source_manager i) = [1; 2; 1001].
Proof. vm_compute. reflexivity. Qed.

Lemma transfer_integrity_witness :
  exists t, installed good_recv (sent_by (files_env "a:" "") 10) idle_receiver = Some t /\
    t !! (1001, "f"%string) = Some "a:m1001/f"%string /\ t !! (3, "f"%string) = None.
Proof.
  destruct (evaluated (installed good_recv (sent_by (files_env "a:" "") 10) idle_receiver) (fun _ => true))
    as (t & E & _); [vm_compute; reflexivity|].
  exists t. split; [exact E|].
  destruct (transfer_integrity (files_env "a:" "") good_recv 1 2 (source_manager 10) Sender_new
              (sent_by (files_env "a:" "") 10) idle_receiver t) as (m' & s' & sent & Es & H).
  - lia.
  - reflexivity.
  - simpl. lia.
  - split; [reflexivity|]. intros seq m Hm. by apply elem_of_nil in Hm.
  - rewrite source_ids. intros id Hid.
    assert (Hin : id = 1 \/ id = 2 \/ id = 1001) by set_solver.
    split; destruct Hin as [-> | [-> | ->]]; try (vm_compute; eauto; fail);
      intros file Hf; vm_compute in Hf; apply list_elem_of_singleton in Hf as ->; vm_compute; eauto.
  - rewrite source_ids. vm_compute. repeat constructor; set_solver.
  - destruct H as [H1 H2]; [|exact E|].
    + unfold sent_by. rewrite Es. tauto.
    + split.
      * apply H1; [|done]. rewrite source_ids. vm_compute. set_solver.
      * apply H2. rewrite source_ids. vm_compute. set_solver.
Defined.

(** A file that cannot be sent is skipped.  The file of machine 1 does not open: the
    [break] in [SendCheckpointFiles] only leaves the loop over that machine's files, the
    next machine sets the result to success again and no sequence id is missing, so
    [SendCheckpoint] reports success and the receiver installs a checkpoint without the
    file. *)
Theorem unreadable_file_is_skipped :
  let env := files_env "a:" "m1/f" in
  (SendCheckpoint env 1 2 (source_manager 10) Sender_new).2 = true /\
  (forall t, installed good_recv (sent_by env 10) idle_receiver = Some t ->
     t !! (1, "f"%string) = None /\ t !! (1001, "f"%string) = Some "a:m1001/f"%string) /\
  is_Some (installed good_recv (sent_by env 10) idle_receiver).
Proof.
  cbv zeta. split; [vm_compute; reflexivity|].
  destruct (evaluated (installed good_recv (sent_by (files_env "a:" "m1/f") 10) idle_receiver)
    (holds [((1, "f"%string), None); ((1001, "f"%string), Some "a:m1001/f"%string)])) as (t & E & H);
    [vm_compute; reflexivity|].
  rewrite E. split; [|by eexists]. intros t' [= <-].
  split; apply (holds_lookup _ _ _ _ H); [left|right; left].
Qed.

(** The messages of two transfers from one node, as the receiver gets them: the second
    transfer begins, a late fragment of the first arrives in place of its own, and the
    second ends. *)
Definition mixed_messages : list CheckpointMessage :=
  let first := sent_by (files_env "old:" "") 10 in
  let second := sent_by (files_env "new:" "") 20 in
  take 1 second ++ take 1 (drop 1 first) ++ drop 2 second.

(** The receiver compares the sender and the sequence id of a fragment but not its
    instance: a late fragment of an earlier transfer takes the place of one of the present
    transfer, and the checkpoint of instance 20 is installed with a file of instance 10. *)
Theorem transfers_can_mix :
  (forall m, m ∈ mixed_messages ->
     m ∈ sent_by (files_env "old:" "") 10 \/ m ∈ sent_by (files_env "new:" "") 20) /\
  (exists t, installed good_recv mixed_messages idle_receiver = Some t /\
     t !! (1, "f"%string) = Some "old:m1/f"%string /\ t !! (2, "f"%string) = Some "new:m2/f"%string).
Proof.
  split.
  - intros m. unfold mixed_messages. rewrite !elem_of_app.
    intros [H|[H|H]]; [right|left|right].
    + by apply subseteq_take in H.
    + by apply subseteq_take, subseteq_drop in H.
    + by apply subseteq_drop in H.
  - destruct (evaluated (installed good_recv mixed_messages idle_receiver)
      (holds [((1, "f"%string), Some "old:m1/f"%string); ((2, "f"%string), Some "new:m2/f"%string)]))
      as (t & E & H); [vm_compute; reflexivity|].
    exists t. split; [exact E|]. split; apply (holds_lookup _ _ _ _ H); [left|right; left].
Qed.

(** * Streams *)

Definition content_1 : Content :=
  paxos_content 0 (PaxosMessage_default <| pm_type := ACCEPT |> <| pm_node_id := 1 |>).
Definition content_2 : Content :=
  checkpoint_content 0 (mkCheckpointMessage CHECKPOINT_FILE 1 10 3 1001 "f" 4 "data" false).

(** Protobuf rejects a negative size. *)
Definition reject_negative (_ : Z) (_ : string) : bool * Content := (false, content_1).

(** A message that protobuf refuses to serialize. *)
Definition content_3 : Content := paxos_content 9 PaxosMessage_default.
Definition append_but_9 (c : Content) : bool := negb (ct_group_id c =? 9).

(** Two messages that are sent in three pieces, the first piece shorter than a header. *)
Definition stream_pieces : list string :=
  let s := frames append_but_9 [content_1; content_3; content_2] in
  [String.substring 0 3 s; String.substring 3 60 s; String.substring 63 (String.length s) s].

Lemma frames_roundtrip_witness :
  receive reject_negative stream_pieces "" = ([content_1; content_2], ""%string, false).
Proof.
  apply (frames_roundtrip append_but_9 reject_negative [content_1; content_3; content_2] stream_pieces).
  - intros c Hc _. repeat (apply elem_of_cons in Hc as [->|Hc]; [vm_compute; reflexivity|]). by apply elem_of_nil in Hc.
  - discriminate.
  - vm_compute. reflexivity.
Defined.

Lemma broadcast_reaches_witness :
  let reached := effect_node <$>
    (Network_Broadcast 1 (ms_members (members_of [1; 2; 3; 4])) "s" {[3 := false; 4 := true]}).2 in
  2 ∈ reached /\ 4 ∈ reached /\ 1 ∉ reached /\ 3 ∉ reached.
Proof.
  destruct (broadcast_reaches 1 (ms_members (members_of [1; 2; 3; 4])) "s" {[3 := false; 4 := true]})
    as [_ H].
  - intros id mb Hm. assert (Hd : id ∈ [1; 2; 3; 4]).
    { apply (elem_of_list_to_set (C := gset Z)). rewrite <- members_of_dom. by eapply elem_of_dom_2. }
    repeat (apply elem_of_cons in Hd as [->|Hd]; [vm_compute in Hm; by injection Hm as <-|]).
    by apply elem_of_nil in Hd.
  - cbv zeta. rewrite !H. split_and!; try (vm_compute; by eauto);
      intros ([? Hk] & H1 & H2); vm_compute in H1, H2; tauto.
Defined.

(** * A group *)

(** The only member of its group: every proposal succeeds at once. *)
Definition single_node : node (MM := group_machines good_env) :=
  (Instance_Recover (MM := group_machines good_env)
    (new_node (MM := group_machines good_env) (mkConfig 1 0 1000 true 5 100000 None) 5 ∅
       (mkManager (members_of [1]) MasterState_default ([] : um) {[1; 2; 1001]} 100000 2 false false
          [] [] 0 0 false ∅ : mm (MachineManager := group_machines good_env)) tt)).1.

(** Two clients propose, the node becomes master, and the loops run; one callback waits. *)
Definition group_events : list GroupEvent :=
  [GPropose 1001 "x" 100 7; GSync 5; GPropose 1001 "y" 0 8; GHandler 256; GHandler 257; GCallback;
   GHandler 258; GCallback].
Definition group_start : group good_env := Group_new good_env single_node true 10000 5.

Lemma group_accepted : accepted good_env group_events group_start =
  [(HPropose 1001 "x" 100, UserCallback 7); (HTryBeMaster, MasterCallback); (HPropose 1001 "y" 0, UserCallback 8)].
Proof. vm_compute. reflexivity. Qed.

Lemma proposals_complete_exactly_once_witness :
  exists g g' r0 r1 r2 own e n1 n2, group_run good_env group_events group_start = Some g /\
    g_called good_env g = 2%nat /\
    group_run good_env [GCallback] g = Some g' /\
    g_calls good_env g' = [(UserCallback 7, r0); (MasterCallback, r1); (UserCallback 8, r2)] /\
    r0.2 = 100 /\ own_value (HPropose 1001 "x" 100) own /\ concludes good_env own e n1 n2 r0.
Proof.
  destruct (proposals_complete_exactly_once good_env group_events single_node true 10000 5)
    as (g & E & _ & _ & Hs & _ & Hc & Hr & _ & g' & E' & Hg').
  - vm_compute. reflexivity.
  - constructor; [vm_compute; reflexivity|constructor|].
    intros v p. split; [intros H; vm_compute in H; by apply elem_of_nil in H|].
    intros (t & Ht & _). vm_compute in Ht. destruct p; discriminate Ht.
  - vm_compute. reflexivity.
  - vm_compute. reflexivity.
  - vm_compute. reflexivity.
  - fold group_start in E, Hr, Hc, Hg'. rewrite group_accepted in Hr, Hc, Hg'.
    destruct (evaluated (group_run good_env group_events group_start)
      (fun g => (g_started good_env g =? 3)%nat && negb (is_proposing (g_node good_env g)) &&
                (g_called good_env g =? 2)%nat)) as (g1 & E1 & H); [vm_compute; reflexivity|].
    rewrite E in E1. injection E1 as <-. apply andb_true_iff in H as [[H1 H2]%andb_true_iff H3].
    apply Nat.eqb_eq in H1, H3. apply negb_true_iff in H2. rewrite H1, H2 in Hs.
    destruct (callbacks (g_queue good_env g)).*2 as [|r0 [|r1 [|r2 [|]]]] eqn:Er; simpl in Hs; try lia.
    destruct (Hr 0%nat _ _ r0 eq_refl eq_refl) as (own & e & n1 & n2 & _ & Hown & Hres & _ & Hx).
    exists g, g', r0, r1, r2, own, e, n1, n2. split; [exact E|]. split; [exact H3|].
    rewrite H3 in E'. split; [exact E'|]. split; [exact Hg'|]. split; [exact Hres|]. split; [exact Hown|exact Hx].
Defined.
