(* ===== verification/FileModel.v ===== *)
(** Model of [util/file.cc] and [include/skywalker/file.h]: the file manager, its
    file objects and the functions that read and write whole files.

    The operating system is below them.  Its state [OS] is the names of the
    directories and regular files and the contents by inode; each system or stdio
    call the code makes is one definition [sys_...].  The class [Posix] says what
    the system may choose: for the k-th call an answer [px_answer k] with an error,
    or with how many bytes a buffered stream hands on; the order of [readdir];
    whether it reports the type of an entry; the text of an error; and what the memory holds behind
    the end of a vector, which [MachineManager] reads when it is to keep no checkpoint.

    Paths are split at the slashes; [..], symbolic and hard links are not used by
    the code and not modelled, and no file is written through two streams at once.
    [io] is a state monad in which [None] is the undefined behaviour of using a
    stream that was closed. *)

From S2P Require Import Prelude Proto Util.
From Stdlib Require Import Ascii.

(** * Paths *)

Notation path := (list string).

(** The text before the first slash and the parts after it. *)
Fixpoint split_slash (s : string) : string * list string :=
  match s with
  | EmptyString => (""%string, [])
  | String c s =>
      let '(x, l) := split_slash s in
      if decide (c = "/"%char) then (""%string, x :: l) else (String c x, l)
  end.

Definition is_component (x : string) : bool :=
  negb (bool_decide (x = ""%string)) && negb (bool_decide (x = "."%string)).

Definition parse_path (s : string) : path :=
  let '(x, l) := split_slash s in List.filter is_component (x :: l).

Definition parent (p : path) : path := take (length p - 1) p.

(** [k] is [p] followed by the result. *)
Fixpoint strip (p k : path) : option path :=
  match p, k with
  | [], _ => Some k
  | x :: p, y :: k => if decide (x = y) then strip p k else None
  | _ :: _, [] => None
  end.

(** * The state of the system *)

Inductive entry := Dir | Reg (ino : nat).

#[global] Instance entry_eq_dec : EqDecision entry.
Proof. solve_decision. Defined.

Record OS := mkOS {
  os_names : gmap path entry;
  os_data : gmap nat string;
  os_next : nat;                     (* inodes from here on are free *)
  os_calls : nat;                    (* calls made so far *)
}.

Definition with_names (f : gmap path entry -> gmap path entry) (os : OS) : OS :=
  mkOS (f (os_names os)) (os_data os) (os_next os) (os_calls os).
Definition with_data (f : gmap nat string -> gmap nat string) (os : OS) : OS :=
  mkOS (os_names os) (f (os_data os)) (os_next os) (os_calls os).
Definition tick (os : OS) : OS :=
  mkOS (os_names os) (os_data os) (os_next os) (S (os_calls os)).

(** The root always is a directory. *)
Definition node_at (os : OS) (p : path) : option entry :=
  if decide (p = []) then Some Dir else os_names os !! p.

(** The content of the regular file at a path. *)
Definition content (os : OS) (p : path) : option string :=
  match node_at os p with Some (Reg i) => os_data os !! i | _ => None end.

Definition is_reg (n : option entry) : bool := match n with Some (Reg _) => true | _ => false end.

(** The name an entry has in the directory [p]. *)
Definition child_name (p k : path) : option string :=
  match strip p k with Some [x] => Some x | _ => None end.

Definition children (os : OS) (p : path) : list (string * entry) :=
  omap (fun e => (fun x => (x, e.2)) <$> child_name p e.1) (map_to_list (os_names os)).

(** * What the system chooses *)

Record answer := mkAnswer { a_errno : option Z; a_count : nat }.

Class Posix := {
  px_answer : nat -> answer;
  px_order : list (string * entry) -> list (string * entry);
  px_dtype : bool;                   (* readdir reports d_type *)
  px_strerror : Z -> string;
  px_past_end : Z;                   (* what is read behind the end of a vector *)
}.

Class PosixLaws `{!Posix} := px_order_perm : forall l, px_order l ≡ₚ l.

(** No call fails for a reason outside the state of the files. *)
Class Quiet `{!Posix} := quiet : forall k, a_errno (px_answer k) = None.

(** * The monad *)

Definition io (A : Type) : Type := OS -> option (OS * A).
#[global] Instance io_ret : MRet io := fun A a os => Some (os, a).
#[global] Instance io_bind : MBind io := fun A B f m os =>
  match m os with Some (os, a) => f a os | None => None end.

(** The result of a call: an error number or a value. *)
Inductive outcome (A : Type) := Fails (errno : Z) | Gives (a : A).
Arguments Fails {A}. Arguments Gives {A}.

Definition ENOENT : Z := 2.
Definition EBUSY : Z := 16.
Definition EEXIST : Z := 17.
Definition ENODEV : Z := 19.
Definition ENOTDIR : Z := 20.
Definition EISDIR : Z := 21.
Definition EINVAL : Z := 22.
Definition ENOTEMPTY : Z := 39.

(** Why a path that names nothing does not resolve. *)
Definition missing (os : OS) (p : path) : Z :=
  if existsb (fun n => is_reg (node_at os (take n p))) (seq 0 (length p)) then ENOTDIR else ENOENT.

(** Why an entry cannot be made at [p]. *)
Definition no_parent (os : OS) (p : path) : option Z :=
  match node_at os (parent p) with
  | Some Dir => None
  | Some (Reg _) => Some ENOTDIR
  | None => Some (missing os p)
  end.

Definition to_signed64 (z : Z) : Z := if z <? 2 ^ 63 then z else z - 2 ^ 64.

Fixpoint str_drop (n : Z) (s : string) : string :=
  match s with
  | EmptyString => EmptyString
  | String _ s' => if n <=? 0 then s else str_drop (n - 1) s'
  end.

Definition str_take (n : nat) (s : string) : string := String.substring 0 n s.
Definition str_skip (n : nat) (s : string) : string := str_drop (Z.of_nat n) s.

(** * Calls on names *)

Section Posix.
Context {PX : Posix}.

(** One call: [f] is what it does when it gets an answer. *)
Definition call {A} (f : answer -> OS -> OS * A) : io A := fun os =>
  Some (f (px_answer (os_calls os)) (tick os)).

(** A call that has no effect when it fails. *)
Definition call_or_fail {A} (f : OS -> OS * outcome A) : io (outcome A) :=
  call (fun a os => match a_errno a with Some e => (os, Fails e) | None => f os end).

Definition sys_unlink (p : path) : io (outcome unit) := call_or_fail (fun os =>
  match node_at os p with
  | None => (os, Fails (missing os p))
  | Some Dir => (os, Fails EISDIR)
  | Some (Reg _) => (with_names (delete p) os, Gives tt)
  end).

Definition sys_mkdir (p : path) : io (outcome unit) := call_or_fail (fun os =>
  match node_at os p with
  | Some _ => (os, Fails EEXIST)
  | None =>
      match no_parent os p with
      | Some e => (os, Fails e)
      | None => (with_names <[p := Dir]> os, Gives tt)
      end
  end).

Definition sys_rmdir (p : path) : io (outcome unit) := call_or_fail (fun os =>
  if decide (p = []) then (os, Fails EBUSY) else
  match node_at os p with
  | None => (os, Fails (missing os p))
  | Some (Reg _) => (os, Fails ENOTDIR)
  | Some Dir =>
      if decide (children os p = []) then (with_names (delete p) os, Gives tt)
      else (os, Fails ENOTEMPTY)
  end).

(** Exchanges the subtrees [p] and [q]. *)
Definition swap_paths (p q k : path) : path :=
  match strip p k with
  | Some r => q ++ r
  | None => match strip q k with Some r => p ++ r | None => k end
  end.

(** Why [q] cannot be replaced by [n]. *)
Definition no_replace (os : OS) (n : entry) (q : path) : option Z :=
  match n, node_at os q with
  | Reg _, Some Dir => Some EISDIR
  | Dir, Some (Reg _) => Some ENOTDIR
  | Dir, Some Dir => if decide (children os q = []) then None else Some ENOTEMPTY
  | _, _ => None
  end.

Definition sys_rename (p q : path) : io (outcome unit) := call_or_fail (fun os =>
  match node_at os p with
  | None => (os, Fails (missing os p))
  | Some n =>
      if decide (p = [] \/ q = []) then (os, Fails EBUSY)
      else if decide (p = q) then (os, Gives tt)
      else if decide (strip p q <> None) then (os, Fails EINVAL)
      else if decide (strip q p <> None) then (os, Fails ENOTEMPTY)
      else
        match no_parent os q, no_replace os n q with
        | Some e, _ | None, Some e => (os, Fails e)
        | None, None =>
            (with_names (fun names => kmap (swap_paths p q) (delete q names)) os, Gives tt)
        end
  end).

(** The size of a directory is the system's choice. *)
Definition sys_stat (p : path) : io (outcome Z) := call (fun a os =>
  match a_errno a with
  | Some e => (os, Fails e)
  | None =>
      match node_at os p with
      | None => (os, Fails (missing os p))
      | Some Dir => (os, Gives (Z.of_nat (a_count a)))
      | Some (Reg i) => (os, Gives (Z.of_nat (String.length (default ""%string (os_data os !! i)))))
      end
  end).

Definition sys_access (p : path) : io bool := call (fun a os =>
  (os, match a_errno a with Some _ => false | None => bool_decide (node_at os p <> None) end)).

Definition sys_opendir (p : path) : io (outcome unit) := call_or_fail (fun os =>
  match node_at os p with
  | None => (os, Fails (missing os p))
  | Some (Reg _) => (os, Fails ENOTDIR)
  | Some Dir => (os, Gives tt)
  end).

(** All entries up to the first null pointer, which an error gives as well as the end. *)
Definition sys_readdir (p : path) : io (list (string * entry)) := call (fun a os =>
  let entries := px_order (("."%string, Dir) :: (".."%string, Dir) :: children os p) in
  (os, match a_errno a with Some _ => take (a_count a) entries | None => entries end)).

(** * Streams *)

(** A stream for reading; [rd_ino] is [None] on a directory. *)
Record RFILE := mkRFILE { rd_ino : option nat; rd_pos : Z; rd_eof : bool }.

(** A stream for writing, with the bytes not handed to the system yet. *)
Record WFILE := mkWFILE { wr_ino : nat; wr_buf : string }.

Definition sys_fopen_r (p : path) : io (outcome RFILE) := call_or_fail (fun os =>
  match node_at os p with
  | None => (os, Fails (missing os p))
  | Some Dir => (os, Gives (mkRFILE None 0 false))
  | Some (Reg i) => (os, Gives (mkRFILE (Some i) 0 false))
  end).

(** [fopen] with mode "w" when [truncate] holds and with mode "a" otherwise. *)
Definition sys_fopen_w (truncate : bool) (p : path) : io (outcome WFILE) := call_or_fail (fun os =>
  match node_at os p with
  | Some Dir => (os, Fails EISDIR)
  | Some (Reg i) =>
      (if truncate then with_data <[i := ""%string]> os else os, Gives (mkWFILE i ""))
  | None =>
      match no_parent os p with
      | Some e => (os, Fails e)
      | None =>
          (mkOS (<[p := Reg (os_next os)]> (os_names os)) (<[os_next os := ""%string]> (os_data os))
             (S (os_next os)) (os_calls os), Gives (mkWFILE (os_next os) ""))
      end
  end).

(** The bytes and whether an error ended the read.  At the end of the file the stream
    gives nothing until the indicator is cleared. *)
Definition sys_fread (n : nat) (f : RFILE) : io (RFILE * string * option Z) := call (fun a os =>
  if rd_eof f then (os, (f, ""%string, None)) else
  match rd_ino f with
  | None => (os, (f, ""%string, if (n =? 0)%nat then None else Some EISDIR))
  | Some i =>
      let rest := str_drop (rd_pos f) (default ""%string (os_data os !! i)) in
      let got :=
        match a_errno a with
        | Some _ => str_take (Nat.min (a_count a) (n - 1)) rest
        | None => str_take n rest
        end in
      let short := (String.length got <? n)%nat in
      (os, (mkRFILE (Some i) (rd_pos f + Z.of_nat (String.length got))
              (match a_errno a with Some _ => false | None => short end),
            got, if short then a_errno a else None))
  end).

Definition sys_fseek_cur (off : Z) (f : RFILE) : io (outcome RFILE) := call_or_fail (fun os =>
  if rd_pos f + off <? 0 then (os, Fails EINVAL)
  else (os, Gives (mkRFILE (rd_ino f) (rd_pos f + off) false))).

(** Hands [s] to the file. *)
Definition os_append (i : nat) (s : string) (os : OS) : OS :=
  with_data (fun d => <[i := default ""%string (d !! i) +:+ s]> d) os.

(** The number of bytes the stream took. *)
Definition sys_fwrite (data : string) (f : WFILE) : io (WFILE * nat * option Z) := call (fun a os =>
  let size := String.length data in
  if (size =? 0)%nat then (os, (f, 0%nat, None)) else
  let r := match a_errno a with Some _ => Nat.min (a_count a) (size - 1) | None => size end in
  let all := wr_buf f +:+ str_take r data in
  (os_append (wr_ino f) (str_take (a_count a) all) os,
   (mkWFILE (wr_ino f) (str_skip (a_count a) all), r, a_errno a))).

(** What of the buffer reaches the file. *)
Definition flushed (a : answer) (f : WFILE) : string :=
  match a_errno a with Some _ => str_take (a_count a) (wr_buf f) | None => wr_buf f end.
Definition unflushed (a : answer) (f : WFILE) : string :=
  match a_errno a with Some _ => str_skip (a_count a) (wr_buf f) | None => ""%string end.

Definition sys_fflush (f : WFILE) : io (WFILE * option Z) := call (fun a os =>
  (os_append (wr_ino f) (flushed a f) os, (mkWFILE (wr_ino f) (unflushed a f), a_errno a))).

(** The stream is gone also when it fails. *)
Definition sys_fclose (f : WFILE) : io (option Z) := call (fun a os =>
  (os_append (wr_ino f) (flushed a f) os, a_errno a)).

Definition sys_fsync (f : WFILE) : io (option Z) := call (fun a os => (os, a_errno a)).

Definition sys_open (p : path) : io (outcome entry) := call_or_fail (fun os =>
  match node_at os p with
  | None => (os, Fails (missing os p))
  | Some n => (os, Gives n)
  end).

Definition sys_close : io unit := call (fun _ os => (os, tt)).

Definition sys_mmap (size : Z) (fd : entry) : io (outcome nat) := call_or_fail (fun os =>
  if size =? 0 then (os, Fails EINVAL) else
  match fd with Dir => (os, Fails ENODEV) | Reg i => (os, Gives i) end).

Definition sys_pread (n : nat) (off : Z) (fd : entry) : io (outcome string) := call_or_fail (fun os =>
  match fd with
  | Dir => (os, Fails EISDIR)
  | Reg i =>
      if off <? 0 then (os, Fails EINVAL)
      else (os, Gives (str_take n (str_drop off (default ""%string (os_data os !! i)))))
  end).

(** * The file objects *)

Definition IOError (context : string) (err_number : Z) : Status :=
  default Status_OK (Status_make kIOError context (px_strerror err_number)).

Definition io_status (context : string) (err : option Z) : Status :=
  match err with Some e => IOError context e | None => Status_OK end.

Record PosixSequentialFile := mkSequential { sq_filename : string; sq_file : RFILE }.

(** A short read is an error unless it met the end of the file. *)
Definition Sequential_Read (n : nat) (f : PosixSequentialFile)
  : io (PosixSequentialFile * Status * string) :=
  x ← sys_fread n (sq_file f);
  let '(file, result, err) := x in
  let s :=
    if (String.length result <? n)%nat then
      if rd_eof file then Status_OK else IOError (sq_filename f) (default 0 err)
    else Status_OK in
  mret (mkSequential (sq_filename f) file, s, result).

(** [n] is unsigned and converted to the signed offset of [fseek]. *)
Definition Sequential_Skip (n : Z) (f : PosixSequentialFile) : io (PosixSequentialFile * Status) :=
  x ← sys_fseek_cur (to_signed64 n) (sq_file f);
  mret match x with
       | Fails e => (f, IOError (sq_filename f) e)
       | Gives file => (mkSequential (sq_filename f) file, Status_OK)
       end.

(** The destructor. *)
Definition Sequential_delete (f : PosixSequentialFile) : io unit := sys_close.

Inductive RandomAccessFile :=
| PosixRandomAccessFile (filename : string) (fd : entry)
| PosixMmapReadableFile (filename : string) (ino : nat) (length : Z).

(** The mapped bytes are the file's; a slice of them need not lie inside. *)
Definition Mmap_Read (filename : string) (region : string) (length offset : Z) (n : nat) : Status * Slice :=
  if length <? offset +64 Z.of_nat n then (IOError filename EINVAL, Slice_empty)
  else (Status_OK, mkSlice (str_drop offset region) n).

Definition RandomAccess_Read (offset : Z) (n : nat) (f : RandomAccessFile) : io (Status * Slice) :=
  match f with
  | PosixRandomAccessFile filename fd =>
      x ← sys_pread n (to_signed64 offset) fd;
      mret match x with
           | Fails e => (IOError filename e, Slice_empty)
           | Gives s => (Status_OK, Slice_of s)
           end
  | PosixMmapReadableFile filename ino length => fun os =>
      let region := str_take (Z.to_nat length) (default ""%string (os_data os !! ino)) in
      Some (os, Mmap_Read filename region length offset n)
  end.

Definition RandomAccess_delete (f : RandomAccessFile) : io unit := sys_close.

(** [wf_file] is [None] for the null pointer [Close] leaves. *)
Record PosixWritableFile := mkWritable { wf_filename : string; wf_file : option WFILE }.

Definition Writable_Append (data : string) (f : PosixWritableFile) : io (PosixWritableFile * Status) :=
  match wf_file f with
  | None => fun _ => None
  | Some file =>
      x ← sys_fwrite data file;
      let '(file, r, err) := x in
      mret (mkWritable (wf_filename f) (Some file),
            if (r =? String.length data)%nat then Status_OK
            else IOError (wf_filename f) (default 0 err))
  end.

Definition Writable_Close (f : PosixWritableFile) : io (PosixWritableFile * Status) :=
  match wf_file f with
  | None => fun _ => None
  | Some file =>
      err ← sys_fclose file;
      mret (mkWritable (wf_filename f) None, io_status (wf_filename f) err)
  end.

Definition Writable_Flush (f : PosixWritableFile) : io (PosixWritableFile * Status) :=
  match wf_file f with
  | None => fun _ => None
  | Some file =>
      x ← sys_fflush file;
      mret (mkWritable (wf_filename f) (Some x.1), io_status (wf_filename f) x.2)
  end.

Definition Writable_Sync (f : PosixWritableFile) : io (PosixWritableFile * Status) :=
  match wf_file f with
  | None => fun _ => None
  | Some file =>
      x ← sys_fflush file;
      let f := mkWritable (wf_filename f) (Some x.1) in
      match x.2 with
      | Some e => mret (f, IOError (wf_filename f) e)
      | None => err ← sys_fsync x.1; mret (f, io_status (wf_filename f) err)
      end
  end.

(** The destructor; what [fclose] answers is not looked at. *)
Definition Writable_delete (f : PosixWritableFile) : io unit :=
  match wf_file f with
  | None => mret tt
  | Some file => _ ← sys_fclose file; mret tt
  end.

(** * The file manager *)

(** A status and the object when there is one. *)
Definition opened {A B} (fname : string) (mk : A -> B) (x : outcome A) : Status * option B :=
  match x with
  | Fails e => (IOError fname e, None)
  | Gives f => (Status_OK, Some (mk f))
  end.

Definition done (context : string) (x : outcome unit) : Status :=
  match x with Fails e => IOError context e | Gives _ => Status_OK end.

Definition NewSequentialFile (fname : string) : io (Status * option PosixSequentialFile) :=
  x ← sys_fopen_r (parse_path fname); mret (opened fname (mkSequential fname) x).

Definition NewWritableFile (fname : string) : io (Status * option PosixWritableFile) :=
  x ← sys_fopen_w true (parse_path fname);
  mret (opened fname (fun f => mkWritable fname (Some f)) x).

Definition NewAppendableFile (fname : string) : io (Status * option PosixWritableFile) :=
  x ← sys_fopen_w false (parse_path fname);
  mret (opened fname (fun f => mkWritable fname (Some f)) x).

Definition DeleteFile (fname : string) : io Status :=
  x ← sys_unlink (parse_path fname); mret (done fname x).

Definition CreateDir (dirname : string) : io Status :=
  x ← sys_mkdir (parse_path dirname); mret (done dirname x).

Definition DeleteDir (dirname : string) : io Status :=
  x ← sys_rmdir (parse_path dirname); mret (done dirname x).

Definition RenameFile (src target : string) : io Status :=
  x ← sys_rename (parse_path src) (parse_path target); mret (done src x).

(** The entries the loop pushes; without types no entry is a regular file. *)
Definition keep_entry (only_file : bool) (e : string * entry) : bool :=
  if only_file then px_dtype && is_reg (Some e.2)
  else negb (bool_decide (e.1 = "."%string)) && negb (bool_decide (e.1 = ".."%string)).

Definition GetChildren (dir : string) (only_file : bool) : io (Status * list string) :=
  x ← sys_opendir (parse_path dir);
  match x with
  | Fails e => mret (IOError dir e, [])
  | Gives _ =>
      entries ← sys_readdir (parse_path dir);
      _ ← sys_close;
      mret (Status_OK, (filter (fun e => keep_entry only_file e = true) entries).*1)
  end.

Definition GetFileSize (fname : string) : io (Status * Z) :=
  x ← sys_stat (parse_path fname);
  mret match x with Fails e => (IOError fname e, 0) | Gives size => (Status_OK, size) end.

Definition FileExists (fname : string) : io bool := sys_access (parse_path fname).

(** [wide]: [sizeof(void* )] is at least 8. *)
Definition NewRandomAccessFile (wide : bool) (fname : string) : io (Status * option RandomAccessFile) :=
  x ← sys_open (parse_path fname);
  match x with
  | Fails e => mret (IOError fname e, None)
  | Gives fd =>
      if wide then
        y ← GetFileSize fname;
        r ← (if Status_ok y.1 then
               base ← sys_mmap y.2 fd;
               mret (opened fname (fun i => PosixMmapReadableFile fname i y.2) base)
             else mret (y.1, None));
        _ ← sys_close;
        mret r
      else mret (Status_OK, Some (PosixRandomAccessFile fname fd))
  end.

(** * Whole files *)

(** The [kBufferSize] of [ReadFileToString]. *)

Definition kFileBufferSize : nat := Z.to_nat 8192.

(** The loop of [ReadFileToString]: the status that ended it and the bytes appended to
    [data]; [fuel] exceeds the number of reads. *)
Fixpoint read_loop (fuel : nat) (file : PosixSequentialFile) (data : string)
  : io (PosixSequentialFile * Status * string) :=
  match fuel with
  | O => mret (file, Status_OK, data)
  | S fuel =>
      x ← Sequential_Read kFileBufferSize file;
      let '(file, s, fragment) := x in
      if Status_ok s then
        let data := data +:+ fragment in
        if decide (fragment = ""%string) then mret (file, s, data) else read_loop fuel file data
      else mret (file, s, data)
  end.

Definition ReadFileToString (fuel : nat) (fname : string) : io (Status * string) :=
  x ← NewSequentialFile fname;
  match x with
  | (s, None) => mret (s, ""%string)
  | (_, Some file) =>
      y ← read_loop fuel file "";
      let '(file, s, data) := y in
      _ ← Sequential_delete file;
      mret (s, data)
  end.

Definition DoWriteStringToFile (data fname : string) (should_sync : bool) : io Status :=
  x ← NewWritableFile fname;
  match x with
  | (s, None) => mret s
  | (_, Some file) =>
      y ← Writable_Append data file;
      y ← (if Status_ok y.2 && should_sync then Writable_Sync y.1 else mret y);
      y ← (if Status_ok y.2 then Writable_Close y.1 else mret y);
      _ ← Writable_delete y.1;
      _ ← (if Status_ok y.2 then mret Status_OK else DeleteFile fname);
      mret y.2
  end.

Definition WriteStringToFile (data fname : string) : io Status := DoWriteStringToFile data fname false.
Definition WriteStringToFileSync (data fname : string) : io Status := DoWriteStringToFile data fname true.

End Posix.

Arguments IOError {PX} _ _ : simpl never.
Arguments kFileBufferSize : simpl never.
