(* ===== verification/Files.v ===== *)
(** The file layer of [FileModel]: a program logic for [io], the well-formedness of
    the file system that every operation keeps, and what the operations do to the
    contents of files. *)

From S2P Require Import Prelude Proto Util FileModel.
From Stdlib Require Import Ascii.

(** * Paths and strings *)

Lemma strip_spec p k r : strip p k = Some r <-> k = p ++ r.
Proof.
  revert k. induction p as [|x p IH]; intros [|y k]; simpl; try (split; congruence).
  case_decide; [subst; rewrite IH|]; split; congruence.
Qed.

Lemma strip_app p r : strip p (p ++ r) = Some r.
Proof. by apply strip_spec. Qed.

Lemma strip_None p k : strip p k = None <-> ~ p `prefix_of` k.
Proof.
  destruct (strip p k) as [r|] eqn:E; split; try done.
  - intros H. destruct H. exists r. by apply strip_spec.
  - intros _ [r ->]. by rewrite strip_app in E.
Qed.

Lemma child_name_spec p k x : child_name p k = Some x <-> k = p ++ [x].
Proof.
  unfold child_name. destruct (strip p k) as [[|y [|z r]]|] eqn:E.
  - apply strip_spec in E as ->. split; [done|]. intros H%app_inv_head. done.
  - apply strip_spec in E as ->. split; [by intros [= ->]|]. by intros [= ->]%app_inv_head.
  - apply strip_spec in E as ->. split; [done|]. by intros [=]%app_inv_head.
  - apply strip_None in E. split; [done|]. intros ->. destruct E. by exists [x].
Qed.

Lemma parent_snoc p x : parent (p ++ [x]) = p.
Proof. unfold parent. rewrite length_app. simpl. by rewrite Nat.add_sub, take_app_length. Qed.

Lemma parent_ne p : p <> [] -> parent p <> p.
Proof.
  intros H E. apply (f_equal length) in E. unfold parent in E. rewrite length_take in E.
  destruct p; [done|]. simpl in E. lia.
Qed.

Lemma snoc_parent p : p <> [] -> exists x, p = parent p ++ [x].
Proof. intros H. destruct (exists_last H) as (q & x & ->). exists x. by rewrite parent_snoc. Qed.

Lemma prefix_parent p k : p `prefix_of` k -> p <> k -> p `prefix_of` parent k.
Proof.
  intros [r ->] H. destruct r as [|x r _] using rev_ind; [by rewrite app_nil_r in H|].
  rewrite app_assoc, parent_snoc. by exists r.
Qed.

Lemma prefix_of_parent k p : p `prefix_of` parent k -> p `prefix_of` k.
Proof. intros [r E]. unfold parent in E. exists (r ++ drop (length k - 1) k).
  rewrite app_assoc, <- E. by rewrite take_drop. Qed.

Lemma split_slash_app a b :
  split_slash (a +:+ "/" +:+ b) =
    let '(x, l) := split_slash a in let '(y, k) := split_slash b in (x, l ++ y :: k).
Proof.
  induction a as [|c a IH].
  - change ("" +:+ "/" +:+ b) with (String "/"%char b). cbn [split_slash]. destruct (split_slash b). by case_decide.
  - change (String c a +:+ "/" +:+ b) with (String c (a +:+ "/" +:+ b)). cbn [split_slash]. rewrite IH.
    destruct (split_slash a), (split_slash b). by case_decide.
Qed.

(** Paths are joined with a slash. *)
Lemma parse_path_join a b : parse_path (a +:+ "/" +:+ b) = parse_path a ++ parse_path b.
Proof.
  unfold parse_path. rewrite split_slash_app.
  destruct (split_slash a), (split_slash b).
  rewrite app_comm_cons. apply List.filter_app.
Qed.

(** A name without a slash is one component. *)
Lemma parse_path_name x : (split_slash x).2 = [] -> is_component x = true -> parse_path x = [x].
Proof.
  intros H C. assert (E : split_slash x = (x, [])).
  { clear C. induction x as [|c x IH]; [done|]. simpl in *. destruct (split_slash x) as [y l].
    case_decide; [done|]. simpl in H. specialize (IH H). by injection IH as -> ->. }
  unfold parse_path. rewrite E. simpl. by rewrite C.
Qed.

Lemma app_string_nil s : s +:+ "" = s.
Proof. induction s as [|c s IH]; [done|]. exact (f_equal (String c) IH). Qed.

Lemma app_string_assoc (a b c : string) : (a +:+ b) +:+ c = a +:+ (b +:+ c).
Proof. induction a as [|x a IH]; [done|]. exact (f_equal (String x) IH). Qed.

Lemma length_app_string (a b : string) :
  String.length (a +:+ b) = (String.length a + String.length b)%nat.
Proof. induction a as [|x a IH]; [done|]. exact (f_equal S IH). Qed.

Lemma str_drop_0 n s : n <= 0 -> str_drop n s = s.
Proof. intros H. destruct s; [done|]. simpl. by rewrite (proj2 (Z.leb_le n 0) H). Qed.

Lemma str_take_skip n s : str_take n s +:+ str_skip n s = s.
Proof.
  revert n. induction s as [|c s IH]; intros [|n]; try done.
  unfold str_take, str_skip in *. cbn [String.substring str_drop].
  destruct (Z.leb_spec (Z.of_nat (S n)) 0); [lia|].
  replace (Z.of_nat (S n) - 1) with (Z.of_nat n) by lia. exact (f_equal (String c) (IH n)).
Qed.

Lemma str_take_all n s : (String.length s <= n)%nat -> str_take n s = s.
Proof.
  revert n. induction s as [|c s IH]; intros [|n] H; simpl in *; try done; [lia|].
  unfold str_take in *. simpl. by rewrite IH by lia.
Qed.

Lemma length_str_take n s : String.length (str_take n s) = Nat.min n (String.length s).
Proof.
  revert n. induction s as [|c s IH]; intros [|n]; try done.
  unfold str_take in *. simpl. by rewrite IH.
Qed.

Lemma str_drop_drop a b s : 0 <= a -> 0 <= b -> str_drop b (str_drop a s) = str_drop (a + b) s.
Proof.
  revert a. induction s as [|c s IH]; intros a Ha Hb; [done|]. simpl.
  destruct (Z.leb_spec a 0).
  - assert (a = 0) as -> by lia. done.
  - destruct (Z.leb_spec (a + b) 0); [lia|]. rewrite IH by lia. f_equal. lia.
Qed.

(** * A program logic

    [wp m Q os]: started in [os], [m] does not use a closed stream and ends with a
    result and a state that satisfy [Q]. *)

Definition wp {A} (m : io A) (Q : A -> OS -> Prop) (os : OS) : Prop :=
  exists os' a, m os = Some (os', a) /\ Q a os'.

Lemma wp_ret {A} (a : A) (Q : A -> OS -> Prop) os : Q a os -> wp (mret a) Q os.
Proof. intros H. by exists os, a. Qed.

Lemma wp_bind {A B} (m : io A) (f : A -> io B) Q os :
  wp m (fun a => wp (f a) Q) os -> wp (m ≫= f) Q os.
Proof.
  intros (os' & a & E & os2 & b & E2 & H). exists os2, b.
  split; [|done]. unfold mbind, io_bind. by rewrite E.
Qed.

Lemma wp_mono {A} (m : io A) (Q R : A -> OS -> Prop) os :
  wp m Q os -> (forall a os', Q a os' -> R a os') -> wp m R os.
Proof. intros (os' & a & E & H) HR. exists os', a. auto. Qed.

Lemma wp_run {A} (m : io A) Q os os' a : wp m Q os -> m os = Some (os', a) -> Q a os'.
Proof. intros (? & ? & E & H) E'. rewrite E' in E. by simplify_eq. Qed.

Lemma wp_and {A} (m : io A) (Q R : A -> OS -> Prop) os :
  wp m Q os -> wp m R os -> wp m (fun a os => Q a os /\ R a os) os.
Proof. intros (os' & a & E & H) HR. exists os', a. split; [done|]. split; [done|]. by eapply wp_run. Qed.

Section Posix.
Context {PX : Posix}.

Lemma wp_call {A} (f : answer -> OS -> OS * A) Q os :
  (let '(os', a) := f (px_answer (os_calls os)) (tick os) in Q a os') -> wp (call f) Q os.
Proof. unfold wp, call. destruct (f _ _) as [os' a]. eauto. Qed.

(** A call that can fail: with no effect, or as [f] says. *)
Lemma wp_call_or_fail {A} (f : OS -> OS * outcome A) Q os :
  (a_errno (px_answer (os_calls os)) <> None -> forall e, Q (Fails e) (tick os)) ->
  (let '(os', x) := f (tick os) in Q x os') -> wp (call_or_fail f) Q os.
Proof.
  intros H1 H2. apply wp_call. destruct (a_errno _) eqn:E; [by apply H1|done].
Qed.

End Posix.

(** Names and contents: the call counter is left out. *)
Definition same_files (os os' : OS) : Prop :=
  os_names os' = os_names os /\ os_data os' = os_data os /\ os_next os' = os_next os.

#[global] Instance same_files_equiv : Equivalence same_files.
Proof.
  unfold same_files. split; [done| |].
  - intros x y (-> & -> & ->). done.
  - intros x y z (-> & -> & ->) (-> & -> & ->). done.
Qed.

Lemma same_files_tick os : same_files os (tick os).
Proof. done. Qed.

#[global] Instance node_at_proper : Proper (same_files ==> eq ==> eq) node_at.
Proof. intros x y (E & _ & _) p _ <-. unfold node_at. by rewrite E. Qed.

#[global] Instance content_proper : Proper (same_files ==> eq ==> eq) content.
Proof.
  intros x y H p _ <-. unfold content. rewrite (node_at_proper _ _ H p p eq_refl).
  destruct H as (_ & E & _). by rewrite E.
Qed.

#[global] Instance children_proper : Proper (same_files ==> eq ==> eq) children.
Proof. intros x y (E & _ & _) p _ <-. unfold children. by rewrite E. Qed.

(** * Well-formed file systems *)

Record os_wf (os : OS) : Prop := {
  wf_root : os_names os !! [] = None;
  wf_parent : forall p n, os_names os !! p = Some n -> node_at os (parent p) = Some Dir;
  wf_inode : forall p i, os_names os !! p = Some (Reg i) -> (i < os_next os)%nat /\ is_Some (os_data os !! i);
  wf_single : forall p q i, os_names os !! p = Some (Reg i) -> os_names os !! q = Some (Reg i) -> p = q;
}.

#[global] Instance os_wf_proper : Proper (same_files ==> iff) os_wf.
Proof.
  assert (forall x y, same_files x y -> os_wf x -> os_wf y) as H.
  { intros x y E [H1 H2 H3 H4]. pose proof E as (E1 & E2 & E3).
    split; rewrite ?E1, ?E2, ?E3; try done.
    intros p n Hp. rewrite <- (node_at_proper _ _ E (parent p) _ eq_refl). eauto. }
  intros x y E. split; apply H; [done|by symmetry].
Qed.

Lemma os_wf_tick os : os_wf os -> os_wf (tick os).
Proof. by rewrite (same_files_tick os) at 1. Qed.

Lemma node_at_names os p : p <> [] -> node_at os p = os_names os !! p.
Proof. intros H. unfold node_at. by rewrite decide_False. Qed.

Lemma node_at_reg os p i : node_at os p = Some (Reg i) <-> os_names os !! p = Some (Reg i) /\ p <> [].
Proof. unfold node_at. case_decide; naive_solver. Qed.

(** A file has a content. *)
Lemma content_reg os p i : os_wf os -> node_at os p = Some (Reg i) -> exists d, content os p = Some d /\ os_data os !! i = Some d.
Proof.
  intros W H. unfold content. rewrite H. apply node_at_reg in H as [H _].
  destruct (wf_inode _ W _ _ H) as [_ [d E]]. eauto.
Qed.

Lemma child_elem os p x n : (x, n) ∈ children os p <-> os_names os !! (p ++ [x]) = Some n.
Proof.
  unfold children. rewrite list_elem_of_omap. split.
  - intros ([k m] & Hk & E). simpl in E. destruct (child_name p k) eqn:C; [|done].
    apply child_name_spec in C as ->. simplify_eq/=. by apply elem_of_map_to_list in Hk.
  - intros H. exists (p ++ [x], n). split; [by apply elem_of_map_to_list|].
    simpl. by rewrite (proj2 (child_name_spec p (p ++ [x]) x) eq_refl).
Qed.

Lemma no_children os p : children os p = [] <-> forall x, os_names os !! (p ++ [x]) = None.
Proof.
  split.
  - intros E x. destruct (os_names os !! (p ++ [x])) eqn:H; [|done].
    apply child_elem in H. rewrite E in H. by apply elem_of_nil in H.
  - intros H. destruct (children os p) as [|[x n] l] eqn:E; [done|].
    assert ((x, n) ∈ children os p) as Hx by (rewrite E; left).
    apply child_elem in Hx. by rewrite H in Hx.
Qed.

(** Nothing is below a path that has no entry in it. *)
Lemma nothing_below os p r :
  os_wf os -> (forall x, os_names os !! (p ++ [x]) = None) -> r <> [] -> os_names os !! (p ++ r) = None.
Proof.
  intros W H. induction r as [|x r IH] using rev_ind; [done|]. intros _.
  destruct (decide (r = [])) as [->|Hr]; [apply H|].
  apply eq_None_not_Some. intros [n E]. rewrite app_assoc in E.
  pose proof (wf_parent _ W _ _ E) as P. rewrite parent_snoc in P.
  rewrite node_at_names in P by (by intros [_ ?]%app_nil). rewrite IH in P by done. done.
Qed.

(** Only a directory has entries. *)
Lemma entry_parent os p x n : os_wf os -> os_names os !! (p ++ [x]) = Some n -> node_at os p = Some Dir.
Proof. intros W H. apply (wf_parent _ W) in H. by rewrite parent_snoc in H. Qed.

Lemma not_dir_no_entry os p x : os_wf os -> node_at os p <> Some Dir -> os_names os !! (p ++ [x]) = None.
Proof. intros W H. apply eq_None_not_Some. intros [n E]. by apply entry_parent in E. Qed.

(** ** The changes the calls make *)

Lemma wf_with_data os i s : os_wf os -> os_wf (with_data <[i := s]> os).
Proof.
  intros [H1 H2 H3 H4]. split; try done. intros p j Hp. simpl in *.
  destruct (H3 p j Hp) as [? ?]. split; [done|].
  rewrite lookup_insert_is_Some. destruct (decide (i = j)); eauto.
Qed.

Lemma wf_remove os p :
  os_wf os -> (forall x, os_names os !! (p ++ [x]) = None) -> os_wf (with_names (delete p) os).
Proof.
  intros [H1 H2 H3 H4] H. split; simpl.
  - by rewrite lookup_delete_None; right.
  - intros q n [Hne Hq]%lookup_delete_Some. specialize (H2 q n Hq).
    unfold node_at in *. simpl. case_decide; [done|]. rewrite lookup_delete_ne; [done|].
    intros E. destruct (snoc_parent q) as [x Hx]; [congruence|].
    rewrite <- E in Hx. rewrite Hx in Hq. by rewrite H in Hq.
  - intros q i [_ Hq]%lookup_delete_Some. eauto.
  - intros q r i [_ Hq]%lookup_delete_Some [_ Hr]%lookup_delete_Some. eauto.
Qed.

(** A new entry with a directory or a fresh inode. *)
Lemma wf_add os p n data next :
  os_wf os -> p <> [] -> node_at os p = None -> node_at os (parent p) = Some Dir ->
  (os_next os <= next)%nat ->
  (forall i d, os_data os !! i = Some d -> is_Some (data !! i)) ->
  match n with Reg i => (os_next os <= i < next)%nat /\ is_Some (data !! i) | Dir => True end ->
  os_wf (mkOS (<[p := n]> (os_names os)) data next (os_calls os)).
Proof.
  intros [H1 H2 H3 H4] Hp Hn Hd Hnext Hdata Hi.
  assert (Hfresh : forall q j, os_names os !! q = Some (Reg j) -> n <> Reg j).
  { intros q j Hq ->. destruct (H3 q j Hq). lia. }
  split; simpl.
  - by rewrite lookup_insert_ne.
  - assert (Hat : forall q, node_at os q = Some Dir ->
      node_at (mkOS (<[p := n]> (os_names os)) data next (os_calls os)) q = Some Dir).
    { intros q Hq. unfold node_at in *. simpl. case_decide; [done|].
      rewrite lookup_insert_ne; [done|]. intros ->. rewrite decide_False in Hn by done. congruence. }
    intros q m Hq. apply Hat. apply lookup_insert_Some in Hq as [[<- _]|[_ Hq]]; eauto.
  - intros q i [[<- ->]|[_ Hq]]%lookup_insert_Some; [naive_solver lia|].
    destruct (H3 q i Hq) as [? [d Hd2]]. split; [lia|eauto].
  - intros q r i [[<- ->]|[_ Hq]]%lookup_insert_Some [[<- Er]|[_ Hr]]%lookup_insert_Some;
      try done; try (by destruct (Hfresh _ _ Hr)); try (by destruct (Hfresh _ _ Hq)); eauto.
Qed.

Lemma swap_left p q r : swap_paths p q (p ++ r) = q ++ r.
Proof. unfold swap_paths. by rewrite strip_app. Qed.

(** Two paths of which none is below the other. *)
Definition apart (p q : path) : Prop := ~ p `prefix_of` q /\ ~ q `prefix_of` p.

Lemma apart_strip p q r : apart p q -> strip p (q ++ r) = None.
Proof.
  intros [H1 H2]. apply strip_None. intros H. destruct (prefix_weak_total p q (q ++ r)) as [?|?]; try done.
  by exists r.
Qed.

Lemma swap_right p q r : apart p q -> swap_paths p q (q ++ r) = p ++ r.
Proof. intros H. unfold swap_paths. by rewrite (apart_strip p q r H), strip_app. Qed.

Lemma swap_other p q k : strip p k = None -> strip q k = None -> swap_paths p q k = k.
Proof. intros H1 H2. unfold swap_paths. by rewrite H1, H2. Qed.

(** The three places a path can be in. *)
Lemma swap_cases p q k :
  apart p q ->
  (exists r, k = p ++ r /\ swap_paths p q k = q ++ r) \/
  (exists r, k = q ++ r /\ swap_paths p q k = p ++ r) \/
  (strip p k = None /\ strip q k = None /\ swap_paths p q k = k).
Proof.
  intros H. destruct (strip p k) as [r|] eqn:E1.
  - left. exists r. apply strip_spec in E1 as ->. by rewrite swap_left.
  - right. destruct (strip q k) as [r|] eqn:E2.
    + left. exists r. apply strip_spec in E2 as ->. by rewrite swap_right.
    + right. by rewrite swap_other.
Qed.

Lemma swap_invol p q k : apart p q -> swap_paths p q (swap_paths p q k) = k.
Proof.
  intros H. destruct (swap_cases p q k H) as [(r & -> & ->)|[(r & -> & ->)|(E1 & E2 & ->)]].
  - by apply swap_right.
  - apply swap_left.
  - by apply swap_other.
Qed.

Lemma swap_inj p q : apart p q -> Inj (=) (=) (swap_paths p q).
Proof. intros H k k' E. rewrite <- (swap_invol p q k H), E. by apply swap_invol. Qed.

Lemma lookup_swap (p q : path) (m : gmap path entry) (k : path) :
  apart p q -> (kmap (swap_paths p q) m : gmap path entry) !! k = m !! swap_paths p q k.
Proof.
  intros H. pose proof (swap_inj p q H). rewrite <- (swap_invol p q k H) at 1.
  by rewrite lookup_kmap.
Qed.

Lemma swap_parent p q k : apart p q -> k <> p -> k <> q -> swap_paths p q (parent k) = parent (swap_paths p q k).
Proof.
  intros H Hp Hq.
  assert (Hsnoc : forall a r, r <> [] -> parent (a ++ r) = a ++ parent r).
  { intros a r Hr. destruct (snoc_parent r Hr) as [x E]. rewrite E at 1.
    by rewrite app_assoc, parent_snoc. }
  destruct (swap_cases p q k H) as [(r & -> & ->)|[(r & -> & ->)|(E1 & E2 & ->)]].
  - rewrite !Hsnoc by (intros ->; by rewrite app_nil_r in Hp). by rewrite swap_left.
  - rewrite !Hsnoc by (intros ->; by rewrite app_nil_r in Hq). by rewrite swap_right.
  - apply swap_other; apply strip_None; intros ?%prefix_of_parent; by apply strip_None in E1, E2.
Qed.

(** What [rename] leaves at a path. *)
Definition renamed (p q : path) (os : OS) : OS :=
  with_names (fun names => kmap (swap_paths p q) (delete q names)) os.

Lemma swap_nil p q : p <> [] -> q <> [] -> swap_paths p q [] = [].
Proof. intros Hp Hq. apply swap_other; apply strip_None; by intros ?%prefix_nil_inv. Qed.

Lemma node_at_renamed os p q k :
  apart p q -> p <> [] -> q <> [] ->
  node_at (renamed p q os) k = if decide (k = p) then None else node_at os (swap_paths p q k).
Proof.
  intros A Hp Hq. unfold node_at, renamed. simpl. rewrite lookup_swap by done.
  pose proof (swap_nil p q Hp Hq) as Hnil.
  pose proof (swap_left p q []) as Hl. rewrite !app_nil_r in Hl.
  destruct (decide (k = p)) as [->|Hk].
  - rewrite decide_False by done. by rewrite Hl, lookup_delete_eq.
  - assert (swap_paths p q k = q -> False) as Hkq.
    { intros E. apply Hk, (swap_inj p q A). congruence. }
    destruct (decide (k = [])) as [->|Hne]; [by rewrite Hnil, decide_True|].
    rewrite decide_False by (intros E; apply Hne, (swap_inj p q A); congruence).
    rewrite lookup_delete_ne; [done|]. intros E. by apply Hkq.
Qed.

Lemma wf_rename os p q :
  os_wf os -> apart p q -> p <> [] -> q <> [] -> node_at os (parent q) = Some Dir ->
  (forall x, os_names os !! (q ++ [x]) = None) -> os_wf (renamed p q os).
Proof.
  intros W A Hp Hq Hpar He.
  assert (Hlook : forall k n, os_names (renamed p q os) !! k = Some n ->
    swap_paths p q k <> q /\ os_names os !! swap_paths p q k = Some n).
  { intros k n. simpl. rewrite lookup_swap by done. by intros [? ?]%lookup_delete_Some. }
  split.
  - simpl. rewrite lookup_swap, swap_nil, lookup_delete_None by done. right. apply W.
  - intros k n [Hk Hn]%Hlook. rewrite node_at_renamed by done.
    destruct (decide (k = q)) as [->|Hkq].
    + rewrite decide_False, swap_other; [done|apply strip_None|apply strip_None|].
      * intros H%prefix_of_parent. by apply A in H.
      * intros H%prefix_length. unfold parent in H. rewrite length_take in H.
        destruct q; [done|]. simpl in H. lia.
      * intros E. destruct A as [A _]. apply A. rewrite <- E. apply prefix_take.
    + assert (k <> p) as Hkp by (intros ->; pose proof (swap_left p q []) as E; by rewrite !app_nil_r in E).
      rewrite swap_parent by done. pose proof (wf_parent _ W _ _ Hn) as Hd.
      rewrite decide_False; [done|]. intros E. rewrite <- swap_parent, E in Hd by done.
      pose proof (swap_left p q []) as El. rewrite !app_nil_r in El. rewrite El in Hd.
      destruct (snoc_parent (swap_paths p q k)) as [x Hx].
      { intros Ek. rewrite Ek in Hn. by rewrite (wf_root _ W) in Hn. }
      rewrite <- swap_parent, E, El in Hx by done. rewrite Hx in Hn. by rewrite He in Hn.
  - intros k i [_ Hk]%Hlook. by eapply (wf_inode _ W).
  - intros k k' i [_ Hk]%Hlook [_ Hk']%Hlook. apply (swap_inj p q A). by eapply (wf_single _ W).
Qed.

(** ** Every operation keeps the file system well-formed *)

Class KeepsWf {A} (m : io A) : Prop := keeps_wf : forall os, os_wf os -> wp m (fun _ => os_wf) os.

#[global] Instance keeps_ret {A} (a : A) : KeepsWf (mret a).
Proof. intros os W. by apply wp_ret. Qed.

Lemma keeps_bind {A B} (m : io A) (f : A -> io B) :
  KeepsWf m -> (forall a, KeepsWf (f a)) -> KeepsWf (m ≫= f).
Proof. intros Hm Hf os W. apply wp_bind. eapply wp_mono; [by apply Hm|]. intros a os' W'. by apply Hf. Qed.

Section Keeps.
Context {PX : Posix}.

Lemma keeps_call {A} (f : answer -> OS -> OS * A) :
  (forall a os, os_wf os -> os_wf (f a os).1) -> KeepsWf (call f).
Proof.
  intros H os W. apply wp_call. specialize (H (px_answer (os_calls os)) (tick os) (os_wf_tick _ W)). by destruct (f _ _).
Qed.

Lemma keeps_call_or_fail {A} (f : OS -> OS * outcome A) :
  (forall os, os_wf os -> os_wf (f os).1) -> KeepsWf (call_or_fail f).
Proof. intros H. apply keeps_call. intros a os W. destruct (a_errno a); [done|by apply H]. Qed.

Ltac keeps_call_tac :=
  first [apply keeps_call_or_fail; intros os W | apply keeps_call; intros a os W];
  repeat case_match; try done.

#[export] Instance keeps_unlink p : KeepsWf (sys_unlink p).
Proof.
  keeps_call_tac. apply wf_remove; [done|]. intros x. apply not_dir_no_entry; [done|congruence].
Qed.

Lemma no_parent_None os p : no_parent os p = None -> node_at os (parent p) = Some Dir.
Proof. unfold no_parent. repeat case_match; congruence. Qed.

Lemma node_at_None_ne os p : node_at os p = None -> p <> [].
Proof. intros H ->. done. Qed.

#[export] Instance keeps_mkdir p : KeepsWf (sys_mkdir p).
Proof.
  keeps_call_tac. apply wf_add; eauto using no_parent_None, node_at_None_ne.
Qed.

#[export] Instance keeps_rmdir p : KeepsWf (sys_rmdir p).
Proof. keeps_call_tac. apply wf_remove; [done|]. by apply no_children. Qed.

(** What is replaced has no entries. *)
Lemma no_replace_None os n q x : os_wf os -> no_replace os n q = None -> os_names os !! (q ++ [x]) = None.
Proof.
  intros W H. unfold no_replace in H.
  destruct (node_at os q) as [[|i]|] eqn:E; [|apply not_dir_no_entry; congruence..].
  destruct n; [|done]. case_decide; [|done]. by apply no_children.
Qed.

Lemma strips_apart p q : ~ strip p q <> None -> ~ strip q p <> None -> apart p q.
Proof. intros H1 H2. split; apply strip_None, dec_stable; assumption. Qed.

#[export] Instance keeps_rename p q : KeepsWf (sys_rename p q).
Proof.
  keeps_call_tac. apply wf_rename; [done|by apply strips_apart|naive_solver|naive_solver| |].
  - by apply no_parent_None.
  - intros x. by eapply no_replace_None.
Qed.

#[export] Instance keeps_fopen_w b p : KeepsWf (sys_fopen_w b p).
Proof.
  keeps_call_tac; [by apply wf_with_data|].
  apply wf_add; eauto using no_parent_None, node_at_None_ne.
  - intros i d Hd. rewrite lookup_insert_is_Some. destruct (decide (os_next os = i)); eauto.
  - split; [lia|]. rewrite lookup_insert_eq. eauto.
Qed.

Lemma keeps_append i s os : os_wf os -> os_wf (os_append i s os).
Proof. apply (wf_with_data os i). Qed.

#[export] Instance keeps_fwrite s f : KeepsWf (sys_fwrite s f).
Proof.
  apply keeps_call. intros a os W. cbn zeta. destruct (_ =? 0)%nat; [done|]. by apply keeps_append.
Qed.

#[export] Instance keeps_fflush f : KeepsWf (sys_fflush f).
Proof. apply keeps_call. intros a os W. by apply keeps_append. Qed.

#[export] Instance keeps_fclose f : KeepsWf (sys_fclose f).
Proof. apply keeps_call. intros a os W. by apply keeps_append. Qed.

(** The calls that only look. *)
#[export] Instance keeps_stat p : KeepsWf (sys_stat p). Proof. keeps_call_tac. Qed.
#[export] Instance keeps_access p : KeepsWf (sys_access p). Proof. keeps_call_tac. Qed.
#[export] Instance keeps_opendir p : KeepsWf (sys_opendir p). Proof. keeps_call_tac. Qed.
#[export] Instance keeps_readdir p : KeepsWf (sys_readdir p). Proof. keeps_call_tac. Qed.
#[export] Instance keeps_fopen_r p : KeepsWf (sys_fopen_r p). Proof. keeps_call_tac. Qed.
#[export] Instance keeps_fread n f : KeepsWf (sys_fread n f). Proof. keeps_call_tac. Qed.
#[export] Instance keeps_fseek n f : KeepsWf (sys_fseek_cur n f). Proof. keeps_call_tac. Qed.
#[export] Instance keeps_fsync f : KeepsWf (sys_fsync f). Proof. keeps_call_tac. Qed.
#[export] Instance keeps_open p : KeepsWf (sys_open p). Proof. keeps_call_tac. Qed.
#[export] Instance keeps_close : KeepsWf sys_close. Proof. keeps_call_tac. Qed.
#[export] Instance keeps_mmap n fd : KeepsWf (sys_mmap n fd). Proof. keeps_call_tac. Qed.
#[export] Instance keeps_pread n o fd : KeepsWf (sys_pread n o fd). Proof. keeps_call_tac. Qed.

End Keeps.

(** Follows the binds and the case distinctions of an operation. *)
Ltac keeps :=
  repeat first
    [ progress intros
    | apply keeps_bind
    | exact _
    | match goal with |- KeepsWf (match ?x with _ => _ end) => destruct x end
    | match goal with |- KeepsWf (if ?x then _ else _) => destruct x end ].

Section Operations.
Context {PX : Posix}.

#[export] Instance keeps_NewSequentialFile fname : KeepsWf (NewSequentialFile fname).
Proof. unfold NewSequentialFile. keeps. Qed.
#[export] Instance keeps_NewWritableFile fname : KeepsWf (NewWritableFile fname).
Proof. unfold NewWritableFile. keeps. Qed.
#[export] Instance keeps_NewAppendableFile fname : KeepsWf (NewAppendableFile fname).
Proof. unfold NewAppendableFile. keeps. Qed.
#[export] Instance keeps_GetFileSize fname : KeepsWf (GetFileSize fname).
Proof. unfold GetFileSize. keeps. Qed.
#[export] Instance keeps_NewRandomAccessFile b fname : KeepsWf (NewRandomAccessFile b fname).
Proof. unfold NewRandomAccessFile. keeps. Qed.
#[export] Instance keeps_DeleteFile fname : KeepsWf (DeleteFile fname).
Proof. unfold DeleteFile. keeps. Qed.
#[export] Instance keeps_CreateDir fname : KeepsWf (CreateDir fname).
Proof. unfold CreateDir. keeps. Qed.
#[export] Instance keeps_DeleteDir fname : KeepsWf (DeleteDir fname).
Proof. unfold DeleteDir. keeps. Qed.
#[export] Instance keeps_RenameFile fname target : KeepsWf (RenameFile fname target).
Proof. unfold RenameFile. keeps. Qed.
#[export] Instance keeps_GetChildren dir b : KeepsWf (GetChildren dir b).
Proof. unfold GetChildren. keeps. Qed.
#[export] Instance keeps_FileExists fname : KeepsWf (FileExists fname).
Proof. unfold FileExists. keeps. Qed.
#[export] Instance keeps_Sequential_Read n f : KeepsWf (Sequential_Read n f).
Proof. unfold Sequential_Read. keeps. Qed.
#[export] Instance keeps_Sequential_Skip n f : KeepsWf (Sequential_Skip n f).
Proof. unfold Sequential_Skip. keeps. Qed.
#[export] Instance keeps_Sequential_delete f : KeepsWf (Sequential_delete f).
Proof. unfold Sequential_delete. keeps. Qed.
#[export] Instance keeps_Writable_delete f : KeepsWf (Writable_delete f).
Proof. unfold Writable_delete. keeps. Qed.

(** A file object that is open, and stays so. *)
Definition is_open (f : PosixWritableFile) : Prop := wf_file f <> None.

Definition KeepsOpen (m : PosixWritableFile -> io (PosixWritableFile * Status)) : Prop :=
  forall f os, is_open f -> os_wf os -> wp (m f) (fun r os => is_open r.1 /\ os_wf os) os.

Lemma keeps_open_Append data : KeepsOpen (Writable_Append data).
Proof.
  intros [name [file|]] os Hf W; [|done]. unfold Writable_Append. simpl. apply wp_bind.
  eapply wp_mono; [by apply keeps_wf|]. intros [[file' r] err] os' W'. by apply wp_ret.
Qed.

Lemma keeps_open_Flush : KeepsOpen Writable_Flush.
Proof.
  intros [name [file|]] os Hf W; [|done]. unfold Writable_Flush. simpl. apply wp_bind.
  eapply wp_mono; [by apply keeps_wf|]. intros x os' W'. by apply wp_ret.
Qed.

Lemma keeps_open_Sync : KeepsOpen Writable_Sync.
Proof.
  intros [name [file|]] os Hf W; [|done]. unfold Writable_Sync. simpl. apply wp_bind.
  eapply wp_mono; [by apply keeps_wf|]. intros [x [e|]] os' W'; [by apply wp_ret|]. apply wp_bind.
  eapply wp_mono; [by apply keeps_wf|]. intros y os2 W2. by apply wp_ret.
Qed.

Lemma keeps_Close f os : is_open f -> os_wf os -> wp (Writable_Close f) (fun _ => os_wf) os.
Proof.
  destruct f as [name [file|]]; intros Hf; [|done]. unfold Writable_Close. simpl. revert os. 
  change (KeepsWf (err ← sys_fclose file; mret (mkWritable name None, io_status name err))). keeps.
Qed.

#[export] Instance keeps_read_loop fuel f data : KeepsWf (read_loop fuel f data).
Proof. revert f data. induction fuel as [|fuel IH]; intros f data; simpl; keeps; apply IH. Qed.

#[export] Instance keeps_ReadFileToString fuel fname : KeepsWf (ReadFileToString fuel fname).
Proof. unfold ReadFileToString. keeps. Qed.

#[export] Instance keeps_DoWriteStringToFile data fname b : KeepsWf (DoWriteStringToFile data fname b).
Proof.
  intros os W. unfold DoWriteStringToFile. apply wp_bind.
  unfold NewWritableFile. apply wp_bind. eapply wp_mono; [by apply keeps_wf|].
  intros [e|file] os1 W1; apply wp_ret; [by apply wp_ret|]. apply wp_bind.
  eapply wp_mono; [by apply keeps_open_Append|]. intros [f s] os2 [O2 W2]. simpl. apply wp_bind.
  eapply (wp_mono _ (fun r os => is_open r.1 /\ os_wf os)).
  { case_match; [by apply keeps_open_Sync|by apply wp_ret]. }
  clear. intros [f s] os [O W]. simpl. apply wp_bind.
  eapply (wp_mono _ (fun _ os => os_wf os)).
  { case_match; [by apply keeps_Close|by apply wp_ret]. }
  clear. intros [f s] os. revert os. 
  change (KeepsWf (_ ← Writable_delete f;
    _ ← (if Status_ok s then mret Status_OK else DeleteFile fname); mret s)). keeps.
Qed.

(** Every operation of the file manager and of its file objects keeps the file system
    well-formed (each entry lies in a directory, each regular file has an inode of its own
    with a content), whatever the system answers, and none of them uses a closed stream:
    an open writable file stays open under [Append], [Flush] and [Sync], and the functions
    on whole files close theirs once. *)
Theorem files_stay_wellformed (fname target data : string) (b : bool) (n : nat) (f : PosixSequentialFile) :
  (forall os, os_wf os ->
     let keeps {A} (m : io A) := exists os' a, m os = Some (os', a) /\ os_wf os' in
     keeps (NewSequentialFile fname) /\ keeps (NewRandomAccessFile b fname) /\
     keeps (NewWritableFile fname) /\ keeps (NewAppendableFile fname) /\
     keeps (DeleteFile fname) /\ keeps (CreateDir fname) /\ keeps (DeleteDir fname) /\
     keeps (GetChildren fname b) /\ keeps (RenameFile fname target) /\ keeps (GetFileSize fname) /\
     keeps (FileExists fname) /\ keeps (Sequential_Read n f) /\ keeps (Sequential_Skip (Z.of_nat n) f) /\
     keeps (ReadFileToString n fname) /\ keeps (DoWriteStringToFile data fname b)) /\
  (forall os w, os_wf os -> is_open w ->
     let keeps_open (m : io (PosixWritableFile * Status)) :=
       exists os' w' s, m os = Some (os', (w', s)) /\ os_wf os' /\ is_open w' in
     keeps_open (Writable_Append data w) /\ keeps_open (Writable_Flush w) /\ keeps_open (Writable_Sync w) /\
     exists os' w' s, Writable_Close w os = Some (os', (w', s)) /\ os_wf os').
Proof.
  split.
  - intros os W. cbv zeta. split_and!; by apply keeps_wf.
  - intros os w W O. cbv zeta.
    assert (H : forall m, KeepsOpen m -> exists os' w' s, m w os = Some (os', (w', s)) /\ os_wf os' /\ is_open w').
    { intros m K. destruct (K w os O W) as (os' & [w' s] & E & ? & ?). eauto 10. }
    split_and!; [apply H, keeps_open_Append|apply H, keeps_open_Flush|apply H, keeps_open_Sync|].
    destruct (keeps_Close w os O W) as (os' & [w' s] & E & ?). eauto.
Qed.

End Operations.
