(* ===== verification/FileSpecs.v ===== *)
(** What the operations of the file layer do to the contents of files, for every
    answer of the system: writing and reading whole files, the bounds of reads and
    skips, renaming and removing. *)

From S2P Require Import Prelude Proto Util FileModel Files.

(** * Effects on contents *)

(** Nothing but the path [p] differs. *)
Definition others (p : path) (os os' : OS) : Prop :=
  forall q, q <> p -> content os' q = content os q /\ node_at os' q = node_at os q.

#[global] Instance others_refl p : Reflexive (others p).
Proof. done. Qed.

#[global] Instance others_trans p : Transitive (others p).
Proof.
  intros x y z H1 H2 q Hq. destruct (H1 q Hq) as [E1 N1], (H2 q Hq) as [E2 N2].
  split; [by rewrite E2|by rewrite N2].
Qed.

Lemma same_files_others p os os' : same_files os os' -> others p os os'.
Proof.
  intros H q _. rewrite (content_proper _ _ H q q eq_refl), (node_at_proper _ _ H q q eq_refl). done.
Qed.

Lemma append_spec os p i d s :
  os_wf os -> node_at os p = Some (Reg i) -> content os p = Some d ->
  let os' := os_append i s os in
  os_wf os' /\ node_at os' p = Some (Reg i) /\ content os' p = Some (d +:+ s) /\ others p os os'.
Proof.
  intros W Hn Hc os'. subst os'. split; [by apply keeps_append|].
  assert (Hd : os_data os !! i = Some d) by (unfold content in Hc; by rewrite Hn in Hc).
  split; [done|]. split.
  - unfold content. change (node_at (os_append i s os) p) with (node_at os p). rewrite Hn. simpl.
    by rewrite lookup_insert_eq, Hd.
  - intros q Hq. split; [|done]. unfold content.
    change (node_at (os_append i s os) q) with (node_at os q).
    destruct (node_at os q) as [[|j]|] eqn:Eq; try done. simpl. apply lookup_insert_ne. intros <-.
    apply Hq. apply node_at_reg in Eq as [Eq _], Hn as [Hn _]. by eapply (wf_single _ W).
Qed.

Section Posix.
Context {PX : Posix}.

(** Some call fails for a reason outside the files. *)
Definition faulty : Prop := exists k, a_errno (px_answer k) <> None.

Lemma faulty_now os : a_errno (px_answer (os_calls os)) <> None -> faulty.
Proof. intros H. by exists (os_calls os). Qed.

Lemma Quiet_not_faulty : Quiet -> ~ faulty.
Proof. intros Q [k H]. by rewrite (Q k) in H. Qed.

Lemma IOError_not_ok c e : Status_ok (IOError c e) = false.
Proof. unfold IOError, Status_make. by rewrite decide_False. Qed.

Lemma io_status_ok c e : Status_ok (io_status c e) = true <-> e = None.
Proof. destruct e; unfold io_status; [rewrite IOError_not_ok|]; done. Qed.

(** ** Streams *)

(** A stream [f] writes the file [p]: the file and the buffer together are [total]. *)
Record writing (os0 : OS) (p : path) (total : string) (f : WFILE) (os : OS) : Prop := {
  w_wf : os_wf os;
  w_node : node_at os p = Some (Reg (wr_ino f));
  w_data : exists d, content os p = Some d /\ d +:+ wr_buf f = total;
  w_others : others p os0 os;
}.

Definition cannot_create (os : OS) (p : path) : Prop :=
  node_at os p = Some Dir \/ node_at os p = None /\ node_at os (parent p) <> Some Dir.

Lemma no_parent_Some os p e : no_parent os p = Some e -> node_at os (parent p) <> Some Dir.
Proof. unfold no_parent. intros H E. by rewrite E in H. Qed.

Lemma writing_create os p :
  os_wf os -> node_at os p = None -> node_at os (parent p) = Some Dir ->
  writing os p "" (mkWFILE (os_next os) "")
    (mkOS (<[p := Reg (os_next os)]> (os_names os)) (<[os_next os := ""%string]> (os_data os))
       (S (os_next os)) (os_calls os)).
Proof.
  intros W Hn Hp. pose proof (node_at_None_ne _ _ Hn) as Hne.
  assert (Hat : node_at (mkOS (<[p := Reg (os_next os)]> (os_names os))
    (<[os_next os := ""%string]> (os_data os)) (S (os_next os)) (os_calls os)) p = Some (Reg (os_next os))).
  { rewrite node_at_names by done. simpl. by rewrite lookup_insert_eq. }
  split; [|done| |].
  - apply wf_add; try done; [lia| |].
    + intros i d Hd. rewrite lookup_insert_is_Some. destruct (decide (os_next os = i)); eauto.
    + split; [lia|]. rewrite lookup_insert_eq. eauto.
  - exists ""%string. unfold content. rewrite Hat. simpl. by rewrite lookup_insert_eq.
  - intros q Hq. assert (E : node_at (mkOS (<[p := Reg (os_next os)]> (os_names os))
      (<[os_next os := ""%string]> (os_data os)) (S (os_next os)) (os_calls os)) q = node_at os q).
    { unfold node_at. simpl. by rewrite lookup_insert_ne. }
    unfold content. rewrite E. split; [|done]. destruct (node_at os q) as [[|j]|] eqn:Eq; try done.
    simpl. apply lookup_insert_ne. apply node_at_reg in Eq as [Eq _].
    destruct (wf_inode _ W _ _ Eq). lia.
Qed.

Lemma writing_truncate os p i :
  os_wf os -> node_at os p = Some (Reg i) ->
  writing os p "" (mkWFILE i "") (with_data <[i := ""%string]> os).
Proof.
  intros W Hn. split; [by apply wf_with_data|done| |].
  - exists ""%string. unfold content. change (node_at (with_data _ os) p) with (node_at os p).
    rewrite Hn. simpl. by rewrite lookup_insert_eq.
  - intros q Hq. split; [|done]. unfold content. change (node_at (with_data _ os) q) with (node_at os q).
    destruct (node_at os q) as [[|j]|] eqn:Eq; try done. simpl. apply lookup_insert_ne. intros <-.
    apply Hq. apply node_at_reg in Eq as [Eq _], Hn as [Hn _]. by eapply (wf_single _ W).
Qed.

Lemma writing_start os p total f os' : writing (tick os) p total f os' -> writing os p total f os'.
Proof. intros [W Hn Hd Ho]. by split. Qed.

(** Opening for writing: an empty file with mode "w", the file there is with mode "a". *)
Lemma fopen_w_spec b p os :
  os_wf os ->
  wp (sys_fopen_w b p) (fun x os' =>
    match x with
    | Fails _ => same_files os os' /\ (faulty \/ cannot_create os p)
    | Gives f => writing os p (if b then "" else default "" (content os p))%string f os'
    end) os.
Proof.
  intros W. apply wp_call_or_fail.
  - intros F e. split; [done|]. left. by eapply faulty_now.
  - change (node_at (tick os) p) with (node_at os p).
    pose proof (os_wf_tick _ W) as Wt. destruct (node_at os p) as [[|i]|] eqn:E.
    + split; [done|]. right. by left.
    + destruct b; [by apply writing_start, writing_truncate|].
      destruct (content_reg _ _ _ W E) as (d & Hd & _). rewrite Hd. simpl.
      split; [done|done| |done]. exists d. by rewrite app_string_nil.
    + destruct (no_parent (tick os) p) eqn:P.
      * split; [done|]. right. right. split; [done|]. by apply no_parent_Some in P.
      * apply no_parent_None in P. replace (if b then _ else _) with ""%string.
        -- by apply writing_start, writing_create.
        -- unfold content. rewrite E. by destruct b.
Qed.

Lemma writing_append os0 p total f os s rest :
  writing os0 p total f os -> wr_buf f = s +:+ rest ->
  writing os0 p total (mkWFILE (wr_ino f) rest) (os_append (wr_ino f) s os).
Proof.
  intros [W Hn (d & Hd & Ht) Ho] E.
  destruct (append_spec os p _ d s W Hn Hd) as (W' & Hn' & Hd' & Ho').
  split; [done|done| |by etrans]. exists (d +:+ s). split; [done|]. simpl.
  by rewrite app_string_assoc, <- E.
Qed.

Lemma writing_tick os0 p total f os : writing os0 p total f os -> writing os0 p total f (tick os).
Proof. intros [W Hn Hd Ho]. split; [by apply os_wf_tick|done..]. Qed.

Lemma writing_buffer os0 p total f os s :
  writing os0 p total f os -> writing os0 p (total +:+ s) (mkWFILE (wr_ino f) (wr_buf f +:+ s)) os.
Proof.
  intros [W Hn (d & Hd & Ht) Ho]. split; [done|done| |done]. exists d. split; [done|]. simpl.
  by rewrite <- Ht, app_string_assoc.
Qed.

Lemma fwrite_spec os0 p total data f os :
  writing os0 p total f os ->
  wp (sys_fwrite data f) (fun '(f', r, err) os' =>
    writing os0 p (total +:+ str_take r data) f' os' /\ (r <= String.length data)%nat /\
    (r <> String.length data -> faulty)) os.
Proof.
  intros H. apply wp_call. cbn zeta. apply writing_tick in H.
  destruct (Nat.eqb_spec (String.length data) 0) as [E|E].
  { split; [|split; [lia|done]]. by destruct data; simpl; rewrite app_string_nil. }
  set (a := px_answer (os_calls os)).
  set (r := match a_errno a with Some _ => _ | None => _ end).
  split.
  - apply (writing_buffer _ _ _ _ _ (str_take r data)) in H.
    apply (writing_append _ _ _ _ _ (str_take (a_count a) (wr_buf f +:+ str_take r data))
      (str_skip (a_count a) (wr_buf f +:+ str_take r data))) in H; [done|].
    simpl. by rewrite str_take_skip.
  - subst r. destruct (a_errno a) eqn:Ea; [|lia]. split; [lia|].
    intros _. apply (faulty_now os). fold a. congruence.
Qed.

Lemma flushed_split a f : wr_buf f = flushed a f +:+ unflushed a f.
Proof.
  unfold flushed, unflushed. destruct (a_errno a); [by rewrite str_take_skip|by rewrite app_string_nil].
Qed.

Lemma fflush_spec os0 p total f os :
  writing os0 p total f os ->
  wp (sys_fflush f) (fun '(f', err) os' =>
    writing os0 p total f' os' /\ (err <> None -> faulty)) os.
Proof.
  intros H. apply wp_call. apply writing_tick in H. split; [|apply faulty_now].
  eapply writing_append; [done|]. apply flushed_split.
Qed.

Lemma fclose_spec os0 p total f os :
  writing os0 p total f os ->
  wp (sys_fclose f) (fun err os' =>
    os_wf os' /\ others p os0 os' /\ (err <> None -> faulty) /\
    exists d rest, content os' p = Some d /\ d +:+ rest = total /\ (err = None -> d = total)) os.
Proof.
  intros H. apply wp_call. apply writing_tick in H.
  set (a := px_answer (os_calls os)).
  destruct (writing_append _ _ _ _ _ (flushed a f) (unflushed a f) H (flushed_split a f))
    as [W Hn (d & Hd & Ht) Ho].
  split; [done|]. split; [done|]. split; [apply faulty_now|].
  exists d, (unflushed a f). split; [done|]. split; [done|].
  intros Ea. revert Ht. unfold unflushed. simpl. rewrite Ea. by rewrite app_string_nil.
Qed.

(** ** File objects *)

(** The same on a file object. *)
Definition writing_obj (os0 : OS) (p : path) (total : string) (f : PosixWritableFile) (os : OS) : Prop :=
  exists file, wf_file f = Some file /\ writing os0 p total file os.

Lemma Append_spec os0 p total data f os :
  writing_obj os0 p total f os ->
  wp (Writable_Append data f) (fun '(f', s) os' =>
    if Status_ok s then writing_obj os0 p (total +:+ data) f' os'
    else faulty /\ exists r, writing_obj os0 p (total +:+ str_take r data) f' os') os.
Proof.
  intros (file & Ef & H). unfold Writable_Append. rewrite Ef. apply wp_bind.
  eapply wp_mono; [by apply fwrite_spec|]. intros [[file' r] err] os' (H' & Hr & F).
  apply wp_ret. destruct (Nat.eqb_spec r (String.length data)) as [->|Hne].
  - simpl. rewrite str_take_all in H' by done. by exists file'.
  - rewrite IOError_not_ok. split; [by apply F|]. exists r, file'. done.
Qed.

Lemma Sync_spec os0 p total f os :
  writing_obj os0 p total f os ->
  wp (Writable_Sync f) (fun '(f', s) os' =>
    writing_obj os0 p total f' os' /\ (Status_ok s = false -> faulty)) os.
Proof.
  intros (file & Ef & H). unfold Writable_Sync. rewrite Ef. apply wp_bind.
  eapply wp_mono; [by apply fflush_spec|]. intros [file' [e|]] os' [H' F]; simpl.
  - apply wp_ret. split; [by exists file'|]. intros _. by apply F.
  - apply wp_bind. apply wp_call. apply wp_ret. split; [exists file'; by split; [|apply writing_tick]|].
    intros E. apply (faulty_now os'). intros Ea. by rewrite Ea in E.
Qed.

Lemma Flush_spec os0 p total f os :
  writing_obj os0 p total f os ->
  wp (Writable_Flush f) (fun '(f', s) os' =>
    writing_obj os0 p total f' os' /\ (Status_ok s = false -> faulty)) os.
Proof.
  intros (file & Ef & H). unfold Writable_Flush. rewrite Ef. apply wp_bind.
  eapply wp_mono; [by apply fflush_spec|]. intros [file' e] os' [H' F]. apply wp_ret.
  split; [by exists file'|]. simpl. intros E. apply F. intros ->. done.
Qed.

(** What closing leaves: a prefix of what was written, all of it if there was no error. *)
Definition closed (os0 : OS) (p : path) (total : string) (complete : bool) (os : OS) : Prop :=
  os_wf os /\ others p os0 os /\ (complete = false -> faulty) /\
  exists d rest, content os p = Some d /\ d +:+ rest = total /\ (complete = true -> d = total).

Lemma Close_spec os0 p total f os :
  writing_obj os0 p total f os ->
  wp (Writable_Close f) (fun '(f', s) os' => wf_file f' = None /\ closed os0 p total (Status_ok s) os') os.
Proof.
  intros (file & Ef & H). unfold Writable_Close. rewrite Ef. apply wp_bind.
  eapply wp_mono; [by apply fclose_spec|]. intros err os' (W & Ho & F & d & rest & Hd & Ht & Hc).
  apply wp_ret. split; [done|]. split; [done|]. split; [done|]. split.
  - intros E. apply F. intros ->. done.
  - exists d, rest. split; [done|]. split; [done|]. rewrite io_status_ok. done.
Qed.

(** The destructor hides whether the rest of the buffer was written. *)
Lemma delete_spec os0 p total f os :
  writing_obj os0 p total f os ->
  wp (Writable_delete f) (fun _ os' => exists b, closed os0 p total b os') os.
Proof.
  intros (file & Ef & H). unfold Writable_delete. rewrite Ef. apply wp_bind.
  eapply wp_mono; [by apply fclose_spec|]. intros err os' (W & Ho & F & d & rest & Hd & Ht & Hc).
  apply wp_ret. exists (bool_decide (err = None)). split; [done|]. split; [done|]. split.
  - rewrite bool_decide_eq_false. done.
  - exists d, rest. rewrite bool_decide_eq_true. done.
Qed.

(** * Whole files *)

(** Removing an entry that was written. *)
Lemma remove_written os0 p total b os fname :
  parse_path fname = p -> closed os0 p total b os ->
  wp (DeleteFile fname) (fun s os' =>
    os_wf os' /\ others p os0 os' /\
    (content os' p = None \/ exists d rest, content os' p = Some d /\ d +:+ rest = total)) os.
Proof.
  intros Ep (W & Ho & _ & d & rest & Hd & Ht & _). unfold DeleteFile. rewrite Ep.
  apply wp_bind. apply wp_call_or_fail.
  - intros _ e. apply wp_ret. split; [by apply os_wf_tick|]. split; [done|]. right. by exists d, rest.
  - change (node_at (tick os) p) with (node_at os p).
    unfold content in Hd. destruct (node_at os p) as [[|i]|] eqn:E; try done.
    apply wp_ret. split; [|split].
    + apply wf_remove; [by apply os_wf_tick|]. intros x.
      apply not_dir_no_entry; [by apply os_wf_tick|].
      change (node_at (tick os) p) with (node_at os p). congruence.
    + transitivity os; [done|]. intros q Hq. unfold content, node_at. simpl.
      by rewrite lookup_delete_ne by done.
    + left. apply node_at_reg in E as [_ Hne]. unfold content. rewrite node_at_names by done. simpl.
      by rewrite lookup_delete_eq.
Qed.

(** What a call of [DoWriteStringToFile] leaves. *)
Definition written (os : OS) (p : path) (data : string) (s : Status) (os' : OS) : Prop :=
  os_wf os' /\ others p os os' /\
  if Status_ok s then content os' p = Some data
  else (faulty \/ cannot_create os p) /\
       (same_files os os' \/ content os' p = None \/
        exists d rest, content os' p = Some d /\ d +:+ rest = data).

(** The part after [Append] and [Sync]. *)
Lemma finish_write os p data k f s os1 fname :
  parse_path fname = p -> writing_obj os p (str_take k data) f os1 ->
  (Status_ok s = true -> str_take k data = data) -> (Status_ok s = false -> faulty) ->
  wp (y ← (if Status_ok s then Writable_Close f else mret (f, s));
      _ ← Writable_delete y.1;
      _ ← (if Status_ok y.2 then mret Status_OK else DeleteFile fname);
      mret y.2) (written os p data) os1.
Proof.
  intros Ep H Hall F. apply wp_bind.
  assert (Hprefix : forall d rest, d +:+ rest = str_take k data -> exists rest', d +:+ rest' = data).
  { intros d rest E. exists (rest +:+ str_skip k data). by rewrite <- app_string_assoc, E, str_take_skip. }
  assert (Hdel : forall b s' os2, Status_ok s' = false -> faulty -> closed os p (str_take k data) b os2 ->
    wp (_ ← (if Status_ok s' then mret Status_OK else DeleteFile fname); mret s') (written os p data) os2).
  { intros b s' os2 Es Fa Hc. rewrite Es. apply wp_bind.
    eapply wp_mono; [by eapply remove_written|]. intros s2 os3 (W & Ho & Hr). apply wp_ret.
    split; [done|]. split; [done|]. rewrite Es. split; [by left|].
    right. destruct Hr as [Hr|(d & rest & Hd & Ht)]; [by left|].
    right. destruct (Hprefix _ _ Ht) as [rest' ?]. eauto. }
  destruct (Status_ok s) eqn:Es.
  - eapply wp_mono; [by apply Close_spec|]. intros [f' s'] os2 [Ef Hc]. simpl. apply wp_bind.
    unfold Writable_delete. rewrite Ef. apply wp_ret.
    destruct (Status_ok s') eqn:Es'.
    + destruct Hc as (W & Ho & _ & d & rest & Hd & _ & Hd2).
      apply wp_bind, wp_ret, wp_ret. split; [done|]. split; [done|]. rewrite Es'.
      by rewrite Hd, Hd2, Hall.
    + specialize (Hdel _ _ _ Es' ltac:(by apply Hc) Hc). by rewrite Es' in Hdel.
  - apply wp_ret. simpl. apply wp_bind. eapply wp_mono; [by apply delete_spec|].
    intros _ os2 [b Hc]. by eapply Hdel; [|apply F|].
Qed.

Lemma DoWriteStringToFile_spec data fname sync os :
  os_wf os ->
  wp (DoWriteStringToFile data fname sync) (written os (parse_path fname) data) os.
Proof.
  intros W. set (p := parse_path fname). unfold DoWriteStringToFile, NewWritableFile.
  apply wp_bind, wp_bind. eapply wp_mono; [by apply fopen_w_spec|]. intros [e|file] os1 H; apply wp_ret.
  { destruct H as [H F]. apply wp_ret. split; [by rewrite <- H|].
    split; [by apply same_files_others|]. rewrite IOError_not_ok. by split; [|left]. }
  apply wp_bind. eapply wp_mono; [apply (Append_spec os p ""); by exists file|].
  intros [f s] os2 H2. simpl. apply wp_bind.
  eapply (wp_mono _ (fun '(f, s) os2 => exists k, writing_obj os p (str_take k data) f os2 /\
    (Status_ok s = true -> str_take k data = data) /\ (Status_ok s = false -> faulty))).
  - destruct (Status_ok s) eqn:Es.
    + assert (Hk : writing_obj os p (str_take (String.length data) data) f os2)
        by (by rewrite str_take_all).
      assert (E : str_take (String.length data) data = data) by (by apply str_take_all).
      destruct sync; [|apply wp_ret; exists (String.length data); split_and!; congruence]. simpl.
      eapply wp_mono; [by apply Sync_spec|]. intros [f' s'] os3 [H3 F3]. by exists (String.length data).
    + apply wp_ret. destruct H2 as (F & k & H2). exists k. split_and!; [done|congruence|done].
  - intros [f' s'] os3 (k & Hw & Ha & F). simpl. by eapply finish_write.
Qed.

(** ** Reading *)

(** A stream on inode [i] before the bytes [rest]. *)
Record reading (i : nat) (rest : string) (f : RFILE) (os : OS) : Prop := {
  r_ino : rd_ino f = Some i;
  r_pos : 0 <= rd_pos f;
  r_rest : str_drop (rd_pos f) (default ""%string (os_data os !! i)) = rest;
  r_eof : rd_eof f = true -> rest = ""%string;
}.

Lemma str_drop_take k s : str_drop (Z.of_nat (String.length (str_take k s))) s = str_skip k s.
Proof.
  revert k. induction s as [|c s IH]; intros k; [done|]. destruct k as [|k]; [done|].
  unfold str_take, str_skip in *.
  change (String.substring 0 (S k) (String c s)) with (String c (String.substring 0 k s)).
  cbn [String.length str_drop].
  destruct (Z.leb_spec (Z.of_nat (S (String.length (String.substring 0 k s)))) 0); [lia|].
  destruct (Z.leb_spec (Z.of_nat (S k)) 0); [lia|]. rewrite !Nat2Z.inj_succ, !Z.sub_1_r, !Z.pred_succ.
  apply IH.
Qed.

Lemma reading_advance i rest f os k eof :
  reading i rest f os -> (eof = true -> str_skip k rest = ""%string) ->
  reading i (str_skip k rest)
    (mkRFILE (Some i) (rd_pos f + Z.of_nat (String.length (str_take k rest))) eof) os.
Proof.
  intros [Hi Hp Hr He] H. split; simpl; [done|lia| |done].
  rewrite <- str_drop_drop, Hr by lia. apply str_drop_take.
Qed.

Lemma str_skip_all k s : (String.length s <= k)%nat -> str_skip k s = ""%string.
Proof.
  intros H. pose proof (str_take_skip k s) as E. rewrite str_take_all in E by done.
  apply (f_equal String.length) in E. rewrite length_app_string in E.
  destruct (str_skip k s); [done|]. simpl in E. lia.
Qed.

Lemma fread_spec n i rest f os :
  reading i rest f os ->
  wp (sys_fread n f) (fun '(f', got, err) os' =>
    same_files os os' /\ exists rest', reading i rest' f' os' /\ rest = got +:+ rest' /\
      ((String.length got < n)%nat -> if rd_eof f' then rest' = ""%string else faulty)) os.
Proof.
  intros H. apply wp_call. destruct (rd_eof f) eqn:Ee.
  { split; [done|]. pose proof (r_eof _ _ _ _ H Ee) as ->. exists ""%string.
    split; [by destruct H; split|]. by rewrite Ee. }
  rewrite (r_ino _ _ _ _ H). cbn zeta. change (os_data (tick os)) with (os_data os).
  rewrite (r_rest _ _ _ _ H). split; [done|].
  assert (Ht : reading i rest f (tick os)) by (by destruct H; split).
  destruct (a_errno (px_answer (os_calls os))) as [e|] eqn:Ea.
  - exists (str_skip (Nat.min (a_count (px_answer (os_calls os))) (n - 1)) rest).
    split; [by apply reading_advance|]. split; [by rewrite str_take_skip|].
    intros _. simpl. apply (faulty_now os). congruence.
  - exists (str_skip n rest).
    assert (Hs : (String.length (str_take n rest) < n)%nat -> str_skip n rest = ""%string).
    { rewrite length_str_take. intros ?. apply str_skip_all. lia. }
    split; [apply reading_advance; [done|]; by intros ?%Nat.ltb_lt%Hs|].
    split; [by rewrite str_take_skip|]. intros Hl. cbn [rd_eof].
    rewrite (proj2 (Nat.ltb_lt _ _) Hl). by apply Hs.
Qed.

Lemma Read_spec n i rest f os :
  reading i rest (sq_file f) os ->
  wp (Sequential_Read n f) (fun '(f', s, got) os' =>
    same_files os os' /\ exists rest', reading i rest' (sq_file f') os' /\ rest = got +:+ rest' /\
      if Status_ok s then (String.length got < n)%nat -> rest' = ""%string else faulty) os.
Proof.
  intros H. unfold Sequential_Read. apply wp_bind. eapply wp_mono; [by apply fread_spec|].
  intros [[f' got] err] os' (Hs & rest' & Hr & E & Hshort). apply wp_ret. split; [done|].
  exists rest'. split; [done|]. split; [done|].
  destruct (Nat.ltb_spec (String.length got) n) as [Hl|Hl]; [|simpl; lia].
  specialize (Hshort Hl). destruct (rd_eof f'); [by simpl|]. by rewrite IOError_not_ok.
Qed.

(** The number of reads that are enough. *)
Definition reads (rest : string) : nat := (String.length rest / kFileBufferSize + 2)%nat.

Lemma kFileBufferSize_pos : (0 < kFileBufferSize)%nat.
Proof. unfold kFileBufferSize. lia. Qed.

Lemma reads_next got rest :
  (kFileBufferSize <= String.length got)%nat -> (S (reads rest) <= reads (got +:+ rest))%nat.
Proof.
  intros H. unfold reads. rewrite length_app_string. pose proof kFileBufferSize_pos.
  assert (S (String.length rest / kFileBufferSize) = (String.length rest + 1 * kFileBufferSize) / kFileBufferSize)%nat
    as E by (rewrite Nat.div_add; lia).
  assert ((String.length rest + 1 * kFileBufferSize) / kFileBufferSize <=
    (String.length got + String.length rest) / kFileBufferSize)%nat
    by (apply Nat.Div0.div_le_mono; lia). lia.
Qed.

Lemma read_loop_spec fuel i rest f data os :
  reading i rest (sq_file f) os ->
  ((if decide (rest = ""%string) then 1 else reads rest) <= fuel)%nat ->
  wp (read_loop fuel f data) (fun '(f', s, d) os' =>
    same_files os os' /\ if Status_ok s then d = data +:+ rest else faulty) os.
Proof.
  revert rest f data os. induction fuel as [|fuel IH]; intros rest f data os H Hfuel.
  { case_decide; [lia|]. unfold reads in Hfuel. lia. }
  cbn [read_loop]. apply wp_bind. eapply wp_mono; [by apply Read_spec|].
  intros [[f' s] got] os' (Hs & rest' & Hr & -> & Hshort).
  destruct (Status_ok s) eqn:Es; [|apply wp_ret; by rewrite Es].
  pose proof kFileBufferSize_pos as Hk.
  destruct (decide (got = ""%string)) as [->|Hg].
  { apply wp_ret. rewrite Es. split; [done|]. by rewrite Hshort by (simpl; lia). }
  eapply wp_mono; [apply (IH rest'); [done|]|].
  - rewrite decide_False in Hfuel by (destruct got; done).
    case_decide as Hr'; [unfold reads in Hfuel; lia|].
    destruct (decide (String.length got < kFileBufferSize)%nat) as [Hl|Hl]; [by destruct Hr'; apply Hshort|].
    pose proof (reads_next got rest' ltac:(lia)). lia.
  - intros [[f2 s2] d] os2 [Hs2 Hd]. split; [by etrans|]. by rewrite <- app_string_assoc.
Qed.

(** What [ReadFileToString] returns. *)
Definition read_back (os : OS) (p : path) (r : Status * string) (os' : OS) : Prop :=
  same_files os os' /\
  if Status_ok r.1 then content os p = Some r.2 else faulty \/ content os p = None.

Lemma ReadFileToString_spec fuel fname os :
  os_wf os -> (reads (default "" (content os (parse_path fname))) <= fuel)%nat ->
  wp (ReadFileToString fuel fname) (read_back os (parse_path fname)) os.
Proof.
  intros W Hfuel. set (p := parse_path fname) in *. unfold ReadFileToString, NewSequentialFile. fold p.
  apply wp_bind, wp_bind. apply wp_call_or_fail.
  { intros F e. apply wp_ret, wp_ret. split; [done|]. cbn [fst]. rewrite IOError_not_ok.
    left. by eapply faulty_now. }
  change (node_at (tick os) p) with (node_at os p). destruct (node_at os p) as [[|i]|] eqn:E; apply wp_ret.
  - (* a directory opens; the first read fails *)
    apply wp_bind. destruct fuel as [|fuel]; [unfold reads in Hfuel; lia|].
    cbn [opened read_loop]. apply wp_bind. apply wp_bind, wp_call. cbn [sq_file rd_eof rd_ino].
    assert (kFileBufferSize <> 0)%nat as Hk by (pose proof kFileBufferSize_pos; lia).
    apply wp_ret. cbn [String.length]. rewrite (proj2 (Nat.ltb_lt _ _) kFileBufferSize_pos).
    cbn [rd_eof]. rewrite IOError_not_ok.
    apply wp_ret. apply wp_bind, wp_call, wp_ret. split; [done|]. cbn [fst]. rewrite IOError_not_ok.
    right. unfold content. by rewrite E.
  - destruct (content_reg _ _ _ W E) as (c & Hc & Hi). rewrite Hc in Hfuel. simpl in Hfuel.
    apply wp_bind. eapply wp_mono.
    { apply (read_loop_spec fuel i c).
      - split; simpl; try done. rewrite Hi. by apply str_drop_0.
      - case_decide; [|done]. unfold reads in Hfuel. lia. }
    intros [[f s] d] os' [Hs Hd]. apply wp_bind, wp_call, wp_ret. split; [done|]. simpl.
    destruct (Status_ok s); [by rewrite Hd|by left].
  - apply wp_ret. split; [done|]. cbn [fst]. rewrite IOError_not_ok. right. unfold content. by rewrite E.
Qed.

(** ** Writing and reading back *)

Lemma reads_mono a b : (String.length a <= String.length b)%nat -> (reads a <= reads b)%nat.
Proof. intros H. unfold reads. apply Nat.add_le_mono_r, Nat.Div0.div_le_mono, H. Qed.

(** Whatever a write leaves is not longer than the new or the old content. *)
Lemma written_reads os p data s os' fuel :
  written os p data s os' ->
  (reads data <= fuel)%nat -> (reads (default "" (content os p)) <= fuel)%nat ->
  (reads (default "" (content os' p)) <= fuel)%nat.
Proof.
  intros (_ & _ & H) Hd Ho. destruct (Status_ok s); [by rewrite H|].
  destruct H as (_ & [H|[H|(d & rest & H & E)]]).
  - by rewrite <- (content_proper _ _ H p p eq_refl).
  - rewrite H. etrans; [|exact Hd]. apply reads_mono. simpl. lia.
  - rewrite H. etrans; [|exact Hd]. apply reads_mono. simpl. rewrite <- E, length_app_string. lia.
Qed.

(** (C24) Writing a string to a file and reading the file back, for every answer of the
    system to every call (errors included) and with or without [Sync]: both calls end;
    if both report success the string read is the string written; no other file changes;
    and when no call fails and the path can be created both do report success. *)
Theorem file_roundtrip (data fname : string) (sync : bool) (fuel : nat) (os : OS) :
  os_wf os ->
  (reads data <= fuel)%nat -> (reads (default "" (content os (parse_path fname))) <= fuel)%nat ->
  exists os1 s os2 s' d,
    DoWriteStringToFile data fname sync os = Some (os1, s) /\
    ReadFileToString fuel fname os1 = Some (os2, (s', d)) /\
    (Status_ok s = true -> Status_ok s' = true -> d = data) /\
    (forall q, q <> parse_path fname -> content os2 q = content os q) /\
    (~ faulty -> ~ cannot_create os (parse_path fname) ->
     Status_ok s = true /\ Status_ok s' = true).
Proof.
  intros W Hd Ho.
  destruct (DoWriteStringToFile_spec data fname sync os W) as (os1 & s & E1 & H1).
  pose proof (written_reads _ _ _ _ _ _ H1 Hd Ho) as Hf.
  destruct H1 as (W1 & Ho1 & H1).
  destruct (ReadFileToString_spec fuel fname os1 W1 Hf) as (os2 & [s' d] & E2 & Hs & H2).
  exists os1, s, os2, s', d. split; [done|]. split; [done|]. cbn [fst snd] in H2. split_and!.
  - intros Es Es'. rewrite Es in H1. rewrite Es' in H2. congruence.
  - intros q Hq. rewrite <- (content_proper _ _ Hs q q eq_refl). by apply Ho1.
  - intros Q C. destruct (Status_ok s); [|naive_solver]. split; [done|].
    destruct (Status_ok s'); [done|]. destruct H2 as [?|H2]; [done|congruence].
Qed.

(** (C25) A write that reports an error has changed no other file, and left at its path what
    was there (the file could not be opened), nothing, or a beginning of the data (the
    file could not be removed either); the old content is lost in the last two cases.  An
    error has a cause: a failing call or a path that cannot be created. *)
Theorem failed_write (data fname : string) (sync : bool) (os os' : OS) (s : Status) :
  os_wf os -> DoWriteStringToFile data fname sync os = Some (os', s) -> Status_ok s = false ->
  (forall q, q <> parse_path fname -> content os' q = content os q) /\
  (content os' (parse_path fname) = content os (parse_path fname) \/
   content os' (parse_path fname) = None \/
   exists d rest, content os' (parse_path fname) = Some d /\ d +:+ rest = data) /\
  (faulty \/ cannot_create os (parse_path fname)).
Proof.
  intros W E Es. pose proof (wp_run _ _ _ _ _ (DoWriteStringToFile_spec data fname sync os W) E) as H.
  destruct H as (_ & Ho & H). rewrite Es in H. destruct H as [F H]. split_and!; [|..|done].
  - intros q Hq. by apply Ho.
  - destruct H as [H|H]; [left; by rewrite (content_proper _ _ H _ _ eq_refl)|by right].
Qed.

(** * Bounds of reads and skips *)

Lemma length_str_drop n s : 0 <= n -> Z.of_nat (String.length (str_drop n s)) = Z.max 0 (Z.of_nat (String.length s) - n).
Proof.
  revert n. induction s as [|c s IH]; intros n Hn; [simpl; lia|]. cbn [str_drop].
  destruct (Z.leb_spec n 0); [cbn [String.length]; lia|]. rewrite IH by lia. cbn [String.length]. lia.
Qed.

(** [Read] of a mapped file: the slice it returns with an OK status lies inside the mapped
    bytes exactly when [offset + n] is below 2^64; the guard [offset + n > length_]
    wraps, so a larger offset passes it and the slice points outside the mapping. *)
Theorem Mmap_Read_bounds (filename region : string) (offset : Z) (n : nat) :
  in_u64 offset -> Z.of_nat (String.length region) < 2 ^ 64 -> Z.of_nat n < 2 ^ 64 ->
  let '(s, slice) := Mmap_Read filename region (Z.of_nat (String.length region)) offset n in
  Status_ok s = true -> (slice_ok slice <-> offset + Z.of_nat n < 2 ^ 64).
Proof.
  intros Ho Hr Hn. unfold Mmap_Read.
  destruct (Z.ltb_spec (Z.of_nat (String.length region)) (offset +64 Z.of_nat n)) as [H|H];
    [by rewrite IOError_not_ok|]. intros _.
  unfold slice_ok. simpl. pose proof (length_str_drop offset region ltac:(unfold in_u64 in Ho; lia)).
  unfold in_u64 in Ho. unfold add64, wrap64 in H. split; intros Hs.
  - destruct (Z.lt_ge_cases (offset + Z.of_nat n) (2 ^ 64)) as [?|Hge]; [done|].
    assert (offset <= Z.of_nat (String.length region)) by lia.
    replace (offset + Z.of_nat n) with (offset + Z.of_nat n - 2 ^ 64 + 1 * 2 ^ 64) in H by lia.
    rewrite Z.mod_add, Z.mod_small in H by lia. lia.
  - rewrite Z.mod_small in H by lia. lia.
Qed.

End Posix.
