(* ===== verification/CheckpointFileModel.v ===== *)
(** Model of the checkpoint directories of a group on the file system: the paths of
    [paxos/config.cc] and [machine/machine_manager.cc], the preparation, installation
    and removal of checkpoint directories there, the files of
    [machine/state_machine.cc] and what [log/checkpoint_receiver.cc] and
    [log/checkpoint_sender.cc] do with files.

    The operations run in the monad [io] of [FileModel]; [None] is there also an
    exception that is not caught. *)

From S2P Require Import Prelude Proto Util Storage NodeState System Simulation MachinesModel CheckpointModel.
From S2P Require Import FileModel.
From Stdlib Require Import Ascii.

(** * Paths *)

(** The members of [Config] that name directories. *)
Record ConfigPaths := mkConfigPaths {
  log_storage_path_ : string;
  log_path_ : string;
  checkpoint_path_ : string;
  temp_checkpoint_path_ : string;
}.

Fixpoint last_char (s : string) : option ascii :=
  match s with
  | EmptyString => None
  | String c EmptyString => Some c
  | String _ s => last_char s
  end.

(** [snprintf] into [char name[8]]: at most seven characters. *)
Definition group_name (path : string) (group_id : Z) : option string :=
  match last_char path with
  | None => None                     (* log_storage_path_[size() - 1] of the empty string *)
  | Some c =>
      Some (str_take 7 ((if decide (c = "/"%char) then "g" else "/g") +:+ pretty group_id))
  end.

(** The directories the constructor of [Config] derives from the options. *)
Definition Config_paths (path : string) (group_id : Z) : option ConfigPaths :=
  name ← group_name path group_id;
  let storage := path +:+ name in
  let checkpoint := storage +:+ "/checkpoint" in
  Some (mkConfigPaths storage (storage +:+ "/log") checkpoint (checkpoint +:+ "/tempcheckpoint")).

Definition GetCheckpointPath (c : ConfigPaths) (instance_id : Z) : string :=
  checkpoint_path_ c +:+ "/" +:+ ("checkpoint-" +:+ pretty instance_id).
Definition GetMachineCheckpointPath (c : ConfigPaths) (instance_id machine_id : Z) : string :=
  GetCheckpointPath c instance_id +:+ "/" +:+ ("m" +:+ pretty machine_id).
Definition GetTempCheckpointPath (c : ConfigPaths) : string := temp_checkpoint_path_ c.
Definition GetMachineTempPath (c : ConfigPaths) (machine_id : Z) : string :=
  temp_checkpoint_path_ c +:+ "/" +:+ ("m" +:+ pretty machine_id).

(** * [std::stoull] *)

Definition is_space (c : ascii) : bool :=
  let n := nat_of_ascii c in (n =? 32)%nat || ((9 <=? n) && (n <=? 13))%nat.
Definition digit (c : ascii) : option Z :=
  let n := Z.of_nat (nat_of_ascii c) in if (48 <=? n) && (n <=? 57) then Some (n - 48) else None.

(** The number the leading digits make, and how many there are. *)
Fixpoint digits (s : string) (acc : Z) (count : nat) : Z * nat :=
  match s with
  | EmptyString => (acc, count)
  | String c s' =>
      match digit c with
      | Some d => digits s' (acc * 10 + d) (S count)
      | None => (acc, count)
      end
  end.

Fixpoint skip_space (s : string) : string :=
  match s with
  | String c s' => if is_space c then skip_space s' else s
  | EmptyString => s
  end.

(** [None]: [std::invalid_argument] or [std::out_of_range]. *)
Definition stoull (s : string) : option Z :=
  let s := skip_space s in
  let '(neg, s) :=
    match s with
    | String "-" s' => (true, s')
    | String "+" s' => (false, s')
    | _ => (false, s)
    end in
  match digits s 0 0 with
  | (_, O) => None
  | (n, S _) => if u64_max <? n then None else Some (if neg then wrap64 (- n) else n)
  end.

(** The text after the first "-". *)
Fixpoint after_dash (s : string) : option string :=
  match s with
  | EmptyString => None
  | String c s => if decide (c = "-"%char) then Some s else after_dash s
  end.

(** The loop over the entries; [None]: an exception leaves the function. *)
Fixpoint checkpoint_ids (dirs : list string) : option (list Z) :=
  match dirs with
  | [] => Some []
  | dir :: dirs =>
      match after_dash dir with
      | None => checkpoint_ids dirs
      | Some s => id ← stoull s; ids ← checkpoint_ids dirs; Some (id :: ids)
      end
  end.

(** * Checkpoint directories *)

Section Directories.
Context {PX : Posix}.

(** The loop over the files of one machine; [false] when [DeleteFile] failed and the loop
    was left. *)
Fixpoint delete_files (d : string) (files : list string) : io bool :=
  match files with
  | [] => mret true
  | file :: files =>
      del ← DeleteFile (d +:+ "/" +:+ file);
      if Status_ok del then delete_files d files else mret false
  end.

(** The loop over the directories of the machines. *)
Fixpoint delete_temp_dirs (path : string) (dirs : list string) (res : bool) : io bool :=
  match dirs with
  | [] => mret res
  | dir :: dirs =>
      let d := path +:+ "/" +:+ dir in
      x ← GetChildren d true;
      ok ← delete_files d x.2;
      _ ← DeleteDir d;
      delete_temp_dirs path dirs (res && ok)
  end.

Definition DeleteTempCheckpoint (c : ConfigPaths) : io bool :=
  x ← GetChildren (temp_checkpoint_path_ c) false;
  res ← delete_temp_dirs (temp_checkpoint_path_ c) x.2 true;
  found ← FileExists (temp_checkpoint_path_ c);
  _ ← (if found : bool then mret Status_OK else CreateDir (temp_checkpoint_path_ c));
  mret res.

(** The files and directories of one checkpoint in [CleanCheckpoint]; here a failure to
    delete a file does not end the loop. *)
Fixpoint clean_files (d : string) (files : list string) : io unit :=
  match files with
  | [] => mret tt
  | file :: files => _ ← DeleteFile (d +:+ "/" +:+ file); clean_files d files
  end.

Fixpoint clean_dirs (path : string) (dirs : list string) : io unit :=
  match dirs with
  | [] => mret tt
  | dir :: dirs =>
      let d := path +:+ "/" +:+ dir in
      x ← GetChildren d true;
      _ ← clean_files d x.2;
      _ ← DeleteDir d;
      clean_dirs path dirs
  end.

Definition clean_one (c : ConfigPaths) (id : Z) : io unit :=
  let path := GetCheckpointPath c id in
  x ← GetChildren path false;
  _ ← clean_dirs path x.2;
  status ← DeleteDir path;
  _ ← (if Status_ok status then mret Status_OK
       else RenameFile path (checkpoint_path_ c +:+ "/deletedcheckpoint"));
  mret tt.

(** The ids of the checkpoints that are deleted, in order. *)
Fixpoint clean_all (c : ConfigPaths) (ids : list Z) : io unit :=
  match ids with
  | [] => mret tt
  | id :: ids => _ ← clean_one c id; clean_all c ids
  end.

(** [CleanCheckpoint] between its lock and its unlock: [checkpoints_] and
    [oldest_checkpoint_instance_id_] afterwards. *)
Definition clean_checkpoint_files (c : ConfigPaths) (keep : nat) : io (list Z * Z) :=
  x ← GetChildren (checkpoint_path_ c) false;
  match checkpoint_ids x.2 with
  | None => fun _ => None
  | Some found =>
      let '(l, oldest, deleted) := clean_checkpoints px_past_end keep found in
      _ ← clean_all c deleted;
      mret (l, oldest)
  end.

(** [MachineManager::UpdateCheckpoint]. *)
Definition update_checkpoint_files (c : ConfigPaths) (instance_id : Z) : io bool :=
  status ← RenameFile (GetTempCheckpointPath c) (GetCheckpointPath c instance_id);
  mret (Status_ok status).

(** [Config::Recover] before the database is opened. *)
Definition Config_prepare (c : ConfigPaths) : io bool :=
  _ ← CreateDir (log_storage_path_ c);
  _ ← CreateDir (checkpoint_path_ c);
  _ ← CreateDir (temp_checkpoint_path_ c);
  a ← FileExists (checkpoint_path_ c);
  if negb a then mret false else FileExists (temp_checkpoint_path_ c).

(** * Files of the internal machines *)

Section MachineFiles.
Context {FC : FixedCoding} {CR : Crc32c} {A : Type} {PC : ProtoCodec A}.

Definition StateMachine_WriteCheckpoint (group_id instance_id : Z) (fname : string) (message : A) : io bool :=
  s ← WriteStringToFileSync (WriteCheckpoint group_id instance_id message) fname;
  mret (Status_ok s).

Definition StateMachine_ReadCheckpoint (fuel : nat) (group_id instance_id : Z) (fname : string)
  : io (bool * option A) :=
  x ← ReadFileToString fuel fname;
  mret (ReadCheckpoint group_id instance_id (if Status_ok x.1 then Some x.2 else None)).

End MachineFiles.

(** * The receiver *)

Record FileReceiver := mkFileReceiver {
  fr_sender_node_id : Z;
  fr_sequence_id : Z;
  fr_dirs : gset Z;
}.

Section Receiver.
Variable c : ConfigPaths.

(** The directory of a machine is made once per transfer. *)
Definition ensure_dir (machine_id : Z) (r : FileReceiver) : io (FileReceiver * bool) :=
  if decide (machine_id ∈ fr_dirs r) then mret (r, true)
  else
    let dir := GetMachineTempPath c machine_id in
    _ ← CreateDir dir;
    exits ← FileExists dir;
    mret (if exits : bool then
            (mkFileReceiver (fr_sender_node_id r) (fr_sequence_id r) ({[machine_id]} ∪ fr_dirs r), true)
          else (r, false)).

(** Appends the data to a file of the temporary checkpoint; the file is closed by its
    destructor. *)
Definition append_fragment (fname data : string) : io bool :=
  x ← NewAppendableFile fname;
  match x with
  | (_, None) => mret false
  | (_, Some file) =>
      y ← Writable_Append data file;
      _ ← Writable_delete y.1;
      mret (Status_ok y.2)
  end.

Definition file_ReceiveFiles (msg : CheckpointMessage) (r : FileReceiver) : io (FileReceiver * bool) :=
  if negb (cm_node_id msg =? fr_sender_node_id r) then mret (r, false)
  else if cm_sequence_id msg =? fr_sequence_id r then mret (r, true)
  else if negb (cm_sequence_id msg =? fr_sequence_id r + 1) then mret (r, false)
  else
    x ← ensure_dir (cm_machine_id msg) r;
    let '(r, ok) := x in
    if negb ok then mret (r, false)
    else
      s ← append_fragment (GetMachineTempPath c (cm_machine_id msg) +:+ "/" +:+ cm_file msg) (cm_data msg);
      mret (if s : bool then (mkFileReceiver (fr_sender_node_id r) (fr_sequence_id r + 1) (fr_dirs r), true)
            else (r, false)).

(** The flag that is confirmed and the state [ComfirmReceive] leaves. *)
Definition file_Comfirm (msg : CheckpointMessage) (x : FileReceiver * bool) : FileReceiver * bool :=
  let '(r, res) := x in
  if negb res && (cm_node_id msg =? fr_sender_node_id r) then (mkFileReceiver 0 0 ∅, res) else (r, res).

Definition file_BeginToReceive (msg : CheckpointMessage) : io (FileReceiver * bool) :=
  res ← DeleteTempCheckpoint c;
  mret (file_Comfirm msg (mkFileReceiver (cm_node_id msg) 0 ∅, res)).

Definition file_ReceiveCheckpoint (msg : CheckpointMessage) (r : FileReceiver) : io (FileReceiver * bool) :=
  x ← file_ReceiveFiles msg r; mret (file_Comfirm msg x).

(** [true]: the checkpoint was installed and the process exits. *)
Definition file_EndToReceive (msg : CheckpointMessage) (r : FileReceiver) : io bool :=
  if negb (cm_node_id msg =? fr_sender_node_id r) then mret false
  else if negb (cm_sequence_id msg =? fr_sequence_id r + 1) then mret false
  else update_checkpoint_files c (cm_instance_id msg).

(** The messages of a transfer as they arrive; the result is the instance of the
    checkpoint that was installed, after which the process exits. *)
Fixpoint file_installed (ms : list CheckpointMessage) (r : FileReceiver) : io (option Z) :=
  match ms with
  | [] => mret None
  | m :: ms =>
      match cm_type m with
      | CHECKPOINT_BEGIN => x ← file_BeginToReceive m; file_installed ms x.1
      | CHECKPOINT_FILE => x ← file_ReceiveCheckpoint m r; file_installed ms x.1
      | CHECKPOINT_END =>
          b ← file_EndToReceive m r;
          if b : bool then mret (Some (cm_instance_id m)) else file_installed ms r
      | CHECKPOINT_COMFIRM | CheckpointMessageType_unknown _ => file_installed ms r
      end
  end.

End Receiver.
End Directories.
