(* ===== verification/CheckpointFiles.v ===== *)
(** The checkpoint directories of [CheckpointFileModel]: removing and installing
    checkpoints, and the receiver of a checkpoint on the file system as an
    implementation of the receiver of [CheckpointModel]. *)

From S2P Require Import Prelude Proto Util Storage NodeState System Simulation MachinesModel CheckpointModel.
From S2P Require Import FileModel Files FileSpecs CheckpointFileModel Checkpoints.
From Stdlib Require Import Ascii.

(** * Names *)

(** A name that is one component of a path. *)
Definition plain (x : string) : Prop := parse_path x = [x] /\ x <> "."%string /\ x <> ".."%string.

Lemma plain_join a x : plain x -> parse_path (a +:+ "/" +:+ x) = parse_path a ++ [x].
Proof. intros [H _]. by rewrite parse_path_join, H. Qed.

(** Printed numbers have no slash. *)
Definition no_slash (s : string) : Prop := (split_slash s).2 = [].

Lemma no_slash_cons c s : no_slash (String c s) <-> c <> "/"%char /\ no_slash s.
Proof.
  unfold no_slash. cbn [split_slash]. destruct (split_slash s) as [x l]. case_decide; simpl; naive_solver.
Qed.

Lemma no_slash_app a b : no_slash a -> no_slash b -> no_slash (a +:+ b).
Proof.
  induction a as [|c a IH]; [done|]. intros [Hc Ha]%no_slash_cons Hb.
  change (String c a +:+ b) with (String c (a +:+ b)). apply no_slash_cons. auto.
Qed.

Lemma no_slash_pretty (z : Z) : no_slash (pretty z).
Proof.
  assert (Hgo : forall x s, no_slash s -> no_slash (pretty_N_go x s)).
  { intros x. induction (N.lt_wf_0 x) as [x _ IH]; intros s Hs.
    assert (x = 0 \/ 0 < x)%N as [->|?] by lia; [by rewrite pretty_N_go_0|].
    rewrite pretty_N_go_step by done. apply IH; [by apply N.div_lt|].
    apply no_slash_cons. split; [|done]. unfold pretty_N_char. by repeat case_match. }
  assert (HN : forall n : N, no_slash (pretty n)).
  { intros n. unfold pretty, pretty_N. case_decide; [done|]. by apply Hgo. }
  destruct z; [done|apply HN|]. change (no_slash ("-" +:+ pretty (Npos p))). by apply no_slash_app.
Qed.

(** A letter and a number are a plain name. *)
Lemma plain_letter c s :
  c <> "/"%char -> c <> "."%char -> no_slash s -> plain (String c s).
Proof.
  intros H1 H2 Hs. split_and!; [|congruence..]. apply parse_path_name.
  - by apply no_slash_cons.
  - unfold is_component. by rewrite !bool_decide_eq_false_2 by congruence.
Qed.

Definition mname (id : Z) : string := "m" +:+ pretty id.
Definition cname (id : Z) : string := "checkpoint-" +:+ pretty id.

Lemma mname_plain id : plain (mname id).
Proof. apply plain_letter; [done..|]. apply no_slash_pretty. Qed.

Lemma cname_plain id : plain (cname id).
Proof.
  apply plain_letter; [done..|]. apply (no_slash_app "heckpoint-"); [done|]. apply no_slash_pretty.
Qed.

Lemma mname_inj id id' : mname id = mname id' -> id = id'.
Proof. intros [= H]. by apply (inj pretty). Qed.

Lemma cname_inj id id' : cname id = cname id' -> id = id'.
Proof. intros [= H]. by apply (inj pretty). Qed.

(** ** Numbers that are printed and parsed *)

Lemma digit_char x : (x < 10)%N -> digit (pretty_N_char x) = Some (Z.of_N x).
Proof.
  intros H. assert (x = 0 \/ x = 1 \/ x = 2 \/ x = 3 \/ x = 4 \/ x = 5 \/ x = 6 \/ x = 7 \/ x = 8 \/ x = 9)%N
    as Hx by lia. naive_solver.
Qed.

Lemma digits_printed x s acc count :
  exists k, digits (pretty_N_go x s) acc count = digits s (acc * 10 ^ Z.of_nat k + Z.of_N x) (count + k)%nat /\
    (k = 0%nat -> x = 0%N).
Proof.
  revert s acc count. induction (N.lt_wf_0 x) as [x _ IH]; intros s acc count.
  assert (x = 0 \/ 0 < x)%N as [->|Hx] by lia.
  { exists 0%nat. rewrite pretty_N_go_0, Nat.add_0_r. split; [|done]. f_equal. simpl. lia. }
  rewrite pretty_N_go_step by done.
  destruct (IH (x `div` 10)%N ltac:(by apply N.div_lt) (String (pretty_N_char (x `mod` 10)) s) acc count)
    as (k & -> & _).
  exists (S k). split; [|done]. cbn [digits]. rewrite digit_char by (by apply N.mod_lt).
  rewrite Nat.add_succ_r. f_equal. rewrite Nat2Z.inj_succ, Z.pow_succ_r by lia.
  rewrite (N.div_mod x 10) at 3 by done. rewrite N2Z.inj_add, N2Z.inj_mul. lia.
Qed.

(** The head of a printed natural number is a digit. *)
Lemma printed_head x s :
  (0 < x)%N -> exists y s', (y < 10)%N /\ pretty_N_go x s = String (pretty_N_char y) s'.
Proof.
  revert s. induction (N.lt_wf_0 x) as [x _ IH]; intros s Hx. rewrite pretty_N_go_step by done.
  destruct (decide (x `div` 10 = 0)%N) as [E|E].
  - rewrite E, pretty_N_go_0. exists (x `mod` 10)%N, s. split; [by apply N.mod_lt|done].
  - apply IH; [by apply N.div_lt|by apply N.neq_0_lt_0].
Qed.

(** [std::to_string] and [std::stoull]. *)
Lemma stoull_to_string z : in_u64 z -> stoull (pretty z) = Some z.
Proof.
  intros Hz. unfold in_u64 in Hz. destruct z as [|p|p]; [done| |lia].
  change (pretty (Zpos p)) with (pretty_N_go (Npos p) "").
  destruct (digits_printed (Npos p) "" 0 0) as (k & Hd & Hk).
  destruct (printed_head (Npos p) "" ltac:(lia)) as (y & s' & Hy & E).
  assert (Hsp : is_space (pretty_N_char y) = false /\ pretty_N_char y <> "-"%char /\ pretty_N_char y <> "+"%char).
  { assert (y = 0 \/ y = 1 \/ y = 2 \/ y = 3 \/ y = 4 \/ y = 5 \/ y = 6 \/ y = 7 \/ y = 8 \/ y = 9)%N
      as Hy' by lia. naive_solver. }
  destruct Hsp as (Hsp & H1 & H2).
  unfold stoull. rewrite E in *. cbn [skip_space]. rewrite Hsp.
  assert (Hm : forall T (a b : string -> T) (c : T),
    match String (pretty_N_char y) s' with String "-" s'' => a s'' | String "+" s'' => b s'' | _ => c end = c).
  { intros. destruct (pretty_N_char y) as [[] [] [] [] [] [] [] []]; done. }
  rewrite Hm, Hd. cbn [digits]. destruct k as [|k]; [by specialize (Hk eq_refl)|].
  rewrite Z.mul_0_l, Z.add_0_l. cbn [Nat.add Z.of_N].
  destruct (Z.ltb_spec u64_max (Z.pos p)); [unfold u64_max in *; lia|done].
Qed.

(** * Erasing *)

(** The entries in [S] are gone and nothing else changed. *)
Record erased (S : path -> Prop) (os os' : OS) : Prop := {
  er_data : os_data os' = os_data os;
  er_next : os_next os' = os_next os;
  er_gone : forall k, S k -> os_names os' !! k = None;
  er_kept : forall k, ~ S k -> os_names os' !! k = os_names os !! k;
}.

Lemma erased_nothing os os' : same_files os os' -> erased (fun _ => False) os os'.
Proof. intros (E1 & E2 & E3). split; try done. intros k _. by rewrite E1. Qed.

Lemma erased_trans S T os os1 os2 :
  (forall k, Decision (T k)) -> erased S os os1 -> erased T os1 os2 -> erased (fun k => S k \/ T k) os os2.
Proof.
  intros Hdec [D1 N1 G1 K1] [D2 N2 G2 K2]. split; [congruence..| |].
  - intros k [HS|HT]; [|by apply G2]. destruct (decide (T k)); [by apply G2|].
    rewrite K2 by done. by apply G1.
  - intros k H. rewrite K2, K1; naive_solver.
Qed.

Lemma erased_iff S T os os' : (forall k, S k <-> T k) -> erased S os os' -> erased T os os'.
Proof. intros H [D N G K]. split; try done; intros k Hk; [apply G|apply K]; by rewrite H. Qed.

Lemma erased_one os q : erased (eq q) os (with_names (delete q) os).
Proof.
  split; try done.
  - intros k <-. apply lookup_delete_eq.
  - intros k H. by apply lookup_delete_ne.
Qed.

Lemma erased_content S os os' k : erased S os os' -> ~ S k -> content os' k = content os k.
Proof. intros [D N G K] H. unfold content, node_at. by rewrite K, D by done. Qed.

Lemma erased_node S os os' k : erased S os os' -> ~ S k -> node_at os' k = node_at os k.
Proof. intros [D N G K] H. unfold node_at. by rewrite K by done. Qed.

(** * Removing the directories of a checkpoint *)

Section Quiet.
Context {PX : Posix} {PL : PosixLaws} {Q : Quiet}.

Lemma wp_quiet {A} (f : OS -> OS * outcome A) (R : outcome A -> OS -> Prop) os :
  (let '(os', x) := f (tick os) in R x os') -> wp (call_or_fail f) R os.
Proof. intros H. apply wp_call_or_fail; [|done]. by rewrite quiet. Qed.

Lemma DeleteFile_quiet fname os i :
  node_at os (parse_path fname) = Some (Reg i) ->
  wp (DeleteFile fname) (fun s os' => Status_ok s = true /\ erased (eq (parse_path fname)) os os') os.
Proof.
  intros H. unfold DeleteFile. apply wp_bind, wp_quiet.
  change (node_at (tick os)) with (node_at os). rewrite H. apply wp_ret. split; [done|].
  destruct (erased_one os (parse_path fname)). by split.
Qed.

Lemma DeleteDir_quiet dir os :
  parse_path dir <> [] -> node_at os (parse_path dir) = Some Dir ->
  (forall x, os_names os !! (parse_path dir ++ [x]) = None) ->
  wp (DeleteDir dir) (fun s os' => Status_ok s = true /\ erased (eq (parse_path dir)) os os') os.
Proof.
  intros Hne H He. unfold DeleteDir. apply wp_bind, wp_quiet.
  change (node_at (tick os)) with (node_at os). rewrite decide_False, H by done.
  rewrite decide_True by (by apply no_children). apply wp_ret. split; [done|].
  destruct (erased_one os (parse_path dir)). by split.
Qed.

(** The names [GetChildren] gives. *)
Definition entry_names (b : bool) (os : OS) (p : path) : list string :=
  (filter (fun e => keep_entry b e = true) (("."%string, Dir) :: (".."%string, Dir) :: children os p)).*1.

Lemma GetChildren_quiet dir b os :
  node_at os (parse_path dir) = Some Dir ->
  wp (GetChildren dir b) (fun '(s, l) os' =>
    same_files os os' /\ Status_ok s = true /\ l ≡ₚ entry_names b os (parse_path dir)) os.
Proof.
  intros H. unfold GetChildren. apply wp_bind, wp_quiet.
  change (node_at (tick os)) with (node_at os). rewrite H. apply wp_bind, wp_call.
  rewrite quiet. apply wp_bind, wp_call, wp_ret. split; [done|]. split; [done|].
  change (children (tick (tick os))) with (children os).
  apply fmap_Permutation. by rewrite px_order_perm.
Qed.

Lemma children_NoDup os p : NoDup (children os p).*1.
Proof.
  unfold children. pose proof (NoDup_fst_map_to_list (os_names os)) as H.
  induction (map_to_list (os_names os)) as [|[k n] l IH]; [constructor|].
  apply NoDup_cons in H as [Hk H]. specialize (IH H). simpl.
  destruct (child_name p k) as [x|] eqn:E; [|done]. simpl. constructor; [|done].
  intros ([y m] & Hy & Hin)%list_elem_of_fmap. simpl in Hy. subst y.
  apply list_elem_of_omap in Hin as ([k' n'] & Hin & E'). simpl in E'.
  destruct (child_name p k') eqn:E2; [|done]. simplify_eq/=.
  apply child_name_spec in E, E2. subst. apply Hk. apply list_elem_of_fmap. by eexists (_, _).
Qed.

(** A directory that holds only files with plain names. *)
Definition file_dir (os : OS) (q : path) : Prop :=
  q <> [] /\ os_names os !! q = Some Dir /\
  forall r n, os_names os !! (q ++ r) = Some n -> r = [] \/ exists f i, r = [f] /\ n = Reg i /\ plain f.

Lemma file_dir_names (Hd : px_dtype = true) os q x :
  file_dir os q -> x ∈ entry_names true os q <-> plain x /\ exists i, os_names os !! (q ++ [x]) = Some (Reg i).
Proof.
  intros (Hne & Hq & Hall). unfold entry_names. rewrite list_elem_of_fmap. split.
  - intros ([y n] & -> & [Hk Hin]%list_elem_of_filter). simpl. unfold keep_entry in Hk.
    rewrite Hd in Hk. simpl in Hk. destruct n as [|i]; [done|].
    rewrite !elem_of_cons in Hin. destruct Hin as [|[|Hin]]; [done..|].
    apply child_elem in Hin. destruct (Hall _ _ Hin) as [?|(f & j & Ef & _ & Hp)]; [done|].
    injection Ef as ->. eauto.
  - intros (Hp & i & Hi). exists (x, Reg i). split; [done|]. apply list_elem_of_filter.
    unfold keep_entry. rewrite Hd. split; [done|]. right; right. by apply child_elem.
Qed.

Lemma dir_names os q x :
  x ∈ entry_names false os q <->
  x <> "."%string /\ x <> ".."%string /\ exists n, os_names os !! (q ++ [x]) = Some n.
Proof.
  unfold entry_names. rewrite list_elem_of_fmap. split.
  - intros ([y n] & -> & [Hk Hin]%list_elem_of_filter). simpl in *. unfold keep_entry in Hk. simpl in Hk.
    apply andb_prop in Hk as [H1%negb_true_iff%bool_decide_eq_false H2%negb_true_iff%bool_decide_eq_false].
    split; [done|]. split; [done|]. exists n. apply child_elem.
    rewrite !elem_of_cons in Hin. naive_solver.
  - intros (H1 & H2 & n & Hn). exists (x, n). split; [done|]. apply list_elem_of_filter.
    unfold keep_entry. simpl. rewrite !bool_decide_eq_false_2 by done.
    split; [done|]. right; right. by apply child_elem.
Qed.

Lemma entry_names_NoDup b os q : NoDup (entry_names b os q).
Proof.
  unfold entry_names.
  rewrite !filter_cons_False by (unfold keep_entry; destruct b; simpl; rewrite ?andb_false_r; done).
  pose proof (children_NoDup os q) as H.
  induction (children os q) as [|[x n] l IH]; [constructor|].
  apply NoDup_cons in H as [Hx H]. specialize (IH H). rewrite filter_cons. case_decide; [|done].
  simpl. constructor; [|done]. intros ([y m] & E & [_ Hin]%list_elem_of_filter)%list_elem_of_fmap.
  apply Hx. apply list_elem_of_fmap. by exists (y, m).
Qed.

(** The entries [files] of a directory. *)
Definition entries (q : path) (files : list string) (k : path) : Prop := k ∈ (fun f => q ++ [f]) <$> files.

#[local] Instance entries_dec q files k : Decision (entries q files k).
Proof. unfold entries. apply _. Defined.

(** Files that are there and can be deleted. *)
Definition deletable (os : OS) (q : path) (files : list string) : Prop :=
  NoDup files /\ forall f, f ∈ files -> plain f /\ exists i, os_names os !! (q ++ [f]) = Some (Reg i).

Lemma deletable_next os os1 q f files :
  deletable os q (f :: files) -> erased (eq (q ++ [f])) os os1 -> deletable os1 q files.
Proof.
  intros [[Hf Hnd]%NoDup_cons H] He. split; [done|]. intros g Hg.
  destruct (H g) as (Hp & i & Hi); [by right|]. split; [done|]. exists i.
  rewrite (er_kept _ _ _ He); [done|]. intros E. apply app_inj_2 in E as [_ [= ->]]; done.
Qed.

(** One round of both loops over files. *)
Lemma delete_round d f files os {A} (m : io A) (R : A -> Prop) :
  deletable os (parse_path d) (f :: files) ->
  (forall os1, deletable os1 (parse_path d) files ->
     wp m (fun a os' => R a /\ erased (entries (parse_path d) files) os1 os') os1) ->
  wp (DeleteFile (d +:+ "/" +:+ f)) (fun s os1 => Status_ok s = true /\
    wp m (fun a os' => R a /\ erased (entries (parse_path d) (f :: files)) os os') os1) os.
Proof.
  intros H Hm. destruct (proj2 H f) as (Hp & i & Hi); [by left|].
  pose proof (plain_join d f Hp) as E.
  eapply wp_mono.
  { apply (DeleteFile_quiet _ _ i). rewrite E, node_at_names; [done|]. by intros [_ ?]%app_nil. }
  rewrite E. intros s os1 [Hs He]. split; [done|].
  eapply wp_mono; [by eapply Hm, deletable_next|]. intros a os' [Ha He']. split; [done|].
  refine (erased_iff _ _ _ _ _ (erased_trans _ (entries (parse_path d) files) _ _ _ _ He He')).
  intros k. unfold entries. rewrite fmap_cons, elem_of_cons. naive_solver.
Qed.

Lemma delete_files_spec d files os :
  deletable os (parse_path d) files ->
  wp (delete_files d files) (fun b os' => b = true /\ erased (entries (parse_path d) files) os os') os.
Proof.
  revert os. induction files as [|f files IH]; intros os H.
  { apply wp_ret. split; [done|]. eapply erased_iff; [|by apply erased_nothing].
    intros k. unfold entries. simpl. by rewrite elem_of_nil. }
  simpl. apply wp_bind. eapply wp_mono; [by apply (delete_round d f files os (delete_files d files) (fun b => b = true))|]. cbn beta.
  intros s os1 [-> Hw]. exact Hw.
Qed.

Lemma clean_files_spec d files os :
  deletable os (parse_path d) files ->
  wp (clean_files d files) (fun _ os' => True /\ erased (entries (parse_path d) files) os os') os.
Proof.
  revert os. induction files as [|f files IH]; intros os H.
  { apply wp_ret. split; [done|]. eapply erased_iff; [|by apply erased_nothing].
    intros k. unfold entries. simpl. by rewrite elem_of_nil. }
  simpl. apply wp_bind. eapply wp_mono; [by apply (delete_round d f files os (clean_files d files) (fun _ => True))|].
  cbn beta. by intros s os1 [_ Hw].
Qed.

(** One round of both loops over directories: [loop] deletes the files. *)
Lemma remove_dir_round (Hd : px_dtype = true) d os {A} (loop : list string -> io A) (R : A -> Prop) :
  file_dir os (parse_path d) ->
  (forall files os1, deletable os1 (parse_path d) files ->
     wp (loop files) (fun a os' => R a /\ erased (entries (parse_path d) files) os1 os') os1) ->
  wp (x ← GetChildren d true; a ← loop x.2; _ ← DeleteDir d; mret a)
    (fun a os' => R a /\ erased (fun k => parse_path d `prefix_of` k) os os') os.
Proof.
  intros Hf Hloop. pose proof Hf as (Hne & Hq & Hall). set (q := parse_path d) in *.
  apply wp_bind. eapply wp_mono; [apply GetChildren_quiet; by rewrite node_at_names|].
  intros [s l] os1 (Hs & _ & Hl). simpl. apply wp_bind.
  assert (Hin : forall x, x ∈ l <-> plain x /\ exists i, os_names os !! (q ++ [x]) = Some (Reg i)).
  { intros x. rewrite Hl. by apply file_dir_names. }
  pose proof Hs as (En & _ & _).
  eapply wp_mono; [apply Hloop; split|].
  { rewrite Hl. apply entry_names_NoDup. }
  { intros f [Hp [i Hi]]%Hin. split; [done|]. exists i. by rewrite En. }
  intros a os2 [Ha He]. apply wp_bind.
  assert (Hgone : forall r, r <> [] -> os_names os2 !! (q ++ r) = None).
  { intros r Hr. destruct (decide (entries q l (q ++ r))) as [H|H]; [by apply (er_gone _ _ _ He)|].
    rewrite (er_kept _ _ _ He), En by done. apply eq_None_not_Some. intros [n Hn].
    destruct (Hall _ _ Hn) as [?|(f & i & -> & -> & Hp)]; [done|]. apply H. unfold entries.
    apply list_elem_of_fmap. exists f. split; [done|]. apply Hin. eauto. }
  assert (Hkept : forall k, ~ q `prefix_of` k -> ~ entries q l k).
  { intros k Hk (f & -> & _)%list_elem_of_fmap. apply Hk. by exists [f]. }
  eapply wp_mono; [apply DeleteDir_quiet; [done| |]|].
  - rewrite node_at_names by done. fold q. rewrite (er_kept _ _ _ He), En; [done|].
    intros (f & E & _)%list_elem_of_fmap. apply (f_equal length) in E. rewrite length_app in E.
    simpl in E. lia.
  - intros x. by apply Hgone.
  - intros s3 os3 [_ He3]. fold q in He3. apply wp_ret. split; [done|]. destruct Hs as (_ & Ed & Enx).
    split.
    + rewrite (er_data _ _ _ He3), (er_data _ _ _ He). done.
    + rewrite (er_next _ _ _ He3), (er_next _ _ _ He). done.
    + intros k [r ->]. destruct (decide (r = [])) as [->|Hr].
      * rewrite app_nil_r. by apply (er_gone _ _ _ He3).
      * rewrite (er_kept _ _ _ He3); [by apply Hgone|]. intros E.
        rewrite <- (app_nil_r q) in E at 1. by apply app_inv_head in E.
    + intros k Hk. rewrite (er_kept _ _ _ He3), (er_kept _ _ _ He), En; [done|by apply Hkept|].
      intros ->. by apply Hk.
Qed.

(** The round inside its loop. *)
Lemma wp_round {A B C D} (g : io A) (l : A -> io B) (d : io C) (k : B -> io D) R os :
  wp (x ← g; a ← l x; _ ← d; mret a) (fun a => wp (k a) R) os ->
  wp (x ← g; a ← l x; _ ← d; k a) R os.
Proof.
  intros (os' & a & E & H). unfold wp, mbind, io_bind in *. destruct (g os) as [[o1 x]|]; [|done].
  destruct (l x o1) as [[o2 b]|]; [|done]. destruct (d o2) as [[o3 c]|]; [|done].
  unfold mret, io_ret in E. simplify_eq. exact H.
Qed.

(** The directories of the machines in a checkpoint. *)
Definition machine_dirs (os : OS) (p : path) (dirs : list string) : Prop :=
  NoDup dirs /\ forall d, d ∈ dirs -> plain d /\ file_dir os (p ++ [d]).

Definition below_any (p : path) (dirs : list string) (k : path) : Prop :=
  Exists (fun d => (p ++ [d]) `prefix_of` k) dirs.

Lemma prefix_snoc_inj p (d d' : string) r : (p ++ [d]) `prefix_of` (p ++ [d'] ++ r) -> d = d'.
Proof. intros [z E]. rewrite <- app_assoc in E. apply app_inv_head in E. by injection E as ->. Qed.

Lemma machine_dirs_next os os1 p d dirs :
  machine_dirs os p (d :: dirs) -> erased (fun k => (p ++ [d]) `prefix_of` k) os os1 ->
  machine_dirs os1 p dirs.
Proof.
  intros [[Hd Hnd]%NoDup_cons H] He. split; [done|]. intros g Hg.
  destruct (H g) as (Hp & Hne & Hq & Hall); [by right|]. split; [done|].
  assert (Hk : forall r, os_names os1 !! ((p ++ [g]) ++ r) = os_names os !! ((p ++ [g]) ++ r)).
  { intros r. apply (er_kept _ _ _ He). rewrite <- app_assoc. intros ->%prefix_snoc_inj. done. }
  split; [done|]. split.
  - specialize (Hk []). by rewrite app_nil_r, Hq in Hk.
  - intros r n. rewrite Hk. apply Hall.
Qed.

Lemma erased_more p d dirs os os1 os2 :
  erased (fun k => (p ++ [d]) `prefix_of` k) os os1 -> erased (below_any p dirs) os1 os2 ->
  erased (below_any p (d :: dirs)) os os2.
Proof.
  intros H1 H2. refine (erased_iff _ _ _ _ _ (erased_trans _ (below_any p dirs) _ _ _ _ H1 H2)).
  intros k. unfold below_any. by rewrite Exists_cons.
Qed.

Lemma delete_temp_dirs_spec (Hd : px_dtype = true) path dirs os :
  machine_dirs os (parse_path path) dirs ->
  wp (delete_temp_dirs path dirs true)
    (fun b os' => b = true /\ erased (below_any (parse_path path) dirs) os os') os.
Proof.
  revert os. induction dirs as [|d dirs IH]; intros os H.
  { apply wp_ret. split; [done|]. eapply erased_iff; [|by apply erased_nothing].
    intros k. unfold below_any. by rewrite Exists_nil. }
  destruct (proj2 H d) as [Hp Hf]; [by left|]. pose proof (plain_join path d Hp) as E.
  cbn [delete_temp_dirs]. apply wp_round. eapply wp_mono.
  { apply (remove_dir_round Hd _ _ _ (fun b => b = true)); [by rewrite E|].
    intros files os1. apply delete_files_spec. }
  rewrite E. intros b os1 [-> He]. simpl. eapply wp_mono; [by eapply IH, machine_dirs_next|].
  intros b os2 [-> He2]. split; [done|]. by eapply erased_more.
Qed.

Lemma clean_dirs_spec (Hd : px_dtype = true) path dirs os :
  machine_dirs os (parse_path path) dirs ->
  wp (clean_dirs path dirs) (fun _ os' => erased (below_any (parse_path path) dirs) os os') os.
Proof.
  revert os. induction dirs as [|d dirs IH]; intros os H.
  { apply wp_ret. eapply erased_iff; [|by apply erased_nothing].
    intros k. unfold below_any. by rewrite Exists_nil. }
  destruct (proj2 H d) as [Hp Hf]; [by left|]. pose proof (plain_join path d Hp) as E.
  cbn [clean_dirs]. apply wp_round. eapply wp_mono.
  { apply (remove_dir_round Hd _ _ _ (fun _ => True)); [by rewrite E|].
    intros files os1. apply clean_files_spec. }
  rewrite E. intros b os1 [_ He]. simpl. eapply wp_mono; [by eapply IH, machine_dirs_next|].
  intros b2 os2 He2. by eapply erased_more.
Qed.

(** A checkpoint directory: directories of machines that hold files. *)
Definition checkpoint_tree (os : OS) (p : path) : Prop :=
  node_at os p = Some Dir /\ p <> [] /\
  forall d n, os_names os !! (p ++ [d]) = Some n -> plain d /\ file_dir os (p ++ [d]).

Lemma tree_dirs os p dirs :
  checkpoint_tree os p -> dirs ≡ₚ entry_names false os p -> machine_dirs os p dirs.
Proof.
  intros (_ & _ & H) E. split; [rewrite E; apply entry_names_NoDup|].
  intros d. rewrite E. intros (_ & _ & n & Hn)%dir_names. eauto.
Qed.

(** Below a tree there is nothing but its entries. *)
Lemma tree_below os p dirs k :
  os_wf os -> checkpoint_tree os p -> dirs ≡ₚ entry_names false os p ->
  p `prefix_of` k -> k <> p -> os_names os !! k <> None -> below_any p dirs k.
Proof.
  intros W (Hp & Hne & H) E [r ->] Hk Hn. destruct r as [|d r]; [by rewrite app_nil_r in Hk|].
  unfold below_any. apply Exists_exists. exists d. split; [|by exists r; rewrite <- app_assoc].
  rewrite E. apply dir_names.
  assert (exists n, os_names os !! (p ++ [d]) = Some n) as [n Hd].
  { destruct (os_names os !! (p ++ [d])) as [n|] eqn:E2; [eauto|].
    exfalso. apply Hn. replace (p ++ d :: r) with ((p ++ [d]) ++ r) by by rewrite <- app_assoc.
    destruct (decide (r = [])) as [->|Hr]; [by rewrite app_nil_r|].
    apply nothing_below; [done| |done]. intros x. apply not_dir_no_entry; [done|].
    rewrite node_at_names; [congruence|]. by intros [_ ?]%app_nil. }
  destruct (H d n Hd) as [(_ & ? & ?) _]. eauto.
Qed.

(** * Preparing and removing checkpoints *)

Lemma FileExists_quiet fname os :
  wp (FileExists fname) (fun b os' => same_files os os' /\ (b = true <-> node_at os (parse_path fname) <> None)) os.
Proof.
  apply wp_call. split; [done|]. rewrite quiet.
  change (node_at (tick os)) with (node_at os). apply bool_decide_eq_true.
Qed.

Lemma CreateDir_quiet dir os :
  node_at os (parse_path dir) = None -> node_at os (parent (parse_path dir)) = Some Dir ->
  wp (CreateDir dir) (fun s os' => Status_ok s = true /\
    os_names os' = <[parse_path dir := Dir]> (os_names os) /\ os_data os' = os_data os /\
    os_next os' = os_next os) os.
Proof.
  intros H Hp. unfold CreateDir. apply wp_bind, wp_quiet.
  change (node_at (tick os)) with (node_at os). rewrite H.
  assert (E : no_parent (tick os) (parse_path dir) = None).
  { unfold no_parent. change (node_at (tick os)) with (node_at os). by rewrite Hp. }
  rewrite E. by apply wp_ret.
Qed.

(** What [DeleteTempCheckpoint] must leave: an empty directory at [p], and everything
    outside it as it was. *)
Record emptied (p : path) (os os' : OS) : Prop := {
  em_dir : node_at os' p = Some Dir;
  em_below : forall r, r <> [] -> os_names os' !! (p ++ r) = None;
  em_outside : forall k, ~ p `prefix_of` k -> node_at os' k = node_at os k /\ content os' k = content os k;
}.

(** [loop] over the entries of a tree leaves nothing below it. *)
Lemma tree_entries path os {A} (loop : list string -> io A) (R : A -> Prop) :
  os_wf os -> checkpoint_tree os (parse_path path) ->
  (forall dirs os1, machine_dirs os1 (parse_path path) dirs ->
     wp (loop dirs) (fun a os' => R a /\ erased (below_any (parse_path path) dirs) os1 os') os1) ->
  wp (x ← GetChildren path false; loop x.2) (fun a os' =>
    R a /\ erased (fun k => parse_path path `prefix_of` k /\ k <> parse_path path) os os') os.
Proof.
  intros W T Hloop. set (p := parse_path path) in *. apply wp_bind.
  eapply wp_mono; [apply GetChildren_quiet, T|]. intros [s l] os1 (Hs & _ & Hl). simpl.
  pose proof Hs as (En & Ed & Ex).
  eapply wp_mono; [apply Hloop|].
  { pose proof (tree_dirs _ _ _ T Hl) as [Hnd H]. split; [done|]. intros d Hin.
    destruct (H d Hin) as (Hp & Hf). split; [done|]. unfold file_dir in *. by rewrite En. }
  intros b os2 [Hb He]. split; [done|]. split.
  - by rewrite (er_data _ _ _ He).
  - by rewrite (er_next _ _ _ He).
  - intros k [Hk Hne]. destruct (decide (below_any p l k)) as [Hb'|Hb']; [by apply (er_gone _ _ _ He)|].
    rewrite (er_kept _ _ _ He), En by done. destruct (os_names os !! k) eqn:E; [|done].
    destruct Hb'. by apply (tree_below os); [..|rewrite E].
  - intros k Hk. rewrite (er_kept _ _ _ He), En; [done|].
    intros (d & _ & Hd')%Exists_exists. apply Hk. destruct Hd' as [r ->]. rewrite <- app_assoc.
    split; [by eexists|]. intros E. rewrite <- (app_nil_r p) in E at 2. by apply app_inv_head in E.
Qed.

Lemma tree_emptied p os os' :
  p <> [] -> node_at os p = Some Dir ->
  erased (fun k => p `prefix_of` k /\ k <> p) os os' -> emptied p os os'.
Proof.
  intros Hne Hp He. split.
  - rewrite (erased_node _ _ _ _ He); [done|naive_solver].
  - intros r Hr. apply (er_gone _ _ _ He). split; [by eexists|].
    intros E. rewrite <- (app_nil_r p) in E at 2. by apply app_inv_head in E.
  - intros k Hk. rewrite (erased_node _ _ _ _ He), (erased_content _ _ _ _ He); naive_solver.
Qed.

Lemma created_emptied p os os' :
  os_wf os -> node_at os p = None ->
  os_names os' = <[p := Dir]> (os_names os) -> os_data os' = os_data os -> emptied p os os'.
Proof.
  intros W Hp En Ed. pose proof (node_at_None_ne _ _ Hp) as Hne. split.
  - rewrite node_at_names, En by done. by rewrite lookup_insert_eq.
  - intros r Hr. rewrite En, lookup_insert_ne.
    + apply nothing_below; [done| |done]. intros x. apply not_dir_no_entry; [done|congruence].
    + intros E. rewrite <- (app_nil_r p) in E at 1. by apply app_inv_head in E.
  - intros k Hk. assert (E : node_at os' k = node_at os k).
    { unfold node_at. case_decide; [done|]. rewrite En, lookup_insert_ne; [done|]. by intros ->. }
    split; [done|]. unfold content. by rewrite E, Ed.
Qed.

Lemma wp_assoc {A B C} (g : io A) (f : A -> io B) (k : B -> io C) R os :
  wp (x ← g; f x) (fun b => wp (k b) R) os -> wp (x ← g; b ← f x; k b) R os.
Proof.
  intros (os' & b & E & H). unfold wp, mbind, io_bind in *. destruct (g os) as [[o1 x]|]; [|done].
  by rewrite E.
Qed.

Lemma DeleteTempCheckpoint_quiet (Hd : px_dtype = true) c os :
  let p := parse_path (temp_checkpoint_path_ c) in
  os_wf os ->
  checkpoint_tree os p \/ node_at os p = None /\ node_at os (parent p) = Some Dir ->
  wp (DeleteTempCheckpoint c) (fun b os' => b = true /\ emptied p os os') os.
Proof.
  intros p W H. unfold DeleteTempCheckpoint. destruct H as [T|[Hn Hp]].
  - pose proof T as (Hdir & Hne & _).
    apply wp_assoc. eapply wp_mono.
    { apply (tree_entries _ _ (fun l => delete_temp_dirs (temp_checkpoint_path_ c) l true) (fun b => b = true) W T). intros dirs os1. by apply delete_temp_dirs_spec. }
    intros b os1 [-> He%tree_emptied]; [|done..]. apply wp_bind.
    eapply wp_mono; [apply FileExists_quiet|]. intros found os2 [Hs Hf].
    rewrite (proj2 Hf) by (rewrite (em_dir _ _ _ He); done).
    apply wp_bind, wp_ret, wp_ret. split; [done|]. destruct He as [E1 E2 E3], Hs as (En & Ed & _).
    split; unfold content, node_at in *; by rewrite ?En, ?Ed.
  - unfold GetChildren. apply wp_bind, wp_bind, wp_quiet.
    change (node_at (tick os)) with (node_at os). fold p. rewrite Hn. apply wp_ret, wp_bind, wp_ret, wp_bind.
    eapply wp_mono; [apply FileExists_quiet|]. intros found os2 [Hs Hf].
    destruct found; [by destruct (proj1 Hf eq_refl)|]. apply wp_bind.
    pose proof Hs as (En & Ed & _).
    eapply wp_mono; [apply CreateDir_quiet|].
    { fold p. unfold node_at in *. by rewrite En. }
    { fold p. unfold node_at in *. by rewrite En. }
    intros s os3 (_ & En3 & Ed3 & _). apply wp_ret. split; [done|].
    apply created_emptied; [done|done|rewrite En3, En|rewrite Ed3, Ed]; done.
Qed.

(** * Installing a checkpoint *)

Lemma RenameFile_quiet src target os n :
  let p := parse_path src in let q := parse_path target in
  node_at os p = Some n -> p <> [] -> q <> [] -> apart p q ->
  node_at os q = None -> node_at os (parent q) = Some Dir ->
  wp (RenameFile src target) (fun s os' => Status_ok s = true /\
    os_data os' = os_data os /\
    forall k, node_at os' k = if decide (k = p) then None else node_at os (swap_paths p q k)) os.
Proof.
  intros p q Hp Hnp Hnq A Hq Hd. unfold RenameFile. apply wp_bind, wp_quiet. fold p q.
  change (node_at (tick os)) with (node_at os). rewrite Hp.
  rewrite decide_False by naive_solver. rewrite decide_False by (intros E; apply A; by rewrite E).
  rewrite decide_False by (rewrite (proj2 (strip_None p q)) by apply A; by intros ?).
  rewrite decide_False by (rewrite (proj2 (strip_None q p)) by apply A; by intros ?).
  assert (E1 : no_parent (tick os) q = None).
  { unfold no_parent. change (node_at (tick os)) with (node_at os). by rewrite Hd. }
  assert (E2 : no_replace (tick os) n q = None).
  { unfold no_replace. change (node_at (tick os)) with (node_at os). rewrite Hq. by destruct n. }
  rewrite E1, E2. apply wp_ret. split; [done|]. split; [done|]. intros k.
  change (node_at (renamed p q (tick os)) k = if decide (k = p) then None else node_at (tick os) (swap_paths p q k)).
  by apply node_at_renamed.
Qed.

End Quiet.
