(* ===== verification/ReceiverFiles.v ===== *)
(** The receiver of a checkpoint on the file system implements the receiver of
    [CheckpointModel]: while no call fails, every message has the same effect and the
    installed directory mirrors the files the abstract receiver collected.  When closing
    a file fails, a fragment is confirmed that the file does not hold. *)

From S2P Require Import Prelude Proto Util Storage NodeState System Simulation MachinesModel CheckpointModel.
From S2P Require Import FileModel Files FileSpecs CheckpointFileModel Checkpoints CheckpointFiles.

Section Quiet.
Context {PX : Posix} {PL : PosixLaws} {Q : Quiet}.
Hypothesis Hd : px_dtype = true.
Variable c : ConfigPaths.

Notation temp := (parse_path (temp_checkpoint_path_ c)).

Lemma not_faulty : ~ faulty.
Proof. by apply Quiet_not_faulty. Qed.

(** What appending a fragment does. *)
Lemma append_fragment_quiet fname data os :
  os_wf os -> ~ cannot_create os (parse_path fname) ->
  wp (append_fragment fname data) (fun b os' =>
    b = true /\ os_wf os' /\ others (parse_path fname) os os' /\
    (exists i, node_at os' (parse_path fname) = Some (Reg i)) /\
    content os' (parse_path fname) = Some (default "" (content os (parse_path fname)) +:+ data)) os.
Proof.
  intros W Hc. unfold append_fragment, NewAppendableFile. apply wp_bind, wp_bind.
  eapply wp_mono; [by apply fopen_w_spec|]. intros [e|file] os1 H; apply wp_ret.
  { destruct H as [_ [?|?]]; [by destruct not_faulty|done]. }
  apply wp_bind. eapply wp_mono; [eapply Append_spec; by exists file|].
  intros [f s] os2 H2. simpl. destruct (Status_ok s) eqn:Es; [|by destruct H2 as [? _]; destruct not_faulty].
  apply wp_bind. eapply wp_mono; [by apply delete_spec|].
  intros _ os3 (b & W3 & Ho & F & d & rest & Hcd & _ & Hall). apply wp_ret.
  destruct b; [|by destruct not_faulty; apply F].
  split; [done|]. split; [done|]. split; [done|]. split; [|by rewrite Hcd, Hall].
  unfold content in Hcd. destruct (node_at os3 _) as [[|i]|]; eauto; done.
Qed.

(** * The relation *)

Variable os0 : OS.

(** Nothing outside the temporary directory has changed since [os0]. *)
Definition outside (os : OS) : Prop :=
  forall k, ~ temp `prefix_of` k -> node_at os k = node_at os0 k /\ content os k = content os0 k.

(** The file operations of a fragment stay inside. *)
Lemma outside_others p os os' : temp `prefix_of` p -> others p os os' -> outside os -> outside os'.
Proof.
  intros Hp Ho H k Hk. destruct (Ho k) as [E1 E2]; [by intros ->|]. rewrite E1, E2. by apply H.
Qed.

Record mirrors (r : Receiver) (fr : FileReceiver) (os : OS) : Prop := {
  h_wf : os_wf os;
  h_state : fr = mkFileReceiver (sender_node_id r) (rcv_sequence_id r) (dirs_ r);
  h_temp : node_at os temp = Some Dir;
  h_ne : temp <> [];
  h_below : forall s n, os_names os !! (temp ++ s) = Some n -> s <> [] ->
    exists id, s = [mname id] /\ n = Dir \/ exists f i, s = [mname id; f] /\ n = Reg i /\ plain f;
  h_dirs : forall id, id ∈ dirs_ r -> node_at os (temp ++ [mname id]) = Some Dir;
  h_files : forall id f, content os (temp ++ [mname id; f]) = rcv_temp r !! (id, f);
  h_out : outside os;
}.

Lemma mirrors_tree r fr os : mirrors r fr os -> checkpoint_tree os temp.
Proof.
  intros H. split; [apply H|]. split; [apply H|]. intros d n Hn.
  destruct (h_below _ _ _ H [d] n Hn ltac:(done)) as [id [[[= ->] ->]|(f & i & [=] & _)]].
  split; [apply mname_plain|]. split; [by intros [_ ?]%app_nil|]. split; [done|].
  intros s m. rewrite <- app_assoc. intros Hm.
  destruct (h_below _ _ _ H ([mname id] ++ s) m Hm ltac:(done)) as [id' [[[= _ ->] _]|(f & i & [= _ ->] & -> & ?)]];
    [by left|right; eauto].
Qed.

Lemma temp_snoc_ne x : temp ++ [x] <> [].
Proof. by intros [_ ?]%app_nil. Qed.

(** An answer of the abstract file system that fits. *)
Definition quiet_env (group node : Z) (free : Z -> bool) : RecvEnv :=
  mkRecvEnv group node (fun _ => true) (fun _ => true) (fun _ => None) free.

Lemma mname_cons_inj (p : path) id l id' l' :
  p ++ mname id :: l = p ++ mname id' :: l' -> id = id' /\ l = l'.
Proof.
  intros E%app_inv_head. split; [|by apply (f_equal tail) in E].
  apply (f_equal (List.hd ""%string)) in E. by apply mname_inj.
Qed.

Lemma others_names p os os' k :
  others p os os' -> k <> p -> k <> [] -> os_names os' !! k = os_names os !! k.
Proof. intros H Hk Hne. rewrite <- !node_at_names by done. by apply H. Qed.

(** The directory of a machine appears. *)
Lemma mirrors_dir id r fr os os' :
  mirrors r fr os -> os_wf os' -> others (temp ++ [mname id]) os os' ->
  node_at os' (temp ++ [mname id]) = Some Dir ->
  mirrors (mkReceiver (sender_node_id r) (rcv_sequence_id r) ({[id]} ∪ dirs_ r) (rcv_temp r))
    (mkFileReceiver (sender_node_id r) (rcv_sequence_id r) ({[id]} ∪ dirs_ r)) os'.
Proof.
  intros H W Ho Hn. split; simpl; [done|done| |apply H| | | |].
  - destruct (Ho temp) as [_ ->]; [|apply H]. intros E.
    rewrite <- (app_nil_r temp) in E at 1. by apply app_inv_head in E.
  - intros s n Hs Hne. destruct (decide (s = [mname id])) as [->|Hs'].
    + rewrite node_at_names in Hn by apply temp_snoc_ne. exists id. left. split; [done|congruence].
    + apply (h_below _ _ _ H); [|done]. rewrite <- (others_names _ _ _ _ Ho); [done| |].
      * by intros E%app_inv_head.
      * by intros [_ ?]%app_nil.
  - intros id' Hid. destruct (decide (id' = id)) as [->|Hne]; [done|].
    destruct (Ho (temp ++ [mname id'])) as [_ ->].
    + by intros [? _]%mname_cons_inj.
    + apply H. set_solver.
  - intros id' f. destruct (Ho (temp ++ [mname id'; f])) as [-> _]; [by intros E%app_inv_head|apply H].
  - eapply outside_others; [by eexists|done|apply H].
Qed.

(** Creating the directory of a machine, once. *)
Lemma ensure_dir_quiet id r fr os :
  mirrors r fr os ->
  wp (ensure_dir c id fr) (fun '(fr', ok) os' => ok = true /\
    mirrors (mkReceiver (sender_node_id r) (rcv_sequence_id r) ({[id]} ∪ dirs_ r) (rcv_temp r)) fr' os') os.
Proof.
  intros H. unfold ensure_dir. pose proof (h_state _ _ _ H) as Ef. case_decide as Hin.
  { apply wp_ret. split; [done|]. rewrite Ef in Hin. simpl in Hin.
    assert ({[id]} ∪ dirs_ r = dirs_ r) as -> by set_solver.
    by destruct r. }
  pose proof (plain_join (temp_checkpoint_path_ c) (mname id) (mname_plain id)) as E.
  change (temp_checkpoint_path_ c +:+ "/" +:+ mname id) with (GetMachineTempPath c id) in E.
  apply wp_bind. eapply (wp_mono _ (fun _ os' => os_wf os' /\ others (temp ++ [mname id]) os os' /\
    node_at os' (temp ++ [mname id]) = Some Dir)).
  - destruct (node_at os (temp ++ [mname id])) as [n|] eqn:En.
    + (* the directory is there already *)
      unfold CreateDir. rewrite E. apply wp_bind, wp_quiet.
      change (node_at (tick os)) with (node_at os). rewrite En. apply wp_ret.
      split; [by apply os_wf_tick, H|]. split; [done|].
      rewrite node_at_names in En by apply temp_snoc_ne.
      destruct (h_below _ _ _ H _ _ En ltac:(done)) as [id' [[_ ->]|(f & i & [=] & _)]].
      change (node_at (tick os)) with (node_at os). by rewrite node_at_names by apply temp_snoc_ne.
    + destruct (keeps_CreateDir (GetMachineTempPath c id) os (h_wf _ _ _ H)) as (os' & s & E1 & W').
      exists os', s. split; [done|]. split; [done|].
      pose proof (wp_run _ _ _ _ _ (CreateDir_quiet (GetMachineTempPath c id) os
        ltac:(by rewrite E) ltac:(rewrite E, parent_snoc; apply H)) E1) as (_ & En' & Ed' & _).
      rewrite E in En'. split.
      * intros k Hk. assert (Ek : node_at os' k = node_at os k)
          by (unfold node_at; by rewrite En', lookup_insert_ne).
        unfold content. by rewrite Ek, Ed'.
      * rewrite node_at_names, En' by apply temp_snoc_ne. by rewrite lookup_insert_eq.
  - intros _ os' (W' & Ho & Hn). apply wp_bind. eapply wp_mono; [apply FileExists_quiet|].
    rewrite E. intros found os2 [Hs Hf]. apply wp_ret. rewrite (proj2 Hf) by (by rewrite Hn).
    split; [done|]. rewrite Ef. simpl. eapply mirrors_dir; [done|by rewrite <- Hs| |].
    + etrans; [done|]. by apply same_files_others.
    + by rewrite <- (node_at_proper _ _ Hs _ _ eq_refl).
Qed.

(** A fragment is appended to a file. *)
Lemma mirrors_append id f data r fr os os' :
  mirrors r fr os -> plain f -> os_wf os' -> others (temp ++ [mname id; f]) os os' ->
  (exists i, node_at os' (temp ++ [mname id; f]) = Some (Reg i)) ->
  content os' (temp ++ [mname id; f]) = Some (default "" (rcv_temp r !! (id, f)) +:+ data) ->
  mirrors (mkReceiver (sender_node_id r) (rcv_sequence_id r + 1) (dirs_ r) (append_file (id, f) data (rcv_temp r)))
    (mkFileReceiver (sender_node_id r) (rcv_sequence_id r + 1) (dirs_ r)) os'.
Proof.
  intros H Hp W Ho [i Hi] Hc. split; simpl; [done|done| |apply H| | | |].
  - destruct (Ho temp) as [_ ->]; [|apply H]. intros E.
    rewrite <- (app_nil_r temp) in E at 1. by apply app_inv_head in E.
  - intros s n Hs Hne. destruct (decide (s = [mname id; f])) as [->|Hs'].
    + rewrite node_at_names in Hi by (by intros [_ ?]%app_nil). exists id. right. exists f, i.
      split; [done|]. split; [congruence|done].
    + apply (h_below _ _ _ H); [|done]. rewrite <- (others_names _ _ _ _ Ho); [done| |].
      * by intros E%app_inv_head.
      * by intros [_ ?]%app_nil.
  - intros id' Hid. destruct (Ho (temp ++ [mname id'])) as [_ ->]; [by intros E%app_inv_head|by apply H].
  - intros id' f'. unfold append_file. destruct (decide ((id', f') = (id, f))) as [[= -> ->]|Hne].
    + by rewrite lookup_insert_eq.
    + rewrite lookup_insert_ne by done. destruct (Ho (temp ++ [mname id'; f'])) as [-> _]; [|apply H].
      intros [-> [= ->]]%mname_cons_inj. done.
  - eapply outside_others; [by eexists|done|apply H].
Qed.

(** One fragment: the answer and the effect are those of the abstract receiver. *)
Lemma ReceiveFiles_quiet group node free msg r fr os :
  mirrors r fr os -> plain (cm_file msg) ->
  wp (file_ReceiveFiles c msg fr) (fun '(fr', res) os' =>
    let '(r', res') := ReceiveFiles (quiet_env group node free) msg r in
    res = res' /\ mirrors r' fr' os') os.
Proof.
  intros H Hp. unfold file_ReceiveFiles, ReceiveFiles. pose proof (h_state _ _ _ H) as Ef.
  rewrite Ef. cbn [fr_sender_node_id fr_sequence_id]. rewrite <- Ef.
  destruct (negb (cm_node_id msg =? sender_node_id r)); [by apply wp_ret|].
  destruct (cm_sequence_id msg =? rcv_sequence_id r); [by apply wp_ret|].
  destruct (negb (cm_sequence_id msg =? rcv_sequence_id r + 1)); [by apply wp_ret|].
  rewrite andb_false_r. cbn [re_append quiet_env].
  apply wp_bind. eapply wp_mono; [by apply ensure_dir_quiet|].
  intros [fr1 ok] os1 [-> H1]. simpl. set (r1 := mkReceiver _ _ _ _) in H1. apply wp_bind.
  set (fname := GetMachineTempPath c (cm_machine_id msg) +:+ "/" +:+ cm_file msg).
  assert (E : parse_path fname = temp ++ [mname (cm_machine_id msg); cm_file msg]).
  { unfold fname. rewrite plain_join by done. unfold GetMachineTempPath.
    rewrite (plain_join _ (mname (cm_machine_id msg))) by apply mname_plain. by rewrite <- app_assoc. }
  assert (Hdir : node_at os1 (temp ++ [mname (cm_machine_id msg)]) = Some Dir)
    by (apply H1; simpl; set_solver).
  eapply wp_mono; [apply append_fragment_quiet; [apply H1|]|]; rewrite E.
  - intros [Hc|[_ Hc]].
    + rewrite node_at_names in Hc by (by intros [_ ?]%app_nil).
      by destruct (h_below _ _ _ H1 _ _ Hc ltac:(done)) as [? [[[=] _]|(? & ? & _ & [=] & _)]].
    + apply Hc. change [mname (cm_machine_id msg); cm_file msg] with
        ([mname (cm_machine_id msg)] ++ [cm_file msg]). by rewrite app_assoc, parent_snoc.
  - intros b os2 (-> & W2 & Ho & Hi & Hc). apply wp_ret. split; [done|].
    rewrite (h_files _ _ _ H1) in Hc. rewrite (h_state _ _ _ H1).
    exact (mirrors_append _ _ _ r1 fr1 _ _ H1 Hp W2 Ho Hi Hc).
Qed.

(** [ComfirmReceive] on both sides. *)
Lemma Comfirm_quiet group node free msg r fr os res :
  mirrors r fr os ->
  let '(r', _, _) := ComfirmReceive (quiet_env group node free) msg res r in
  mirrors r' (file_Comfirm msg (fr, res)).1 os.
Proof.
  intros H. unfold ComfirmReceive, file_Comfirm. rewrite (h_state _ _ _ H). cbn [fr_sender_node_id].
  destruct (_ && _); [|by rewrite <- (h_state _ _ _ H)]. destruct H. split; simpl; try done.
Qed.

(** The start of a transfer. *)
Definition ready (os : OS) : Prop :=
  os_wf os /\ temp <> [] /\ outside os /\
  (checkpoint_tree os temp \/ node_at os temp = None /\ node_at os (parent temp) = Some Dir).

#[local] Instance keeps_delete_files d files : KeepsWf (delete_files d files).
Proof. induction files; simpl; keeps. Qed.

#[local] Instance keeps_delete_temp_dirs path dirs b : KeepsWf (delete_temp_dirs path dirs b).
Proof. revert b. induction dirs; intros b; simpl; keeps. Qed.

#[local] Instance keeps_DeleteTempCheckpoint : KeepsWf (DeleteTempCheckpoint c).
Proof. unfold DeleteTempCheckpoint. keeps. Qed.

Lemma Begin_quiet group node free msg r os :
  ready os ->
  wp (file_BeginToReceive c msg) (fun x os' =>
    let '(r', _, _) := BeginToReceive (quiet_env group node free) msg r in
    x.2 = true /\ mirrors r' x.1 os') os.
Proof.
  intros (W & Hne & Ho & T). unfold file_BeginToReceive. apply wp_bind.
  eapply wp_mono; [apply wp_and; [by apply (DeleteTempCheckpoint_quiet Hd)|by apply keeps_wf]|].
  intros b os' [[-> E] W']. apply wp_ret. split; [done|]. unfold file_Comfirm, negb, andb. cbn [fst].
  split; simpl; try done.
  - apply E.
  - intros s n Hs Hn. by rewrite (em_below _ _ _ E) in Hs.
  - intros id f. unfold content. rewrite node_at_names by (by intros [_ ?]%app_nil).
    by rewrite (em_below _ _ _ E).
  - intros k Hk. destruct (em_outside _ _ _ E k Hk) as [-> ->]. by apply Ho.
Qed.

Lemma mirrors_ready r fr os : mirrors r fr os -> ready os.
Proof.
  intros H. split_and!; [apply H..|]. left. by eapply mirrors_tree.
Qed.

(** * Installing *)

Notation cdir := (parse_path (checkpoint_path_ c)).
Hypothesis Htemp : temp = cdir ++ ["tempcheckpoint"%string].

Lemma target_path id : parse_path (GetCheckpointPath c id) = cdir ++ [cname id].
Proof. apply plain_join, cname_plain. Qed.

Lemma target_apart id : apart temp (cdir ++ [cname id]).
Proof.
  rewrite Htemp. split; intros [z E]; rewrite <- app_assoc in E; apply app_inv_head in E; discriminate E.
Qed.

(** What the installation leaves: the files of the temporary directory under the name of
    the checkpoint, and all else outside it as it was. *)
Definition installed_as (id : Z) (t : temp_files) (os' : OS) : Prop :=
  (forall mid f, content os' (cdir ++ [cname id; mname mid; f]) = t !! (mid, f)) /\
  (forall k, ~ temp `prefix_of` k -> ~ (cdir ++ [cname id]) `prefix_of` k -> content os' k = content os0 k).

Lemma End_quiet group node msg r fr os :
  mirrors r fr os -> node_at os0 (cdir ++ [cname (cm_instance_id msg)]) = None ->
  node_at os0 cdir = Some Dir ->
  wp (file_EndToReceive c msg fr) (fun b os' =>
    match EndToReceive (quiet_env group node (fun _ => true)) msg r with
    | None => b = true /\ installed_as (cm_instance_id msg) (rcv_temp r) os'
    | Some _ => b = false /\ os' = os
    end) os.
Proof.
  intros H Hn Hdir. unfold file_EndToReceive, EndToReceive. rewrite (h_state _ _ _ H).
  cbn [fr_sender_node_id fr_sequence_id quiet_env re_rename].
  destruct (negb (cm_node_id msg =? sender_node_id r)); [by apply wp_ret|].
  destruct (negb (cm_sequence_id msg =? rcv_sequence_id r + 1)); [by apply wp_ret|].
  unfold update_checkpoint_files, GetTempCheckpointPath. apply wp_bind.
  set (id := cm_instance_id msg) in *. pose proof (target_apart id) as A.
  assert (Hout : ~ temp `prefix_of` cdir ++ [cname id]) by apply A.
  assert (Hc : ~ temp `prefix_of` cdir).
  { rewrite Htemp. intros E%prefix_length. rewrite length_app in E. simpl in E. lia. }
  eapply wp_mono.
  { apply (RenameFile_quiet _ _ _ Dir); rewrite ?target_path; try apply H; try done.
    - by intros [_ ?]%app_nil.
    - by destruct (h_out _ _ _ H _ Hout) as [-> _].
    - rewrite parent_snoc. by destruct (h_out _ _ _ H _ Hc) as [-> _]. }
  rewrite target_path. intros s os' (Hs & Ed & Hat). apply wp_ret. split; [done|].
  assert (Hcont : forall k, k <> temp -> content os' k = content os (swap_paths temp (cdir ++ [cname id]) k)).
  { intros k Hk. unfold content. by rewrite Hat, decide_False, Ed by done. }
  split.
  - intros mid f. rewrite Hcont.
    + change [cname id; mname mid; f] with ([cname id] ++ [mname mid; f]).
      rewrite app_assoc, swap_right by done. apply H.
    + rewrite Htemp. intros E%app_inv_head. discriminate E.
  - intros k H1 H2. rewrite Hcont by (by intros ->). rewrite swap_other by (by apply strip_None).
    by apply H.
Qed.

(** ** The run *)

Definition files_plain (ms : list CheckpointMessage) : Prop :=
  forall m, m ∈ ms -> cm_type m = CHECKPOINT_FILE -> plain (cm_file m).
Definition targets_free (ms : list CheckpointMessage) : Prop :=
  forall m, m ∈ ms -> cm_type m = CHECKPOINT_END -> node_at os0 (cdir ++ [cname (cm_instance_id m)]) = None.

(** The results of the two runs. *)
Definition same_result (x : option Z) (t : option temp_files) (os' : OS) : Prop :=
  match x, t with
  | Some id, Some t => installed_as id t os'
  | None, None => True
  | _, _ => False
  end.

Lemma run_quiet group node ms r fr os :
  mirrors r fr os -> files_plain ms -> targets_free ms -> node_at os0 cdir = Some Dir ->
  wp (file_installed c ms fr) (fun x os' =>
    same_result x (installed (quiet_env group node (fun _ => true)) ms r) os') os.
Proof.
  intros H Hp Ht Hdir. revert r fr os H. induction ms as [|m ms IH]; intros r fr os H; [by apply wp_ret|].
  assert (IH' := IH ltac:(intros ? ?; apply Hp; by right) ltac:(intros ? ?; apply Ht; by right)).
  cbn [file_installed installed]. unfold ReceiveCheckpoint. destruct (cm_type m) eqn:Em.
  - apply wp_bind. eapply wp_mono; [by apply (Begin_quiet group node (fun _ => true) m r), (mirrors_ready r fr)|].
    intros x os' Hx. destruct (BeginToReceive _ m r) as [[r' b] ps]. apply IH', Hx.
  - apply wp_bind. unfold file_ReceiveCheckpoint, ReceiveCheckpointFile. apply wp_bind.
    eapply wp_mono; [apply (ReceiveFiles_quiet group node (fun _ => true)); [done|apply Hp; [by left|done]]|].
    intros [fr1 res] os1 Hx. destruct (ReceiveFiles _ m r) as [r1 res'].
    destruct Hx as [-> H1]. apply wp_ret.
    pose proof (Comfirm_quiet group node (fun _ => true) m r1 fr1 os1 res' H1) as H2.
    destruct (ComfirmReceive _ m res' r1) as [[r2 b] ps]. by apply IH'.
  - apply wp_bind. eapply wp_mono; [apply (End_quiet group node m r fr os H); [apply Ht; [by left|done]|done]|].
    intros b os' Hx. destruct (EndToReceive _ m r); destruct Hx as [-> Hx].
    + subst os'. by apply IH'.
    + by apply wp_ret.
  - by apply IH'.
  - by apply IH'.
Qed.

End Quiet.
