(* ===== verification/TransferFiles.v ===== *)
(** A checkpoint transfer from the machines of the sender to the checkpoint directory of
    the receiver: the messages of [SendCheckpoint], through the receiver on the file
    system, and the case in which a fragment is confirmed but not stored. *)

From S2P Require Import Prelude Proto Util Storage NodeState System Simulation MachinesModel CheckpointModel.
From S2P Require Import FileModel Files FileSpecs CheckpointFileModel Checkpoints CheckpointFiles ReceiverFiles.

(** * The messages of a transfer *)

Section Messages.
Context {UM : UserMachines}.
Variable senv : SendEnv.
Variable me : Z.

(** The fragments name a machine and a file. *)
Definition names_in (keys : list (Z * string)) (msgs : list CheckpointMessage) : Prop :=
  forall x, x ∈ msgs -> (cm_machine_id x, cm_file x) ∈ keys.

Lemma names_in_app keys l l' : names_in keys l -> names_in keys l' -> names_in keys (l ++ l').
Proof. intros H1 H2 x [Hx|Hx]%elem_of_app; auto. Qed.

Lemma names_in_mono keys keys' l : keys ⊆ keys' -> names_in keys l -> names_in keys' l.
Proof. intros H H1 x Hx. by apply H, H1. Qed.

Lemma SendFile_loop_names fuel i id fname file rest off s :
  names_in [(id, file)] (SendFile_loop senv me fuel i id fname file rest off s).1.2.
Proof.
  revert rest off s. induction fuel as [|fuel IH]; intros rest off s; cbn [SendFile_loop].
  { by intros x ?%elem_of_nil. }
  destruct (se_read_fail _ _ _); [by intros x ?%elem_of_nil|].
  case_decide; [by intros x ?%elem_of_nil|]. destruct (CheckReceive _ _) as [s1 res].
  destruct res; [|intros x ->%list_elem_of_singleton; by left].
  specialize (IH (str_from CheckpointModel.kBufferSize rest)
    (off + Z.of_nat (String.length (String.substring 0 CheckpointModel.kBufferSize rest))) s1).
  destruct (SendFile_loop _ _ _ _ _ _ _ _ _ _) as [[s2 l] b].
  intros x [->|Hx]%elem_of_cons; [by left|by apply IH].
Qed.

Lemma send_files_names i id dir files s :
  names_in (pair id <$> files) (send_files senv me i id dir files s).1.2.
Proof.
  revert s. induction files as [|file files IH]; intros s; cbn [send_files]; [by intros x ?%elem_of_nil|].
  assert (H : names_in [(id, file)] (SendFile senv me i id dir file s).1.2).
  { unfold SendFile. destruct (se_open _ _); [apply SendFile_loop_names|by intros x ?%elem_of_nil]. }
  destruct (SendFile _ _ _ _ _ _ _) as [[s1 l] b]. simpl in H.
  assert (H1 : names_in (pair id <$> file :: files) l) by (eapply names_in_mono; [|done]; set_solver).
  destruct b; [|done]. specialize (IH s1). destruct (send_files _ _ _ _ _ _ _) as [[s2 l'] b'].
  apply names_in_app; [done|]. eapply names_in_mono; [|exact IH]. set_solver.
Qed.

Lemma files_loop_names i m ids b s :
  names_in (all_files senv i m ids).*1 (SendCheckpointFiles_loop senv me i m ids b s).1.2.
Proof.
  revert b s. induction ids as [|id ids IH]; intros b s; cbn [SendCheckpointFiles_loop];
    [by intros x ?%elem_of_nil|].
  assert (Hin : (all_files senv i m ids).*1 ⊆ (all_files senv i m (id :: ids)).*1).
  { unfold all_files. simpl. rewrite fmap_app. set_solver. }
  assert (Hmine : pair id <$> listed senv i m id ⊆ (all_files senv i m (id :: ids)).*1).
  { unfold all_files. simpl. rewrite fmap_app, <- list_fmap_compose. set_solver. }
  unfold listed in Hmine.
  destruct (GetCheckpoint _ _ _ _ _ _) as [[dir files]|]; [|by intros x ?%elem_of_nil].
  destruct dir as [dir|]; [|eapply names_in_mono; [exact Hin|apply IH]].
  destruct files as [|f files]; [eapply names_in_mono; [exact Hin|apply IH]|].
  pose proof (send_files_names i id (dir +:+ "/") (f :: files) s) as H.
  destruct (send_files _ _ _ _ _ _ _) as [[s1 l] b1]. specialize (IH b1 s1).
  destruct (SendCheckpointFiles_loop _ _ _ _ _ _ _) as [[s2 l'] b'].
  apply names_in_app; [exact (names_in_mono _ _ _ Hmine H)|exact (names_in_mono _ _ _ Hin IH)].
Qed.

End Messages.

(** * Messages that arrive in order *)

Lemma files_in_order group node free me instance rest r last :
  numbered me (rcv_sequence_id r + 1) rest -> sender_node_id r = me ->
  cm_type last = CHECKPOINT_END -> cm_node_id last = me ->
  cm_sequence_id last = rcv_sequence_id r + 1 + Z.of_nat (length rest) ->
  cm_instance_id last = instance -> free instance = true ->
  installed (quiet_env group node free) (rest ++ [last]) r = Some (assemble (rcv_temp r) rest).
Proof.
  revert r. induction rest as [|x rest IH]; intros r Hn Hs Ht Hme Hseq Hi Hf.
  - simpl in *. rewrite Ht. unfold EndToReceive. rewrite Hme, Hs, Z.eqb_refl, Hseq, Z.add_0_r, Z.eqb_refl.
    simpl. by rewrite Hi, Hf.
  - destruct (Hn 0%nat x eq_refl) as (Hx1 & Hx2 & Hx3). rewrite Z.add_0_r in Hx1. simpl app. cbn [installed]. unfold ReceiveCheckpoint.
    rewrite Hx3. unfold ReceiveCheckpointFile, ReceiveFiles. rewrite Hx2, Hs, Z.eqb_refl. simpl negb. cbv iota.
    rewrite Hx1. destruct (Z.eqb_spec (rcv_sequence_id r + 1) (rcv_sequence_id r)); [lia|].
    rewrite Z.eqb_refl. simpl negb. rewrite andb_false_r. cbn [re_append quiet_env]. unfold ComfirmReceive.
    simpl negb. cbn [andb]. rewrite IH; try done; simpl in *; [|lia].
    intros k y Hy. destruct (Hn (S k) y Hy) as (? & ? & ?). split_and!; [lia|done..].
Qed.

(** * From the machines of one node to the disk of the other *)

Section Transfer.
Context {UM : UserMachines} {PX : Posix} {PL : PosixLaws} {Q : Quiet}.
Variable senv : SendEnv.
Variable c : ConfigPaths.

Notation temp := (parse_path (temp_checkpoint_path_ c)).
Notation cdir := (parse_path (checkpoint_path_ c)).

(** The directories of the receiver before a transfer of the checkpoint [instance]. *)
Record receiver_dirs (instance : Z) (os : OS) : Prop := {
  rd_wf : os_wf os;
  rd_cdir : node_at os cdir = Some Dir;
  rd_temp_path : temp = cdir ++ ["tempcheckpoint"%string];
  rd_temp : checkpoint_tree os temp \/ node_at os temp = None;
  rd_free : node_at os (cdir ++ [cname instance]) = None;
}.

Lemma receiver_ready instance os : receiver_dirs instance os -> ready c os os.
Proof.
  intros [W Hc Ht Hd _]. split_and!; [done|rewrite Ht; by intros [_ ?]%app_nil|done|].
  destruct Hd as [?|Hn]; [by left|right]. split; [done|]. by rewrite Ht, parent_snoc.
Qed.

(** What is installed is the instance of an END. *)
Lemma installed_instance ms fr os os' id :
  file_installed c ms fr os = Some (os', Some id) ->
  exists m, m ∈ ms /\ cm_type m = CHECKPOINT_END /\ cm_instance_id m = id.
Proof.
  revert fr os. induction ms as [|m ms IH]; intros fr os; [by intros [=]|]. cbn [file_installed].
  assert (IH' : forall fr os, file_installed c ms fr os = Some (os', Some id) ->
    exists m', m' ∈ m :: ms /\ cm_type m' = CHECKPOINT_END /\ cm_instance_id m' = id).
  { intros fr1 os1 (m' & Hm & H)%IH. exists m'. split; [by right|done]. }
  destruct (cm_type m) eqn:Em; unfold mbind, io_bind; [..|apply IH'|apply IH'];
    match goal with |- match ?x with _ => _ end = _ -> _ => destruct x as [[os1 y]|]; [|done] end.
  - apply IH'.
  - apply IH'.
  - destruct y; [|apply IH']. intros [= _ <-]. exists m. split; [by left|done].
Qed.

(** The whole run beside the abstract one. *)
Lemma transfer_run instance os b ms fr :
  px_dtype = true -> receiver_dirs instance os -> cm_type b = CHECKPOINT_BEGIN -> files_plain ms ->
  (forall m, m ∈ ms -> cm_type m = CHECKPOINT_END -> cm_instance_id m = instance) ->
  wp (file_installed c (b :: ms) fr) (fun x os' =>
    same_result c os x (installed (quiet_env 0 0 (fun _ => true)) (b :: ms) (mkReceiver 0 0 ∅ ∅)) os') os.
Proof.
  intros Hd Hdirs Hb Hp Hi. cbn [file_installed installed]. unfold ReceiveCheckpoint. rewrite Hb.
  apply wp_bind. eapply wp_mono.
  { apply (Begin_quiet Hd c os 0 0 (fun _ => true) b (mkReceiver 0 0 ∅ ∅)). by eapply receiver_ready. }
  intros x os1 Hx. destruct (BeginToReceive _ b _) as [[r' b'] ps]. destruct Hx as [_ Hm].
  apply (run_quiet Hd c os (rd_temp_path _ _ Hdirs) 0 0 ms r'); [done|done| |apply Hdirs].
  intros y Hy Hye. rewrite (Hi y Hy Hye). apply Hdirs.
Qed.

(** A checkpoint transfer, from the files the sender's machines list to the files in the
    receiver's checkpoint directory.  While no file operation of the receiver fails,
    whichever of the sender's messages arrive after a BEGIN, in whatever order and how
    often: the receiver handles all of them, and if it installs a checkpoint then every
    listed file that is not empty is in the new checkpoint directory with the sender's
    content, no other file is (the empty ones are not sent), and nothing else on the disk but the temporary directory
    changed.  If the messages arrive in the order they were sent, it does install it. *)
Theorem transfer_on_disk :
  forall (me to : Z) (m : manager) (s : Sender) (os : OS),
  px_dtype = true -> me <> 0 -> mgr_locked m = false -> send_works senv ->
  (forall id, id ∈ machine_ids m ->
     is_Some (GetCheckpoint (mgr_latest m) id (se_path senv id) (se_exists senv id) (se_listing senv id) m) /\
     files_open senv id (listed senv (mgr_latest m) m id)) ->
  let fs := all_files senv (mgr_latest m) m (machine_ids m) in
  NoDup fs.*1 -> (forall k, k ∈ fs.*1 -> plain k.2) ->
  receiver_dirs (mgr_latest m) os ->
  exists m' s' sent, SendCheckpoint senv me to m s = (m', s', sent, true) /\
    forall b ms fr, cm_type b = CHECKPOINT_BEGIN -> (forall x, x ∈ b :: ms -> x ∈ sent) ->
    exists os' x, file_installed c (b :: ms) fr os = Some (os', x) /\
      (b :: ms = sent -> x = Some (mgr_latest m)) /\
      forall id, x = Some id ->
        let file k := cdir ++ [cname (mgr_latest m); mname k.1; k.2] in
        (forall k d, (k, d) ∈ fs -> content os' (file k) = if decide (d = ""%string) then None else Some d) /\
        (forall k, k ∉ fs.*1 -> content os' (file k) = None) /\
        (forall p, ~ temp `prefix_of` p -> ~ (cdir ++ [cname (mgr_latest m)]) `prefix_of` p ->
           content os' p = content os p).
Proof.
  intros me to m s os Hd Hme Hlock Hw Hids fs Hnd Hplain Hdirs.
  destruct (send_all senv me to m s Hlock Hw Hids) as (m' & s' & msgs & E & Hn & [s1 Hloop] & Hfs).
  exists m', s', (begin_msg me (mgr_latest m) :: msgs ++ [end_msg me (mgr_latest m) msgs]).
  split; [exact E|]. intros b ms fr Hb Hin.
  pose proof (files_loop_names senv me (mgr_latest m) (set_locked true m) (machine_ids m) true
    (next_sequence (mkSender to 0 0 true))) as Hnames. rewrite Hloop in Hnames.
  assert (Hkinds : forall x, x ∈ b :: ms ->
    (cm_type x = CHECKPOINT_FILE -> plain (cm_file x)) /\
    (cm_type x = CHECKPOINT_END -> cm_instance_id x = mgr_latest m)).
  { intros x Hx%Hin. rewrite elem_of_cons, elem_of_app, list_elem_of_singleton in Hx.
    destruct Hx as [->|[Hx| ->]]; [done| |done]. split.
    - intros _. apply (Hplain (cm_machine_id x, cm_file x)), Hnames, Hx.
    - apply list_elem_of_lookup in Hx as [j Hj]. destruct (Hn j x Hj) as (_ & _ & ->). done. }
  destruct (transfer_run (mgr_latest m) os b ms fr Hd Hdirs Hb) as (os' & x & Ex & Hsame).
  { intros y Hy. by apply Hkinds; right. }
  { intros y Hy. by apply Hkinds; right. }
  exists os', x. split; [done|]. split.
  - intros [= -> ->]. revert Hsame. cbn [installed]. unfold ReceiveCheckpoint. simpl cm_type. cbv iota.
    unfold BeginToReceive, ComfirmReceive. cbn [negb andb re_delete quiet_env].
    rewrite (files_in_order 0 0 (fun _ => true) me (mgr_latest m)); try done.
    destruct x as [id|]; [intros _|done].
    apply installed_instance in Ex as (y & Hy & Hye & <-). f_equal. by apply Hkinds.
  - intros id ->. pose proof Ex as (y & Hy & Hye & Hid)%installed_instance.
    assert (id = mgr_latest m) as -> by (rewrite <- Hid; by apply Hkinds).
    unfold same_result in Hsame. destruct (installed _ _ _) as [t|] eqn:Et; [|done].
    assert (t = foldl add_file ∅ fs) as ->.
    { unfold fs. rewrite <- Hfs.
      apply (installed_complete (quiet_env 0 0 (fun _ => true)) me (mgr_latest m) msgs Hme Hn (b :: ms) (mkReceiver 0 0 ∅ ∅)); [|done|done].
      intros Es. by destruct Hme. }
    destruct Hsame as [Hfiles Hout]. split_and!; [| |exact Hout].
    + intros k d Hk. rewrite Hfiles. destruct k. by apply add_files_lookup.
    + intros k Hk. rewrite Hfiles. destruct k. by rewrite add_files_other.
Qed.

End Transfer.
