(* ===== verification/CleanFiles.v ===== *)
(** [MachineManager::CleanCheckpoint] on the file system: which checkpoints it finds,
    and that it removes exactly those [clean_checkpoints] of [MachinesModel] says. *)

From S2P Require Import Prelude Proto Util Storage NodeState System Simulation MachinesModel CheckpointModel.
From S2P Require Import FileModel Files FileSpecs CheckpointFileModel Checkpoints CheckpointFiles.
From Stdlib Require Import Ascii.

(** * The ids in the names of directories *)

Lemma after_dash_cname id : after_dash (cname id) = Some (pretty id).
Proof. reflexivity. Qed.

(** A name that [CleanCheckpoint] skips, or that of a checkpoint. *)
Definition known_name (x : string) : Prop := after_dash x = None \/ exists id, in_u64 id /\ x = cname id.

Lemma checkpoint_ids_names names :
  Forall known_name names ->
  exists ids, checkpoint_ids names = Some ids /\
    (forall id, id ∈ ids <-> in_u64 id /\ cname id ∈ names) /\ (NoDup names -> NoDup ids).
Proof.
  induction 1 as [|x names Hx _ (ids & E & Hin & Hnd)].
  { exists []. split; [done|]. split; [|by constructor]. intros id. rewrite !elem_of_nil. naive_solver. }
  cbn [checkpoint_ids]. destruct Hx as [Hx|(id & Hid & ->)].
  - rewrite Hx. exists ids. split; [done|]. split; [|by intros [_ ?]%NoDup_cons; apply Hnd].
    intros id. rewrite Hin, elem_of_cons. split; [naive_solver|]. intros [? [<-|?]]; [|done]. done.
  - rewrite after_dash_cname. rewrite stoull_to_string, E by done. exists (id :: ids). split; [done|]. split.
    + intros id'. rewrite !elem_of_cons, Hin. split.
      * intros [->|[? ?]]; [by split; [|left]|naive_solver].
      * intros [? [H|?]]; [left; by apply cname_inj|naive_solver].
    + intros [H1 H2]%NoDup_cons. constructor; [|by apply Hnd]. by intros [_ ?]%Hin.
Qed.

(** * The loop that chooses *)

Lemma swap_pop_perm x l : l <> [] -> x :: swap_pop (x :: l) ≡ₚ x :: l.
Proof.
  intros H. destruct l as [|y l]; [done|]. cbn [swap_pop]. constructor.
  destruct (exists_last H) as (k & z & E). rewrite E. rewrite last_last, removelast_last.
  by rewrite Permutation_app_comm.
Qed.

Lemma clean_loop_perm pe fuel keep l o d :
  let '(l', _, d') := clean_loop pe fuel keep l o d in d' ++ l' ≡ₚ d ++ l.
Proof.
  revert l o d. induction fuel as [|fuel IH]; intros l o d; simpl; [done|].
  destruct (keep <? length l)%nat; [|done]. specialize (IH (swap_pop l) (nth 1 l pe) (d ++ take 1 l)).
  destruct (clean_loop _ _ _ _ _ _) as [[l' o'] d']. rewrite IH. clear.
  rewrite <- app_assoc. f_equiv. destruct l as [|x [|y l]]; [done|done|].
  by apply (swap_pop_perm x (y :: l)).
Qed.

Lemma clean_checkpoints_perm pe keep found l o d :
  clean_checkpoints pe keep found = (l, o, d) -> d ++ l ≡ₚ found.
Proof.
  unfold clean_checkpoints. intros E. pose proof (clean_loop_perm pe (length (merge_sort Z.le found)) keep
    (merge_sort Z.le found) (List.hd 0 (merge_sort Z.le found)) []) as H.
  rewrite E in H. rewrite H. simpl. apply merge_sort_Permutation.
Qed.

(** * Removing *)

Section Quiet.
Context {PX : Posix} {PL : PosixLaws} {Q : Quiet}.
Hypothesis Hd : px_dtype = true.
Variable c : ConfigPaths.

Notation cdir := (parse_path (checkpoint_path_ c)).
Notation cpath id := (cdir ++ [cname id]).

Lemma cpath_parse id : parse_path (GetCheckpointPath c id) = cpath id.
Proof. apply plain_join, cname_plain. Qed.

Lemma clean_one_spec id os :
  os_wf os -> checkpoint_tree os (cpath id) ->
  wp (clean_one c id) (fun _ os' => erased (fun k => cpath id `prefix_of` k) os os') os.
Proof.
  intros W T. unfold clean_one. apply wp_assoc.
  eapply wp_mono.
  { apply (tree_entries _ _ (clean_dirs (GetCheckpointPath c id)) (fun _ => True)); rewrite ?cpath_parse; [done|done|].
    intros dirs os1 H. eapply wp_mono; [by apply (clean_dirs_spec Hd); rewrite cpath_parse|].
    rewrite cpath_parse. done. }
  rewrite cpath_parse. intros _ os1 [_ He]. apply wp_bind. destruct T as (Hdir & Hne & _).
  eapply wp_mono; [apply DeleteDir_quiet; rewrite cpath_parse; [done| |]|].
  - rewrite (erased_node _ _ _ _ He); [done|naive_solver].
  - intros x. apply (er_gone _ _ _ He). split; [by eexists|].
    intros E. rewrite <- (app_nil_r (cpath id)) in E at 2. by apply app_inv_head in E.
  - rewrite cpath_parse. intros s os2 [-> He2]. apply wp_bind, wp_ret, wp_ret.
    refine (erased_iff _ _ _ _ _ (erased_trans _ (eq (cpath id)) _ _ _ _ He He2)).
    intros k. cbn beta. split.
    + intros [[? _]|<-]; [done|reflexivity].
    + intros H. destruct (decide (k = cpath id)) as [->|?]; [by right|by left].
Qed.

Lemma cpath_apart id id' : id <> id' -> forall r, ~ cpath id `prefix_of` cpath id' ++ r.
Proof.
  intros H r. rewrite <- app_assoc. intros E%prefix_snoc_inj. by apply H, cname_inj.
Qed.

Lemma tree_kept id id' os os1 :
  id <> id' -> erased (fun k => cpath id `prefix_of` k) os os1 -> checkpoint_tree os (cpath id') ->
  checkpoint_tree os1 (cpath id').
Proof.
  intros Hne He (H1 & H2 & H3).
  assert (Hk : forall r, os_names os1 !! (cpath id' ++ r) = os_names os !! (cpath id' ++ r)).
  { intros r. apply (er_kept _ _ _ He). by apply cpath_apart. }
  split; [|split; [done|]].
  - rewrite (erased_node _ _ _ _ He); [done|]. rewrite <- (app_nil_r (cpath id')). by apply cpath_apart.
  - intros d n Hn. rewrite Hk in Hn. destruct (H3 d n Hn) as (Hp & Hq1 & Hq2 & Hq3). split; [done|].
    split; [done|]. split; [by rewrite Hk|]. intros r m. rewrite <- !app_assoc.
    rewrite (app_assoc cdir), Hk, <- (app_assoc cdir). intros Hm. apply (Hq3 r m). by rewrite <- !app_assoc.
Qed.

#[local] Instance keeps_clean_files d files : KeepsWf (clean_files d files).
Proof. induction files; simpl; keeps. Qed.
#[local] Instance keeps_clean_dirs path dirs : KeepsWf (clean_dirs path dirs).
Proof. induction dirs; simpl; keeps. Qed.
#[local] Instance keeps_clean_one id : KeepsWf (clean_one c id).
Proof. unfold clean_one. keeps. Qed.
#[local] Instance keeps_clean_all ids : KeepsWf (clean_all c ids).
Proof. induction ids; simpl; keeps. Qed.

Definition any_checkpoint (ids : list Z) (k : path) : Prop := Exists (fun id => cpath id `prefix_of` k) ids.

Lemma clean_all_spec ids os :
  os_wf os -> NoDup ids -> (forall id, id ∈ ids -> checkpoint_tree os (cpath id)) ->
  wp (clean_all c ids) (fun _ os' => erased (any_checkpoint ids) os os') os.
Proof.
  revert os. induction ids as [|id ids IH]; intros os W Hnd Ht.
  { apply wp_ret. eapply erased_iff; [|by apply erased_nothing]. intros k. unfold any_checkpoint. by rewrite Exists_nil. }
  apply NoDup_cons in Hnd as [Hid Hnd]. cbn [clean_all]. apply wp_bind.
  eapply wp_mono; [apply wp_and; [apply clean_one_spec; [done|apply Ht; by left]|by apply keeps_wf]|].
  intros _ os1 [He W1]. eapply wp_mono; [apply IH; [done|done|]|].
  - intros id' Hin. apply (tree_kept id id' os); [by intros ->|done|apply Ht; by right].
  - intros u os2 He2.
    refine (erased_iff _ _ _ _ _ (erased_trans _ (any_checkpoint ids) _ _ _ _ He He2)).
    intros k. unfold any_checkpoint. by rewrite Exists_cons.
Qed.

(** A checkpoint directory as the code leaves it: names it skips, and checkpoints. *)
Definition checkpoint_dir (os : OS) : Prop :=
  os_wf os /\ node_at os cdir = Some Dir /\
  forall x n, os_names os !! (cdir ++ [x]) = Some n ->
    plain x /\ (after_dash x = None \/ exists id, in_u64 id /\ x = cname id /\ checkpoint_tree os (cpath id)).

Lemma cpath_node os id : node_at os (cpath id) = os_names os !! cpath id.
Proof. apply node_at_names. by intros [_ ?]%app_nil. Qed.

(** What the loop over the directory entries finds. *)
Lemma find_checkpoints os :
  checkpoint_dir os ->
  exists os1 s names found,
    GetChildren (checkpoint_path_ c) false os = Some (os1, (s, names)) /\ same_files os os1 /\
    checkpoint_ids names = Some found /\ NoDup found /\
    forall id, id ∈ found <-> in_u64 id /\ node_at os (cpath id) <> None.
Proof.
  intros (W & Hdir & Hall).
  destruct (GetChildren_quiet (checkpoint_path_ c) false os Hdir) as (os1 & [s names] & E1 & Hs & _ & Hn).
  assert (Hin : forall x, x ∈ names <-> x <> "."%string /\ x <> ".."%string /\
    exists n, os_names os !! (cdir ++ [x]) = Some n) by (intros x; rewrite Hn; apply dir_names).
  destruct (checkpoint_ids_names names) as (found & E2 & Hf & Hnd).
  { apply Forall_forall. intros x (_ & _ & n & Hx)%Hin.
    destruct (Hall x n Hx) as [_ [?|(id & ? & ? & _)]]; [by left|right; eauto]. }
  exists os1, s, names, found. split_and!; try done.
  - apply Hnd. rewrite Hn. apply entry_names_NoDup.
  - intros id. rewrite Hf, Hin, cpath_node. split.
    + intros (? & _ & _ & n & ->). done.
    + intros [? H]. destruct (os_names os !! cpath id) as [n|]; [|done].
      destruct (cname_plain id) as (_ & ? & ?). eauto.
Qed.

Lemma clean_quiet (keep : nat) (os : OS) :
  checkpoint_dir os ->
  exists os' found l oldest deleted,
    (os_wf os' /\ erased (any_checkpoint deleted) os os') /\
    clean_checkpoint_files c keep os = Some (os', (l, oldest)) /\
    NoDup found /\ (forall id, id ∈ found <-> in_u64 id /\ node_at os (cpath id) <> None) /\
    clean_checkpoints px_past_end keep found = (l, oldest, deleted) /\
    (forall id, in_u64 id -> node_at os' (cpath id) <> None <-> id ∈ found /\ id ∉ deleted) /\
    (forall k, (forall id, id ∈ deleted -> ~ cpath id `prefix_of` k) -> content os' k = content os k).
Proof.
  intros Hc. destruct (find_checkpoints os Hc) as (os1 & s & names & found & E1 & Hs & E2 & Hnd' & Hfound).
  destruct Hc as (W & Hdir & Hall). unfold clean_checkpoint_files.
  destruct (clean_checkpoints px_past_end keep found) as [[l oldest] deleted] eqn:Ec.
  pose proof (clean_checkpoints_perm _ _ _ _ _ _ Ec) as Hp.
  assert (Hdel : NoDup deleted /\ forall id, id ∈ deleted -> id ∈ found).
  { split; [by apply (NoDup_app deleted l); rewrite Hp|]. intros id ?. rewrite <- Hp. set_solver. }
  pose proof Hs as (En & Ed & _).
  assert (W1 : os_wf os1) by (by rewrite <- Hs).
  assert (Htrees : forall id, id ∈ deleted -> checkpoint_tree os1 (cpath id)).
  { intros id [Hu Hn']%Hdel%Hfound. rewrite cpath_node in Hn'. destruct (os_names os !! cpath id) as [n|] eqn:E; [|done].
    destruct (Hall _ _ E) as [_ [H|(id' & _ & ->%cname_inj & T)]]; [by rewrite after_dash_cname in H|].
    unfold checkpoint_tree, file_dir in *. rewrite En. by rewrite <- (node_at_proper _ _ Hs _ _ eq_refl). }
  destruct (wp_and _ _ _ os1 (clean_all_spec deleted os1 W1 (proj1 Hdel) Htrees) (keeps_wf os1 W1))
    as (os' & u & E3 & He & W').
  assert (Hk : forall k, ~ any_checkpoint deleted k -> content os' k = content os k).
  { intros k Hk. by rewrite (erased_content _ _ _ _ He Hk), (content_proper _ _ Hs _ _ eq_refl). }
  exists os', found, l, oldest, deleted. split; [split; [done|]|split_and!; try done].
  - refine (erased_iff _ _ _ _ _ (erased_trans (fun _ => False) _ _ _ _ _ (erased_nothing _ _ Hs) He)). tauto.
  - unfold mbind, io_bind. rewrite E1. simpl. rewrite E2, Ec. unfold mbind, io_bind. by rewrite E3.
  - intros id Hu. rewrite Hfound. destruct (decide (id ∈ deleted)) as [Hid|Hid].
    + rewrite (cpath_node os'), (er_gone _ _ _ He); [naive_solver|]. apply Exists_exists. by exists id.
    + rewrite (erased_node _ _ _ _ He), <- (node_at_proper _ _ Hs _ _ eq_refl); [naive_solver|].
      intros (id' & Hin' & Hpre)%Exists_exists. destruct (decide (id' = id)) as [->|Hne]; [done|].
      rewrite <- (app_nil_r (cpath id)) in Hpre. by apply cpath_apart in Hpre.
  - intros k H. apply Hk. intros (id & Hin' & Hpre)%Exists_exists. by eapply H.
Qed.

(** (C26) [CleanCheckpoint] on the disk is the list computation of [clean_checkpoints].  While no
    file operation fails: the ids it works on are exactly those of the checkpoints on the
    disk, whatever the order of the directory entries; [checkpoints_] and the oldest id
    become what [clean_checkpoints] says of them; the checkpoints it selects are gone from the disk
    with all their files, and every other file is left as it was. *)
Theorem clean_on_disk (keep : nat) (os : OS) :
  checkpoint_dir os ->
  exists os' found l oldest deleted,
    clean_checkpoint_files c keep os = Some (os', (l, oldest)) /\
    NoDup found /\ (forall id, id ∈ found <-> in_u64 id /\ node_at os (cpath id) <> None) /\
    clean_checkpoints px_past_end keep found = (l, oldest, deleted) /\
    (forall id, in_u64 id -> node_at os' (cpath id) <> None <-> id ∈ found /\ id ∉ deleted) /\
    (forall k, (forall id, id ∈ deleted -> ~ cpath id `prefix_of` k) -> content os' k = content os k).
Proof.
  intros Hc. destruct (clean_quiet keep os Hc) as (os' & found & l & oldest & deleted & _ & H).
  by exists os', found, l, oldest, deleted.
Qed.

End Quiet.
