(* ===== verification/MachineFileModel.v ===== *)
(** Model of the parts of [machine/] that go through the file layer: the checkpoint
    files of the two internal machines ([MakeCheckpoint], [GetCheckpoint] and [Recover] of
    [membership_machine.cc] and [master_machine.cc]), and [MachineManager::Recover],
    [MakeCheckpoint] and [GetCheckpoint] of [machine_manager.cc].

    The manager is that of [MachinesModel]; its field [mgr_disk] has no part here, the
    directories are those of the system. *)

From S2P Require Import Prelude Proto Util Storage NodeState System Simulation MachinesModel CheckpointModel.
From S2P Require Import FileModel CheckpointFileModel.

Definition kMembershipCheckpoint : string := "MEMBERSHIP.db".
Definition kMasterCheckpoint : string := "MASTER.db".

(** The listing of a machine's checkpoint; [user] is what a machine of the application adds. *)
Definition machine_GetCheckpoint (user : Z -> option (list string)) (id : Z) : option (list string) :=
  if id =? 1 then Some [kMembershipCheckpoint]
  else if id =? 2 then Some [kMasterCheckpoint]
  else user id.

Section MachineFiles.
Context {PX : Posix} {FC : FixedCoding} {CR : Crc32c} {UM : UserMachines}.
Context {PC : ProtoCodec MemberChangeMessage} {PS : ProtoCodec MasterState} {PM : ProtoCodec Membership}.
Variable c : ConfigPaths.

(** * Making a checkpoint *)

(** The functions the internal machines queue into the clean loop; the state was copied
    when they were queued.  The result is passed to the callback. *)
Definition membership_checkpoint (group_id instance_id : Z) (dir : string) (membership : Membership) : io bool :=
  StateMachine_WriteCheckpoint group_id instance_id (dir +:+ "/" +:+ kMembershipCheckpoint) membership.

Definition master_checkpoint (group_id instance_id : Z) (dir : string) (state : MasterState) : io bool :=
  StateMachine_WriteCheckpoint group_id instance_id (dir +:+ "/" +:+ kMasterCheckpoint) state.

(** The loop over the machines.  An internal machine queues its function and returns true;
    [make] is the answer of a machine of the application.  The results are
    [make_checkpoint_result_] and whether the loop came to its end. *)
Fixpoint make_machines (make : Z -> bool) (ids : list Z) (acc : gset Z) : io (gset Z * bool) :=
  match ids with
  | [] => mret (acc, true)
  | id :: ids =>
      status ← CreateDir (GetMachineTempPath c id);
      if negb (Status_ok status) then mret (acc, false)
      else if (id =? 1) || (id =? 2) || make id then make_machines make ids ({[id]} ∪ acc)
      else mret (acc, false)
  end.

(** [draw] is [distribution_(generator_)]. *)
Definition file_MakeCheckpoint (draw : Z) (make : Z -> bool) (instance_id : Z) (m : manager)
  : io (manager * bool) :=
  if mgr_making m then mret (m, false)
  else if negb (mgr_io_loop m) then mret (m, false)
  else if instance_id -64 mgr_latest m <? wrap32 (mgr_keep_log m / 2 + draw) then mret (m, false)
  else
    deleted ← DeleteTempCheckpoint c;
    if negb deleted then mret (m, false)
    else
      x ← make_machines make (machine_ids m) ∅;
      mret (if x.2 : bool then (set_making (if decide (x.1 = ∅) then mgr_making m else true) x.1 m, true)
            else (set_making (mgr_making m) x.1 m, false)).

(** * Reading one *)

Definition file_GetCheckpoint (user : Z -> option (list string)) (instance_id id : Z) (m : manager)
  : io (option (option string * list string)) :=
  let path := GetMachineCheckpointPath c instance_id id in
  if (instance_id =? 0) || negb (bool_decide (id ∈ mgr_ids m)) then
    mret (GetCheckpoint instance_id id path false None m)
  else
    found ← FileExists path;
    mret (GetCheckpoint instance_id id path found (machine_GetCheckpoint user id) m).

(** The virtual call [it.second->Recover]; [fuel] bounds the reads of one file. *)
Definition file_recover_machine (fuel : nat) (node_id now group id : Z) (dir : string) (m : manager)
  : io (manager * bool) :=
  if (id =? 1) || (id =? 2) then
    x ← ReadFileToString fuel
          (dir +:+ "/" +:+ (if id =? 1 then kMembershipCheckpoint else kMasterCheckpoint));
    mret (recover_machine node_id now group id (if Status_ok x.1 then Some x.2 else None) m)
  else mret (recover_machine node_id now group id None m).

Fixpoint file_recover_loop (fuel : nat) (node_id now group : Z) (ids : list Z) (m : manager)
  : io (manager * bool) :=
  match ids with
  | [] => mret (m, true)
  | id :: ids =>
      let dir := GetMachineCheckpointPath c (mgr_latest m) id in
      found ← FileExists dir;
      if negb found then file_recover_loop fuel node_id now group ids m
      else
        x ← file_recover_machine fuel node_id now group id dir m;
        if x.2 : bool then file_recover_loop fuel node_id now group ids x.1 else mret (x.1, false)
  end.

(** [checkpoints_], [latest_checkpoint_instance_id_] and [oldest_checkpoint_instance_id_]. *)
Definition set_checkpoints (l : list Z) (latest oldest : Z) (m : manager) : manager :=
  mkManager (mgr_membership m) (mgr_master m) (mgr_user m) (mgr_ids m) (mgr_keep_log m)
    (mgr_keep_checkpoints m) (mgr_io_loop m) (mgr_locked m) (mgr_disk m) l latest oldest
    (mgr_making m) (mgr_making_ids m).

Definition file_CleanCheckpoint (m : manager) : io manager :=
  if mgr_locked m then mret m
  else
    x ← clean_checkpoint_files c (mgr_keep_checkpoints m);
    mret (set_checkpoints x.1 (mgr_latest m) x.2 m).

Definition file_MachineManager_Recover (fuel : nat) (node_id now group : Z) (m : manager)
  : io (manager * bool) :=
  m ← file_CleanCheckpoint m;
  let m := set_checkpoints (mgr_checkpoints m) (List.last (mgr_checkpoints m) 0) (mgr_oldest m) m in
  if mgr_latest m =? 0 then mret (m, true)
  else file_recover_loop fuel node_id now group (machine_ids m) m.

End MachineFiles.
