(* ===== verification/MachineFiles.v ===== *)
(** The machines on the disk: [MachineManager::Recover] on the files is that of
    [MachinesModel], the state of the membership machine survives a checkpoint, and what
    happens to the lease of the master in one. *)

From S2P Require Import Prelude Proto Util Storage TimerList NodeState System Simulation MachinesModel CheckpointModel.
From S2P Require Import ProposeQueue GroupModel.
From S2P Require Import FileModel Files FileSpecs CheckpointFileModel CheckpointFiles CleanFiles MachineFileModel.

(** [mgr_disk] is no part of the object. *)
Definition set_disk {UM : UserMachines} (l : list Z) (m : manager) : manager :=
  mkManager (mgr_membership m) (mgr_master m) (mgr_user m) (mgr_ids m) (mgr_keep_log m)
    (mgr_keep_checkpoints m) (mgr_io_loop m) (mgr_locked m) l (mgr_checkpoints m)
    (mgr_latest m) (mgr_oldest m) (mgr_making m) (mgr_making_ids m).

Section MachineFiles.
Context {PX : Posix} {PL : PosixLaws} {Q : Quiet} {FC : FixedCoding} {CR : Crc32c} {UM : UserMachines}.
Context {PC : ProtoCodec MemberChangeMessage} {PS : ProtoCodec MasterState} {PM : ProtoCodec Membership}.
Hypothesis Hd : px_dtype = true.
Variable c : ConfigPaths.

Notation cpath id := (parse_path (checkpoint_path_ c) ++ [cname id]).

(** * Recovery *)

Definition machine_file (id : Z) : string := if id =? 1 then kMembershipCheckpoint else kMasterCheckpoint.

(** The machine directories of the checkpoint [i], as the parameter of
    [MachineManager_Recover]. *)
Definition disk_dirs (os : OS) (i id : Z) : option (option string) :=
  match node_at os (cpath i ++ [mname id]) with
  | None => None
  | Some _ => Some (content os (cpath i ++ [mname id; machine_file id]))
  end.

Definition fuel_enough (fuel : nat) (os : OS) : Prop :=
  forall k, (reads (default "" (content os k)) <= fuel)%nat.

Lemma machine_path i id : parse_path (GetMachineCheckpointPath c i id) = cpath i ++ [mname id].
Proof.
  unfold GetMachineCheckpointPath, GetCheckpointPath. rewrite (plain_join _ (mname id) (mname_plain id)).
  by rewrite (plain_join _ (cname i) (cname_plain i)).
Qed.

Lemma machine_file_plain id : plain (machine_file id).
Proof. unfold machine_file. destruct (id =? 1); by vm_compute. Qed.

Section Recover.
Variables (node_id now group : Z) (fuel : nat).

Lemma recover_machine_keeps id data m l :
  let r := recover_machine node_id now group id data m in
  mgr_latest r.1 = mgr_latest m /\
  recover_machine node_id now group id data (set_disk l m) = (set_disk l r.1, r.2).
Proof.
  unfold recover_machine. destruct m. cbn. destruct (id =? 1); [by destruct (MembershipMachine_Recover _ _ _ _)|].
  destruct (id =? 2); [by destruct (MasterMachine_Recover _ _ _ _ _ _)|]. by destruct (um_Recover _ _ _ _).
Qed.

Lemma recover_machine_other id data data' m :
  id <> 1 -> id <> 2 -> recover_machine node_id now group id data m = recover_machine node_id now group id data' m.
Proof. intros H1%Z.eqb_neq H2%Z.eqb_neq. unfold recover_machine. by rewrite H1, H2. Qed.

Lemma recover_loop_disk dirs ids m l :
  recover_loop node_id now group dirs ids (set_disk l m) =
    let r := recover_loop node_id now group dirs ids m in (set_disk l r.1, r.2).
Proof.
  revert m. induction ids as [|id ids IH]; intros m; [done|]. cbn [recover_loop].
  destruct (dirs id) as [data|]; [|apply IH]. destruct (recover_machine_keeps id data m l) as [_ ->].
  destruct (recover_machine _ _ _ _ _ m) as [m' []]; cbn [fst snd]; [apply IH|done].
Qed.

(** Reading the file of one machine. *)
Lemma file_recover_machine_spec i id m os :
  os_wf os -> fuel_enough fuel os ->
  wp (file_recover_machine fuel node_id now group id (GetMachineCheckpointPath c i id) m)
    (fun r os' => same_files os os' /\
       r = recover_machine node_id now group id (content os (cpath i ++ [mname id; machine_file id])) m) os.
Proof.
  intros W F. unfold file_recover_machine. destruct ((id =? 1) || (id =? 2)) eqn:E.
  - fold (machine_file id). apply wp_bind.
    set (fname := GetMachineCheckpointPath c i id +:+ "/" +:+ machine_file id).
    assert (Hp : parse_path fname = cpath i ++ [mname id; machine_file id]).
    { unfold fname. rewrite (plain_join _ _ (machine_file_plain id)), machine_path.
      by rewrite <- !app_assoc. }
    eapply wp_mono; [apply (ReadFileToString_spec fuel fname os W); rewrite Hp; apply F|].
    rewrite Hp. intros [s d] os' [Hs H]. apply wp_ret. split; [done|]. cbn [fst snd] in *.
    destruct (Status_ok s); [by rewrite H|]. destruct H as [H|H]; [by destruct (Quiet_not_faulty Q)|by rewrite H].
  - apply wp_ret. split; [done|]. apply orb_false_iff in E as [E1%Z.eqb_neq E2%Z.eqb_neq].
    by apply recover_machine_other.
Qed.

Lemma disk_dirs_same os os' i id : same_files os os' -> disk_dirs os' i id = disk_dirs os i id.
Proof.
  intros H. unfold disk_dirs.
  by rewrite <- (node_at_proper _ _ H _ _ eq_refl), (content_proper _ _ H _ _ eq_refl).
Qed.

Lemma recover_loop_ext dirs dirs' ids m :
  (forall id, dirs id = dirs' id) -> recover_loop node_id now group dirs ids m = recover_loop node_id now group dirs' ids m.
Proof.
  intros H. revert m. induction ids as [|id ids IH]; intros m; [done|]. cbn [recover_loop]. rewrite <- H.
  destruct (dirs id) as [data|]; [|apply IH]. destruct (recover_machine _ _ _ _ _ m) as [m' []]; [apply IH|done].
Qed.

Lemma fuel_same os os' : same_files os os' -> fuel_enough fuel os -> fuel_enough fuel os'.
Proof. intros H F k. rewrite <- (content_proper _ _ H _ _ eq_refl). apply F. Qed.

Lemma file_recover_loop_spec ids m os :
  os_wf os -> fuel_enough fuel os ->
  wp (file_recover_loop c fuel node_id now group ids m)
    (fun r os' => same_files os os' /\ r = recover_loop node_id now group (disk_dirs os (mgr_latest m)) ids m) os.
Proof.
  revert m os. induction ids as [|id ids IH]; intros m os W F; [by apply wp_ret|].
  cbn [file_recover_loop recover_loop]. set (i := mgr_latest m). apply wp_bind.
  assert (Hnext : forall m' os1, mgr_latest m' = i -> same_files os os1 ->
    wp (file_recover_loop c fuel node_id now group ids m')
      (fun r os' => same_files os os' /\ r = recover_loop node_id now group (disk_dirs os i) ids m') os1).
  { intros m' os1 E Hs. eapply wp_mono; [apply IH; [by rewrite <- Hs|by eapply fuel_same]|].
    intros r os2 [Hs2 ->]. split; [by etrans|]. rewrite E. apply recover_loop_ext. intros k. by apply disk_dirs_same. }
  eapply wp_mono; [apply FileExists_quiet|]. rewrite machine_path. intros found os1 [Hs Hf].
  unfold disk_dirs at 1. destruct (node_at os (cpath i ++ [mname id])) as [e|].
  - rewrite (proj2 Hf) by done. cbn [negb]. apply wp_bind.
    eapply wp_mono; [apply file_recover_machine_spec; [by rewrite <- Hs|by eapply fuel_same]|].
    intros r os2 [Hs2 ->]. rewrite <- (content_proper _ _ Hs _ _ eq_refl).
    destruct (recover_machine_keeps id (content os (cpath i ++ [mname id; machine_file id])) m []) as [El _].
    destruct (recover_machine _ _ _ _ _ m) as [m' []]; cbn [fst snd] in *.
    + apply Hnext; [done|by etrans].
    + apply wp_ret. split; [by etrans|done].
  - destruct found; [by destruct (proj1 Hf eq_refl)|]. cbn [negb]. by apply Hnext.
Qed.

(** (C21) [MachineManager::Recover] on the disk is the recovery of [MachinesModel].  While no file
    operation fails, on a directory of checkpoints: it ends; the checkpoints it finds are
    those on the disk; the manager, its machines included, and the result are those of
    [MachineManager_Recover] on these checkpoints and on the contents of their files; and
    the checkpoints left on the disk are those it keeps. *)
Theorem recover_on_disk (env : CheckpointEnv) (m : manager) (os : OS) :
  checkpoint_dir c os -> mgr_locked m = false -> (forall i, env_delete env i = true) ->
  env_past_end env = px_past_end -> fuel_enough fuel os ->
  exists os' found kept m' ok,
    file_MachineManager_Recover c fuel node_id now group m os = Some (os', (m', ok)) /\
    NoDup found /\ (forall id, id ∈ found <-> in_u64 id /\ node_at os (cpath id) <> None) /\
    MachineManager_Recover env node_id now group (disk_dirs os') (set_disk found m) = (set_disk kept m', ok) /\
    (forall id, in_u64 id -> id ∈ kept <-> node_at os' (cpath id) <> None).
Proof.
  intros Hc Hl He Hpe F. destruct (clean_quiet Hd c (mgr_keep_checkpoints m) os Hc)
    as (os1 & found & l & oldest & deleted & [W1 Hk] & E1 & Hnd & Hf & Ec & Hn & _).
  assert (F1 : fuel_enough fuel os1).
  { intros k. destruct (decide (any_checkpoint c deleted k)) as [Hin|Hin].
    - unfold content, node_at. case_decide; [|rewrite (er_gone _ _ _ Hk _ Hin)];
        (etrans; [|apply (F k)]; apply reads_mono; simpl; lia).
    - rewrite (erased_content _ _ _ _ Hk Hin). apply F. }
  set (m1 := set_checkpoints l (List.last l 0) oldest m).
  set (kept := filter (fun i => ~ (i ∈ deleted /\ env_delete env i = true)) found).
  assert (Er : recover_latest env (set_disk found m) = set_disk kept m1).
  { unfold recover_latest, CleanCheckpoint. cbn [set_disk mgr_locked mgr_keep_checkpoints mgr_disk].
    rewrite Hl, Hpe, Ec. unfold m1, set_checkpoints, set_disk, kept. cbn. by rewrite Hl. }
  assert (Hkept : forall os', same_files os1 os' ->
    forall id, in_u64 id -> id ∈ kept <-> node_at os' (cpath id) <> None).
  { intros os' Hs id Hu. rewrite <- (node_at_proper _ _ Hs _ _ eq_refl), (Hn id Hu). unfold kept.
    rewrite list_elem_of_filter, He. naive_solver. }
  assert (Ef : file_MachineManager_Recover c fuel node_id now group m os =
    (if mgr_latest m1 =? 0 then mret (m1, true)
     else file_recover_loop c fuel node_id now group (machine_ids m1) m1) os1).
  { unfold file_MachineManager_Recover, file_CleanCheckpoint, mbind, io_bind. rewrite Hl.
    unfold mbind, io_bind. rewrite E1. done. }
  assert (Em : forall dirs, MachineManager_Recover env node_id now group dirs (set_disk found m) =
    if mgr_latest m1 =? 0 then (set_disk kept m1, true)
    else let r := recover_loop node_id now group (dirs (mgr_latest m1)) (machine_ids m1) m1 in
         (set_disk kept r.1, r.2)).
  { intros dirs. unfold MachineManager_Recover. rewrite Er. by rewrite recover_loop_disk. }
  rewrite Ef. destruct (Z.eqb_spec (mgr_latest m1) 0) as [E0|E0].
  - exists os1, found, kept, m1, true. rewrite Em. split_and!; try done. by apply Hkept.
  - destruct (file_recover_loop_spec (machine_ids m1) m1 os1 W1 F1) as (os2 & [m' ok] & E2 & Hs & E3).
    exists os2, found, kept, m', ok. rewrite Em. split_and!; try done; [|by apply Hkept].
    rewrite (recover_loop_ext (disk_dirs os2 (mgr_latest m1)) (disk_dirs os1 (mgr_latest m1)))
      by (intros; by apply disk_dirs_same).
    by rewrite <- E3.
Qed.

End Recover.

(** * Making a checkpoint *)

Notation temp := (parse_path (temp_checkpoint_path_ c)).








(** * Checkpoints of the internal machines *)

Section Checkpoints.
Context {FCL : FixedCodingLaws} {CRL : Crc32cLaws}.
Variables (group_id instance_id : Z) (dir : string) (fuel : nat).
Hypothesis Hg : in_u32 group_id.
Hypothesis Hi : in_u64 instance_id.

(** What one machine wrote in the directory [dir] is what [Recover] finds there. *)
Lemma machine_file_roundtrip {A} `{PA : ProtoCodec A} {PAL : ProtoCodecLaws A} (a : A) id os :
  os_wf os -> fuel_enough fuel os -> node_at os (parse_path dir) = Some Dir ->
  node_at os (parse_path dir ++ [machine_file id]) <> Some Dir ->
  (reads (WriteCheckpoint group_id instance_id a) <= fuel)%nat -> id = 1 \/ id = 2 ->
  exists os1 os2,
    StateMachine_WriteCheckpoint group_id instance_id (dir +:+ "/" +:+ machine_file id) a os = Some (os1, true) /\
    (forall node_id now m, file_recover_machine fuel node_id now group_id id dir m os1 =
       Some (os2, recover_machine node_id now group_id id (Some (WriteCheckpoint group_id instance_id a)) m)) /\
    ReadCheckpoint group_id instance_id (Some (WriteCheckpoint group_id instance_id a)) = (true, Some a).
Proof.
  intros W F Hdir Hfile Hr Hid. set (data := WriteCheckpoint group_id instance_id a).
  set (fname := dir +:+ "/" +:+ machine_file id).
  assert (Hp : parse_path fname = parse_path dir ++ [machine_file id])
    by (apply plain_join, machine_file_plain).
  destruct (DoWriteStringToFile_spec data fname true os W) as (os1 & s & E1 & Hw).
  assert (Hs : Status_ok s = true).
  { destruct Hw as (_ & _ & H). destruct (Status_ok s); [done|].
    destruct H as [[H|H] _]; [by destruct (Quiet_not_faulty Q)|]. rewrite Hp in H.
    destruct H as [H|[_ H]]; [done|]. rewrite parent_snoc in H. done. }
  assert (F1 : (reads (default "" (content os1 (parse_path fname))) <= fuel)%nat)
    by (eapply written_reads; [exact Hw|done|apply F]).
  destruct Hw as (W1 & _ & Hc). rewrite Hs in Hc.
  destruct (ReadFileToString_spec fuel fname os1 W1 F1) as (os2 & [s' d] & E2 & _ & H2).
  assert (Hr' : Status_ok s' = true /\ d = data).
  { cbn [fst snd] in H2. destruct (Status_ok s'); [split; [done|congruence]|].
    destruct H2 as [H2|H2]; [by destruct (Quiet_not_faulty Q)|congruence]. }
  destruct Hr' as [Hs' ->]. exists os1, os2. split_and!.
  - unfold StateMachine_WriteCheckpoint, WriteStringToFileSync, mbind, io_bind. fold data. rewrite E1. by rewrite Hs.
  - intros node_id now m. unfold file_recover_machine.
    assert ((id =? 1) || (id =? 2) = true) as -> by (by destruct Hid as [->| ->]).
    fold (machine_file id). unfold mbind, io_bind. fold fname. rewrite E2. cbn [fst snd]. by rewrite Hs'.
  - unfold data. rewrite checkpoint_file_roundtrip by done. by rewrite !Z.eqb_refl.
Qed.

(** A directory in which machine [id] can write and [Recover] can read. *)
Definition checkpoint_place (id : Z) (os : OS) : Prop :=
  os_wf os /\ fuel_enough fuel os /\ node_at os (parse_path dir) = Some Dir /\
  node_at os (parse_path dir ++ [machine_file id]) <> Some Dir.

(** Checkpoint of the membership machine: while no file operation fails, what the function
    queued by [MakeCheckpoint] writes into the machine's directory, [Recover] reads back
    for the same group and instance: the membership is the one that was stored, and no
    other machine changes. *)
Theorem membership_survives {PML : ProtoCodecLaws Membership} (ms : Membership) (node_id now : Z) (m : manager) (os : OS) :
  checkpoint_place 1 os -> (reads (WriteCheckpoint group_id instance_id ms) <= fuel)%nat ->
  mgr_latest m = instance_id ->
  exists os1 os2,
    membership_checkpoint group_id instance_id dir ms os = Some (os1, true) /\
    file_recover_machine fuel node_id now group_id 1 dir m os1 =
      Some (os2, (set_machines ms (mgr_master m) (mgr_user m) m, true)).
Proof.
  intros (W & F & Hdir & Hfile) Hr El.
  destruct (machine_file_roundtrip ms 1 os W F Hdir Hfile Hr (or_introl eq_refl)) as (os1 & os2 & E1 & E2 & E3).
  exists os1, os2. split; [done|]. rewrite E2. unfold recover_machine, MembershipMachine_Recover.
  cbn [Z.eqb Pos.eqb]. by rewrite El, E3.
Qed.

(** (C34) The lease in a checkpoint of the master machine.  The state stores when the lease ends,
    and [Recover] adds the present time to it: on a node that is not the master the lease
    recovered at time [t1] ends at [t1] plus that moment, which with a clock that
    counts from 1970 is decades away.  Until then [TryBeMaster] proposes nothing on this
    node and arms its timer for that end; the master itself has no lease any more. *)
Theorem recovered_lease {PSL : ProtoCodecLaws MasterState} (st : MasterState) (node_id t1 : Z) (m : manager) (os : OS) :
  checkpoint_place 2 os -> (reads (WriteCheckpoint group_id instance_id st) <= fuel)%nat ->
  mgr_latest m = instance_id -> 0 <= t1 -> 0 <= mst_lease_time st -> t1 + mst_lease_time st < 2 ^ 64 ->
  exists os1 os2 m',
    master_checkpoint group_id instance_id dir st os = Some (os1, true) /\
    file_recover_machine fuel node_id t1 group_id 2 dir m os1 = Some (os2, (m', true)) /\
    mst_lease_time (mgr_master m') =
      (if mst_node_id st =? node_id then t1 else t1 + mst_lease_time st) /\
    (mst_node_id st = node_id -> forall now, t1 <= now -> MasterMachine_IsMaster node_id now (mgr_master m') = false) /\
    (mst_node_id st <> node_id ->
     forall (LD : LevelDB) (CM : CheckpointManager) (AL : Allocator) (env : CheckpointEnv)
       (g : GroupModel.group env) (now : Z),
     GroupModel.GetMasterState env g = mgr_master m' -> cf_node_id (config_ (g_node env g)) = node_id ->
     now < t1 + mst_lease_time st ->
     TryBeMaster env now g = arm_master env (t1 + mst_lease_time st) (g_propose_end env g) g).
Proof.
  intros (W & F & Hdir & Hfile) Hr El Ht Hl Hsum.
  destruct (machine_file_roundtrip st 2 os W F Hdir Hfile Hr (or_intror eq_refl)) as (os1 & os2 & E1 & E2 & E3).
  exists os1, os2. eexists. split; [done|]. rewrite E2. unfold recover_machine, MasterMachine_Recover.
  cbn [Z.eqb Pos.eqb]. rewrite El, E3. cbn [default from_option id]. split; [reflexivity|].
  cbn [set_machines mgr_master mst_lease_time mst_node_id mst_version].
  rewrite add64_small by lia. destruct (Z.eqb_spec (mst_node_id st) node_id) as [E|E]; cbn [negb].
  - split; [done|]. split; [|done]. intros _ now Hn. unfold MasterMachine_IsMaster. cbn.
    rewrite (proj2 (Z.ltb_ge now t1)) by lia. by rewrite andb_false_r.
  - split; [done|]. split; [done|]. intros _ LD CM AL env g now Eg Ec Hn.
    unfold TryBeMaster. rewrite Eg, Ec. cbn.
    rewrite (proj2 (Z.leb_gt (t1 + mst_lease_time st) now)), (proj2 (Z.eqb_neq _ _) E) by lia. done.
Qed.

End Checkpoints.
End MachineFiles.
