(* ===== verification/SenderFileModel.v ===== *)
(** Model of [log/checkpoint_sender.cc] on the file system: what it asks the machine manager
    for, and the files it opens and reads, in the monad [io] of [FileModel].  The objects and the
    messages are those of [CheckpointModel]; [acks] gives the confirmations that arrive until
    [CheckReceive] returns. *)

From S2P Require Import Prelude Proto Util Storage NodeState System Simulation MachinesModel CheckpointModel.
From S2P Require Import FileModel CheckpointFileModel MachineFileModel.
From Stdlib Require Import Ascii.

(** [if (dir[dir.size() - 1] != '/') dir += '/'] on a string that is not empty. *)
Definition with_slash (dir : string) : string :=
  if decide (last_char dir = Some "/"%char) then dir else dir +:+ "/".

Section Sender.
Context {PX : Posix}.
Variable c : ConfigPaths.
Variable acks : Z -> list CheckpointMessage.
Variable node_id : Z.
Variable fuel : nat.                 (* bounds the reads of one file *)

(** The loop of [SendFile]; the file object is read on. *)
Fixpoint file_SendFile_loop (fuel : nat) (instance_id machine_id : Z) (file : string) (offset : Z)
    (seq_file : PosixSequentialFile) (s : Sender)
  : io (PosixSequentialFile * (Sender * list CheckpointMessage * bool)) :=
  match fuel with
  | O => mret (seq_file, (s, [], true))
  | S fuel =>
      x ← Sequential_Read kBufferSize seq_file;
      let '(seq_file, status, fragment) := x in
      if negb (Status_ok status) then mret (seq_file, (s, [], false))
      else if decide (fragment = ""%string) then mret (seq_file, (s, [], true))
      else
        let offset := offset + Z.of_nat (String.length fragment) in
        let msg := mkCheckpointMessage CHECKPOINT_FILE node_id instance_id (snd_sequence_id s)
                     machine_id file offset fragment false in
        let '(s', res) := CheckReceive (acks (snd_sequence_id s)) (next_sequence s) in
        if res then
          y ← file_SendFile_loop fuel instance_id machine_id file offset seq_file s';
          let '(seq_file, (s', msgs, res)) := y in
          mret (seq_file, (s', msg :: msgs, res))
        else mret (seq_file, (s', [msg], false))
  end.

Definition file_SendFile (instance_id machine_id : Z) (dir file : string) (s : Sender)
  : io (Sender * list CheckpointMessage * bool) :=
  x ← NewSequentialFile (dir +:+ file);
  match x with
  | (_, None) => mret (s, [], false)
  | (_, Some seq_file) =>
      y ← file_SendFile_loop fuel instance_id machine_id file 0 seq_file s;
      _ ← Sequential_delete y.1;
      mret y.2
  end.

(** The loop over one machine's files; [break] ends it. *)
Fixpoint file_send_files (instance_id machine_id : Z) (dir : string) (files : list string) (s : Sender)
  : io (Sender * list CheckpointMessage * bool) :=
  match files with
  | [] => mret (s, [], true)
  | file :: files =>
      x ← file_SendFile instance_id machine_id dir file s;
      let '(s, msgs, res) := x in
      if res : bool then
        y ← file_send_files instance_id machine_id dir files s;
        let '(s, msgs', res) := y in
        mret (s, msgs ++ msgs', res)
      else mret (s, msgs, false)
  end.

Section Machines.
Context {UM : UserMachines}.
Variable user : Z -> option (list string).  (* GetCheckpoint of a machine of the application *)

(** The loop over the machines; [res] is overwritten by the next machine. *)
Fixpoint file_SendCheckpointFiles_loop (instance_id : Z) (m : manager) (ids : list Z) (res : bool)
    (s : Sender) : io (Sender * list CheckpointMessage * bool) :=
  match ids with
  | [] => mret (s, [], res)
  | id :: ids =>
      x ← file_GetCheckpoint c user instance_id id m;
      match x with
      | None => mret (s, [], false)
      | Some (None, _) | Some (_, []) => file_SendCheckpointFiles_loop instance_id m ids true s
      | Some (Some dir, files) =>
          y ← file_send_files instance_id id (with_slash dir) files s;
          let '(s, msgs, res) := y in
          z ← file_SendCheckpointFiles_loop instance_id m ids res s;
          let '(s, msgs', res) := z in
          mret (s, msgs ++ msgs', res)
      end
  end.

(** The third component is the messages sent to [receiver_node_id_]. *)
Definition file_SendCheckpoint (to : Z) (m : manager) (s : Sender)
  : io (manager * Sender * list CheckpointMessage * bool) :=
  let s := mkSender to 0 0 true in
  match TryLockCheckpoint m with
  | (m, false) => mret (m, s, [], false)
  | (m, true) =>
      let instance_id := mgr_latest m in
      let '(s, begin_) := BeginToSend node_id instance_id s in
      x ← file_SendCheckpointFiles_loop instance_id m (machine_ids m) true s;
      let '(s, msgs, res) := x in
      let end_ := if res : bool then [EndToSend node_id instance_id s] else [] in
      mret (UnLockCheckpoint m, s, begin_ :: msgs ++ end_, res)
  end.

End Machines.
End Sender.
