(* ===== verification/SenderFiles.v ===== *)
(** The sender of checkpoints on the disk: it sends what the sender of [CheckpointModel] sends
    when the files of the system are its environment, and a transfer from disk to disk. *)

From S2P Require Import Prelude Proto Util Storage NodeState System Simulation MachinesModel CheckpointModel.
From S2P Require Import FileModel Files FileSpecs CheckpointFileModel Checkpoints CheckpointFiles ReceiverFiles.
From S2P Require Import TransferFiles MachineFileModel MachineFiles SenderFileModel.
From Stdlib Require Import Ascii.

(** * Strings *)

Lemma last_char_app a b : b <> ""%string -> last_char (a +:+ b) = last_char b.
Proof.
  intros Hb. induction a as [|x a IH]; [done|].
  change (String x a +:+ b) with (String x (a +:+ b)). rewrite <- IH. cbn [last_char].
  destruct (a +:+ b) eqn:E; [|done]. destruct a; [|done]. by destruct Hb.
Qed.

Lemma no_slash_last s : no_slash s -> last_char s <> Some "/"%char.
Proof.
  induction s as [|x s IH]; [done|]. intros [Hx Hs]%no_slash_cons. cbn [last_char].
  destruct s; [congruence|by apply IH].
Qed.

(** The path of a machine gets its slash. *)
Lemma with_slash_machine c i id :
  with_slash (GetMachineCheckpointPath c i id) = GetMachineCheckpointPath c i id +:+ "/".
Proof.
  unfold with_slash. rewrite decide_False; [done|]. unfold GetMachineCheckpointPath.
  rewrite last_char_app by done. rewrite (last_char_app "/") by done. apply no_slash_last, no_slash_cons. split; [done|apply no_slash_pretty].
Qed.

Lemma str_from_skip n s : str_from n s = str_skip n s.
Proof.
  pose proof (substring_split n s) as E. rewrite <- (str_take_skip n s) in E at 3.
  by apply (inj (String.append _)) in E.
Qed.

(** * The machines and their files *)

Lemma elem_of_machine_ids {UM : UserMachines} id m : id ∈ machine_ids m <-> id ∈ mgr_ids m.
Proof. unfold machine_ids. rewrite merge_sort_Permutation. apply elem_of_elements. Qed.

Lemma NoDup_machine_ids {UM : UserMachines} m : NoDup (machine_ids m).
Proof. unfold machine_ids. rewrite merge_sort_Permutation. apply NoDup_elements. Qed.

Lemma elem_of_keys (F : Z -> list string) ids k :
  k ∈ mjoin ((fun id => pair id <$> F id) <$> ids) <-> k.1 ∈ ids /\ k.2 ∈ F k.1.
Proof.
  rewrite list_elem_of_join. split.
  - intros (l & Hk & (id & -> & Hid)%list_elem_of_fmap). by apply list_elem_of_fmap in Hk as (f & -> & Hf).
  - intros [H1 H2]. exists (pair k.1 <$> F k.1). split; apply list_elem_of_fmap; [exists k.2|exists k.1]; by destruct k.
Qed.

Lemma NoDup_keys (F : Z -> list string) ids :
  NoDup ids -> (forall id, id ∈ ids -> NoDup (F id)) -> NoDup (mjoin ((fun id => pair id <$> F id) <$> ids)).
Proof.
  intros Hids HF. induction Hids as [|id ids Hid Hnd IH]; [constructor|].
  change (NoDup ((pair id <$> F id) ++ mjoin ((fun id => pair id <$> F id) <$> ids))).
  apply NoDup_app. split_and!; [apply NoDup_fmap_2; [by intros ?? [= ->]|apply HF; by left]| |].
  - intros k (f & -> & _)%list_elem_of_fmap [Hk _]%elem_of_keys. by apply Hid.
  - apply IH. intros id' H. apply HF. by right.
Qed.

(** * The files as an environment *)

Section Sender.
Context {PX : Posix} {Q : Quiet}.

(** A read without faults. *)
Lemma Read_quiet n i rest f os :
  reading i rest (sq_file f) os ->
  wp (Sequential_Read n f) (fun '(f', s, got) os' =>
    same_files os os' /\ Status_ok s = true /\ got = str_take n rest /\
    reading i (str_skip n rest) (sq_file f') os') os.
Proof.
  intros H. apply wp_bind, wp_call. destruct (rd_eof (sq_file f)) eqn:Ee.
  { pose proof (r_eof _ _ _ _ H Ee) as ->. apply wp_ret. cbn [sq_file]. rewrite Ee.
    split_and!; [done|by destruct (_ <? _)%nat|by destruct n|]. destruct H. by split. }
  rewrite (r_ino _ _ _ _ H), Q. cbn zeta. change (os_data (tick os)) with (os_data os).
  rewrite (r_rest _ _ _ _ H). apply wp_ret. cbn [sq_file rd_eof].
  assert (Hs : (String.length (str_take n rest) < n)%nat -> str_skip n rest = ""%string).
  { rewrite length_str_take. intros ?. apply str_skip_all. lia. }
  split_and!; [done|by destruct (_ <? _)%nat|done|].
  apply reading_advance; [by destruct H; split|]. by intros ?%Nat.ltb_lt%Hs.
Qed.

Variable c : ConfigPaths.
Variable acks : Z -> list CheckpointMessage.
Variables (node_id instance_id : Z) (fuel : nat).
Variable user : Z -> option (list string).
Variable os0 : OS.
Hypothesis W : os_wf os0.
Hypothesis Hfuel : forall k, (String.length (default "" (content os0 k)) < fuel)%nat.

(** A directory opens like a file and cannot be read, which has the effect of not opening it. *)
Definition disk_env : SendEnv := {|
  se_path := GetMachineCheckpointPath c instance_id;
  se_exists id := bool_decide (node_at os0 (parse_path (GetMachineCheckpointPath c instance_id id)) <> None);
  se_listing := machine_GetCheckpoint user;
  se_open fname := content os0 (parse_path fname);
  se_read_fail _ _ := false;
  se_acks := acks;
|}.

(** [m] does to the disk nothing and computes [a]. *)
Definition computes {A} (m : io A) (a : A) : Prop :=
  forall os, same_files os0 os -> wp m (fun r os' => same_files os0 os' /\ r = a) os.

Lemma computes_ret {A} (a : A) : computes (mret a) a.
Proof. intros os H. by apply wp_ret. Qed.

Lemma computes_bind {A B} (m : io A) (f : A -> io B) a b :
  computes m a -> computes (f a) b -> computes (m ≫= f) b.
Proof.
  intros Hm Hf os H. apply wp_bind. eapply wp_mono; [by apply Hm|]. intros r os' [H' ->]. by apply Hf.
Qed.

Lemma SendFile_loop_disk id fname file :
  forall i k k' rest off f s os,
  reading i rest (sq_file f) os -> (String.length rest < k)%nat -> (String.length rest < k')%nat ->
  wp (file_SendFile_loop acks node_id k instance_id id file off f s) (fun r os' => same_files os os' /\
    r.2 = SendFile_loop disk_env node_id k' instance_id id fname file rest off s) os.
Proof.
  intros i k. induction k as [|k IH]; intros k' rest off f s os Hr Hk Hk'; [lia|].
  destruct k' as [|k']; [lia|]. cbn [file_SendFile_loop SendFile_loop se_read_fail disk_env].
  apply wp_bind. eapply wp_mono; [by apply Read_quiet|].
  intros [[f' st] got] os1 (Hs & -> & -> & Hr1). cbn [negb].
  change (String.substring 0 kBufferSize rest) with (str_take kBufferSize rest).
  case_decide as Hg; [by apply wp_ret|].
  assert (Hl : (String.length (str_skip kBufferSize rest) < String.length rest)%nat).
  { rewrite <- str_from_skip. apply str_from_shorter; [apply Checkpoints.kBufferSize_pos|]. intros ->. by apply Hg. }
  change (se_acks disk_env) with acks.
  destruct (CheckReceive _ _) as [s1 [|]]; [|by apply wp_ret].
  rewrite str_from_skip. apply wp_bind. eapply wp_mono; [apply (IH k'); [exact Hr1|lia|lia]|].
  intros [f2 r] os2 [Hs2 Er]. cbn [snd] in Er. subst r.
  destruct (SendFile_loop _ _ _ _ _ _ _ _ _ _) as [[s2 msgs] res]. apply wp_ret. split; [by etrans|done].
Qed.

Lemma SendFile_disk id dir file s :
  computes (file_SendFile acks node_id fuel instance_id id dir file s)
    (SendFile disk_env node_id instance_id id dir file s).
Proof.
  intros os H. unfold file_SendFile, NewSequentialFile, SendFile. set (p := parse_path (dir +:+ file)).
  assert (Eo : se_open disk_env (dir +:+ file) = content os p) by (exact (content_proper _ _ H _ _ eq_refl)).
  rewrite Eo. apply wp_bind, wp_bind. apply wp_call_or_fail; [by rewrite Q|].
  change (node_at (tick os) p) with (node_at os p).
  destruct (node_at os p) as [[|i]|] eqn:En; apply wp_ret; cbn [opened];
    [| |apply wp_ret; unfold content; by rewrite En].
  - (* a directory *)
    assert (0 < fuel)%nat by (pose proof (Hfuel p); lia). destruct fuel as [|k]; [lia|].
    cbn [file_SendFile_loop]. unfold content. rewrite En.
    apply wp_bind, wp_bind, wp_bind, wp_call. cbn [sq_file rd_eof rd_ino]. apply wp_ret. cbn [String.length rd_eof].
    rewrite (proj2 (Nat.ltb_lt _ _) Checkpoints.kBufferSize_pos), IOError_not_ok.
    apply wp_ret, wp_bind, wp_call, wp_ret. done.
  - assert (W1 : os_wf os) by (by rewrite <- H).
    destruct (content_reg _ _ _ W1 En) as (d & Hc & Hi). rewrite Hc.
    pose proof (Hfuel p) as Hp. rewrite (content_proper _ _ H _ _ eq_refl), Hc in Hp. cbn in Hp.
    apply wp_bind. eapply wp_mono.
    { apply (SendFile_loop_disk id (dir +:+ file) file) with (i := i) (rest := d) (k' := S (String.length d)); [split; try done|lia|lia].
      cbn. rewrite Hi. by apply str_drop_0. }
    intros [f r] os2 [Hs Hr]. apply wp_bind, wp_call, wp_ret. split; [by etrans|done].
Qed.

Lemma send_files_disk id dir files s :
  computes (file_send_files acks node_id fuel instance_id id dir files s)
    (send_files disk_env node_id instance_id id dir files s).
Proof.
  revert s. induction files as [|file files IH]; intros s; cbn [file_send_files send_files]; [apply computes_ret|].
  eapply computes_bind; [apply SendFile_disk|]. destruct (SendFile _ _ _ _ _ _ _) as [[s1 l] [|]]; [|apply computes_ret].
  eapply computes_bind; [apply IH|]. destruct (send_files _ _ _ _ _ _ _) as [[s2 l'] b]. apply computes_ret.
Qed.

Context {UM : UserMachines}.

Lemma GetCheckpoint_disk id m :
  computes (file_GetCheckpoint c user instance_id id m)
    (GetCheckpoint instance_id id (se_path disk_env id) (se_exists disk_env id) (se_listing disk_env id) m).
Proof.
  unfold file_GetCheckpoint. destruct (Z.eqb_spec instance_id 0) as [E|E].
  { cbn [orb]. unfold GetCheckpoint. rewrite E. apply computes_ret. }
  destruct (decide (id ∈ mgr_ids m)) as [Hin|Hin].
  - rewrite bool_decide_eq_true_2 by done. intros os H. apply wp_bind.
    eapply wp_mono; [apply FileExists_quiet|]. intros found os1 [Hs Hf]. apply wp_ret. split; [by etrans|].
    f_equal. cbn. rewrite (node_at_proper _ _ H _ _ eq_refl).
    destruct found; symmetry; [by apply bool_decide_eq_true, Hf|]. apply bool_decide_eq_false. by intros ?%Hf.
  - rewrite bool_decide_eq_false_2 by done. cbn [orb negb]. unfold GetCheckpoint.
    apply Z.eqb_neq in E. rewrite E, !decide_False by done. apply computes_ret.
Qed.

(** The directory [GetCheckpoint] answers gets its slash. *)
Lemma GetCheckpoint_slash id m dir files :
  GetCheckpoint instance_id id (se_path disk_env id) (se_exists disk_env id) (se_listing disk_env id) m
    = Some (Some dir, files) -> with_slash dir = dir +:+ "/".
Proof.
  intros ->%GetCheckpoint_dir. apply with_slash_machine.
Qed.

Lemma SendCheckpointFiles_disk m ids b s :
  computes (file_SendCheckpointFiles_loop c acks node_id fuel user instance_id m ids b s)
    (SendCheckpointFiles_loop disk_env node_id instance_id m ids b s).
Proof.
  revert b s. induction ids as [|id ids IH]; intros b s;
    cbn [file_SendCheckpointFiles_loop SendCheckpointFiles_loop]; [apply computes_ret|].
  eapply computes_bind; [apply GetCheckpoint_disk|].
  destruct (GetCheckpoint _ _ _ _ _ _) as [[[dir|] files]|] eqn:E; [|apply IH|apply computes_ret].
  destruct files as [|f files]; [apply IH|]. rewrite (GetCheckpoint_slash _ _ _ _ E).
  eapply computes_bind; [apply send_files_disk|]. destruct (send_files _ _ _ _ _ _ _) as [[s1 l] b1].
  eapply computes_bind; [apply IH|]. destruct (SendCheckpointFiles_loop _ _ _ _ _ _ _) as [[s2 l'] b2].
  apply computes_ret.
Qed.

End Sender.

(** * From disk to disk *)

Section Transfer.
Context {PX : Posix} {PL : PosixLaws} {Q : Quiet} {UM : UserMachines}.
Variables cs c : ConfigPaths.        (* the directories of the sender and of the receiver *)
Variable acks : Z -> list CheckpointMessage.
Variable fuel : nat.
Variable user : Z -> option (list string).

Lemma SendCheckpoint_disk me to m s os :
  os_wf os -> (forall k, (String.length (default "" (content os k)) < fuel)%nat) ->
  wp (file_SendCheckpoint cs acks me fuel user to m s) (fun r os' => same_files os os' /\
    r = SendCheckpoint (disk_env cs acks (mgr_latest m) user os) me to m s) os.
Proof.
  intros W Hf. unfold file_SendCheckpoint, SendCheckpoint, TryLockCheckpoint.
  destruct (mgr_locked m); [by apply wp_ret|]. cbn [BeginToSend].
  apply (computes_bind os _ _ _ _ (SendCheckpointFiles_disk cs acks me (mgr_latest m) fuel user os W Hf _ _ _ _)); [|done].
  unfold SendCheckpointFiles. change (mgr_latest (set_locked true m)) with (mgr_latest m).
  destruct (SendCheckpointFiles_loop _ _ _ _ _ _ _) as [[s1 msgs] b]. apply computes_ret.
Qed.

Definition machine_dir (p : ConfigPaths) (i id : Z) : path :=
  parse_path (checkpoint_path_ p) ++ [cname i; mname id].

(** The files of a machine in the checkpoint [i]. *)
Definition stored (os : OS) (i id : Z) : list string :=
  match node_at os (machine_dir cs i id) with
  | None => []
  | Some _ => default [] (machine_GetCheckpoint user id)
  end.

(** The checkpoint [i] of the machines of [m] is complete: every machine can list its files, and
    they are there. *)
Definition complete_checkpoint (os : OS) (i : Z) (m : manager) : Prop :=
  i <> 0 /\ forall id, id ∈ machine_ids m -> machine_GetCheckpoint user id <> None /\ NoDup (stored os i id) /\
    forall f, f ∈ stored os i id -> plain f /\ is_Some (content os (machine_dir cs i id ++ [f])).

Section Env.
Variables (os : OS) (i : Z) (m : manager).
Notation env := (disk_env cs acks i user os).

Lemma machine_path_dir id : parse_path (GetMachineCheckpointPath cs i id) = machine_dir cs i id.
Proof. rewrite machine_path. unfold machine_dir. by rewrite <- app_assoc. Qed.

Lemma listed_stored id : i <> 0 -> id ∈ machine_ids m -> machine_GetCheckpoint user id <> None ->
  listed env i m id = stored os i id /\
  is_Some (GetCheckpoint i id (se_path env id) (se_exists env id) (se_listing env id) m).
Proof.
  intros Hi Hid Hl. unfold listed, stored, GetCheckpoint. apply Z.eqb_neq in Hi. rewrite Hi, decide_True by (by apply elem_of_machine_ids).
  cbn [disk_env se_path se_exists se_listing]. rewrite machine_path_dir.
  destruct (node_at os (machine_dir cs i id)); simpl; [|by eauto].
  destruct (machine_GetCheckpoint user id); [eauto|done].
Qed.

Lemma file_path_dir id f : plain f ->
  parse_path ((GetMachineCheckpointPath cs i id +:+ "/") +:+ f) = machine_dir cs i id ++ [f].
Proof. intros H. by rewrite app_string_assoc, (plain_join _ _ H), machine_path_dir. Qed.

Hypothesis Hc : complete_checkpoint os i m.

Lemma files_listed id : id ∈ machine_ids m -> listed env i m id = stored os i id.
Proof. intros Hid. by apply listed_stored; [apply Hc|done|apply Hc]. Qed.

Lemma content_listed id f : id ∈ machine_ids m -> f ∈ stored os i id ->
  content_of_file env id f = default ""%string (content os (machine_dir cs i id ++ [f])).
Proof.
  intros Hid Hf. unfold content_of_file. cbn [se_open se_path disk_env]. rewrite file_path_dir; [done|].
  by apply (proj2 Hc id Hid).
Qed.

Lemma files_can_open id : id ∈ machine_ids m -> files_open env id (listed env i m id).
Proof.
  intros Hid f. rewrite files_listed by done. intros Hf.
  destruct (proj2 (proj2 (proj2 Hc id Hid)) f Hf) as [Hp Hs].
  cbn [se_open se_path disk_env]. by rewrite file_path_dir.
Qed.

Lemma all_files_keys :
  (all_files env i m (machine_ids m)).*1 = mjoin ((fun id => pair id <$> stored os i id) <$> machine_ids m).
Proof.
  unfold all_files. assert (H : forall id, id ∈ machine_ids m -> listed env i m id = stored os i id) by apply files_listed.
  revert H. induction (machine_ids m) as [|id ids IH]; intros H; [done|]. cbn [fmap list_fmap mjoin list_join].
  rewrite fmap_app, <- list_fmap_compose, <- H by (by left). f_equal. apply IH. intros id' Hid. apply H. by right.
Qed.

Lemma elem_of_all_files id f :
  id ∈ machine_ids m -> f ∈ stored os i id -> ((id, f), content_of_file env id f) ∈ all_files env i m (machine_ids m).
Proof.
  intros Hid Hf. unfold all_files. apply list_elem_of_join. exists (named env id <$> listed env i m id).
  split; apply list_elem_of_fmap; [exists f|by exists id]. split; [done|]. by rewrite files_listed.
Qed.

End Env.

(** What of a file arrives: an empty one does not. *)
Definition arriving (d : option string) : option string :=
  match d with Some EmptyString => None | _ => d end.

(** (C10) A checkpoint transfer from disk to disk, and what it loses.  While no file operation fails
    and no confirmation reports an error, [SendCheckpoint] of a checkpoint whose listed files
    are all there reads every one of them and changes nothing on its disk.  Whichever of its
    messages arrive, first a BEGIN and then in whatever order and how often: the receiver
    handles all of them, and if it installs a checkpoint then each listed file that is not
    empty is in the receiver's checkpoint directory, in the directory of the same machine, with
    the same content; a listed file that is empty is not there, since nothing is sent for it;
    no other file is there, and nothing else on its disk but the temporary directory changed.
    If the messages arrive in the order they were sent, it does install the checkpoint. *)
Theorem disk_to_disk :
  forall (me to : Z) (m : manager) (s : Sender) (sos os : OS),
  let i := mgr_latest m in
  px_dtype = true -> me <> 0 -> mgr_locked m = false ->
  (forall seq x, x ∈ acks seq -> cm_flag x = true) ->
  os_wf sos -> (forall k, (String.length (default "" (content sos k)) < fuel)%nat) ->
  complete_checkpoint sos i m -> receiver_dirs c i os ->
  exists sos' m' s' sent, file_SendCheckpoint cs acks me fuel user to m s sos = Some (sos', (m', s', sent, true)) /\
    same_files sos sos' /\
    forall b ms fr, cm_type b = CHECKPOINT_BEGIN -> (forall x, x ∈ b :: ms -> x ∈ sent) ->
    exists os' x, file_installed c (b :: ms) fr os = Some (os', x) /\
      (b :: ms = sent -> x = Some i) /\
      forall j, x = Some j ->
        (forall id f, id ∈ machine_ids m -> f ∈ stored sos i id ->
           content os' (machine_dir c i id ++ [f]) = arriving (content sos (machine_dir cs i id ++ [f]))) /\
        (forall id f, ~ (id ∈ machine_ids m /\ f ∈ stored sos i id) ->
           content os' (machine_dir c i id ++ [f]) = None) /\
        (forall p, ~ parse_path (temp_checkpoint_path_ c) `prefix_of` p ->
           ~ (parse_path (checkpoint_path_ c) ++ [cname i]) `prefix_of` p -> content os' p = content os p).
Proof.
  intros me to m s sos os i Hd Hme Hlock Hacks W Hf Hc Hdirs.
  set (env := disk_env cs acks i user sos).
  destruct (transfer_on_disk env c me to m s os) as (m' & s' & sent & E & H); try done.
  - intros id Hid. split; [|by apply files_can_open].
    apply listed_stored; [apply Hc|done|by apply Hc].
  - fold i. unfold env. rewrite all_files_keys by done.
    apply NoDup_keys; [apply NoDup_machine_ids|]. intros id Hid. by apply Hc.
  - fold i. unfold env. rewrite all_files_keys by done. intros k [Hk1 Hk2]%elem_of_keys. by apply (proj2 Hc k.1 Hk1).
  - destruct (SendCheckpoint_disk me to m s sos W Hf) as (sos' & r & Es & Hs & ->).
    fold i in Es. fold env in Es. rewrite E in Es.
    exists sos', m', s', sent. split_and!; [done|done|]. intros b ms fr Hb Hin.
    destruct (H b ms fr Hb Hin) as (os' & x & Ex & Hall & Hx). exists os', x. split_and!; [done|done|].
    intros j Hj. destruct (Hx j Hj) as (H1 & H2 & H3). fold i in H1, H2, H3. fold env in H1, H2. split_and!; [| |done].
    + intros id f Hid Hfs. destruct (proj2 (proj2 (proj2 Hc id Hid)) f Hfs) as [_ [d Hd']]. rewrite Hd' in *.
      assert (Ec : content_of_file env id f = d) by (unfold env; rewrite (content_listed sos i m) by done; by rewrite Hd').
      assert (E1 : content os' (machine_dir c i id ++ [f]) = if decide (d = ""%string) then None else Some d).
      { unfold machine_dir. rewrite <- app_assoc. apply (H1 (id, f)). rewrite <- Ec. by apply elem_of_all_files. }
      rewrite E1. by destruct d.
    + intros id f Hno. unfold machine_dir. rewrite <- app_assoc. apply (H2 (id, f)). unfold env.
      rewrite all_files_keys by done. by intros ?%elem_of_keys.
Qed.

End Transfer.
