(* ===== verification/NodeModel.v ===== *)
(** Model of how a node is put together: [include/skywalker/options.h] and
    [util/options.cc], the constructor of [paxos/config.cc] and its [Recover], [DB::Open] of
    [storage/db.cc], [Group::Recover] and [Group::Start], the thread pool, and
    [paxos/node_impl.cc] with the interface a client of the library has.

    [leveldb::DB::Open] is the class [LevelDBOpen].  The clock, the states of the
    application's machines and of the checkpoint manager when a group is made are
    parameters by group.  Undefined behaviour and failed assertions are the [None] of
    [io] and of the results. *)

From S2P Require Import Prelude Ballot Proto Storage Random TimerList Counter NodeState.
From S2P Require Import AcceptorModel ProposerModel LearnerModel LogModel InstanceModel.
From S2P Require Import System Simulation MachinesModel ProposeQueue GroupModel Runtime.
From S2P Require Import FileModel CheckpointFileModel MachineFileModel.

(** * Options *)

Record GroupOptions := mkGroupOptions {
  use_master : bool;
  master_lease_time : Z;
  propose_timeout : Z;
  keep_checkpoint_count : Z;
  log_sync : bool;
  sync_interval : Z;
  keep_log_count : Z;
  log_storage_path : string;
  machines : list Z;                 (* the ids of the machines *)
  membership : list Member;
}.

Definition GroupOptions_default : GroupOptions :=
  mkGroupOptions true (10 * 1000) 1000 3 true 5 100000 "" [] [].

(** [my] has no initial value for its numbers. *)
Record Options := mkOptions {
  net_thread_size : nat;
  io_thread_size : nat;
  callback_thread_size : nat;
  learn_thread_size : nat;
  clean_thread_size : nat;
  master_thread_size : nat;
  my : Member;
  groups : list GroupOptions;
  cluster : option Cluster;
}.

Definition Options_default (uninitialised : Member) : Options :=
  mkOptions 1 0 1 1 1 1 uninitialised [] None.

(** * Threads *)

(** The loops of the pool by kind: how many there are and the next one to hand out. *)
Record ThreadPool := mkThreadPool {
  pool_io : nat * nat;
  pool_callback : nat * nat;
  pool_learn : nat * nat;
  pool_clean : nat * nat;
  pool_master : nat * nat;
}.

Definition ThreadPool_Start (io callback learn clean master : nat) : ThreadPool :=
  mkThreadPool (io, 0%nat) (callback, 0%nat) (learn, 0%nat) (clean, 0%nat) (master, 0%nat).

(** The loops of a group. *)
Record GroupLoops := mkGroupLoops {
  io_loop : nat;
  callback_loop : nat;
  learn_loop : nat;
  clean_loop_ : nat;
  master_loop : option nat;
}.

(** The five calls in the argument list of [Start]. *)
Definition take_loops (p : ThreadPool) : ThreadPool * GroupLoops :=
  let '(io, io_next) := GetNextLoop (pool_io p).1 (pool_io p).2 in
  let '(cb, cb_next) := GetNextLoop (pool_callback p).1 (pool_callback p).2 in
  let '(ln, ln_next) := GetNextLoop (pool_learn p).1 (pool_learn p).2 in
  let '(cl, cl_next) := GetNextLoop (pool_clean p).1 (pool_clean p).2 in
  let '(ms, ms_next) := GetNextMasterLoop (pool_master p).1 (pool_master p).2 in
  (mkThreadPool ((pool_io p).1, io_next) ((pool_callback p).1, cb_next) ((pool_learn p).1, ln_next)
     ((pool_clean p).1, cl_next) ((pool_master p).1, ms_next),
   mkGroupLoops io cb ln cl ms).

Fixpoint give_loops (k : nat) (p : ThreadPool) : list GroupLoops :=
  match k with
  | O => []
  | S k => let '(p, l) := take_loops p in l :: give_loops k p
  end.

(** The sizes [StartWorking] computes, with [n] groups. *)
Definition thread_sizes (n : nat) (o : Options) : Options :=
  mkOptions (net_thread_size o) (io_threads (io_thread_size o) n) (other_threads (callback_thread_size o) n)
    (other_threads (learn_thread_size o) n) (other_threads (clean_thread_size o) n)
    (master_threads (master_thread_size o) n) (my o) (groups o) (cluster o).

(** * A group *)

Definition undefined {A} : io A := fun _ => None.

(** What LevelDB finds at a path; [None] is an error. *)
Class LevelDBOpen `{!LevelDB} :=
  ldb_Open : bool (* create_if_missing *) -> Z (* write_buffer_size *) -> string -> option ldb.

Section Node.
Context {PX : Posix} {FC : FixedCoding} {LD : LevelDB} {LO : LevelDBOpen} {CM : CheckpointManager}.
Context {AL : Allocator} {CR : Crc32c} {UM : UserMachines}.
Context {PI : ProtoCodec PaxosInstance} {PCM : ProtoCodec MemberChangeMessage}.
Context {PS : ProtoCodec MasterState} {PM : ProtoCodec Membership}.
Variable env : CheckpointEnv.
Variables (clock : Z -> Z) (user : Z -> um) (new_ckpt : Z -> ckpt) (uninitialised : Z).
Variable fuel : nat.                 (* for the reads of one file *)

Notation group_t := (GroupModel.group env).

(** The arithmetic is that of [uint32_t]. *)
Definition DB_Open (group_id : Z) (name : string) : Z * option ldb :=
  match ldb_Open true (wrap32 (1024 * 1024 + group_id * 10 * 1024)) name with
  | Some db => (0, Some db)
  | None => (-1, None)
  end.

Fixpoint add_machines (ids : list Z) (m : manager) : option manager :=
  match ids with
  | [] => Some m
  | id :: ids => m ← AddMachine id m; add_machines ids m
  end.

(** The constructor.  [manager_new] has the two internal machines already, which are added
    last here: the ids must be distinct either way. *)
Definition Config_new (node_id group_id : Z) (o : GroupOptions) (cl : option Cluster)
  : io (Config * ConfigPaths * manager) :=
  match Config_paths (log_storage_path o) group_id with
  | None => undefined
  | Some paths =>
      _ ← CreateDir (log_storage_path o);
      match add_machines (machines o)
        (manager_new (MembershipMachine_new (membership o)) (user group_id) (keep_log_count o)
           (Z.to_nat (keep_checkpoint_count o)) [] uninitialised) with
      | None => undefined
      | Some m =>
          mret (mkConfig node_id group_id (propose_timeout o) (log_sync o) (sync_interval o)
                  (keep_log_count o) cl, paths, m)
      end
  end.

Definition Config_Recover (c : Config) (paths : ConfigPaths) (m : manager) : io (option (ldb * manager)) :=
  ok ← Config_prepare paths;
  if negb ok then mret None
  else
    match (DB_Open (cf_group_id c) (log_path_ paths)).2 with
    | None => mret None
    | Some db =>
        x ← file_MachineManager_Recover paths fuel (cf_node_id c) (clock (cf_group_id c)) (cf_group_id c) m;
        mret (if x.2 : bool then Some (db, x.1) else None)
    end.

(** The constructor of [Group] and [Recover]; the members of [Instance] do not depend on
    what [Config::Recover] finds. *)
Definition Group_open (node_id group_id : Z) (o : GroupOptions) (cl : option Cluster) : io (option group_t) :=
  x ← Config_new node_id group_id o cl;
  let '(c, paths, m) := x in
  r ← Config_Recover c paths m;
  mret match r with
       | None => None
       | Some (db, m) =>
           let '(n, ok) := Instance_Recover (new_node (MM := group_machines env) c (clock group_id) db m
                             (new_ckpt group_id)) in
           if ok then Some (Group_new env n (use_master o) (master_lease_time o) (clock group_id)) else None
       end.

(** [Group::Start]: from now on the machine manager makes checkpoints. *)
Definition set_io_loop (m : manager) : manager :=
  mkManager (mgr_membership m) (mgr_master m) (mgr_user m) (mgr_ids m) (mgr_keep_log m)
    (mgr_keep_checkpoints m) true (mgr_locked m) (mgr_disk m) (mgr_checkpoints m)
    (mgr_latest m) (mgr_oldest m) (mgr_making m) (mgr_making_ids m).

Definition Group_Start (g : group_t) : group_t :=
  with_node env (g_node env g <| mm_ ::= (fun m : @mm (group_machines env) => set_io_loop m) |>) g.

Definition Group_StartGC (g : group_t) : group_t := with_node env (StartGC (g_node env g)) g.
Definition Group_StopGC (g : group_t) : group_t := with_node env (StopGC (g_node env g)) g.

(** * The node *)

Record NodeImpl := mkNodeImpl {
  stop_ : bool;
  options_ : Options;
  loops_ : list GroupLoops;
  groups_ : list group_t;
}.

Fixpoint open_groups (node_id i : Z) (cl : option Cluster) (gs : list GroupOptions) : io (list group_t * bool) :=
  match gs with
  | [] => mret ([], true)
  | o :: gs =>
      x ← Group_open node_id i o cl;
      match x with
      | None => mret ([], false)
      | Some g => y ← open_groups node_id (i + 1) cl gs; mret (g :: y.1, y.2)
      end
  end.

(** Up to the start of the server; what follows is one [Sync] per group, each an event of
    its group, in the order of a shuffle. *)
Definition StartWorking (o : Options) : io (NodeImpl * bool) :=
  x ← open_groups (m_id (my o)) 0 (cluster o) (groups o);
  let '(gs, ok) := x in
  if negb ok then mret (mkNodeImpl false o [] gs, false)
  else
    let o := thread_sizes (length gs) o in
    if (io_thread_size o =? 0)%nat || (callback_thread_size o =? 0)%nat
       || (learn_thread_size o =? 0)%nat || (clean_thread_size o =? 0)%nat
    then undefined                   (* an assertion *)
    else
      let pool := ThreadPool_Start (io_thread_size o) (callback_thread_size o) (learn_thread_size o)
                    (clean_thread_size o) (master_thread_size o) in
      mret (mkNodeImpl false o (give_loops (length gs) pool)
              ((fun g : group_t => Group_StartGC (Group_Start g)) <$> gs), true).

(** The end of [StartWorking]: [Sync] of one group after the other, in the shuffled order
    [order].  What [Sync] queues into the io loop of a group is the event [EvSyncData]. *)
Definition sync_groups (order : list nat) (now : Z) (gs : list group_t) : list group_t :=
  foldl (fun gs i => alter (Group_Sync env now) i gs) gs order.

(** [Node::Start]: the pointer it stores. *)
Definition Node_Start (o : Options) : io (option NodeImpl) :=
  x ← StartWorking o; mret (if x.2 : bool then Some x.1 else None).

(** ** The interface *)

Definition group_size (n : NodeImpl) : nat := length (groups_ n).

(** [groups_[group_id]]; an index out of range is undefined behaviour. *)
Definition in_group {A} (group_id : Z) (f : group_t -> A) (n : NodeImpl) : option A :=
  f <$> groups_ n !! Z.to_nat group_id.

Definition change_group {A} (group_id : Z) (f : group_t -> group_t * A) (n : NodeImpl) : option (NodeImpl * A) :=
  g ← groups_ n !! Z.to_nat group_id;
  let '(g, a) := f g in
  Some (mkNodeImpl (stop_ n) (options_ n) (loops_ n) (<[Z.to_nat group_id := g]> (groups_ n)), a).

Definition Node_Propose (group_id machine_id : Z) (value : string) (context : Z) (cb : Callback) :=
  change_group group_id (Group_OnPropose env machine_id value context cb).

Definition Node_ChangeMember (group_id : Z) (value : list (Member * bool)) (context : Z) (cb : Callback) :=
  change_group group_id (ChangeMember env value context cb).

(** A content of the network goes to its group, if there is one; [None] is an assertion that
    failed in the group. *)
Definition Node_OnContent (c : Content) (n : NodeImpl) : option NodeImpl :=
  if stop_ n then Some n
  else
    match groups_ n !! Z.to_nat (ct_group_id c) with
    | Some g =>
        g' ← group_step env (GNode (EvContent c)) g;
        Some (mkNodeImpl (stop_ n) (options_ n) (loops_ n) (<[Z.to_nat (ct_group_id c) := g']> (groups_ n)))
    | None => Some n
    end.

Definition Node_GetMembership (group_id : Z) := in_group group_id (Group_GetMembership env).
Definition Node_GetMaster (group_id now_micros : Z) := in_group group_id (Group_GetMaster env now_micros).
Definition Node_IsMaster (group_id now : Z) := in_group group_id (Group_IsMaster env now).

Definition Node_RetireMaster (group_id : Z) := change_group group_id (fun g => (RetireMaster env g, tt)).
Definition Node_StartGC (group_id : Z) := change_group group_id (fun g => (Group_StartGC g, tt)).
Definition Node_StopGC (group_id : Z) := change_group group_id (fun g => (Group_StopGC g, tt)).

End Node.
