(* ===== verification/Nodes.v ===== *)
(** A node from its options to running groups: the directories of its groups, and that a
    node started on empty storage has, for each group, an instance from which the
    agreement theorem starts. *)

From S2P Require Import Prelude Ballot Proto Util Storage Random TimerList Counter NodeState.
From S2P Require Import AcceptorModel ProposerModel LearnerModel LogModel InstanceModel.
From S2P Require Import System Simulation Refinement MachinesModel CheckpointModel ProposeQueue GroupModel Runtime.
From S2P Require Import FileModel Files FileSpecs CheckpointFileModel CheckpointFiles CleanFiles.
From S2P Require Import MachineFileModel MachineFiles NodeModel.
From Stdlib Require Import Ascii.

(** * The directories of the groups *)

Lemma length_printed k x s :
  (x < 10 ^ N.of_nat k)%N -> (String.length (pretty_N_go x s) <= k + String.length s)%nat.
Proof.
  revert x s. induction k as [|k IH]; intros x s H.
  - assert (x = 0)%N as -> by (simpl in H; lia). by rewrite pretty_N_go_0.
  - assert (x = 0 \/ 0 < x)%N as [->|Hx] by lia; [rewrite pretty_N_go_0; lia|].
    rewrite pretty_N_go_step by done. etrans; [apply IH|simpl; lia].
    rewrite Nat2N.inj_succ, N.pow_succ_r' in H. apply N.Div0.div_lt_upper_bound; lia.
Qed.

Lemma length_group g : 0 <= g < 100000 -> (String.length (pretty g) <= 5)%nat.
Proof.
  intros H. destruct g as [|p|p]; [simpl; lia| |lia].
  change (pretty (Zpos p)) with (pretty_N_go (Npos p) "").
  pose proof (length_printed 5 (Npos p) "") as L. simpl (String.length "") in L. apply L. simpl. lia.
Qed.

Lemma app_string_inj (a b b' : string) : a +:+ b = a +:+ b' -> b = b'.
Proof. induction a as [|c a IH]; [done|]. intros [= H]. by apply IH. Qed.

Lemma last_char_None p : last_char p = None <-> p = ""%string.
Proof.
  destruct p as [|c p]; [done|]. split; [|done]. revert c. induction p as [|c' p IH]; intros c; [done|].
  intros H. by apply (IH c') in H.
Qed.

(** The directories of a group.  With a storage path that is not empty, different groups
    below 100000 have different directories; but the buffer for the name has eight bytes
    and the name is cut off at seven characters, so that groups 100000 and 100001 share
    their log and checkpoints.  The empty path, which is the default of the options, has
    no last character to look at. *)
Theorem group_directories (path : string) :
  (forall g h, 0 <= g < 100000 -> 0 <= h < 100000 -> path <> ""%string ->
     Config_paths path g = Config_paths path h -> g = h) /\
  (last_char path <> Some "/"%char -> Config_paths path 100000 = Config_paths path 100001) /\
  (forall g, Config_paths path g = None <-> path = ""%string).
Proof.
  split; [|split].
  - intros g h Hg Hh Hp. unfold Config_paths, group_name.
    destruct (last_char path) as [ch|] eqn:E; [|by apply last_char_None in E]. cbn [mbind option_bind].
    intros [= H _ _ _].
    assert (Hlen : forall x pre, 0 <= x < 100000 -> (String.length pre <= 2)%nat ->
      str_take 7 (pre +:+ pretty x) = pre +:+ pretty x).
    { intros x pre Hx Hpre. apply str_take_all. rewrite length_app_string. pose proof (length_group x Hx). lia. }
    apply app_string_inj in H. revert H. case_decide; rewrite !Hlen by (simpl; lia);
      intros H'%app_string_inj; by apply (inj pretty).
  - intros H. unfold Config_paths, group_name. destruct (last_char path) as [ch|]; [|done].
    rewrite !decide_False by congruence. reflexivity.
  - intros g. unfold Config_paths, group_name. rewrite <- last_char_None. by destruct (last_char path).
Qed.


(** * The paths of one group *)

Definition gname (i : Z) : string := "g" +:+ pretty i.

Lemma gname_plain i : plain (gname i).
Proof. apply plain_letter; [done..|apply no_slash_pretty]. Qed.

Lemma last_slash P : last_char P = Some "/"%char -> exists P', P = P' +:+ "/".
Proof.
  induction P as [|c P IH]; [done|]. destruct P as [|c' P].
  - intros [= ->]. by exists ""%string.
  - intros H. destruct (IH H) as [P' E]. exists (String c P'). by rewrite E.
Qed.

(** The directories of group [i] under the path [P]. *)
Lemma group_paths P i :
  P <> ""%string -> 0 <= i < 100000 ->
  exists c, Config_paths P i = Some c /\
    parse_path (log_storage_path_ c) = parse_path P ++ [gname i] /\
    parse_path (checkpoint_path_ c) = parse_path P ++ [gname i; "checkpoint"%string] /\
    parse_path (temp_checkpoint_path_ c) = parse_path P ++ [gname i; "checkpoint"; "tempcheckpoint"]%string.
Proof.
  intros HP Hi. unfold Config_paths, group_name. destruct (last_char P) as [ch|] eqn:E; [|by apply last_char_None in E].
  cbn [mbind option_bind]. eexists. split; [reflexivity|]. cbn [log_storage_path_ checkpoint_path_ temp_checkpoint_path_].
  assert (Hs : parse_path (P +:+ str_take 7 ((if decide (ch = "/"%char) then "g" else "/g") +:+ pretty i))
    = parse_path P ++ [gname i]).
  { rewrite str_take_all by (rewrite length_app_string; pose proof (length_group i Hi); case_decide; simpl; lia).
    case_decide as Hc.
    - subst ch. apply last_slash in E as [P' ->]. rewrite app_string_assoc. change ("g" +:+ pretty i) with (gname i).
      rewrite parse_path_join. change (P' +:+ "/") with (P' +:+ "/" +:+ ""). rewrite parse_path_join.
      rewrite (proj1 (gname_plain i)). by rewrite app_nil_r.
    - change ("/g" +:+ pretty i) with ("/" +:+ gname i). by rewrite (plain_join _ _ (gname_plain i)). }
  assert (H1 : plain "checkpoint") by (by vm_compute). assert (H2 : plain "tempcheckpoint") by (by vm_compute).
  split; [done|]. 
  change "/checkpoint"%string with ("/" +:+ "checkpoint"). change "/tempcheckpoint"%string with ("/" +:+ "tempcheckpoint").
  rewrite !(plain_join _ _ H2), !(plain_join _ _ H1), Hs, <- !app_assoc. done.
Qed.

(** * Opening a group on empty storage *)

(** Only directories below [q] were made. *)
Record grown (q : path) (os os' : OS) : Prop := {
  gr_wf : os_wf os';
  gr_kept : forall k, ~ q `prefix_of` k -> node_at os' k = node_at os k;
}.

Section Quiet.
Context {PX : Posix} {PL : PosixLaws} {Q : Quiet}.

(** [CreateDir] of a path whose parent is a directory leaves a directory there. *)
Lemma CreateDir_made dir os :
  os_wf os -> node_at os (parse_path dir) = None -> node_at os (parent (parse_path dir)) = Some Dir ->
  wp (CreateDir dir) (fun _ os' => os_wf os' /\ node_at os' (parse_path dir) = Some Dir /\
    forall k, k <> parse_path dir -> node_at os' k = node_at os k) os.
Proof.
  intros W Hn Hp. eapply wp_mono; [apply wp_and; [by apply CreateDir_quiet|by apply keeps_wf]|].
  intros s os' [(_ & En & _) W']. pose proof (node_at_None_ne _ _ Hn) as Hne. split; [done|]. split.
  - rewrite node_at_names, En by done. by rewrite lookup_insert_eq.
  - intros k Hk. unfold node_at. case_decide; [done|]. by rewrite En, lookup_insert_ne.
Qed.

(** On an existing directory it changes nothing. *)
Lemma CreateDir_there dir os :
  node_at os (parse_path dir) = Some Dir -> wp (CreateDir dir) (fun _ os' => same_files os os') os.
Proof.
  intros H. unfold CreateDir. apply wp_bind, wp_quiet.
  change (node_at (tick os)) with (node_at os). rewrite H. by apply wp_ret.
Qed.

Lemma under_absent os q r : os_wf os -> node_at os q = None -> node_at os (q ++ r) = None.
Proof.
  intros W H. destruct (decide (r = [])) as [->|Hr]; [by rewrite app_nil_r|].
  rewrite node_at_names by (intros [_ ?]%app_nil; done).
  apply nothing_below; [done| |done]. intros x. apply not_dir_no_entry; [done|congruence].
Qed.

Lemma snoc_not_prefix (q : path) x : ~ (q ++ [x]) `prefix_of` q.
Proof. intros H%prefix_length. rewrite length_app in H. simpl in H. lia. Qed.

(** [Config::Recover] makes the directories of the group. *)
Lemma Config_prepare_fresh c os q :
  os_wf os ->
  parse_path (log_storage_path_ c) = q -> parse_path (checkpoint_path_ c) = q ++ ["checkpoint"%string] ->
  parse_path (temp_checkpoint_path_ c) = q ++ ["checkpoint"; "tempcheckpoint"]%string ->
  node_at os q = None -> node_at os (parent q) = Some Dir ->
  wp (Config_prepare c) (fun b os' => b = true /\ grown q os os' /\
    node_at os' (q ++ ["checkpoint"%string]) = Some Dir /\
    forall x n, os_names os' !! (q ++ ["checkpoint"; x]%string) = Some n -> x = "tempcheckpoint"%string) os.
Proof.
  intros W Eq Ec Et Hn Hp. unfold Config_prepare. apply wp_bind.
  eapply wp_mono; [apply CreateDir_made; by rewrite ?Eq|]. rewrite Eq. intros _ os1 (W1 & D1 & K1).
  apply wp_bind. eapply wp_mono; [apply CreateDir_made; rewrite ?Ec|].
  { done. }
  { rewrite K1 by (intros E; apply (f_equal length) in E; rewrite length_app in E; simpl in E; lia).
    by apply under_absent. }
  { by rewrite parent_snoc. }
  rewrite Ec. intros _ os2 (W2 & D2 & K2).
  assert (N2 : forall x, node_at os2 (q ++ ["checkpoint"; x]%string) = None).
  { intros x. rewrite K2, K1.
    - by apply under_absent.
    - intros E. apply (f_equal length) in E. rewrite length_app in E. simpl in E. lia.
    - intros E%app_inv_head. done. }
  assert (Esnoc : forall x, q ++ ["checkpoint"; x]%string = (q ++ ["checkpoint"%string]) ++ [x])
    by (intros; by rewrite <- app_assoc).
  apply wp_bind. eapply wp_mono; [apply CreateDir_made; rewrite ?Et|].
  { done. }
  { apply N2. }
  { by rewrite Esnoc, parent_snoc. }
  rewrite Et. intros _ os3 (W3 & D3 & K3).
  assert (D3' : node_at os3 (q ++ ["checkpoint"%string]) = Some Dir)
    by (rewrite K3; [done|]; intros E%app_inv_head; done).
  apply wp_bind. eapply wp_mono; [apply FileExists_quiet|]. rewrite Ec. intros b os4 [Hs4 H4].
  rewrite (proj2 H4) by congruence. cbn [negb].
  eapply wp_mono; [apply FileExists_quiet|]. rewrite Et. intros b' os5 [Hs5 H5].
  assert (Hs : same_files os3 os5) by (by etrans).
  split_and!.
  - apply H5. rewrite <- (node_at_proper _ _ Hs4 _ _ eq_refl). congruence.
  - split; [by rewrite <- Hs|]. intros k Hk. rewrite <- (node_at_proper _ _ Hs _ _ eq_refl).
    rewrite K3, K2, K1; [done|..]; intros ->; apply Hk; first [reflexivity|by eexists].
  - by rewrite <- (node_at_proper _ _ Hs _ _ eq_refl).
  - intros x n Hx. destruct (decide (x = "tempcheckpoint"%string)) as [->|Hne]; [done|].
    destruct Hs as (En & _). rewrite En in Hx. exfalso.
    assert (H : node_at os3 (q ++ ["checkpoint"; x]%string) = Some n)
      by (rewrite node_at_names; [done|]; by intros [_ ?]%app_nil).
    rewrite K3, N2 in H; [done|]. intros E%app_inv_head. congruence.
Qed.

(** The machine manager finds no checkpoint. *)
Lemma recover_fresh `{FC : FixedCoding} `{CR : Crc32c} `{UM : UserMachines} `{PS : ProtoCodec MasterState}
    `{PM : ProtoCodec Membership} (Hd : px_dtype = true) c q fuel node_id now group m os :
  os_wf os -> parse_path (checkpoint_path_ c) = q ++ ["checkpoint"%string] ->
  node_at os (q ++ ["checkpoint"%string]) = Some Dir ->
  (forall x n, os_names os !! (q ++ ["checkpoint"; x]%string) = Some n -> x = "tempcheckpoint"%string) ->
  mgr_locked m = false ->
  wp (file_MachineManager_Recover c fuel node_id now group m) (fun r os' =>
    r.2 = true /\ mgr_latest r.1 = 0 /\ mgr_membership r.1 = mgr_membership m /\ grown q os os') os.
Proof.
  intros W Ec Hdir Hx Hl.
  assert (Hsnoc : forall x, (q ++ ["checkpoint"%string]) ++ [x] = q ++ ["checkpoint"; x]%string)
    by (intros; by rewrite <- app_assoc).
  assert (Hc : checkpoint_dir c os).
  { split; [done|]. rewrite Ec. split; [done|]. intros x n H. rewrite Hsnoc in H. apply Hx in H as ->.
    split; [by vm_compute|]. left. by vm_compute. }
  destruct (clean_quiet Hd c (mgr_keep_checkpoints m) os Hc)
    as (os1 & found & l & oldest & deleted & [W1 Hk] & E1 & Hnd & Hf & Ek & _).
  assert (found = []) as ->.
  { apply elem_of_nil_inv. intros id [_ H]%Hf. rewrite cpath_node, Ec, Hsnoc in H.
    destruct (os_names os !! _) as [n|] eqn:E; [|done]. apply Hx in E. by apply (f_equal after_dash) in E. }
  assert (l = [] /\ deleted = []) as [-> ->].
  { pose proof (clean_checkpoints_perm _ _ _ _ _ _ Ek) as H%Permutation_nil_r. by apply app_nil in H as [-> ->]. }
  exists os1, (set_checkpoints [] 0 oldest m, true). split_and!; try done.
  - unfold file_MachineManager_Recover, file_CleanCheckpoint, mbind, io_bind. rewrite Hl.
    unfold mbind, io_bind. by rewrite E1.
  - split; [done|]. intros k _. apply (erased_node _ _ _ _ Hk). by intros ?%Exists_nil.
Qed.

End Quiet.

(** * Loops *)

Lemma give_loops_assign k p :
  io_loop <$> give_loops k p = assign_loops (pool_io p).1 (pool_io p).2 k /\
  callback_loop <$> give_loops k p = assign_loops (pool_callback p).1 (pool_callback p).2 k /\
  learn_loop <$> give_loops k p = assign_loops (pool_learn p).1 (pool_learn p).2 k /\
  clean_loop_ <$> give_loops k p = assign_loops (pool_clean p).1 (pool_clean p).2 k.
Proof.
  revert p. induction k as [|k IH]; intros p; [done|]. cbn [give_loops assign_loops]. unfold take_loops.
  destruct (GetNextLoop (pool_io p).1 _) as [i1 n1], (GetNextLoop (pool_callback p).1 _) as [i2 n2],
    (GetNextLoop (pool_learn p).1 _) as [i3 n3], (GetNextLoop (pool_clean p).1 _) as [i4 n4],
    (GetNextMasterLoop _ _) as [i5 n5].
  rewrite !fmap_cons. cbn [io_loop callback_loop learn_loop clean_loop_].
  destruct (IH (mkThreadPool ((pool_io p).1, n1) ((pool_callback p).1, n2) ((pool_learn p).1, n3)
    ((pool_clean p).1, n4) ((pool_master p).1, n5))) as (-> & -> & -> & ->). done.
Qed.

(** The loops of group [j] are taken in turn. *)
Definition loops_in_turn (o : Options) (j : nat) (l : GroupLoops) : Prop :=
  io_loop l = (j mod io_thread_size o)%nat /\ callback_loop l = (j mod callback_thread_size o)%nat /\
  learn_loop l = (j mod learn_thread_size o)%nat /\ clean_loop_ l = (j mod clean_thread_size o)%nat.

Lemma give_loops_turn o n k j :
  (0 < io_thread_size o)%nat -> (0 < callback_thread_size o)%nat -> (0 < learn_thread_size o)%nat ->
  (0 < clean_thread_size o)%nat -> (j < k)%nat ->
  exists l, give_loops k (ThreadPool_Start (io_thread_size o) (callback_thread_size o) (learn_thread_size o)
    (clean_thread_size o) n) !! j = Some l /\ loops_in_turn o j l.
Proof.
  intros H1 H2 H3 H4 Hj. set (p := ThreadPool_Start _ _ _ _ _).
  destruct (give_loops_assign k p) as (E1 & E2 & E3 & E4).
  assert (Hl : is_Some (give_loops k p !! j)).
  { apply lookup_lt_is_Some. rewrite <- (length_fmap io_loop), E1. apply lookup_lt_is_Some.
    rewrite assign_lookup by (cbn; lia). eauto. }
  destruct Hl as [l Hl]. exists l. split; [done|].
  assert (H : forall (f : GroupLoops -> nat) m, f <$> give_loops k p = assign_loops m 0 k -> (0 < m)%nat -> f l = (j mod m)%nat).
  { intros f m E Hm. apply (f_equal (.!! j)) in E. rewrite list_lookup_fmap, Hl in E. simpl in E.
    rewrite assign_lookup in E by lia. by injection E. }
  split_and!; (eapply H; [|done]); [exact E1|exact E2|exact E3|exact E4].
Qed.

(** * The node *)

Section Start.
Context {PX : Posix} {PL : PosixLaws} {Q : Quiet} {FC : FixedCoding} {LD : LevelDB} {LDL : LevelDBLaws}.
Context {LO : LevelDBOpen} {CM : CheckpointManager} {AL : Allocator} {CR : Crc32c} {UM : UserMachines}.
Context {PI : ProtoCodec PaxosInstance} {PCM : ProtoCodec MemberChangeMessage}.
Context {PS : ProtoCodec MasterState} {PM : ProtoCodec Membership}.
Variable env : CheckpointEnv.
Variables (clock : Z -> Z) (user : Z -> um) (new_ckpt : Z -> ckpt) (uninitialised : Z).
Variable fuel : nat.
Hypothesis Hd : px_dtype = true.

(** LevelDB makes an empty, readable database at a new path. *)
Hypothesis Hopen : forall size name, exists db, ldb_Open true size name = Some db /\
  ldb_Keys db = [] /\ (DB_Get kMinChosenKey db).1 <> -1.

Variable P : string.
Hypothesis HP : P <> ""%string.

(** Options of a group that uses the storage path [P]. *)
Definition group_fine (o : GroupOptions) : Prop :=
  log_storage_path o = P /\ NoDup (1 :: 2 :: machines o) /\ 0 <= keep_log_count o < 2 ^ 31.

(** The storage path is a directory or can be made. *)
Definition storage_path (os : OS) : Prop :=
  os_wf os /\ (node_at os (parse_path P) = Some Dir \/
    node_at os (parse_path P) = None /\ node_at os (parent (parse_path P)) = Some Dir).

Notation members o := (dom (ms_members (MembershipMachine_new (membership o)))).
Notation fresh := (@fresh_node FC LD (group_machines env) CM PI).

Lemma add_machines_fresh ids (m : manager) :
  NoDup ids -> (forall id, id ∈ ids -> id ∉ mgr_ids m) ->
  exists m', add_machines ids m = Some m' /\ mgr_membership m' = mgr_membership m /\ mgr_locked m' = mgr_locked m.
Proof.
  revert m. induction ids as [|id ids IH]; intros m Hnd Hin; [by exists m|].
  apply NoDup_cons in Hnd as [Hid Hnd]. cbn [add_machines]. unfold AddMachine.
  rewrite decide_False by (apply Hin; by left). cbn [mbind option_bind].
  destruct (IH (set_ids ({[id]} ∪ mgr_ids m) m) Hnd) as (m' & E & H); [|by exists m'].
  intros id' Hid'. simpl. pose proof (Hin id' ltac:(by right)). set_solver.
Qed.

Lemma Config_new_fresh me i o cl os c :
  storage_path os -> group_fine o -> Config_paths P i = Some c ->
  wp (Config_new user uninitialised me i o cl) (fun x os' => exists m,
    x = (mkConfig me i (propose_timeout o) (log_sync o) (sync_interval o) (keep_log_count o) cl, c, m) /\
    mgr_membership m = MembershipMachine_new (membership o) /\ mgr_locked m = false /\
    os_wf os' /\ node_at os' (parse_path P) = Some Dir /\
    forall k, k <> parse_path P -> node_at os' k = node_at os k) os.
Proof.
  intros [W HS] (EP & Hm & _) Ec. unfold Config_new. rewrite EP, Ec. apply wp_bind.
  apply NoDup_cons in Hm as [H1 Hm]. apply NoDup_cons in Hm as [H2 Hm].
  set (m0 := manager_new _ _ _ _ _ _).
  destruct (add_machines_fresh (machines o) m0 Hm) as (m & Em & E1 & E2).
  { intros id Hid. cbn. set_solver. }
  rewrite Em.
  assert (Hmade : wp (CreateDir P) (fun _ os' => os_wf os' /\ node_at os' (parse_path P) = Some Dir /\
    forall k, k <> parse_path P -> node_at os' k = node_at os k) os).
  { destruct HS as [HS|[HS HS']]; [|by apply CreateDir_made].
    eapply wp_mono; [by apply CreateDir_there|]. intros s os' Hs. split_and!.
    - by rewrite <- Hs.
    - by rewrite <- (node_at_proper _ _ Hs _ _ eq_refl).
    - intros k _. by rewrite <- (node_at_proper _ _ Hs _ _ eq_refl). }
  eapply wp_mono; [exact Hmade|]. intros s os' H. apply wp_ret. by exists m.
Qed.

Lemma Group_open_fresh me i o cl os :
  storage_path os -> group_fine o -> 0 <= i < 100000 -> node_at os (parse_path P ++ [gname i]) = None ->
  wp (Group_open env clock user new_ckpt uninitialised fuel me i o cl) (fun x os' => exists n,
    x = Some (Group_new env n (use_master o) (master_lease_time o) (clock i)) /\ fresh (members o) me n /\
    cf_group_id (config_ n) = i /\ storage_path os' /\
    forall k, ~ parse_path P ++ [gname i] `prefix_of` k -> k <> parse_path P -> node_at os' k = node_at os k) os.
Proof.
  intros HS Ho Hi Hn. destruct (group_paths P i HP Hi) as (c & Ec & P1 & P2 & P3).
  change ([gname i; "checkpoint"; "tempcheckpoint"]%string) with ([gname i] ++ ["checkpoint"; "tempcheckpoint"]%string) in P3.
  change ([gname i; "checkpoint"]%string) with ([gname i] ++ ["checkpoint"]%string) in P2.
  rewrite app_assoc in P2, P3. set (q := parse_path P ++ [gname i]) in *.
  assert (Hq : q <> parse_path P).
  { intros E. apply (f_equal length) in E. unfold q in E. rewrite length_app in E. simpl in E. lia. }
  unfold Group_open. apply wp_bind. eapply wp_mono; [by apply Config_new_fresh|].
  intros x os1 (m & -> & Em & El & W1 & D1 & K1). apply wp_bind. unfold Config_Recover. apply wp_bind.
  eapply wp_mono; [apply (Config_prepare_fresh c os1 q W1 P1 P2 P3)|].
  { by rewrite K1. }
  { unfold q. by rewrite parent_snoc. }
  intros b os2 (-> & G2 & D2 & X2). cbn [negb]. unfold DB_Open.
  destruct (Hopen (wrap32 (1024 * 1024 + i * 10 * 1024)) (log_path_ c)) as (db & Edb & Hk & Hmin).
  cbn [cf_group_id cf_node_id]. rewrite Edb. cbn [snd]. apply wp_bind.
  eapply wp_mono; [apply (recover_fresh Hd c q _ _ _ _ _ _ (gr_wf _ _ _ G2) P2 D2 X2 El)|].
  intros [m' ok] os3 (Hok & Hl & Hms & G3). cbn [fst snd] in *. subst ok. apply wp_ret, wp_ret.
  rewrite (recover_empty (MM := group_machines env)) by done. eexists. split; [reflexivity|]. split.
  - exists (mkConfig me i (propose_timeout o) (log_sync o) (sync_interval o) (keep_log_count o) cl),
      (clock i), db, m', (new_ckpt i).
    split_and!; [done|apply Ho..|done| |done|].
    + cbn. by rewrite Hms, Em.
    + by rewrite (recover_empty (MM := group_machines env)) by done.
  - split; [done|]. assert (K : forall k, ~ q `prefix_of` k -> k <> parse_path P -> node_at os3 k = node_at os k).
    { intros k H1 H2. rewrite (gr_kept _ _ _ G3 k H1), (gr_kept _ _ _ G2 k H1). by apply K1. }
    split; [|done]. split; [exact (gr_wf _ _ _ G3)|]. left.
    rewrite (gr_kept _ _ _ G3), (gr_kept _ _ _ G2) by apply snoc_not_prefix. done.
Qed.

(** Room for the groups from [i] on. *)
Definition no_groups (i : Z) (os : OS) : Prop :=
  forall j, i <= j < 100000 -> node_at os (parse_path P ++ [gname j]) = None.

(** The group that the options [o] give as number [i]. *)
Definition fresh_group (me i : Z) (o : GroupOptions) (g : GroupModel.group env) : Prop :=
  exists n, g = Group_new env n (use_master o) (master_lease_time o) (clock i) /\
    fresh (members o) me n /\ cf_group_id (config_ n) = i.

Lemma gname_inj i j : gname i = gname j -> i = j.
Proof. intros [= H]. by apply (inj pretty). Qed.

Lemma open_groups_fresh me cl gs i os :
  storage_path os -> Forall group_fine gs -> no_groups i os ->
  0 <= i -> i + Z.of_nat (length gs) <= 100000 ->
  wp (open_groups env clock user new_ckpt uninitialised fuel me i cl gs) (fun x os' =>
    x.2 = true /\ length x.1 = length gs /\
    forall k o, gs !! k = Some o -> exists g, x.1 !! k = Some g /\ fresh_group me (i + Z.of_nat k) o g) os.
Proof.
  revert i os. induction gs as [|o gs IH]; intros i os HS Hg Hno Hi Hlen; [by apply wp_ret|].
  apply Forall_cons in Hg as [Ho Hg]. cbn [open_groups length] in *. apply wp_bind.
  eapply wp_mono; [apply Group_open_fresh; [done|done|lia|apply Hno; lia]|].
  intros x os1 (n & -> & Hn & Hid & HS1 & K1). apply wp_bind.
  eapply wp_mono; [apply (IH (i + 1) os1 HS1 Hg); [|lia|lia]|].
  - intros j Hj. rewrite K1; [apply Hno; lia| |].
    + intros E. apply prefix_snoc_inj with (r := []) in E. apply gname_inj in E. lia.
    + intros E. apply (f_equal length) in E. rewrite length_app in E. simpl in E. lia.
  - intros [gs' b] os2 (Hb & Hl & Hk). cbn [fst snd] in *. apply wp_ret. cbn [fst snd length].
    split; [done|]. split; [lia|]. intros [|k] o' E.
    + injection E as <-. eexists. split; [reflexivity|]. exists n. by rewrite Z.add_0_r.
    + destruct (Hk k o' E) as (g & E' & H). exists g. split; [done|].
      by replace (i + Z.of_nat (S k)) with (i + 1 + Z.of_nat k) by lia.
Qed.

(** (C20) A node starts.  On a storage path that is a directory or can be made and holds no group
    yet, with options that name it for at least one and less than 100000 groups, with distinct machine
    ids, while no file operation fails and LevelDB opens empty databases: [StartWorking]
    returns true; every group of the options is there under its index, with loops taken in turn from
    the thread pool; its instance is what [Instance::Recover] makes of an empty log, a node
    from which the agreement theorem starts, and its garbage collection is running. *)
Theorem node_starts (o : Options) (os : OS) :
  storage_path os -> no_groups 0 os -> Forall group_fine (groups o) -> 1 <= Z.of_nat (length (groups o)) < 100000 ->
  exists os' impl,
    StartWorking env clock user new_ckpt uninitialised fuel o os = Some (os', (impl, true)) /\
    group_size env impl = length (groups o) /\
    forall i og, groups o !! i = Some og ->
      exists g l n, groups_ env impl !! i = Some g /\ loops_ env impl !! i = Some l /\
        loops_in_turn (options_ env impl) i l /\
        fresh (members og) (m_id (my o)) n /\ cf_group_id (config_ n) = Z.of_nat i /\
        g = Group_StartGC env (Group_Start env
              (Group_new env n (use_master og) (master_lease_time og) (clock (Z.of_nat i)))).
Proof.
  intros HS Hno Hg Hlen.
  destruct (open_groups_fresh (m_id (my o)) (cluster o) (groups o) 0 os HS Hg Hno) as (os1 & [gs b] & E & Hb & Hl & Hk);
    [lia|lia|]. cbn [fst snd] in *. subst b.
  set (o' := thread_sizes (length gs) o).
  assert (Hpos : (0 < io_thread_size o' /\ 0 < callback_thread_size o' /\ 0 < learn_thread_size o' /\
    0 < clean_thread_size o')%nat).
  { pose proof (fun n => StartWorking_threads n (length (groups o)) ltac:(lia)) as H. unfold o'. cbn. rewrite Hl.
    split_and!; [apply (H (io_thread_size o) _ (or_introl eq_refl))|apply (H (callback_thread_size o) _ (or_intror eq_refl))
      |apply (H (learn_thread_size o) _ (or_intror eq_refl))|apply (H (clean_thread_size o) _ (or_intror eq_refl))]. }
  exists os1. eexists. split.
  { unfold StartWorking, mbind, io_bind. rewrite E. cbn [negb]. fold o'.
    rewrite !(proj2 (Nat.eqb_neq _ 0)) by lia. reflexivity. }
  split; [by unfold group_size; simpl; rewrite length_fmap|]. intros i og Ei.
  destruct (Hk i og Ei) as (g & Eg & n & -> & Hn & Hid).
  destruct (give_loops_turn o' (master_thread_size o') (length gs) i) as (l & El & Ht); try apply Hpos.
  { rewrite Hl. by eapply lookup_lt_Some. }
  eexists _, l, n. split; [cbn; rewrite list_lookup_fmap, Eg; reflexivity|]. by split_and!.
Qed.

End Start.

(** * A running node *)

Section Running.
Context {FC : FixedCoding} {LD : LevelDB} {CM : CheckpointManager} {AL : Allocator} {UM : UserMachines}.
Context {PI : ProtoCodec PaxosInstance} {PCM : ProtoCodec MemberChangeMessage} {PS : ProtoCodec MasterState}.
Variable env : CheckpointEnv.

#[local] Notation group_t := (GroupModel.group env).

(** Whatever the shuffle makes of the order, every group is synchronised once. *)
Lemma sync_groups_all order now (gs : list group_t) :
  order ≡ₚ seq 0 (length gs) -> sync_groups env order now gs = Group_Sync env now <$> gs.
Proof.
  intros Ho.
  assert (H : forall order gs j, NoDup order -> sync_groups env order now gs !! j =
    (if decide (j ∈ order) then Group_Sync env now <$> gs !! j else gs !! j)).
  { clear. intros order gs j. unfold sync_groups. revert gs. induction order as [|i order IH]; intros gs Hd; cbn [foldl].
    - by rewrite decide_False by apply not_elem_of_nil.
    - apply NoDup_cons in Hd as [Hi Hd]. rewrite IH by done. destruct (decide (j = i)) as [->|Hne].
      + rewrite decide_False by done. rewrite list_lookup_alter_eq, decide_True by (by left). done.
      + rewrite list_lookup_alter_ne by done. destruct (decide (j ∈ order)).
        * by rewrite decide_True by (by right).
        * rewrite decide_False; [done|]. by rewrite not_elem_of_cons. }
  apply list_eq. intros j. rewrite H by (rewrite Ho; apply NoDup_seq). rewrite list_lookup_fmap.
  case_decide as Hj; [done|]. rewrite Ho, elem_of_seq in Hj.
  by rewrite (lookup_ge_None_2 gs j) by lia.
Qed.

(** A content reaches the group it names and no other; one for no group is dropped, and so is
    every content once the node is stopped. *)
Lemma Node_OnContent_spec c (n n' : NodeImpl env) j :
  Node_OnContent env c n = Some n' ->
  if negb (stop_ env n) && (Z.to_nat (ct_group_id c) =? j)%nat
  then groups_ env n' !! j = (g ← groups_ env n !! j; group_step env (GNode (EvContent c)) g)
  else groups_ env n' !! j = groups_ env n !! j.
Proof.
  unfold Node_OnContent. destruct (stop_ env n); cbn [negb andb]; [by intros [= <-]|].
  destruct (groups_ env n !! Z.to_nat (ct_group_id c)) as [g|] eqn:Hg.
  - cbn [mbind option_bind]. destruct (group_step env (GNode (EvContent c)) g) as [g'|] eqn:E; [|done]. intros [= <-].
    destruct (Nat.eqb_spec (Z.to_nat (ct_group_id c)) j) as [<-|Hne]; cbn [groups_].
    + rewrite list_lookup_insert_eq by (by eapply lookup_lt_Some). rewrite Hg. cbn [mbind option_bind]. by rewrite E.
    + by rewrite list_lookup_insert_ne.
  - intros [= <-]. destruct (Nat.eqb_spec (Z.to_nat (ct_group_id c)) j) as [<-|Hne]; [|done]. by rewrite Hg.
Qed.

End Running.
