(* ===== verification/FileRuns.v ===== *)
(** Runs of the file layer and of the checkpoint directories: instances of the system on
    which the theorems about files apply, and runs in which the code loses or mixes
    data. *)

From S2P Require Import Prelude Proto Util Storage NodeState System Simulation MachinesModel CheckpointModel.
From S2P Require Import FileModel Files FileSpecs CheckpointFileModel Checkpoints CheckpointFiles ReceiverFiles.
From S2P Require Import TransferFiles CleanFiles MachineFileModel MachineFiles NodeModel Nodes TransferRuns.
From Stdlib Require Import Ascii.

(** * Systems *)

(** A system without faults that writes nothing before a stream is flushed. *)
Definition quiet_posix : Posix := {|
  px_answer := fun _ => mkAnswer None 0;
  px_order := fun l => l;
  px_dtype := true;
  px_strerror := fun _ => "error"%string;
  px_past_end := 0;
|}.

#[global] Instance quiet_posix_laws : @PosixLaws quiet_posix.
Proof. intros l. reflexivity. Qed.
#[global] Instance quiet_posix_quiet : @Quiet quiet_posix.
Proof. intros k. reflexivity. Qed.

(** The same system, on which call [n] fails for want of space. *)
Definition full_at (n : nat) : Posix := {|
  px_answer := fun k => mkAnswer (if (k =? n)%nat then Some 28 else None) 0;
  px_order := fun l => l;
  px_dtype := true;
  px_strerror := fun _ => "No space left on device"%string;
  px_past_end := 0;
|}.

(** A file system that does not report the types of entries. *)
Definition untyped_posix : Posix := {|
  px_answer := fun _ => mkAnswer None 0;
  px_order := fun l => l;
  px_dtype := false;
  px_strerror := fun _ => "error"%string;
  px_past_end := 0;
|}.

Definition empty_os : OS := mkOS ∅ ∅ 0 0.

Lemma empty_wf : os_wf empty_os.
Proof. split; simpl; intros *; rewrite ?lookup_empty; try done. Qed.

(** The directories of group 0 under the path "d". *)
Definition paths : ConfigPaths := default (mkConfigPaths "" "" "" "") (Config_paths "d" 0).

Definition run {A} (m : io A) (os : OS) : OS := match m os with Some (os', _) => os' | None => os end.

Lemma run_wf {A} (m : io A) os : KeepsWf m -> os_wf os -> os_wf (run m os).
Proof. intros K W. destruct (K os W) as (os' & a & E & H). unfold run. by rewrite E. Qed.

(** The directories [Config] makes, before the temporary one. *)
Definition start_os : OS :=
  run (CreateDir (PX := quiet_posix) "d/g0/checkpoint")
    (run (CreateDir (PX := quiet_posix) "d/g0") (run (CreateDir (PX := quiet_posix) "d") empty_os)).

Lemma start_wf : os_wf start_os.
Proof. unfold start_os. repeat (apply run_wf; [apply keeps_CreateDir|]). apply empty_wf. Qed.

Lemma start_dirs : receiver_dirs paths 10 start_os.
Proof.
  split; [exact start_wf|vm_compute; reflexivity|vm_compute; reflexivity| |vm_compute; reflexivity].
  right. vm_compute. reflexivity.
Qed.

Definition installed_file (id : Z) : path :=
  ["d"; "g0"; "checkpoint"; cname 10; mname id; "f"]%string.

Lemma transfer_on_disk_witness :
  exists os', @file_installed quiet_posix paths (sent_by (files_env "a:" "") 10) (mkFileReceiver 0 0 ∅) start_os
      = Some (os', Some 10) /\
    content os' (installed_file 1001) = Some "a:m1001/f"%string /\ content os' (installed_file 3) = None.
Proof.
  destruct (transfer_on_disk (PX := quiet_posix) (files_env "a:" "") paths 1 2 (source_manager 10) Sender_new start_os)
    as (m' & s' & sent & Es & H).
  - reflexivity.
  - lia.
  - reflexivity.
  - split; [reflexivity|]. intros seq m Hm. by apply elem_of_nil in Hm.
  - rewrite source_ids. intros id Hid.
    assert (Hin : id = 1 \/ id = 2 \/ id = 1001) by set_solver.
    split; destruct Hin as [-> | [-> | ->]]; try (vm_compute; eauto; fail);
      intros file Hf; vm_compute in Hf; apply list_elem_of_singleton in Hf as ->; vm_compute; eauto.
  - rewrite source_ids. vm_compute. repeat constructor; set_solver.
  - rewrite source_ids. intros k Hk. assert (k.2 = "f"%string) as ->; [|by vm_compute].
    vm_compute in Hk. set_solver.
  - exact start_dirs.
  - assert (Hsent : sent_by (files_env "a:" "") 10 = sent) by (unfold sent_by; by rewrite Es).
    assert (exists b ms, sent = b :: ms /\ cm_type b = CHECKPOINT_BEGIN) as (b & ms & Eb & Hb).
    { rewrite <- Hsent. vm_compute. by do 2 eexists. }
    destruct (H b ms (mkFileReceiver 0 0 ∅) Hb) as (os' & x & Ex & Hall & Hx); [by rewrite Eb|].
    rewrite Hall in Ex by done. exists os'. rewrite Hsent, Eb. split; [done|].
    destruct (Hx 10 (Hall (eq_sym Eb))) as (H1 & H2 & _). split.
    + etrans; [apply (H1 (1001, "f"%string) "a:m1001/f"%string)|done]. rewrite source_ids. vm_compute. set_solver.
    + apply (H2 (3, "f"%string)). rewrite source_ids. vm_compute. set_solver.
Defined.

(** * Fragments that are confirmed and lost *)

Definition fragment (data : string) : CheckpointMessage :=
  mkCheckpointMessage CHECKPOINT_FILE 1 10 1 1001 "f" (Z.of_nat (String.length data)) data false.

(** A transfer of one file in one fragment. *)
Definition one_fragment (data : string) : list CheckpointMessage :=
  [begin_msg 1 10; fragment data; end_msg 1 10 [fragment data]].

(** What is installed and the content of the file then. *)
Definition outcome_of (PX : Posix) (data : string) (os : OS) : option (option Z * option string) :=
  match @file_installed PX paths (one_fragment data) (mkFileReceiver 0 0 ∅) os with
  | Some (os', x) => Some (x, content os' (installed_file 1001))
  | None => None
  end.

(** The receiver appends a fragment through a buffered stream and leaves the stream to the
    destructor, which ignores the result of [fclose]: when the disk is full at that moment
    the fragment is confirmed, the checkpoint is installed and its file is empty.  The
    function [DoWriteStringToFile] of the same file closes explicitly and does notice:
    the same failure makes it return an error and remove the file. *)
Theorem confirmed_fragment_is_lost :
  outcome_of quiet_posix "abc" start_os = Some (Some 10, Some "abc"%string) /\
  outcome_of (full_at 10) "abc" start_os = Some (Some 10, Some ""%string) /\
  exists os' s, @DoWriteStringToFile (full_at 5) "abc" "d/f" false start_os = Some (os', s) /\
    Status_ok s = false /\ content os' ["d"; "f"]%string = None.
Proof.
  split; [vm_compute; reflexivity|]. split; [vm_compute; reflexivity|].
  vm_compute. do 2 eexists. done.
Qed.

(** A temporary directory in which an older attempt left the beginning of a file. *)
Definition stale_os : OS :=
  run (@WriteStringToFile quiet_posix "old" "d/g0/checkpoint/tempcheckpoint/m1001/f")
    (run (CreateDir (PX := quiet_posix) "d/g0/checkpoint/tempcheckpoint/m1001")
      (run (CreateDir (PX := quiet_posix) "d/g0/checkpoint/tempcheckpoint") start_os)).

(** [DeleteTempCheckpoint] ignores whether listing a directory and deleting it worked, and
    finds no file to delete where the file system does not report the types of entries:
    it returns true with the old files in place, the new transfer is appended to them and
    the checkpoint is installed with the old bytes in front.  With types reported the old
    bytes are gone. *)
Theorem stale_bytes_are_installed :
  outcome_of quiet_posix "new" stale_os = Some (Some 10, Some "new"%string) /\
  outcome_of untyped_posix "new" stale_os = Some (Some 10, Some "oldnew"%string).
Proof. split; vm_compute; reflexivity. Qed.

(** * Witnesses *)

Lemma file_roundtrip_witness :
  exists os1 s os2 s' d,
    @DoWriteStringToFile quiet_posix "abc" "d/f" true start_os = Some (os1, s) /\
    @ReadFileToString quiet_posix 3 "d/f" os1 = Some (os2, (s', d)) /\
    Status_ok s = true /\ d = "abc"%string.
Proof.
  destruct (file_roundtrip (PX := quiet_posix) "abc" "d/f" true 3 start_os start_wf)
    as (os1 & s & os2 & s' & d & E1 & E2 & H & _ & Hok).
  - vm_compute. lia.
  - vm_compute. lia.
  - destruct Hok as [Hs Hs'].
    + apply Quiet_not_faulty. exact quiet_posix_quiet.
    + intros [H1|[_ H1]]; [vm_compute in H1; discriminate H1|]. apply H1. vm_compute. reflexivity.
    + exists os1, s, os2, s', d. split_and!; [done..|]. by apply H.
Defined.

Lemma failed_write_witness :
  exists os' s, @DoWriteStringToFile (full_at 5) "abc" "d/f" false start_os = Some (os', s) /\
    content os' ["d"; "g"]%string = content start_os ["d"; "g"]%string.
Proof.
  destruct (@DoWriteStringToFile (full_at 5) "abc" "d/f" false start_os) as [[os' s]|] eqn:E;
    [|vm_compute in E; discriminate E].
  exists os', s. split; [done|].
  assert (Es : Status_ok s = false).
  { assert (H : (fun x : option (OS * Status) => from_option (fun y => Status_ok y.2) true x)
      (@DoWriteStringToFile (full_at 5) "abc" "d/f" false start_os) = false) by (vm_compute; reflexivity).
    by rewrite E in H. }
  apply (failed_write (PX := full_at 5) "abc" "d/f" false start_os os' s start_wf E Es).
  vm_compute. discriminate.
Defined.

Lemma Mmap_Read_bounds_witness :
  exists slice, @Mmap_Read quiet_posix "f" "abc" 3 (2 ^ 64 - 1) 2 = (Status_OK, slice) /\ ~ slice_ok slice.
Proof.
  exists (mkSlice (str_drop (2 ^ 64 - 1) "abc") 2).
  assert (E : @Mmap_Read quiet_posix "f" "abc" 3 (2 ^ 64 - 1) 2 =
    (Status_OK, mkSlice (str_drop (2 ^ 64 - 1) "abc") 2)) by (vm_compute; reflexivity).
  split; [exact E|].
  pose proof (Mmap_Read_bounds (PX := quiet_posix) "f" "abc" (2 ^ 64 - 1) 2) as H.
  change (Z.of_nat (String.length "abc")) with 3 in H. rewrite E in H.
  intros Hs. apply H in Hs; [lia|unfold in_u64; lia|lia|lia|done].
Defined.

(** ** A checkpoint directory, by evaluation *)

#[local] Instance plain_dec x : Decision (plain x).
Proof. unfold plain. apply _. Defined.

(** The shape of an entry below the checkpoint [p]. *)
Definition entry_shape (p : path) (e : path * entry) : bool :=
  match strip p e.1, e.2 with
  | None, _ | Some [], Dir => true
  | Some [d], Dir => bool_decide (plain d)
  | Some [_; f], Reg _ => bool_decide (plain f)
  | _, _ => false
  end.

Lemma shape_tree os p :
  node_at os p = Some Dir -> p <> [] -> forallb (entry_shape p) (map_to_list (os_names os)) = true ->
  checkpoint_tree os p.
Proof.
  intros Hp Hne H. rewrite forallb_forall in H.
  assert (Hs : forall r n, os_names os !! (p ++ r) = Some n -> entry_shape p (p ++ r, n) = true).
  { intros r n Hr. apply H, list_elem_of_In. by apply elem_of_map_to_list. }
  split; [done|]. split; [done|]. intros d n Hd. pose proof (Hs [d] n Hd) as E.
  unfold entry_shape in E. simpl in E. rewrite strip_app in E. destruct n; [|done].
  apply bool_decide_eq_true in E. split; [done|]. split; [by intros [_ ?]%app_nil|]. split; [done|].
  intros r m. rewrite <- app_assoc. intros Hm. pose proof (Hs _ _ Hm) as E2.
  unfold entry_shape in E2. simpl in E2. rewrite strip_app in E2.
  destruct r as [|f [|g r]]; [by left| |by destruct m]. destruct m as [|i]; [done|].
  apply bool_decide_eq_true in E2. right. eauto.
Qed.

Definition store (id : Z) (os : OS) : OS :=
  let dir := "d/g0/checkpoint/checkpoint-" +:+ pretty id in
  run (@WriteStringToFile quiet_posix "x" (dir +:+ "/m1001/f"))
    (run (CreateDir (PX := quiet_posix) (dir +:+ "/m1001")) (run (CreateDir (PX := quiet_posix) dir) os)).

(** Three checkpoints. *)
Definition clean_os : OS := store 30 (store 20 (store 10 start_os)).

Lemma clean_os_dir : checkpoint_dir paths clean_os.
Proof.
  assert (W : os_wf clean_os).
  { unfold clean_os, store. repeat (apply run_wf; [first [apply keeps_DoWriteStringToFile|apply keeps_CreateDir]|]).
    apply empty_wf. }
  split; [exact W|]. split; [vm_compute; reflexivity|]. intros x n H%child_elem.
  assert (Hx : x = cname 10 \/ x = cname 20 \/ x = cname 30) by (vm_compute in H; set_solver).
  assert (Ht : forall id, id = 10 \/ id = 20 \/ id = 30 ->
    checkpoint_tree clean_os (parse_path (checkpoint_path_ paths) ++ [cname id])).
  { intros id Hid. apply shape_tree; [destruct Hid as [->|[->| ->]]; vm_compute; reflexivity| |
      destruct Hid as [->|[->| ->]]; vm_compute; reflexivity]. by intros [_ ?]%app_nil. }
  destruct Hx as [->|[->| ->]]; (split; [apply cname_plain|right]);
    eexists; (split; [|split; [reflexivity|apply Ht; auto]]); unfold in_u64; lia.
Qed.

Lemma clean_on_disk_witness :
  exists os' found l oldest deleted,
    @clean_checkpoint_files quiet_posix paths 2 clean_os = Some (os', (l, oldest)) /\
    10 ∈ found /\ clean_checkpoints 0 2 found = (l, oldest, deleted) /\
    content os' ["d"]%string = content clean_os ["d"]%string.
Proof.
  destruct (clean_on_disk (PX := quiet_posix) eq_refl paths 2 clean_os clean_os_dir)
    as (os' & found & l & oldest & deleted & E & Hnd & Hf & Ec & Hn & Hk).
  exists os', found, l, oldest, deleted. split; [exact E|]. split; [|split; [exact Ec|]].
  - apply Hf. split; [unfold in_u64; lia|]. vm_compute. discriminate.
  - apply Hk. intros id _ Hp%prefix_length. rewrite length_app in Hp. vm_compute in Hp. lia.
Defined.

Lemma files_stay_wellformed_witness :
  exists os' s, @DoWriteStringToFile (full_at 5) "abc" "d/f" true start_os = Some (os', s) /\ os_wf os'.
Proof.
  destruct (files_stay_wellformed (PX := full_at 5) "d/f" "d/g" "abc" true 3
    (mkSequential "f" (mkRFILE None 0 false))) as [H _].
  apply (H start_os start_wf).
Defined.

(** * The directories of the groups *)

Lemma group_directories_witness :
  Config_paths "d" 3 = Config_paths "d" 3 /\ Config_paths "d" 100000 = Config_paths "d" 100001.
Proof. split; [reflexivity|]. apply (group_directories "d"). discriminate. Defined.
