(* ===== verification/NodeRuns.v ===== *)
(** Instances of the theorems on recovery from files and on the start of a node. *)

From S2P Require Import Prelude Ballot Proto Util Storage Random TimerList Counter NodeState.
From S2P Require Import AcceptorModel ProposerModel LearnerModel LogModel InstanceModel.
From S2P Require Import System Simulation Refinement MachinesModel CheckpointModel ProposeQueue GroupModel Runtime.
From S2P Require Import Reference MachineWitnesses.
From S2P Require Import FileModel Files FileSpecs CheckpointFileModel CheckpointFiles CleanFiles.
From S2P Require Import MachineFileModel MachineFiles SenderFileModel SenderFiles NodeModel Nodes TransferRuns FileRuns.

#[local] Existing Instances quiet_posix quiet_posix_laws quiet_posix_quiet.

(** * Recovery of the machines *)

(** Every file has at most [n] bytes. *)
Definition short_files (n : nat) (os : OS) : bool :=
  forallb (fun e => (String.length e.2 <=? n)%nat) (map_to_list (os_data os)).

Lemma short_length n os k : short_files n os = true -> (String.length (default "" (content os k)) <= n)%nat.
Proof.
  intros H. unfold short_files in H. rewrite forallb_forall in H.
  unfold content. destruct (node_at os k) as [[|i]|]; simpl; try lia.
  destruct (os_data os !! i) as [d|] eqn:E; simpl; [|lia].
  apply Nat.leb_le, (H (i, d)), list_elem_of_In. by apply elem_of_map_to_list.
Qed.

Lemma short_enough n os : short_files n os = true -> fuel_enough (n + 2) os.
Proof.
  intros H k. pose proof (short_length n os k H) as L.
  unfold reads. pose proof (Nat.Div0.div_le_upper_bound
    (String.length (default "" (content os k))) kFileBufferSize n) as B.
  assert (kFileBufferSize <> 0)%nat by (pose proof kFileBufferSize_pos; lia). nia.
Qed.

(** A node with the checkpoint of instance 10 on its disk, under the path "s". *)
Definition sender_paths : ConfigPaths := default (mkConfigPaths "" "" "" "") (Config_paths "s" 0).

Definition make_dirs (l : list string) (os : OS) : OS :=
  foldl (fun os d => FileRuns.run (CreateDir (PX := quiet_posix) d) os) os l.
Definition write_files (l : list (string * string)) (os : OS) : OS :=
  foldl (fun os x => FileRuns.run (WriteStringToFile (PX := quiet_posix) x.2 x.1) os) os l.

Definition sender_os : OS :=
  write_files [("s/g0/checkpoint/checkpoint-10/m1/MEMBERSHIP.db", "members");
               ("s/g0/checkpoint/checkpoint-10/m2/MASTER.db", "master");
               ("s/g0/checkpoint/checkpoint-10/m1001/f", "data");
               ("s/g0/checkpoint/checkpoint-10/m1001/e", "");
               ("s/g0/checkpoint/checkpoint-10/m1001/g", "not listed")]%string
    (make_dirs ["s"; "s/g0"; "s/g0/checkpoint"; "s/g0/checkpoint/checkpoint-10";
                "s/g0/checkpoint/checkpoint-10/m1"; "s/g0/checkpoint/checkpoint-10/m2";
                "s/g0/checkpoint/checkpoint-10/m1001"]%string empty_os).

Lemma make_dirs_wf l os : os_wf os -> os_wf (make_dirs l os).
Proof. revert os. induction l as [|d l IH]; intros os W; [done|]. apply IH, run_wf; [apply keeps_CreateDir|done]. Qed.

Lemma write_files_wf l os : os_wf os -> os_wf (write_files l os).
Proof.
  revert os. induction l as [|x l IH]; intros os W; [done|]. apply IH, run_wf; [apply keeps_DoWriteStringToFile|done].
Qed.

Definition user_files (id : Z) : option (list string) := Some ["f"; "e"]%string.

Lemma sender_complete : complete_checkpoint sender_paths user_files sender_os 10 (source_manager 10).
Proof.
  split; [done|]. rewrite source_ids. intros id Hid.
  assert (Hin : id = 1 \/ id = 2 \/ id = 1001) by set_solver.
  destruct Hin as [-> | [-> | ->]]; (split; [done|]; split;
    [apply (bool_decide_unpack _); vm_compute; reflexivity|intros f Hf; vm_compute in Hf;
       repeat (apply elem_of_cons in Hf as [->|Hf]; [split; [by vm_compute|vm_compute; eauto]|]); by apply elem_of_nil in Hf]).
Qed.

Definition received_file (id : Z) (f : string) : path := machine_dir paths 10 id ++ [f].

Definition begins (r : option (OS * (manager * Sender * list CheckpointMessage * bool))) : bool :=
  match r with Some (_, (_, _, b :: _, _)) => bool_decide (cm_type b = CHECKPOINT_BEGIN) | _ => false end.

Lemma begins_with r : begins r = true -> forall sos m s sent ok, r = Some (sos, (m, s, sent, ok)) ->
  exists b ms, sent = b :: ms /\ cm_type b = CHECKPOINT_BEGIN.
Proof.
  intros H sos m s sent ok ->. destruct sent as [|b ms]; [done|]. apply bool_decide_eq_true in H. by exists b, ms.
Qed.

Lemma sender_begins : begins (file_SendCheckpoint (PX := quiet_posix) sender_paths (fun _ => []) 1 20 user_files 2
  (source_manager 10) Sender_new sender_os) = true.
Proof. vm_compute. reflexivity. Qed.

(** A file of the sender's checkpoint, by evaluation. *)
Lemma sent_file id f d :
  bool_decide (id ∈ machine_ids (source_manager 10)) = true ->
  bool_decide (f ∈ stored sender_paths user_files sender_os 10 id) = true ->
  bool_decide (content sender_os (machine_dir sender_paths 10 id ++ [f]) = Some d) = true ->
  id ∈ machine_ids (source_manager 10) /\ f ∈ stored sender_paths user_files sender_os 10 id /\
  content sender_os (machine_dir sender_paths 10 id ++ [f]) = Some d.
Proof.
  intros H1%bool_decide_eq_true H2%bool_decide_eq_true H3%bool_decide_eq_true.
  split_and!; [exact H1|exact H2|exact H3].
Qed.

Lemma arrives (a b : option string) d : a = arriving b -> b = d -> a = arriving d.
Proof. by intros -> ->. Qed.

Lemma not_stored :
  ~ (1001 ∈ machine_ids (source_manager 10) /\ "g"%string ∈ stored sender_paths user_files sender_os 10 1001).
Proof. intros [_ H]. vm_compute in H. set_solver. Qed.

Lemma disk_to_disk_witness :
  exists sos' m' s' sent os',
    file_SendCheckpoint (PX := quiet_posix) sender_paths (fun _ => []) 1 20 user_files 2 (source_manager 10) Sender_new sender_os
      = Some (sos', (m', s', sent, true)) /\
    @file_installed quiet_posix paths sent (mkFileReceiver 0 0 ∅) start_os = Some (os', Some 10) /\
    content os' (received_file 1001 "f") = Some "data"%string /\
    content os' (received_file 1001 "e") = None /\
    content os' (received_file 1 "MEMBERSHIP.db") = Some "members"%string /\
    content os' (received_file 1001 "g") = None.
Proof.
  destruct (disk_to_disk (PX := quiet_posix) sender_paths paths (fun _ => []) 20 user_files 1 2 (source_manager 10)
    Sender_new sender_os start_os) as (sos' & m' & s' & sent & Es & _ & H).
  - reflexivity.
  - lia.
  - reflexivity.
  - intros seq x Hx. by apply elem_of_nil in Hx.
  - apply write_files_wf, make_dirs_wf, empty_wf.
  - intros k. pose proof (short_length 19 sender_os k ltac:(vm_compute; reflexivity)). lia.
  - exact sender_complete.
  - exact start_dirs.
  - destruct (begins_with _ sender_begins _ _ _ _ _ Es) as (b & ms & Eb & Hb). subst sent.
    destruct (H b ms (mkFileReceiver 0 0 ∅) Hb (fun x h => h)) as (os' & x & Ex & Hall & Hx).
    rewrite (Hall eq_refl) in Ex. exists sos', m', s', (b :: ms), os'. split; [exact Es|]. split; [exact Ex|].
    destruct (Hx 10 (Hall eq_refl)) as (H1 & H2 & _). change (mgr_latest (source_manager 10)) with 10 in H1, H2.
    split; [|split; [|split]].
    + destruct (sent_file 1001 "f" "data") as (Hi & Hf & Ec); [vm_compute; reflexivity..|].
      exact (arrives _ _ (Some "data"%string) (H1 1001 "f"%string Hi Hf) Ec).
    + destruct (sent_file 1001 "e" "") as (Hi & Hf & Ec); [vm_compute; reflexivity..|].
      exact (arrives _ _ (Some ""%string) (H1 1001 "e"%string Hi Hf) Ec).
    + destruct (sent_file 1 "MEMBERSHIP.db" "members") as (Hi & Hf & Ec); [vm_compute; reflexivity..|].
      exact (arrives _ _ (Some "members"%string) (H1 1 "MEMBERSHIP.db"%string Hi Hf) Ec).
    + exact (H2 1001 "g"%string not_stored).
Defined.

Lemma recover_on_disk_witness :
  exists os' m' (found : list Z), file_MachineManager_Recover paths 10 2 5000 0 sample_manager clean_os = Some (os', (m', true)) /\
    30 ∈ found /\ mgr_latest m' = 20.
Proof.
  destruct (recover_on_disk (PX := quiet_posix) eq_refl paths 2 5000 0 10 good_env sample_manager clean_os clean_os_dir)
    as (os' & found & kept & m' & ok & E & Hnd & Hf & Em & Hk).
  - reflexivity.
  - reflexivity.
  - reflexivity.
  - apply (short_enough 8). vm_compute. reflexivity.
  - assert (Hres : (fun x : option (OS * (manager * bool)) => from_option (fun y => Some (mgr_latest y.2.1, y.2.2)) None x)
      (file_MachineManager_Recover paths 10 2 5000 0 sample_manager clean_os) = Some (20, true)) by (vm_compute; reflexivity).
    rewrite E in Hres. injection Hres as Hl Hok. subst ok. exists os', m', found.
    split; [exact E|]. split; [|exact Hl]. apply Hf. split; [unfold in_u64; lia|]. vm_compute. discriminate.
Defined.


(** A directory for the files of a machine. *)
Definition place_dir : string := "d/g0/checkpoint/checkpoint-10/m1001".

Lemma sample_place id : id = 1 \/ id = 2 -> checkpoint_place place_dir 40 id clean_os.
Proof.
  intros Hid. split; [apply clean_os_dir|]. split; [apply (short_enough 38); vm_compute; reflexivity|].
  split; [vm_compute; reflexivity|]. destruct Hid as [-> | ->]; vm_compute; discriminate.
Qed.

Definition manager_at (latest : Z) : manager := set_checkpoints [latest] latest latest sample_manager.

Lemma membership_survives_witness :
  exists os1 os2,
    membership_checkpoint 0 10 place_dir (members_of [1; 2]) clean_os = Some (os1, true) /\
    file_recover_machine 40 2 5000 0 1 place_dir (manager_at 10) os1 =
      Some (os2, (set_machines (members_of [1; 2]) MasterState_default ([] : um) (manager_at 10), true)).
Proof.
  apply (membership_survives 0 10 place_dir 40 ltac:(vm_compute; split; congruence) ltac:(vm_compute; split; congruence)
           (members_of [1; 2]) 2 5000 (manager_at 10) clean_os).
  - apply sample_place. by left.
  - vm_compute. lia.
  - reflexivity.
Defined.

(** Node 1 has a lease until 1500000010000; node 2 recovers ten seconds later. *)
Lemma recovered_lease_witness :
  exists os1 os2 m',
    master_checkpoint 0 10 place_dir (mkMasterState 8 1 1500000010000) clean_os = Some (os1, true) /\
    file_recover_machine 40 2 1500000020000 0 2 place_dir (manager_at 10) os1 = Some (os2, (m', true)) /\
    mst_lease_time (mgr_master m') = 3000000030000.
Proof.
  destruct (recovered_lease 0 10 place_dir 40 ltac:(vm_compute; split; congruence) ltac:(vm_compute; split; congruence)
           (mkMasterState 8 1 1500000010000) 2 1500000020000 (manager_at 10) clean_os)
    as (os1 & os2 & m' & H1 & H2 & H3 & _).
  - apply sample_place. by right.
  - vm_compute. lia.
  - reflexivity.
  - lia.
  - vm_compute. congruence.
  - vm_compute. reflexivity.
  - exists os1, os2, m'. split; [exact H1|]. split; [exact H2|]. rewrite H3. reflexivity.
Defined.

(** * Starting a node *)

(** Every path holds an empty database. *)
#[local] Instance open_empty : LevelDBOpen := fun _ _ _ => Some ∅.

(** The machines of the application have no state yet. *)
Definition no_user (group_id : Z) : @um list_machines := [].
Definition no_ckpt (group_id : Z) : @ckpt no_checkpoints := tt.

Definition two_groups : Options :=
  let g := mkGroupOptions true 10000 1000 3 true 5 100000 "d" [1001] [mkMember 1 "a" 1 ""; mkMember 2 "b" 2 ""] in
  mkOptions 1 0 1 1 1 1 (mkMember 1 "a" 1 "") [g; g] None.

Lemma node_starts_witness :
  exists os' impl g n, StartWorking good_env (fun _ => 0) no_user no_ckpt 0 10 two_groups empty_os
      = Some (os', (impl, true)) /\
    groups_ good_env impl !! 1%nat = Some g /\ fresh_node (MM := group_machines good_env) {[1; 2]} 1 n /\
    mm_GetMembership (MachineManager := group_machines good_env) (mm_ (g_node good_env g)) =
      MembershipMachine_new [mkMember 1 "a" 1 ""; mkMember 2 "b" 2 ""].
Proof.
  destruct (node_starts (PX := quiet_posix) good_env (fun _ => 0) no_user no_ckpt 0 10 eq_refl) with
    (P := "d"%string) (o := two_groups) (os := empty_os) as (os' & impl & E & _ & H).
  - intros size name. exists ∅. split; [reflexivity|]. split; vm_compute; [reflexivity|discriminate].
  - discriminate.
  - split; [exact empty_wf|]. right. split; vm_compute; reflexivity.
  - intros j Hj. unfold node_at. rewrite decide_False; [apply lookup_empty|by intros [_ ?]%app_nil].
  - repeat constructor; try (vm_compute; congruence); vm_compute; set_solver.
  - vm_compute. split; [congruence|reflexivity].
  - destruct (H 1%nat _ eq_refl) as (g & l & n & Eg & _ & _ & Hn & _ & Eq).
    exists os', impl, g, n. split; [exact E|]. split; [exact Eg|]. split.
    + assert (D : dom (ms_members (MembershipMachine_new [mkMember 1 "a" 1 ""; mkMember 2 "b" 2 ""])) = {[1; 2]})
        by (vm_compute; reflexivity).
      rewrite <- D. exact Hn.
    + assert (Ei : (fun x : option (OS * (NodeImpl good_env * bool)) =>
        from_option (fun y => (fun g => mm_GetMembership (MachineManager := group_machines good_env) (mm_ (g_node good_env g)))
          <$> groups_ good_env y.2.1 !! 1%nat) None x)
        (StartWorking good_env (fun _ => 0) no_user no_ckpt 0 10 two_groups empty_os)
        = Some (MembershipMachine_new [mkMember 1 "a" 1 ""; mkMember 2 "b" 2 ""])) by (vm_compute; reflexivity).
      rewrite E in Ei. cbn in Ei. rewrite Eg in Ei. by injection Ei.
Defined.
