(* ===== verification/ReplicationRuns.v ===== *)
(** Instances of the theorems on replication and on contexts, on a group whose application
    keeps a list of the values it executed. *)

From S2P Require Import Prelude Ballot Proto Storage Random TimerList Counter NodeState.
From S2P Require Import AcceptorModel ProposerModel LearnerModel LogModel InstanceModel Traces.
From S2P Require Import Consensus System Simulation Refinement MachinesModel Machines ProposeQueue Proposals.
From S2P Require Import GroupModel Groups Reference Runs MachineWitnesses TransferRuns Replication Notifications Contexts.

#[local] Instance list_group : MachineManager := manager_instance good_env (fun c => c).

#[local] Instance list_deterministic : DeterministicMachines.
Proof. refine {| um_equiv := (eq : relation (@um list_machines)) |}. by intros id g i v c1 c2 u1 u2 ->. Defined.

Definition list_manager (ids : list Z) : manager :=
  manager_new (members_of ids) ([] : @um list_machines) 100000 3 [] 0.

(** The machines 1, 2 and 1001. *)
Definition list_manager_1001 (ids : list Z) : mm := set_ids {[1; 2; 1001]} (list_manager ids).

Definition boot_list (m : mm) (id : Z) : node := (Instance_Recover (new_node (cfg id) 0 ∅ m tt)).1.

Definition boot_lists (ids : list Z) (m : mm) : gmap Z node := list_to_map ((fun i => (i, boot_list m i)) <$> ids).

Lemma boot_list_recovers (m : mm) id :
  mm_GetLatestCheckpointInstanceId m = 0 ->
  Instance_Recover (new_node (cfg id) 0 ∅ m tt) = (boot_list m id, true).
Proof. intros H. unfold boot_list. rewrite recover_empty; [done|done|done|by vm_compute]. Qed.

Lemma boot_lists_fresh ids m :
  mm_GetLatestCheckpointInstanceId m = 0 -> dom (ms_members (mm_GetMembership m)) = list_to_set ids ->
  fresh_system (list_to_set ids) (boot_lists ids m).
Proof.
  intros Hl Hd. split.
  - unfold boot_lists. rewrite dom_list_to_map_L, <- list_fmap_compose. f_equal. apply list_fmap_id.
  - intros me n Hn. apply elem_of_list_to_map_2, list_elem_of_fmap in Hn as (id & [= -> ->] & _).
    exists (cfg id), 0, ∅, m, tt.
    split_and!; [done|by vm_compute|by vm_compute|done|done|done|]. by apply boot_list_recovers.
Qed.

Lemma boot_lists_start ids m :
  mm_GetLatestCheckpointInstanceId m = 0 -> same_start good_env (fun c => c) (boot_lists ids m).
Proof.
  assert (H : forall me n, mm_GetLatestCheckpointInstanceId m = 0 -> boot_lists ids m !! me = Some n ->
    cf_group_id (config_ n) = 0 /\ mm_ n = m).
  { intros me n Hl Hn. apply elem_of_list_to_map_2, list_elem_of_fmap in Hn as (id & [= -> ->] & _).
    unfold boot_list. rewrite recover_empty; [done|done|done|by vm_compute]. }
  intros Hl me1 n1 me2 n2 H1 H2. destruct (H _ _ Hl H1) as [A1 B1], (H _ _ Hl H2) as [A2 B2].
  split; [exact (eq_trans A1 (eq_sym A2))|].
  assert (He : forall m1 m2 : manager, m1 = m2 -> machines_equiv m1 m2) by (by intros m1 m2 ->).
  apply He. exact (eq_trans B1 (eq_sym B2)).
Qed.

(** * State machine replication *)

Definition list_start : gmap Z node := boot_lists [1; 2; 3] (list_manager_1001 [1; 2; 3]).
Definition list_end : gmap Z node := default ∅ (clean_run happy_schedule list_start).
Definition list_node (me : Z) : node := default (boot_list (list_manager [1]) 1) (list_end !! me).

Lemma list_clean : clean_run happy_schedule list_start = Some list_end.
Proof. apply some_default. vm_compute. reflexivity. Qed.

Lemma list_start_fresh : fresh_system (list_to_set [1; 2; 3]) list_start.
Proof. exact (boot_lists_fresh [1; 2; 3] (list_manager_1001 [1; 2; 3]) eq_refl (members_of_dom [1; 2; 3])). Qed.

Lemma list_same_start : same_start good_env (fun c => c) list_start.
Proof. exact (boot_lists_start [1; 2; 3] (list_manager_1001 [1; 2; 3]) eq_refl). Qed.

Lemma list_node_at me : bool_decide (is_Some (list_end !! me)) = true -> list_end !! me = Some (list_node me).
Proof. exact (some_default (boot_list (list_manager [1]) 1) (list_end !! me)). Qed.

(** Node 3 has learned what node 1 has executed; node 2 is one value behind. *)
Lemma replicas_agree_witness :
  machines_equiv (mm_ (list_node 3)) (mm_ (list_node 1)) /\
  mgr_user (mm_ (list_node 3)) = (["a"; "b"]%string : @um list_machines) /\
  exists m l, machines_equiv (mm_ (list_node 2)) m /\ mm_run (fun _ => True) 0 m l (mm_ (list_node 1)) /\
    l.*1 = [(2, val 0 2 "b")].
Proof.
  pose proof (list_node_at 1 ltac:(vm_compute; reflexivity)) as H1.
  pose proof (list_node_at 2 ltac:(vm_compute; reflexivity)) as H2.
  pose proof (list_node_at 3 ltac:(vm_compute; reflexivity)) as H3.
  split; [|split; [vm_compute; reflexivity|]].
  - apply (replicas_agree good_env (fun c => c) (list_to_set [1; 2; 3]) list_start list_end happy_schedule 3 1
      (list_node 3) (list_node 1) list_start_fresh list_same_start list_clean H3 H1).
    + vm_compute. congruence.
    + vm_compute. reflexivity.
  - destruct (replicas_agree good_env (fun c => c) (list_to_set [1; 2; 3]) list_start list_end happy_schedule 2 1
      (list_node 2) (list_node 1) list_start_fresh list_same_start list_clean H2 H1)
      as [(m & l & E & R & L) _]; [vm_compute; congruence|].
    exists m, l. split; [exact E|]. split; [exact R|].
    assert (L1 : executions list_end 1 = [(1, val 0 1 "a"); (2, val 0 2 "b")]) by (vm_compute; reflexivity).
    assert (L2 : executions list_end 2 = [(1, val 0 1 "a")]) by (vm_compute; reflexivity).
    unfold replica_machines in L. unfold list_group in L1, L2.
    rewrite L1, L2 in L. by injection L as <-.
Defined.

Lemma executions_in_order_witness :
  exists n0 k, list_start !! 3 = Some n0 /\ out_ (list_node 3) = out_ n0 ++ k /\
    advance (instance_id_ n0) (run_log k) = Some 3.
Proof.
  pose proof (list_node_at 3 ltac:(vm_compute; reflexivity)) as H3.
  destruct (executions_in_order list_start list_end happy_schedule 3 (list_node 3)
    (checked_run_run _ _ _ _ list_clean) H3) as (n0 & k & Hn & O & A).
  exists n0, k. split; [exact Hn|]. split; [exact O|]. rewrite A. vm_compute. reflexivity.
Defined.

(** * A value for no machine *)

(** Machine 1001 is not registered on the nodes of this group. *)
Definition bare_start : gmap Z node := boot_lists [1; 2; 3] (list_manager [1; 2; 3]).

(** Node 1 gets the value "a" chosen, and then proposes again after its timeout. *)
Definition blocked_schedule : list (Z * Event) :=
  [ (1, propose "a"); (2, prepare 1 1 1); (1, promise 2 1 1); (2, accept 1 1 1 (val 0 1 "a"));
    (1, accepted 2 1 1); (2, new_chosen 1 1 1); (1, EvClock 1000); (1, EvTimer); (1, propose "b") ].

Definition bare_end : gmap Z node := default ∅ (System.run blocked_schedule bare_start).

Definition boot_bare : node := boot_list (list_manager [1; 2; 3]) 1.
Definition fresh_bare : node := default boot_bare (bare_start !! 1).
Definition blocked_node : node := default boot_bare (bare_end !! 1).

Definition unregistered (ids : gset Z) (o : Output) : bool :=
  match o with OExecute _ v _ => bool_decide (machine_id v ∉ ids) | _ => true end.

Lemma unknown_machine_blocks_witness :
  instance_id_ blocked_node = 1 /\ (forall i v r, OExecute i v r ∈ out_ blocked_node -> r = false) /\
  (2 <= length (run_log (out_ blocked_node)))%nat.
Proof.
  assert (Hr : System.run blocked_schedule bare_start = Some bare_end) by (apply some_default; vm_compute; reflexivity).
  assert (H1 : bare_end !! 1 = Some blocked_node) 
    by (apply (some_default boot_bare (bare_end !! 1)); vm_compute; reflexivity).
  assert (H0 : bare_start !! 1 = Some fresh_bare)
    by (apply (some_default boot_bare (bare_start !! 1)); vm_compute; reflexivity).
  destruct (unknown_machine_blocks good_env (fun c => c) bare_start bare_end blocked_schedule 1 fresh_bare
    blocked_node (out_ blocked_node) Hr H0 H1) as [E F].
  - vm_compute. reflexivity.
  - assert (Hf : forallb (unregistered (mgr_ids (mm_ fresh_bare))) (out_ blocked_node) = true) by (vm_compute; reflexivity).
    intros i v r Ho. rewrite forallb_forall in Hf. apply list_elem_of_In in Ho. specialize (Hf _ Ho).
    simpl in Hf. by apply bool_decide_eq_true in Hf.
  - split; [etrans; [exact E|vm_compute; reflexivity]|]. split; [exact F|]. vm_compute. lia.
Defined.

(** * Callbacks *)

(** Node 1 proposes to change the address of member 3. *)
Definition change_data : string := SerializeAsString (change_message [(mkMember 3 "c" 7 "", true)]).
Definition change_value : PaxosValue := mkPaxosValue (Z.lor 256 1) 1 change_data.

Definition change_schedule : list (Z * Event) :=
  [ (1, EvPropose 1 change_data 0 256); (2, prepare 1 1 1); (1, promise 2 1 1); (2, accept 1 1 1 change_value);
    (1, accepted 2 1 1) ].

Section Notified.
#[local] Instance list_notifying : MachineManager := notifying_machines good_env (fun c => c).

Definition just_set : notifying :=
  SetNewMasterCallback true (SetNewMembershipCallback true
    (mkNotifying (list_manager_1001 [1; 2; 3]) (mkUserCallbacks false false) [])).

Definition boot_notifying (id : Z) : node := (Instance_Recover (new_node (cfg id) 0 ∅ just_set tt)).1.
Definition notifying_start : gmap Z node := list_to_map ((fun i => (i, boot_notifying i)) <$> [1; 2; 3]).
Definition changed_end : gmap Z node := default ∅ (System.run change_schedule notifying_start).
Definition changed_node : node := default (boot_notifying 1) (changed_end !! 1).
Definition unchanged_node : node := default (boot_notifying 1) (notifying_start !! 1).

Lemma changes_are_notified_witness :
  nt_calls (mm_ changed_node) = [NewMembership 0] /\
  ms_version (mgr_membership (nt_manager (mm_ changed_node))) = 1 /\
  mgr_master (nt_manager (mm_ changed_node)) = mgr_master (list_manager_1001 [1; 2; 3]).
Proof.
  assert (Hr : System.run change_schedule notifying_start = Some changed_end)
    by (apply some_default; vm_compute; reflexivity).
  assert (H1 : changed_end !! 1 = Some changed_node)
    by (apply (some_default (boot_notifying 1) (changed_end !! 1)); vm_compute; reflexivity).
  assert (H0 : notifying_start !! 1 = Some unchanged_node)
    by (apply (some_default (boot_notifying 1) (notifying_start !! 1)); vm_compute; reflexivity).
  assert (Hx : mm_ unchanged_node = just_set) by (vm_compute; reflexivity).
  assert (Ec : nt_calls (mm_ changed_node) = [NewMembership 0]) by (vm_compute; reflexivity).
  assert (Eg : cf_group_id (config_ changed_node) = 0) by (vm_compute; reflexivity).
  assert (El : run_log (out_ changed_node) = run_log (out_ unchanged_node) ++ [(1, change_value, true)])
    by (vm_compute; reflexivity).
  destruct (changes_are_notified good_env (fun c => c) notifying_start changed_end change_schedule 1
    unchanged_node changed_node _ Hr H0 H1 Hx) as (calls & log & N & L & _ & _ & M & U & _).
  unfold list_notifying in Ec, El, Eg. rewrite Ec in N. cbn in N. subst calls. rewrite Eg in M, U.
  rewrite El in L. apply app_inv_head in L. subst log.
  split; [exact Ec|]. split.
  - assert (Es : last_success 1 [(1, change_value, true)] = Some 1) by (vm_compute; reflexivity).
    exact (eq_sym (inj Some _ _ (eq_trans (eq_sym Es) (M ltac:(constructor))))).
  - apply U. intros H. apply list_elem_of_singleton in H. discriminate H.
Defined.

End Notified.

(** * Contexts *)

(** Two clients propose with contexts 100 and 200; the first callback has been run. *)
Definition context_events : list GroupEvent :=
  [GPropose 1001 "x" 100 7; GPropose 1001 "y" 200 8; GHandler 256; GCallback].

Lemma single_timers : timers_ok (io_timers single_node).
Proof.
  constructor; [vm_compute; reflexivity|constructor|].
  intros v p. split; [intros H; vm_compute in H; by apply elem_of_nil in H|].
  intros (t & Ht & _). vm_compute in Ht. destruct p; discriminate Ht.
Qed.

Lemma contexts_are_live_witness :
  exists g g', group_run good_env context_events (Group_new good_env single_node true 10000 5) = Some g /\
    group_step good_env (GHandler 257) g = Some g' /\
    drives (MM := group_machines good_env) (live_context [(HPropose 1001 "x" 100, UserCallback 7); (HPropose 1001 "y" 200, UserCallback 8)]
        (g_called good_env g) (g_now good_env g'))
      (g_node good_env g) (g_node good_env g') /\
    ~ live_context [(HPropose 1001 "x" 100, UserCallback 7); (HPropose 1001 "y" 200, UserCallback 8)]
        (g_called good_env g) (g_now good_env g') 100.
Proof.
  destruct (evaluated (group_run good_env context_events (Group_new good_env single_node true 10000 5))
    (fun g => (g_called good_env g =? 1)%nat && bool_decide (is_Some (group_step good_env (GHandler 257) g))))
    as (g & E & H); [vm_compute; reflexivity|].
  apply andb_true_iff in H as [H1 H2]. apply Nat.eqb_eq in H1. apply bool_decide_eq_true in H2 as [g' E'].
  exists g, g'. split; [exact E|]. split; [exact E'|].
  assert (Ea : Groups.accepted good_env context_events (Group_new good_env single_node true 10000 5)
    = [(HPropose 1001 "x" 100, UserCallback 7); (HPropose 1001 "y" 200, UserCallback 8)]) by (vm_compute; reflexivity).
  rewrite <- Ea. split.
  - apply (contexts_are_live good_env context_events (GHandler 257) single_node true 10000 5 g g');
      [reflexivity|apply single_timers|reflexivity..|exact E|exact E'].
  - rewrite Ea. intros [H|(j & h & cb & Hj & Hc & Hh)]; [discriminate|]. rewrite H1 in Hc.
    destruct j as [|[|j]]; [lia| |done]. injection Hj as <- <-. discriminate Hh.
Defined.

(** * Leases *)

(** Node 1 after it has executed, at 1500, the lease of 10000 that node 2 proposed at 1000. *)
Definition lease_state : MasterState := mkMasterState 0 2 10000.
Definition following : group good_env :=
  Group_new good_env
    (new_node (MM := group_machines good_env) (cfg 1) 10999 ∅
       (set_machines (mgr_membership (list_manager [1; 2])) (mkMasterState 8 2 11500) [] (list_manager [1; 2])) tt)
    true 10000 5.

(** Node 2 executes its value with its context, and only arms the timer of node 1; executing
    it at 1900 without the context it has node 1 propose while it is master. *)
Lemma lease_overlap_witness :
  MasterMachine_IsMaster 2 10999 (mkMasterState 8 2 11000) = true /\
  TryBeMaster good_env 10999 following = arm_master good_env 11500 false following /\
  exists t, 1900 <= t /\ MasterMachine_IsMaster 2 t (mkMasterState 8 2 11900) = true /\
    g_waiting good_env (TryBeMaster good_env t following) = true.
Proof.
  assert (E1 : MasterMachine_IsMaster 2 10999 (mkMasterState 8 2 11000) = true) by (vm_compute; reflexivity).
  split; [exact E1|].
  destruct (lease_overlap good_env 8 1600 1500 2 10000 0 (Some 1000) lease_state lease_state
    (mkMasterState 8 2 11000) following) as [S _];
    [reflexivity|by vm_compute|by vm_compute|reflexivity|reflexivity|by vm_compute|reflexivity|reflexivity|].
  destruct (lease_overlap good_env 8 1900 1500 2 10000 0 None lease_state lease_state
    (mkMasterState 8 2 11900) following) as [_ U];
    [reflexivity|by vm_compute|by vm_compute|reflexivity|reflexivity|by vm_compute|reflexivity|reflexivity|].
  split; [exact (proj1 (S ltac:(lia) 10999 E1))|].
  destruct (U ltac:(lia)) as (t & Ht & M & P & _). exists t. split; [exact Ht|]. split; [exact M|].
  rewrite (P (Put HTryBeMaster MasterCallback (g_queue good_env following)).1) by (vm_compute; reflexivity).
  reflexivity.
Defined.
