(* ===== verification/JourneyModel.v ===== *)
(** Model of the application in [examples/journey]: a replicated key-value store.

    [journey.proto]: the messages.  [journey_db.cc]: a database on its own LevelDB, with
    LevelDB's bytewise comparator.  [journey_db_machine.cc]: the state machine; it is one
    object that all groups of a node share.  [journey_service_impl.cc]: the RPC service of
    a node.  [journey_server.cc]: the program.

    The objects a context points to are [ResponseMessage]s; they are kept with the machine
    ([j_heap]), by address.  Hash32 and SplitStringUsing are voyager's: the classes [Hash] and
    [StringUtil]. *)

From S2P Require Import Prelude Ballot Proto Util Storage Random TimerList Counter NodeState.
From S2P Require Import InstanceModel System Simulation MachinesModel ProposeQueue GroupModel Runtime.
From S2P Require Import FileModel CheckpointFileModel MachineFileModel NodeModel Replication.

(** * Messages *)

(** Enumerations of proto3 are open: another number can be received. *)
Inductive ProposeType := PROPOSE_TYPE_PUT | PROPOSE_TYPE_GET | PROPOSE_TYPE_DELETE | PROPOSE_TYPE_other (n : Z).

Inductive ProposeResult :=
| PROPOSE_RESULT_SUCCESS | PROPOSE_RESULT_FAIL | PROPOSE_RESULT_NOT_FOUND | PROPOSE_RESULT_NOT_MASTER
| PROPOSE_RESULT_other (n : Z).

#[export] Instance propose_type_eq_dec : EqDecision ProposeType.
Proof. solve_decision. Defined.
#[export] Instance propose_result_eq_dec : EqDecision ProposeResult.
Proof. solve_decision. Defined.

Record RequestMessage := mkRequest { rq_type : ProposeType; rq_key : string; rq_value : string }.

Record ResponseMessage := mkResponse {
  rs_result : ProposeResult;
  rs_value : string;
  rs_has_master : bool;
  rs_master_ip : string;
  rs_master_port : Z;
  rs_master_version : Z;
}.

Definition RequestMessage_default : RequestMessage := mkRequest PROPOSE_TYPE_PUT "" "".
Definition ResponseMessage_default : ResponseMessage :=
  mkResponse PROPOSE_RESULT_SUCCESS "" false "" 0 0.

Definition set_result (r : ProposeResult) (m : ResponseMessage) : ResponseMessage :=
  mkResponse r (rs_value m) (rs_has_master m) (rs_master_ip m) (rs_master_port m) (rs_master_version m).
Definition set_value (v : string) (m : ResponseMessage) : ResponseMessage :=
  mkResponse (rs_result m) v (rs_has_master m) (rs_master_ip m) (rs_master_port m) (rs_master_version m).
Definition set_master (has : bool) (ip : string) (port version : Z) (m : ResponseMessage) : ResponseMessage :=
  mkResponse (rs_result m) (rs_value m) has ip port version.

(** * The database *)

(** LevelDB with its bytewise comparator. *)
Class BytewiseLaws `{!LevelDB} := {
  bytewise_put : forall sync k v db db',
    ldb_Put sync k v db = (db', LOk) ->
    forall k', ldb_Get k' db' = if decide (k = k') then (LOk, v) else ldb_Get k' db;
  bytewise_delete : forall sync k db db',
    ldb_Delete sync k db = (db', LOk) ->
    forall k', ldb_Get k' db' = if decide (k = k') then (LNotFound, ""%string) else ldb_Get k' db;
}.

(** Updates that are not refused by the disk. *)
Class BytewiseReliable `{!LevelDB} := {
  bytewise_put_ok : forall sync k v db, (ldb_Put sync k v db).2 = LOk;
  bytewise_delete_ok : forall sync k db, (ldb_Delete sync k db).2 = LOk;
}.

Section Database.
Context {JD : LevelDB}.

(** The options other than [create_if_missing] are LevelDB's defaults. *)
Definition JourneyDB_Open {JO : LevelDBOpen} (path : string) : option ldb :=
  ldb_Open true (4 * 1024 * 1024) path.

Definition JourneyDB_Put (key value : string) (db : ldb) : ldb * Z :=
  match ldb_Put false key value db with
  | (db', LOk) => (db', 0)
  | (db', _) => (db', -1)
  end.

(** The second component is [*value], which the callers pass empty. *)
Definition JourneyDB_Get (key : string) (db : ldb) : Z * string :=
  match ldb_Get key db with
  | (LOk, v) => (0, v)
  | (LNotFound, _) => (1, ""%string)
  | (LIOError, _) => (-1, ""%string)
  end.

Definition JourneyDB_Delete (key : string) (db : ldb) : ldb * Z :=
  match ldb_Delete false key db with
  | (db', LOk) => (db', 0)
  | (db', _) => (db', -1)
  end.

End Database.

(** * The state machine *)

Section Machine.
Context {JD : LevelDB} {PR : ProtoCodec RequestMessage}.

Record JourneyDBMachine := mkJourneyDBMachine {
  j_db : ldb;
  j_heap : gmap Z ResponseMessage;   (* the responses contexts point to *)
}.

Definition with_db (db : ldb) (m : JourneyDBMachine) : JourneyDBMachine := mkJourneyDBMachine db (j_heap m).

(** An assignment through a pointer to a response. *)
Definition update_response (p : Z) (f : ResponseMessage -> ResponseMessage) (m : JourneyDBMachine)
  : JourneyDBMachine := mkJourneyDBMachine (j_db m) (alter f p (j_heap m)).

Definition Machine_Get (key : string) (m : JourneyDBMachine) : Z * string := JourneyDB_Get key (j_db m).

Definition Machine_Recover (group_id instance_id : Z) (m : JourneyDBMachine) : JourneyDBMachine * bool := (m, true).

Definition Machine_Execute (group_id instance_id : Z) (value : string) (context : Z) (m : JourneyDBMachine)
  : JourneyDBMachine * bool :=
  let '(res, msg) := ParseFromString value in
  if res then
    let finish (r : ldb * Z) :=
      let m := with_db r.1 m in
      if r.2 =? 0 then
        (if context =? 0 then m else update_response context (set_result PROPOSE_RESULT_SUCCESS) m, true)
      else (m, false) in
    match rq_type msg with
    | PROPOSE_TYPE_PUT => finish (JourneyDB_Put (rq_key msg) (rq_value msg) (j_db m))
    | PROPOSE_TYPE_DELETE => finish (JourneyDB_Delete (rq_key msg) (j_db m))
    | _ => (m, true)
    end
  else (m, true).

Definition Machine_MakeCheckpoint (group_id instance_id : Z) (dir : string) : bool := false.

(** The result and the files it adds. *)
Definition Machine_GetCheckpoint (group_id instance_id : Z) (dir : string) : bool * list string := (true, []).

(** The only machine of the application. *)
#[global] Instance journey_machines : UserMachines := {|
  um := JourneyDBMachine;
  um_Execute _ := Machine_Execute;
  um_Recover _ := Machine_Recover;
|}.

End Machine.

(** * The service *)

Class Hash := Hash32 : string -> Z.

Section Service.
Context {JD : LevelDB} {JO : @LevelDBOpen JD} {PR : ProtoCodec RequestMessage} {HS : Hash}.
Context {PX : Posix} {FC : FixedCoding} {LD : LevelDB} {LO : LevelDBOpen} {CM : CheckpointManager}.
Context {AL : Allocator} {CR : Crc32c}.
Context {PI : ProtoCodec PaxosInstance} {PCM : ProtoCodec MemberChangeMessage}.
Context {PS : ProtoCodec MasterState} {PM : ProtoCodec Membership}.
Variable env : CheckpointEnv.

#[local] Existing Instance group_machines.
Notation journey_um := (@journey_machines JD PR).
Notation group_t := (GroupModel.group (UM := journey_um) env).
Notation node_t := (NodeImpl (UM := journey_um) env).

Definition kJourneyMachine : Z := 6.

(** [sv_done]: the closures that were run, in order. *)
Record JourneyServiceImpl := mkService {
  sv_group_size : Z;
  sv_machine : JourneyDBMachine (JD := JD);
  sv_node : node_t;
  sv_done : list Z;
}.

Definition with_machine (f : JourneyDBMachine (JD := JD) -> JourneyDBMachine (JD := JD)) (s : JourneyServiceImpl) :=
  mkService (sv_group_size s) (f (sv_machine s)) (sv_node s) (sv_done s).

(** [if (done) done->Run()]; the null closure is 0. *)
Definition run_done (done : Z) (s : JourneyServiceImpl) : JourneyServiceImpl :=
  if done =? 0 then s
  else mkService (sv_group_size s) (sv_machine s) (sv_node s) (sv_done s ++ [done]).

Definition Shard (group_size : Z) (key : string) : Z :=
  if group_size =? 1 then 0 else Hash32 key mod group_size.

(** [*version] after [GetMaster] has failed: it may have been written before the member was
    found missing. *)
Definition failed_version (now_micros uninitialised : Z) (g : group_t) : Z :=
  match MasterMachine_GetMaster now_micros (GetMasterState env g) with
  | Some (_, version) => version
  | None => uninitialised
  end.

(** [uninitialised] are the values of the variables [master.port] and [version] when
    nothing was assigned to them.  [None] is an index out of range, or a failed
    assertion. *)
Definition Service_Propose (now now_micros : Z) (uninitialised : Z * Z) (request : RequestMessage)
    (response done : Z) (s : JourneyServiceImpl) : option JourneyServiceImpl :=
  if sv_group_size s =? 0 then None
  else
    let group_id := Shard (sv_group_size s) (rq_key request) in
    let set f := with_machine (update_response response f) in
    let s := set (set_result PROPOSE_RESULT_FAIL) s in
    is_master ← Node_IsMaster env group_id now (sv_node s);
    if is_master : bool then
      if decide (rq_type request = PROPOSE_TYPE_GET) then
        let '(res, v) := Machine_Get (rq_key request) (sv_machine s) in
        let s := if res =? 0 then set (set_value v) (set (set_result PROPOSE_RESULT_SUCCESS) s)
                 else if res =? 1 then set (set_result PROPOSE_RESULT_NOT_FOUND) s
                 else s in
        Some (run_done done s)
      else
        '(n, propose) ← Node_Propose env group_id kJourneyMachine (SerializeAsString request) response
                          (UserCallback done) (sv_node s);
        let s := mkService (sv_group_size s) (sv_machine s) n (sv_done s) in
        Some (if propose : bool then s else run_done done s)
    else
      master ← Node_GetMaster env group_id now_micros (sv_node s);
      version ← in_group env group_id (failed_version now_micros uninitialised.2) (sv_node s);
      let s := set (set_result PROPOSE_RESULT_NOT_MASTER) s in
      let s := match master with
               | Some (m, version) => set (set_master true (m_host m) (m_port m) version) s
               | None => set (set_master false "" uninitialised.1 version) s
               end in
      Some (run_done done s).

(** ** The machine is shared *)

(** The groups hold pointers to one object: before a group runs, its machine is the
    shared one, and afterwards the shared one is what the group has made of it. *)
Definition put_user (u : JourneyDBMachine (JD := JD)) (m : manager (UM := journey_um)) : manager (UM := journey_um) :=
  set_machines (UM := journey_um) (mgr_membership m) (mgr_master m) u m.

Definition load_machine (u : JourneyDBMachine (JD := JD)) (g : group_t) : group_t :=
  with_node env (g_node env g <| mm_ ::= (fun m : @mm (group_machines (UM := journey_um) env) => put_user u m) |>) g.

Definition group_user (g : group_t) : JourneyDBMachine (JD := JD) :=
  mgr_user (mm_ (g_node env g) : manager (UM := journey_um)).

(** The closure captured by the callback [Propose] hands to the node. *)
Definition next_done (g : group_t) : Z :=
  match callbacks (g_queue env g) !! g_called env g with
  | Some (UserCallback done, _) => done
  | _ => 0
  end.

(** One group of the node runs: a message, a handler, a timer or a callback. *)
Definition Service_group (gid : nat) (e : GroupEvent) (s : JourneyServiceImpl) : option JourneyServiceImpl :=
  g ← groups_ env (sv_node s) !! gid;
  let g := load_machine (sv_machine s) g in
  g' ← group_step env e g;
  let n := sv_node s in
  let s := mkService (sv_group_size s) (group_user g')
             (mkNodeImpl env (stop_ env n) (options_ env n) (loops_ env n) (<[gid := g']> (groups_ env n)))
             (sv_done s) in
  Some (match e with GCallback => run_done (next_done g) s | _ => s end).

(** What the RPC server hands to the service creates the response; the rest is the node. *)
Inductive ServiceEvent :=
| SPropose (now now_micros : Z) (uninitialised : Z * Z) (request : RequestMessage) (response done : Z)
| SGroup (gid : nat) (e : GroupEvent).

Definition new_response (p : Z) (m : JourneyDBMachine (JD := JD)) : JourneyDBMachine (JD := JD) :=
  mkJourneyDBMachine (j_db m) (<[p := ResponseMessage_default]> (j_heap m)).

Definition service_step (e : ServiceEvent) (s : JourneyServiceImpl) : option JourneyServiceImpl :=
  match e with
  | SPropose now micros u request response done =>
      Service_Propose now micros u request response done (with_machine (new_response response) s)
  | SGroup gid e => Service_group gid e s
  end.

Fixpoint service_run (es : list ServiceEvent) (s : JourneyServiceImpl) : option JourneyServiceImpl :=
  match es with
  | [] => Some s
  | e :: es => s ← service_step e s; service_run es s
  end.

(** ** Start *)

Definition push_machine (o : Options) : Options :=
  mkOptions (net_thread_size o) (io_thread_size o) (callback_thread_size o) (learn_thread_size o)
    (clean_thread_size o) (master_thread_size o) (my o)
    ((fun g => mkGroupOptions (use_master g) (master_lease_time g) (propose_timeout g) (keep_checkpoint_count g)
                 (log_sync g) (sync_interval g) (keep_log_count g) (log_storage_path g)
                 (machines g ++ [kJourneyMachine]) (membership g)) <$> groups o) (cluster o).

(** The groups replay their logs one after the other, on the shared machine. *)
Definition replay_group (gid : Z) (out : list Output) (u : JourneyDBMachine (JD := JD)) : JourneyDBMachine (JD := JD) :=
  foldl (fun u (x : Z * PaxosValue * bool) =>
           if machine_id x.1.2 =? kJourneyMachine then (Machine_Execute gid x.1.1 (user_data x.1.2) 0 u).1 else u)
    u (run_log out).

Definition replay_groups (gs : list group_t) (u : JourneyDBMachine (JD := JD)) : JourneyDBMachine (JD := JD) :=
  foldl (fun u (ig : nat * group_t) => replay_group (Z.of_nat ig.1) (out_ (g_node env ig.2)) u) u
    (zip (seq 0 (length gs)) gs).

Variables (clock : Z -> Z) (new_ckpt : Z -> ckpt) (uninitialised : Z) (fuel : nat).

Definition Service_Start (db_path : string) (o : Options) : io (option JourneyServiceImpl) :=
  match JourneyDB_Open (JD := JD) (JO := JO) db_path with
  | None => mret None
  | Some db =>
      let u := mkJourneyDBMachine (JD := JD) db ∅ in
      let o := push_machine o in
      x ← Node_Start (UM := journey_um) env clock (fun _ => u) new_ckpt uninitialised fuel o;
      mret match x with
           | None => None
           | Some n => Some (mkService (Z.of_nat (length (groups o)) mod 2 ^ 32) (replay_groups (groups_ env n) u) n [])
           end
  end.

End Service.
