(* ===== verification/JourneyPrograms.v ===== *)
(** Model of the programs around the key-value store: the options [main] of
    [examples/journey/journey_server.cc] and of [examples/echo/echo.cc] make from their
    arguments, and the interactive client [examples/journey/journey_client.cc].

    The client runs in the event loop of voyager: connections, answers and errors arrive as
    events.  Its standard input is the list of the lines still to come; past the end
    [std::getline] leaves the line empty. *)

From S2P Require Import Prelude Proto Util NodeState NodeModel JourneyModel.
From Stdlib Require Import Ascii.

#[local] Open Scope string_scope.
#[local] Open Scope Z_scope.

(** * Numbers and words *)

(** voyager's SplitStringUsing: the pieces between delimiters, empty ones left out. *)
Class StringUtil := SplitStringUsing : string -> string -> list string.

Definition add_piece (piece : string) (l : list string) : list string :=
  if decide (piece = "") then l else piece :: l.

Fixpoint pieces (c : ascii) (s piece : string) : list string :=
  match s with
  | "" => add_piece piece []
  | String x s => if Ascii.eqb x c then add_piece piece (pieces c s "") else pieces c s (piece +:+ String x "")
  end.

Class StringUtilLaws `{!StringUtil} :=
  split_pieces : forall s c, SplitStringUsing s (String c "") = pieces c s "".

(** [find] and [find_first_of] for one character. *)
Fixpoint find_char (c : ascii) (s : string) : option nat :=
  match s with
  | "" => None
  | String x s => if Ascii.eqb x c then Some 0%nat else S <$> find_char c s
  end.

Definition code_of (c : ascii) : Z := Z.of_N (N_of_ascii c).
Definition is_digit (c : ascii) : bool := (48 <=? code_of c) && (code_of c <=? 57).
Definition is_blank (c : ascii) : bool := (code_of c =? 32) || ((9 <=? code_of c) && (code_of c <=? 13)).

Fixpoint skip_blanks (s : string) : string :=
  match s with
  | String c s' => if is_blank c then skip_blanks s' else s
  | "" => ""
  end.

Fixpoint read_digits (s : string) (acc : option Z) : option Z :=
  match s with
  | String c s' =>
      if is_digit c then read_digits s' (Some (default 0 acc * 10 + (code_of c - 48))) else acc
  | "" => acc
  end.

(** The number at the head of a string. *)
Definition parse_int (s : string) : option Z :=
  match skip_blanks s with
  | String c s' =>
      if Ascii.eqb c "-" then Z.opp <$> read_digits s' None
      else if Ascii.eqb c "+" then read_digits s' None
      else read_digits (String c s') None
  | "" => None
  end.

(** The numbers are those that fit an [int]; beyond them [atoi] is undefined. *)
Definition atoi (s : string) : Z := default 0 (parse_int s).

(** [None] is an exception. *)
Definition stoi (s : string) : option Z :=
  z ← parse_int s; if (- 2 ^ 31 <=? z) && (z <? 2 ^ 31) then Some z else None.

(** * The servers *)

Inductive MainResult :=
| MUsage                                      (* return -1 *)
| MNoDirectory                                (* getcwd error *)
| MUndefined
| MStart (o : Options) (db_path : string) (rpc_host : string) (rpc_port : Z).

Section Servers.
Context {IN : Inet} {SU : StringUtil}.

(** Member has a string without content as its context. *)
Definition member_at (host port : string) : Member :=
  let p := wrap16 (atoi port) in mkMember (MakeId host p) host p "".

(** The loop over [others]. *)
Definition read_member (it : string) : option Member :=
  match find_char ":" it with
  | Some found =>
      Some (member_at (String.substring 0 found it)
              (String.substring (found + 1) (String.length it - (found + 1)) it))
  | None => None
  end.

Definition read_members (arg : string) : list Member := omap read_member (SplitStringUsing arg ",").

(** [my[0]] and [my[1]]; fewer words are an index out of range. *)
Definition read_my (arg : string) : option Member :=
  match SplitStringUsing arg ":" with
  | host :: port :: _ => Some (member_at host port)
  | _ => None
  end.

Definition server_group (path : string) (members : list Member) : GroupOptions :=
  mkGroupOptions true (10 * 1000) 1000 3 true 0 1000 path [] members.

Definition echo_group (path : string) (members : list Member) : GroupOptions :=
  mkGroupOptions true (10 * 1000) 1000 3 true 0 100 path [] members.

(** Three groups with the same options. *)
Definition three_groups (g : GroupOptions) (m : Member) : Options :=
  mkOptions 1 0 1 1 1 1 m [g; g; g] None.

Definition server_main (argv : list string) (cwd : option string) : MainResult :=
  match argv with
  | [_; arg1; arg2] =>
      match cwd with
      | None => MNoDirectory
      | Some path =>
          match read_my arg1 with
          | None => MUndefined
          | Some m =>
              MStart (three_groups (server_group path (read_members arg2)) m) (path +:+ "/db")
                (m_host m) (m_port m + 1000)
          end
      end
  | _ => MUsage
  end.

Definition echo_main (argv : list string) (cwd : option string) : MainResult :=
  match argv with
  | [_; arg1; arg2] =>
      match cwd with
      | None => MNoDirectory
      | Some path =>
          match read_my arg1 with
          | None => MUndefined
          | Some m => MStart (three_groups (echo_group path (read_members arg2)) m) "" (m_host m) (m_port m)
          end
      end
  | _ => MUsage
  end.

(** What echo proposes for a line of input: the machine id -1, converted to [uint32_t]. *)
Definition echo_proposal (line : string) : Z * Z * string := (0, wrap32 (-1), line).

End Servers.

(** * The client *)

Record JourneyClient := mkClient {
  server_ : string;
  v_ : list string;
  channels_ : gmap string Z;                     (* channel by server *)
  cl_input : list string;
  cl_printed : list string;
  cl_sent : list (Z * RequestMessage);           (* requests by channel *)
  cl_connecting : list (string * Z * RequestMessage);
}.

Definition JourneyClient_new (server : string) (input : list string) : JourneyClient :=
  mkClient server [] ∅ input [] [] [].

Definition print (s : string) (c : JourneyClient) : JourneyClient :=
  mkClient (server_ c) (v_ c) (channels_ c) (cl_input c) (cl_printed c ++ [s]) (cl_sent c) (cl_connecting c).
Definition set_server (s : string) (c : JourneyClient) : JourneyClient :=
  mkClient s (v_ c) (channels_ c) (cl_input c) (cl_printed c) (cl_sent c) (cl_connecting c).
Definition set_v (v : list string) (c : JourneyClient) : JourneyClient :=
  mkClient (server_ c) v (channels_ c) (cl_input c) (cl_printed c) (cl_sent c) (cl_connecting c).
Definition set_input (l : list string) (c : JourneyClient) : JourneyClient :=
  mkClient (server_ c) (v_ c) (channels_ c) l (cl_printed c) (cl_sent c) (cl_connecting c).
Definition set_channel (ch : Z) (c : JourneyClient) : JourneyClient :=
  mkClient (server_ c) (v_ c) (<[server_ c := ch]> (channels_ c)) (cl_input c) (cl_printed c) (cl_sent c)
    (cl_connecting c).
Definition send (ch : Z) (r : RequestMessage) (c : JourneyClient) : JourneyClient :=
  mkClient (server_ c) (v_ c) (channels_ c) (cl_input c) (cl_printed c) (cl_sent c ++ [(ch, r)]) (cl_connecting c).
Definition set_connecting (l : list (string * Z * RequestMessage)) (c : JourneyClient) : JourneyClient :=
  mkClient (server_ c) (v_ c) (channels_ c) (cl_input c) (cl_printed c) (cl_sent c) l.

(** The client goes on waiting for events, has called [exit(0)], has failed an assertion,
    thrown an exception or otherwise left defined behaviour, or calls itself for ever. *)
Inductive Outcome := Running (c : JourneyClient) | Exited (c : JourneyClient) | Undefined | Endless.

Definition and_then (o : Outcome) (f : JourneyClient -> Outcome) : Outcome :=
  match o with Running c => f c | o => o end.

Definition newline : string := String "010" "".

Section Client.
Context {SU : StringUtil}.

(** The words of a command: the first one, and the rest cut at the colons. *)
Definition command_words (s : string) : option (list string) :=
  match find_char " " s with
  | Some found =>
      Some (String.substring 0 found s ::
            SplitStringUsing (String.substring found (String.length s - found) s) ":")
  | None => None
  end.

(** [std::getline] and the body of [GetLine], which calls itself for the next line after an
    invalid command.  At the end of the input the line is empty: as a command it is
    invalid, again and again. *)
Fixpoint GetLine_loop (server : bool) (input : list string) (c : JourneyClient) : Outcome :=
  let c := print "> " c in
  match input with
  | [] => if server then Running (set_server "" (set_input [] c)) else Endless
  | s :: input =>
      if decide (s = "quit") then Exited (set_input input (print ("bye!" +:+ newline) c))
      else if server then Running (set_server s (set_input input c))
      else match command_words s with
           | Some v => Running (set_v v (set_input input c))
           | None => GetLine_loop server input (set_v [] (print ("invalid command!" +:+ newline) c))
           end
  end.

Definition GetLine (server : bool) (c : JourneyClient) : Outcome := GetLine_loop server (cl_input c) c.

(** The outer [None] is the failed assertion, the inner one [false]. *)
Definition CreateNewRequest (v : list string) : option (option RequestMessage) :=
  match v with
  | cmd :: key :: rest =>
      Some (if decide (cmd = "put") then
              match rest with [value] => Some (mkRequest PROPOSE_TYPE_PUT key value) | _ => None end
            else if decide (cmd = "get") then Some (mkRequest PROPOSE_TYPE_GET key "")
            else if decide (cmd = "delete") then Some (mkRequest PROPOSE_TYPE_DELETE key "")
            else None)
  | _ => None
  end.

Definition bad_server_text (server : string) : string :=
  server +:+ ", invalid server_ip:server_port, please enter new server_ip:server_port" +:+ newline.

(** [CreateNewChannel] up to the retry with a new server, which is [None]. *)
Definition connect (request : RequestMessage) (c : JourneyClient) : option Outcome :=
  match SplitStringUsing (server_ c) ":" with
  | [ip; port] =>
      Some match stoi port with
           | Some p => Running (set_connecting (cl_connecting c ++ [(ip, p, request)]) c)
           | None => Undefined
           end
  | _ => None
  end.

(** [Propose(v_)] with [CreateNewChannel].  [self true] is the call [Propose()] and
    [self false] the call [Propose(v_)]. *)
Definition propose_words (self : bool -> JourneyClient -> Outcome) (c : JourneyClient) : Outcome :=
  match CreateNewRequest (v_ c) with
  | None => Undefined
  | Some None => self true (print ("invalid command!" +:+ newline) c)
  | Some (Some request) =>
      match channels_ c !! server_ c with
      | Some ch => Running (send ch request c)
      | None =>
          match connect request c with
          | Some o => o
          | None => and_then (GetLine true (print (bad_server_text (server_ c)) c)) (self false)
          end
      end
  end.

(** [Propose()] if [read], else [Propose(v_)].  They call each other; each call but the
    first has read a line. *)
Definition propose_body (self : bool -> JourneyClient -> Outcome) (read : bool) (c : JourneyClient) : Outcome :=
  and_then (if read then GetLine false c else Running c) (propose_words self).

Fixpoint client_Propose (fuel : nat) (read : bool) (c : JourneyClient) : Outcome :=
  match fuel with
  | O => Endless
  | S fuel => propose_body (client_Propose fuel) read c
  end.

(** Lines enough. *)
Definition Propose (read : bool) (c : JourneyClient) : Outcome :=
  client_Propose (length (cl_input c) + 2) read c.

(** ** Events *)

(** The connection made for the [k]-th pending request. *)
Definition on_connection (k : nat) (ch : Z) (c : JourneyClient) : Outcome :=
  match cl_connecting c !! k with
  | Some (_, _, request) => Running (send ch request (set_channel ch (set_connecting (delete k (cl_connecting c)) c)))
  | None => Running c
  end.

Definition on_connect_failure (k : nat) (c : JourneyClient) : Outcome :=
  let c := set_connecting (delete k (cl_connecting c)) c in
  and_then (GetLine true (print ("connect failed, please enter new server_ip:server_port" +:+ newline) c))
    (Propose true).

(** The entry is erased before [it->second] is read. *)
Definition on_close (c : JourneyClient) : Outcome := Undefined.

Definition result_text (r : ProposeResult) : string :=
  match r with
  | PROPOSE_RESULT_SUCCESS => "success"
  | PROPOSE_RESULT_FAIL => "failed"
  | PROPOSE_RESULT_NOT_FOUND => "not found"
  | PROPOSE_RESULT_NOT_MASTER => "not master"
  | PROPOSE_RESULT_other _ => "unknown"
  end.

(** Where the service of a node listens. *)
Definition service_address (host : string) (port : Z) : string :=
  host +:+ ":" +:+ pretty (wrap32 (port + 1000)).

Definition Done (response : ResponseMessage) (c : JourneyClient) : Outcome :=
  let c := print (result_text (rs_result response)) c in
  let c := if bool_decide (rs_result response = PROPOSE_RESULT_SUCCESS)
              && negb (bool_decide (rs_value response = ""))
           then print (", value:" +:+ rs_value response) c else c in
  if bool_decide (rs_result response = PROPOSE_RESULT_NOT_MASTER) && rs_has_master response then
    let c := set_server (service_address (rs_master_ip response) (rs_master_port response)) c in
    Propose false (print (", redirect to " +:+ server_ c +:+ newline) c)
  else Propose true (print newline c).

Inductive ErrorCode :=
| ERROR_CODE_OK | ERROR_CODE_TIMEOUT | ERROR_CODE_INVALID_REQUEST | ERROR_CODE_INVALID_METHOD
| ERROR_CODE_INVALID_SERVICE | ERROR_CODE_UNKNOWN.

Definition error_text (code : ErrorCode) : string :=
  match code with
  | ERROR_CODE_OK => "ok"
  | ERROR_CODE_TIMEOUT => "timeout"
  | ERROR_CODE_INVALID_REQUEST => "invalid request"
  | ERROR_CODE_INVALID_METHOD => "invalid method"
  | ERROR_CODE_INVALID_SERVICE => "invalid service"
  | ERROR_CODE_UNKNOWN => "unknown error"
  end.

Definition HandleError (code : ErrorCode) (c : JourneyClient) : Outcome :=
  Propose true (print (error_text code +:+ newline) c).

Inductive ClientEvent :=
| CConnected (k : nat) (ch : Z)
| CConnectFailed (k : nat)
| CClosed
| CDone (response : ResponseMessage)
| CError (code : ErrorCode).

Definition client_step (e : ClientEvent) (c : JourneyClient) : Outcome :=
  match e with
  | CConnected k ch => on_connection k ch c
  | CConnectFailed k => on_connect_failure k c
  | CClosed => on_close c
  | CDone response => Done response c
  | CError code => HandleError code c
  end.

(** [main]: the client proposes before the loop is entered. *)
Definition client_main (argv : list string) (input : list string) : option Outcome :=
  match argv with
  | [_; server] => Some (Propose true (JourneyClient_new server input))
  | _ => None
  end.

End Client.
