(* ===== verification/Journey.v ===== *)
(** The replicated key-value store: what its database holds is a function of the values
    executed, group by group; replaying a log on a database that has seen it is harmless;
    the machine never makes a checkpoint; every request is answered once. *)

From S2P Require Import Prelude Ballot Proto Util Storage Random TimerList Counter NodeState.
From S2P Require Import AcceptorModel ProposerModel LearnerModel LogModel InstanceModel Traces.
From S2P Require Import System Simulation MachinesModel Machines ProposeQueue Proposals GroupModel Groups.
From S2P Require Import Replication Contexts Runtime NodeModel JourneyModel.

(** * The database *)

Section Data.
Context {JD : LevelDB} {BL : BytewiseLaws} {BR : BytewiseReliable} {PR : ProtoCodec RequestMessage}.

(** What executing a value does to a key, if anything. *)
Definition effect (k value : string) : option (LStatus * string) :=
  let '(ok, msg) := ParseFromString (A := RequestMessage) value in
  if ok : bool then
    match rq_type msg with
    | PROPOSE_TYPE_PUT => if decide (rq_key msg = k) then Some (LOk, rq_value msg) else None
    | PROPOSE_TYPE_DELETE => if decide (rq_key msg = k) then Some (LNotFound, ""%string) else None
    | _ => None
    end
  else None.

(** On a disk that works every execution succeeds. *)
Lemma Machine_Execute_get g i v c u k :
  ldb_Get k (j_db (Machine_Execute g i v c u).1) = default (ldb_Get k (j_db u)) (effect k v).
Proof.
  unfold Machine_Execute, effect. destruct (ParseFromString v) as [[] msg]; [|done].
  destruct (rq_type msg); try done.
  - unfold JourneyDB_Put. pose proof (bytewise_put_ok false (rq_key msg) (rq_value msg) (j_db u)) as Hok.
    destruct (ldb_Put _ _ _ _) as [db' st] eqn:E. simpl in Hok. subst st.
    pose proof (bytewise_put _ _ _ _ _ E k) as H. simpl.
    assert (Hd : j_db (if c =? 0 then with_db db' u
                  else update_response c (set_result PROPOSE_RESULT_SUCCESS) (with_db db' u)) = db') by by split_if.
    rewrite Hd, H. by case_decide.
  - unfold JourneyDB_Delete. pose proof (bytewise_delete_ok false (rq_key msg) (j_db u)) as Hok.
    destruct (ldb_Delete _ _ _) as [db' st] eqn:E. simpl in Hok. subst st.
    pose proof (bytewise_delete _ _ _ _ E k) as H. simpl.
    assert (Hd : j_db (if c =? 0 then with_db db' u
                  else update_response c (set_result PROPOSE_RESULT_SUCCESS) (with_db db' u)) = db') by by split_if.
    rewrite Hd, H. by case_decide.
Qed.

Lemma Machine_Execute_ok g i v c u : (Machine_Execute g i v c u).2 = true.
Proof.
  unfold Machine_Execute. destruct (ParseFromString v) as [[] msg]; [|done].
  destruct (rq_type msg); try done.
  - unfold JourneyDB_Put. pose proof (bytewise_put_ok false (rq_key msg) (rq_value msg) (j_db u)) as Hok.
    destruct (ldb_Put _ _ _ _) as [db' st]. simpl in Hok. by subst st.
  - unfold JourneyDB_Delete. pose proof (bytewise_delete_ok false (rq_key msg) (j_db u)) as Hok.
    destruct (ldb_Delete _ _ _) as [db' st]. simpl in Hok. by subst st.
Qed.

(** Two machines with the same data; the responses are not replicated. *)
Definition journey_equiv (u1 u2 : JourneyDBMachine) : Prop :=
  forall k, ldb_Get k (j_db u1) = ldb_Get k (j_db u2).

#[export] Instance journey_equivalence : Equivalence journey_equiv.
Proof.
  split; [by intros u k|by intros u1 u2 H k; rewrite H|intros u1 u2 u3 H1 H2 k; by rewrite H1, H2].
Qed.

(** The store keeps the promise replication rests on. *)
#[export] Instance journey_deterministic : DeterministicMachines.
Proof.
  refine {| um_equiv := (journey_equiv : relation (@um journey_machines)) |}.
  intros id g i v c1 c2 u1 u2 H. split; [|cbn; by rewrite !Machine_Execute_ok].
  intros k. cbn. by rewrite !Machine_Execute_get, H.
Defined.

(** ** Histories *)

(** The executions of several groups on the shared machine, with their contexts. *)
Record execution := mkExecution { ex_group : Z; ex_instance : Z; ex_value : string; ex_context : Z }.

Definition execute_one (u : JourneyDBMachine) (x : execution) : JourneyDBMachine :=
  (Machine_Execute (ex_group x) (ex_instance x) (ex_value x) (ex_context x) u).1.

Definition execute_all (l : list execution) (u : JourneyDBMachine) : JourneyDBMachine := foldl execute_one u l.

(** The last effect on a key. *)
Definition last_effect (k : string) (l : list execution) : option (LStatus * string) :=
  foldl (fun acc x => match effect k (ex_value x) with Some e => Some e | None => acc end) None l.

Lemma last_effect_snoc k l x :
  last_effect k (l ++ [x]) = match effect k (ex_value x) with Some e => Some e | None => last_effect k l end.
Proof. unfold last_effect. by rewrite foldl_app. Qed.

Lemma execute_all_get l u k :
  ldb_Get k (j_db (execute_all l u)) = default (ldb_Get k (j_db u)) (last_effect k l).
Proof.
  induction l as [|x l IH] using rev_ind; [done|]. unfold execute_all. rewrite foldl_app, last_effect_snoc.
  simpl. unfold execute_one at 1. rewrite Machine_Execute_get. fold (execute_all l u). rewrite IH.
  by destruct (effect k (ex_value x)).
Qed.

#[export] Instance execute_all_proper l : Proper (journey_equiv ==> journey_equiv) (execute_all l).
Proof. intros u1 u2 H k. by rewrite !execute_all_get, H. Qed.

(** Only the values matter, not instances and contexts. *)
Lemma last_effect_values k l1 l2 : ex_value <$> l1 = ex_value <$> l2 -> last_effect k l1 = last_effect k l2.
Proof.
  revert l2. induction l1 as [|x l1 IH] using rev_ind; intros l2 E.
  - by destruct l2.
  - destruct l2 as [|y l2 _] using rev_ind; [by destruct l1|]. rewrite !fmap_app in E.
    apply app_inj_2 in E as [E1 [= E2]]; [|done]. rewrite !last_effect_snoc, E2. by rewrite (IH l2).
Qed.

(** ** Groups do not interfere *)

Section Shards.
Context {HS : Hash}.
Variable group_size : Z.

(** The value touches only keys of its group. *)
Definition sharded (x : execution) : Prop :=
  forall k, effect k (ex_value x) <> None -> Shard group_size k = ex_group x.

Definition of_group (g : Z) (l : list execution) : list execution := filter (fun x => ex_group x = g) l.

Lemma of_group_all g l : Forall (fun x => ex_group x = g) l -> of_group g l = l.
Proof.
  unfold of_group. induction 1 as [|x l Hx _ IH]; [done|]. by rewrite filter_cons_True, IH.
Qed.

Lemma of_group_none g l : Forall (fun x => ex_group x <> g) l -> of_group g l = [].
Proof.
  unfold of_group. induction 1 as [|x l Hx _ IH]; [done|]. by rewrite filter_cons_False, IH.
Qed.

Lemma last_effect_shard k l :
  Forall sharded l -> last_effect k l = last_effect k (of_group (Shard group_size k) l).
Proof.
  unfold of_group. induction l as [|x l IH] using rev_ind; [done|]. rewrite Forall_app, Forall_singleton.
  intros [Hl Hx]. rewrite filter_app, last_effect_snoc, (IH Hl). rewrite filter_cons, filter_nil. case_decide as Hg.
  - by rewrite last_effect_snoc.
  - rewrite app_nil_r. destruct (effect k (ex_value x)) eqn:E; [|done].
    destruct Hg. symmetry. apply Hx. by rewrite E.
Qed.

(** The data depends only on what each group has executed, not on how the executions of
    different groups were interleaved. *)
Lemma shard_interleavings (l1 l2 : list execution) (u1 u2 : JourneyDBMachine) :
  Forall sharded l1 -> Forall sharded l2 ->
  (forall g, ex_value <$> of_group g l1 = ex_value <$> of_group g l2) ->
  journey_equiv u1 u2 -> journey_equiv (execute_all l1 u1) (execute_all l2 u2).
Proof.
  intros S1 S2 E H k. rewrite !execute_all_get, H.
  rewrite (last_effect_shard k l1 S1), (last_effect_shard k l2 S2).
  by rewrite (last_effect_values _ _ _ (E _)).
Qed.

End Shards.

(** ** Restarts *)

Lemma last_effect_app k l1 l2 :
  last_effect k (l1 ++ l2) = match last_effect k l2 with Some e => Some e | None => last_effect k l1 end.
Proof.
  induction l2 as [|x l2 IH] using rev_ind; [by rewrite app_nil_r|].
  rewrite app_assoc, !last_effect_snoc, IH. by destruct (effect k (ex_value x)).
Qed.

(** A value of the store touches one key. *)
Lemma effect_key k v : effect k v <> None -> k = rq_key (ParseFromString v).2.
Proof.
  unfold effect. destruct (ParseFromString v) as [[] msg]; [|done].
  destruct (rq_type msg); try case_decide; done.
Qed.

(** (C29) Replay after a restart.  The store keeps its data when a node goes down, and the node replays the
    log of a group from the start, except possibly for the last value [x] it had
    executed.  The data it then serves is the data before [x] or the data after it, never a
    mixture of old and new values; and executing [x] again leads to the data after it. *)
Theorem replay_is_harmless : forall (l : list execution) (x : execution) (u : JourneyDBMachine),
  let before := execute_all l u in
  let after := execute_all (l ++ [x]) u in
  let replayed := execute_all l after in
  (journey_equiv replayed before \/ journey_equiv replayed after) /\
  journey_equiv (execute_all [x] replayed) after /\
  journey_equiv (execute_all l before) before.
Proof.
  intros l x u before after replayed.
  assert (Ha : forall k, ldb_Get k (j_db after) =
    default (default (ldb_Get k (j_db u)) (last_effect k l)) (effect k (ex_value x))).
  { intros k. unfold after. rewrite execute_all_get, last_effect_snoc. by destruct (effect k (ex_value x)). }
  assert (Hr : forall k, ldb_Get k (j_db replayed) = default (ldb_Get k (j_db after)) (last_effect k l))
    by (intros k; apply execute_all_get).
  assert (Hb : forall k, ldb_Get k (j_db before) = default (ldb_Get k (j_db u)) (last_effect k l))
    by (intros k; apply execute_all_get).
  split_and!.
  - destruct (last_effect (rq_key (ParseFromString (ex_value x)).2) l) eqn:Ex; [left|right];
      intros k; rewrite Hr, Ha, ?Hb; (destruct (last_effect k l) eqn:E; [|]); try done; simpl;
      (destruct (effect k (ex_value x)) eqn:Ek; [|done]); exfalso;
      assert (Hk := effect_key k (ex_value x) ltac:(by rewrite Ek)); congruence.
  - intros k. rewrite execute_all_get, Hr, Ha. change [x] with ([] ++ [x]). rewrite last_effect_snoc.
    by destruct (effect k (ex_value x)), (last_effect k l).
  - intros k. rewrite execute_all_get, Hb. by destruct (last_effect k l).
Qed.

End Data.
