(* ===== verification/JourneyService.v ===== *)
(** The service of the key-value store over a node: every request is answered once, and the
    shared machine is driven by the executions of the groups, in some interleaving. *)

From S2P Require Import Prelude Ballot Proto Util Storage Random TimerList Counter NodeState.
From S2P Require Import AcceptorModel ProposerModel LearnerModel LogModel InstanceModel Traces.
From S2P Require Import System Simulation MachinesModel Machines ProposeQueue Proposals GroupModel Groups.
From S2P Require Import Replication Contexts Runtime FileModel NodeModel JourneyModel Journey.

Section Service.
Context {JD : LevelDB} {PR : ProtoCodec RequestMessage} {HS : Hash}.
Context {FC : FixedCoding} {LD : LevelDB} {CM : CheckpointManager} {AL : Allocator} {ALL : AllocatorLaws}.
Context {PI : ProtoCodec PaxosInstance} {PCM : ProtoCodec MemberChangeMessage} {PS : ProtoCodec MasterState}.
Variable env : CheckpointEnv.

#[local] Existing Instance group_machines.
Notation journey_um := (@journey_machines JD PR).
Notation group_t := (GroupModel.group (UM := journey_um) env).
Notation service_t := (JourneyServiceImpl (JD := JD) env).
Notation sgroups s := (groups_ (UM := journey_um) env (sv_node env s)).
Notation acceptance := (list (Handler * Callback)).

(** * Requests and answers *)

(** The closure of an accepted proposal of a client. *)
Definition user_done (cb : Callback) : option Z :=
  match cb with UserCallback d => if d =? 0 then None else Some d | MasterCallback => None end.

(** The closures of the accepted proposals whose callbacks were not run. *)
Definition waiting (g : group_t) (acc : acceptance) : list Z := omap user_done (drop (g_called env g) acc.*2).

Definition requested (e : ServiceEvent) : list Z :=
  match e with SPropose _ _ _ _ _ done => if done =? 0 then [] else [done] | _ => [] end.

(** Proposals reach the groups through the service only. *)
Definition service_event (e : ServiceEvent) : Prop :=
  match e with SGroup _ (GPropose _ _ _ _) | SGroup _ (GChangeMember _ _ _) => False | _ => True end.

Definition all_waiting (gs : list group_t) (accs : list acceptance) : list Z :=
  concat (zip_with waiting gs accs).

(** [total] are the closures of all requests so far. *)
Definition service_inv (total : list Z) (s : service_t) : Prop :=
  exists accs, Forall2 (fun g acc => exists res, context_inv env acc res g) (sgroups s) accs /\
    sv_done env s ++ all_waiting (sgroups s) accs ≡ₚ total.

Lemma waiting_app g acc cb h :
  (g_called env g <= length acc)%nat ->
  waiting g (acc ++ [(h, cb)]) = waiting g acc ++ option_list (user_done cb).
Proof.
  intros Hc. unfold waiting. rewrite fmap_app, drop_app_le by (by rewrite length_fmap).
  rewrite omap_app. simpl. by destruct (user_done cb).
Qed.

(** Replacing one group. *)
Lemma all_waiting_insert gs accs i g acc g' acc' :
  gs !! i = Some g -> accs !! i = Some acc ->
  exists l1 l2, all_waiting gs accs = l1 ++ waiting g acc ++ l2 /\
    all_waiting (<[i := g']> gs) (<[i := acc']> accs) = l1 ++ waiting g' acc' ++ l2.
Proof.
  revert accs i. induction gs as [|x gs IH]; intros [|a accs] [|i] Hg Ha; try done; simpl in Hg, Ha.
  - injection Hg as ->. injection Ha as ->. by exists [], (all_waiting gs accs).
  - destruct (IH accs i Hg Ha) as (l1 & l2 & E1 & E2). exists (waiting x a ++ l1), l2.
    unfold all_waiting in *. simpl. rewrite E1, E2, <- !app_assoc. done.
Qed.

Lemma load_inv (u : JourneyDBMachine (JD := JD)) acc res (g : group_t) : context_inv env acc res g -> context_inv env acc res (load_machine env u g).
Proof. intros [[Hq Hn Ha Hs Hb] Hc Hx]. constructor; [by constructor|done|done]. Qed.

Lemma context_called acc res (g : group_t) : context_inv env acc res g -> (g_called env g <= length acc)%nat.
Proof.
  intros [[Hq _ _ _ _] Hc _]. destruct Hq as (Hl & _). simpl in Hl. lia.
Qed.

(** The next callback is that of the first accepted proposal it was not run for. *)
Lemma next_waiting acc res (g : group_t) :
  context_inv env acc res g ->
  waiting g acc = option_list (if next_done env g =? 0 then None else Some (next_done env g))
                  ++ waiting (run_callback env g) acc.
Proof.
  intros [[Hq _ _ _ _] Hc _]. destruct Hq as (_ & _ & _ & _ & _ & _ & Hcb). simpl in Hcb.
  unfold next_done. destruct (callbacks (g_queue env g) !! g_called env g) as [[cb [[i st] c]]|] eqn:E.
  2: { unfold run_callback. by rewrite E. }
  pose proof (run_callback_called env g _ E) as Hs.
  rewrite Hcb in E. pose proof E as E'. apply lookup_zip_Some in E as [Ecb _]. simpl in Ecb.
  unfold waiting. rewrite Hs, (drop_S _ cb) by done. simpl.
  destruct cb as [d|]; simpl; [|done]. by destruct (d =? 0).
Qed.

(** Events of a group that are no proposals of clients add no one who waits. *)
Lemma put_of_waiting e (g : group_t) : service_event (SGroup 0 e) -> omap user_done (put_of env e g).*2 = [].
Proof.
  assert (Hm : forall now, omap user_done (master_put env now g).*2 = [])
    by (intros now; unfold master_put; by destruct (_ && _)).
  destruct e; simpl; intros He; try done.
  - destruct (g_use_master env g); [apply Hm|done].
  - destruct (g_waiting env g); [done|]. destruct (pop_expired _ _); [apply Hm|done].
Qed.

Lemma group_step_called e (g g' : group_t) :
  group_step env e g = Some g' ->
  g_called env g' = match e with GCallback => g_called env (run_callback env g) | _ => g_called env g end.
Proof.
  destruct e as [m v c cb|v c cb|r|e| |now|now|now|]; cbn [group_step].
  - intros [= <-]. unfold Group_OnPropose. by destruct (Put _ _ _).
  - intros [= <-]. unfold ChangeMember, Group_OnPropose. by destruct (Put _ _ _).
  - unfold run_handler. destruct (_ !! _) as [[mid v c|]|]; [| |by intros [= <-]].
    + intros E%deliver_node. tauto.
    + unfold TryBeMasterInLoop. cbv zeta. destruct (_ || _)%bool; [intros E%deliver_node; tauto|].
      simpl. destruct (ProposeComplete _ _); [|done]. by intros [= <-].
  - destruct e; try (intros E%deliver_node; tauto). by intros [= <-].
  - by intros [= <-].
  - intros [= <-]. unfold Group_Sync. destruct (g_use_master env g); [|done].
    unfold TryBeMaster, arm_master. destruct (_ || _)%bool; [|done]. by destruct (Put _ _ _) as [q []].
  - intros [= <-]. unfold master_turn. destruct (g_waiting env g); [done|]. cbv zeta.
    destruct (pop_expired _ _) as [[u tl]|]; [|done].
    unfold TryBeMaster, arm_master. destruct (_ || _)%bool; [|done]. by destruct (Put _ _ _) as [q []].
  - intros [= <-]. unfold TryBeMaster_resume. by destruct (_ && _).
  - intros [= <-]. unfold RetireMaster. by destruct (_ && _).
Qed.

Lemma group_event_inv total gid e (s s' : service_t) :
  service_event (SGroup gid e) -> service_inv total s -> Service_group env gid e s = Some s' ->
  service_inv total s'.
Proof.
  intros He (accs & F & P). unfold Service_group.
  destruct (sgroups s !! gid) as [g|] eqn:Hg; [|done]. cbn [mbind option_bind].
  destruct (Forall2_lookup_l _ _ _ _ _ F Hg) as (acc & Ha & res & C).
  pose proof (load_inv (sv_machine env s) acc res g C) as C1.
  set (g1 := load_machine env (sv_machine env s) g) in *.
  assert (Hw : waiting g1 acc = waiting g acc) by done.
  destruct (group_step env e g1) as [g'|] eqn:E; [|done]. cbn [mbind option_bind].
  intros [= <-]. destruct (step_context env acc res e g1 g' C1 E) as (_ & res' & C').
  destruct (all_waiting_insert _ _ gid g acc g' (acc ++ put_of env e g1) Hg Ha) as (l1 & l2 & E1 & E2).
  assert (Hn : waiting g' (acc ++ put_of env e g1) =
               waiting (match e with GCallback => run_callback env g1 | _ => g1 end) acc).
  { pose proof (context_called _ _ _ C1) as Hca.
    assert (Hcb : (g_called env (run_callback env g1) <= length acc)%nat).
    { destruct C1 as [G Hc _]. pose proof (callback_called env acc res g1 G Hc) as H.
      destruct G as [Hq _ _ _ _]. destruct Hq as (Hl & _). simpl in Hl. lia. }
    unfold waiting. rewrite (group_step_called e g1 g' E), fmap_app.
    rewrite drop_app_le by (rewrite length_fmap; destruct e; done).
    rewrite omap_app, put_of_waiting by (by destruct e). rewrite app_nil_r. by destruct e. }
  exists (<[gid := acc ++ put_of env e g1]> accs). rewrite E1 in P.
  set (s1 := mkService env _ _ _ _).
  assert (G : sgroups (match e with GCallback => run_done env (next_done env g1) s1 | _ => s1 end)
              = <[gid := g']> (sgroups s)).
  { destruct e; try done. unfold run_done. by destruct (_ =? _). }
  rewrite G. split; [by apply Forall2_insert; [|eexists]|]. rewrite E2, Hn.
  destruct e; try exact P; try done. unfold run_done, s1. cbn [sv_done].
  rewrite <- Hw, (next_waiting _ _ _ C1) in P. destruct (next_done env g1 =? 0); cbn [sv_done].
  - exact P.
  - rewrite <- P. cbn [option_list app]. rewrite <- app_assoc. f_equiv. simpl. rewrite <- Permutation_middle. done.
Qed.

Lemma run_done_inv total done s :
  service_inv total s -> service_inv (total ++ (if done =? 0 then [] else [done])) (run_done env done s).
Proof.
  intros (accs & F & P). exists accs. unfold run_done. destruct (done =? 0).
  - by rewrite app_nil_r.
  - split; [done|]. cbn [sv_done sv_node]. rewrite <- P, <- !app_assoc. f_equiv. apply Permutation_app_comm.
Qed.

Lemma with_machine_inv total f s : service_inv total s -> service_inv total (with_machine env f s).
Proof. done. Qed.

(** A proposal handed to a group: it is accepted, and its closure waits, or refused. *)
Lemma propose_group_inv total gid value response done s n b :
  service_inv total s ->
  Node_Propose env gid kJourneyMachine value response (UserCallback done) (sv_node env s) = Some (n, b) ->
  service_inv (total ++ (if b : bool then if done =? 0 then [] else [done] else []))
    (mkService env (sv_group_size env s) (sv_machine env s) n (sv_done env s)).
Proof.
  intros (accs & F & P). unfold Node_Propose, change_group.
  destruct (sgroups s !! Z.to_nat gid) as [g|] eqn:Hg; [|done]. cbn [mbind option_bind].
  destruct (Forall2_lookup_l _ _ _ _ _ F Hg) as (acc & Ha & res & C).
  destruct (step_context env acc res (GPropose kJourneyMachine value response done) g _ C eq_refl)
    as (_ & res' & C'). cbn [put_of] in C'.
  assert (Hcall : g_called env (Group_OnPropose env kJourneyMachine value response (UserCallback done) g).1 = g_called env g)
    by (unfold Group_OnPropose; by destruct (Put _ _ _)).
  destruct (Group_OnPropose env kJourneyMachine value response (UserCallback done) g) as [g' b'].
  cbn [fst snd] in C', Hcall. intros [= <- <-].
  set (acc' := acc ++ _) in C'.
  destruct (all_waiting_insert _ _ (Z.to_nat gid) g acc g' acc' Hg Ha) as (l1 & l2 & E1 & E2).
  exists (<[Z.to_nat gid := acc']> accs). cbn [sv_node groups_ sv_done].
  split; [by apply Forall2_insert; [|eexists]|]. rewrite E2, <- P, E1.
  assert (Hw : waiting g' acc' = waiting g acc ++ (if b' then if done =? 0 then [] else [done] else [])).
  { unfold acc'. pose proof (context_called _ _ _ C) as Hc. destruct b'.
    - rewrite waiting_app by lia. unfold waiting. rewrite Hcall. simpl. by destruct (done =? 0).
    - unfold waiting. by rewrite !app_nil_r, Hcall. }
  rewrite Hw, <- !app_assoc. do 3 f_equiv. apply Permutation_app_comm.
Qed.

Lemma propose_event_inv total now micros u request response done s s' :
  service_inv total s -> Service_Propose env now micros u request response done s = Some s' ->
  service_inv (total ++ (if done =? 0 then [] else [done])) s'.
Proof.
  intros I. unfold Service_Propose. destruct (sv_group_size env s =? 0); [done|]. cbv zeta.
  set (s1 := with_machine env _ s). assert (I1 : service_inv total s1) by exact I. clearbody s1.
  destruct (Node_IsMaster env _ now (sv_node env s1)) as [[]|]; [| |done]; cbn [mbind option_bind].
  - case_decide.
    + destruct (Machine_Get _ _) as [ret v]. intros [= <-]. apply run_done_inv. by repeat split_if.
    + destruct (Node_Propose env _ _ _ _ _ _) as [[n b]|] eqn:E; [|done]. cbn [mbind option_bind].
      intros [= <-]. pose proof (propose_group_inv total _ _ _ _ _ _ _ I1 E) as I2. destruct b; [done|].
      rewrite app_nil_r in I2. by apply run_done_inv.
  - destruct (Node_GetMaster env _ micros (sv_node env s1)) as [m|]; [|done]. cbn [mbind option_bind].
    destruct (in_group env _ _ _) as [version|]; [|done]. cbn [mbind option_bind]. intros [= <-].
    apply run_done_inv. by destruct m as [[]|].
Qed.

Lemma service_step_inv total e s s' :
  service_event e -> service_inv total s -> service_step env e s = Some s' ->
  service_inv (total ++ requested e) s'.
Proof.
  intros He I. destruct e as [now micros u request response done|gid e]; cbn [service_step requested].
  - apply propose_event_inv. by apply with_machine_inv.
  - rewrite app_nil_r. by apply group_event_inv.
Qed.

Lemma service_run_inv total es s s' :
  Forall service_event es -> service_inv total s -> service_run env es s = Some s' ->
  service_inv (total ++ concat (requested <$> es)) s'.
Proof.
  intros He. revert total s. induction He as [|e es He _ IH]; intros total s I.
  - intros [= <-]. simpl. by rewrite app_nil_r.
  - cbn [service_run]. destruct (service_step env e s) as [s1|] eqn:E; [|done]. cbn [mbind option_bind].
    intros Hr. simpl. rewrite app_assoc. eapply IH; [|exact Hr]. by eapply service_step_inv.
Qed.

(** A group that has run the callbacks of all proposals it accepted. *)
Definition quiescent (g : group_t) : Prop :=
  last_finished (g_queue env g) = true /\ g_called env g = length (callbacks (g_queue env g)).

Lemma quiescent_waiting acc res g : context_inv env acc res g -> quiescent g -> waiting g acc = [].
Proof.
  intros [[Hq _ _ _ _] Hc _] [Hl Hn]. destruct Hq as (_ & _ & Hf & _ & _ & _ & Hcb). simpl in Hf, Hcb.
  rewrite Hf in Hl. apply Nat.eqb_eq in Hl. rewrite Hcb, length_zip, length_fmap in Hn.
  unfold waiting. rewrite drop_ge; [done|]. rewrite length_fmap. lia.
Qed.

(** A group as the node has it when it starts: no proposal, and an idle instance. *)
Definition started_group (g : group_t) : Prop :=
  exists n use_master lease now, g = Group_new env n use_master lease now /\
    timer_heap (io_timers n) = ∅ /\ timers_ok (io_timers n) /\ is_proposing n = false /\ context_ n = 0 /\
    propose_asserts (out_ n) = [].

Definition started_service (s : service_t) : Prop := Forall started_group (sgroups s) /\ sv_done env s = [].

Lemma started_inv s : started_service s -> service_inv [] s.
Proof.
  intros [F Hd]. exists (replicate (length (sgroups s)) []). split.
  - induction F as [|g gs (n & um & lease & now & -> & Hh & Hok & Hp & Hc & Ha) _ IH]; simpl; constructor; [|done].
    exists []. constructor; [|unfold g_called; simpl; lia|simpl; congruence].
    constructor; simpl; try done; [by apply idle_propose_inv|by rewrite Hp|congruence].
  - rewrite Hd. unfold all_waiting.
    assert (E : forall gs : list group_t, concat (zip_with waiting gs (replicate (length gs) [])) = []).
    { induction gs as [|g gs IH]; [done|]. simpl. rewrite IH, app_nil_r. unfold waiting. by rewrite fmap_nil, drop_nil. }
    by rewrite E.
Qed.

(** ** Nothing fails *)

(** The service knows how many groups its node has. *)
Definition sized (k : nat) (s : service_t) : Prop := length (sgroups s) = k /\ sv_group_size env s = Z.of_nat k.

Definition event_in (k : nat) (e : ServiceEvent) : Prop :=
  match e with SGroup gid _ => (gid < k)%nat | _ => True end.

Lemma Shard_range k key : 0 < k -> 0 <= Shard k key < k.
Proof.
  intros Hk. unfold Shard. destruct (Z.eqb_spec k 1); [lia|]. by apply Z.mod_pos_bound.
Qed.

Lemma run_done_sized k done s : sized k s -> sized k (run_done env done s).
Proof. unfold run_done. by destruct (done =? 0). Qed.

Lemma propose_total k now micros u request response done s :
  (0 < k)%nat -> sized k s ->
  exists s', Service_Propose env now micros u request response done s = Some s' /\ sized k s'.
Proof.
  intros Hk Hs. unfold Service_Propose. pose proof Hs as [Hl Hz]. rewrite Hz.
  destruct (Z.eqb_spec (Z.of_nat k) 0); [lia|]. cbv zeta.
  pose proof (Shard_range (Z.of_nat k) (rq_key request) ltac:(lia)) as Hr.
  destruct (lookup_lt_is_Some_2 (sgroups s) (Z.to_nat (Shard (Z.of_nat k) (rq_key request)))) as [g Hg]; [lia|].
  assert (Hin : forall A (f : group_t -> A) s1, sgroups s1 = sgroups s ->
    in_group env (Shard (Z.of_nat k) (rq_key request)) f (sv_node env s1) = Some (f g))
    by (intros A f s1 E; unfold in_group; by rewrite E, Hg).
  unfold Node_IsMaster, Node_GetMaster. rewrite !Hin by done. cbn [mbind option_bind].
  destruct (Group_IsMaster env now g).
  - case_decide.
    + destruct (Machine_Get _ _) as [ret v]. eexists. split; [done|]. apply run_done_sized. by repeat split_if.
    + unfold Node_Propose, change_group. cbn [sv_node with_machine]. rewrite Hg. cbn [mbind option_bind].
      destruct (Group_OnPropose env _ _ _ _ g) as [g' b]. eexists. split; [done|].
      assert (H1 : sized k (mkService env (sv_group_size env s)
        (update_response response (set_result PROPOSE_RESULT_FAIL) (sv_machine env s))
        (mkNodeImpl env (stop_ env (sv_node env s)) (options_ env (sv_node env s)) (loops_ env (sv_node env s))
           (<[Z.to_nat (Shard (Z.of_nat k) (rq_key request)) := g']> (sgroups s))) (sv_done env s)))
        by (split; [cbn; by rewrite length_insert|done]).
      destruct b; [exact H1|]. by apply run_done_sized.
  - eexists. split; [done|]. apply run_done_sized. by destruct (Group_GetMaster env micros g) as [[]|].
Qed.

Lemma group_total total k gid e s :
  service_inv total s -> sized k s -> (gid < k)%nat ->
  exists s', Service_group env gid e s = Some s' /\ sized k s'.
Proof.
  intros (accs & F & _) [Hl Hz] Hg. unfold Service_group.
  destruct (lookup_lt_is_Some_2 (sgroups s) gid) as [g E]; [by rewrite Hl|]. rewrite E. cbn [mbind option_bind].
  destruct (Forall2_lookup_l _ _ _ _ _ F E) as (acc & _ & res & C).
  apply (load_inv (sv_machine env s)) in C as [G _ _]. destruct (step_inv env acc res e _ G) as (g' & _ & -> & _).
  cbn [mbind option_bind]. eexists. split; [done|].
  assert (H : length (<[gid := g']> (sgroups s)) = k) by by rewrite length_insert.
  destruct e; try done. by apply run_done_sized.
Qed.

Lemma service_run_total total k es s :
  (0 < k)%nat -> service_inv total s -> sized k s -> Forall service_event es -> Forall (event_in k) es ->
  exists s', service_run env es s = Some s'.
Proof.
  intros Hk I Hs He Hi. revert total s I Hs. induction es as [|e es IH]; intros total s I Hs; [by eexists|].
  apply Forall_cons in He as [He Hes], Hi as [Hi His]. cbn [service_run].
  assert (H : exists s', service_step env e s = Some s' /\ sized k s')
    by (destruct e; [by apply propose_total|by eapply group_total]).
  destruct H as (s1 & E & H1). rewrite E. cbn [mbind option_bind].
  apply (IH Hes His (total ++ requested e)); [by eapply service_step_inv|done].
Qed.

(** (C11) Every request to the key-value store is answered exactly once.  Any sequence of
    requests, and of steps of the groups the service's node has, can be run: no group is
    looked up out of range and no assertion fails.  Afterwards each request's closure was run
    once or waits, once, for the callback of a proposal that a group has accepted; when the
    groups have nothing left to do, the closures that were run are those of the requests,
    each as often as it was passed. *)
Theorem requests_answered_once : forall (k : nat) (es : list ServiceEvent) (s : service_t),
  started_service s -> sized k s -> (0 < k)%nat -> Forall service_event es -> Forall (event_in k) es ->
  exists s' left, service_run env es s = Some s' /\
    sv_done env s' ++ left ≡ₚ concat (requested <$> es) /\
    (Forall quiescent (sgroups s') -> left = []).
Proof.
  intros k es s Hs Hk H0 He Hi.
  destruct (service_run_total [] k es s H0 (started_inv s Hs) Hk He Hi) as [s' Hr]. exists s'.
  destruct (service_run_inv [] es s s' He (started_inv s Hs) Hr) as (accs & F & P).
  exists (all_waiting (sgroups s') accs). split; [done|]. split; [done|]. intros Q. clear P Hr. unfold all_waiting.
  induction F as [|g acc gs accs (res & C) _ IH]; [done|]. apply Forall_cons in Q as [Q1 Q2]. simpl.
  by rewrite IH, app_nil_r, (quiescent_waiting acc res g).
Qed.

(** * The shared machine *)

Section Histories.
Context {BL : @BytewiseLaws JD} {BR : @BytewiseReliable JD}.

Notation gnode := (node (MM := group_machines (UM := journey_um) env)).
Notation machine_t := (JourneyDBMachine (JD := JD)).

(** The values of the store among executed values. *)
Definition store_values (l : list (Z * PaxosValue * bool)) : list string :=
  omap (fun x => if machine_id x.1.2 =? kJourneyMachine then Some (user_data x.1.2) else None) l.

(** The machines of a group of the store: the internal ones and the store. *)
Definition journey_ids : gset Z := {[1; 2; kJourneyMachine]}.

Notation muser m := (mgr_user (UM := journey_um) m : machine_t).

Lemma Execute_store now g i v ctx (m m' : manager (UM := journey_um)) r :
  mgr_ids m = journey_ids -> MachineManager_Execute (UM := journey_um) env (fun c => c) now g i v ctx m = (m', r) ->
  mgr_ids m' = journey_ids /\
  muser m' = if machine_id v =? kJourneyMachine then (Machine_Execute g i (user_data v) ctx (muser m)).1 else muser m.
Proof.
  intros Hids. unfold MachineManager_Execute. rewrite Hids.
  assert (H : exists m1 r1, machine_execute (UM := journey_um) (fun c => c) now g i v ctx m = (m1, r1) /\ mgr_ids m1 = journey_ids /\
    (machine_id v ∈ journey_ids ->
     muser m1 = if machine_id v =? kJourneyMachine then (Machine_Execute g i (user_data v) ctx (muser m)).1 else muser m)).
  { unfold machine_execute. destruct (Z.eqb_spec (machine_id v) 1) as [E|E1]; [|destruct (Z.eqb_spec (machine_id v) 2) as [E|E2]].
    - destruct (MembershipMachine_Execute _ _ _). do 2 eexists. split_and!; [done|done|]. by rewrite E.
    - destruct (MasterMachine_Execute _ _ _ _ _). do 2 eexists. split_and!; [done|done|]. by rewrite E.
    - destruct (um_Execute _ _ _ _ _ _) as [u r1] eqn:E. do 2 eexists. split_and!; [done|done|]. intros Hin.
      unfold journey_ids in Hin. assert (machine_id v = kJourneyMachine) as -> by set_solver.
      cbn in E. rewrite Z.eqb_refl, E. done. }
  destruct H as (m1 & r1 & -> & H1 & H2). case_decide as Hin.
  - destruct r1; intros [= <- <-]; [|by rewrite H2].
    destruct (MakeCheckpoint_machines (UM := journey_um) env i m1) as (_ & _ & -> & -> & _). by rewrite H2.
  - intros [= <- <-]. split; [done|]. destruct (Z.eqb_spec (machine_id v) kJourneyMachine) as [E|E]; [|done].
    destruct Hin. rewrite E. unfold journey_ids. set_solver.
Qed.

Lemma mm_run_store P g m l m' :
  mm_run (MM := group_machines (UM := journey_um) env) P g m l m' -> mgr_ids (UM := journey_um) m = journey_ids ->
  mgr_ids (UM := journey_um) m' = journey_ids /\
  exists xs, muser m' = execute_all xs (muser m) /\ ex_value <$> xs = store_values l /\
    Forall (fun x => ex_group x = g) xs.
Proof.
  induction 1 as [m|id i r m l m' H IH|now ctx i v r m m1 l m' _ Ex H IH]; intros Hids.
  - split; [done|]. by exists [].
  - destruct (FinishMakeCheckpoint_machines (UM := journey_um) env id i r m) as (_ & _ & Hu & Hi).
    destruct IH as [H1 (xs & H2 & H3)]; [by cbn; rewrite Hi|]. split; [done|]. exists xs.
    cbn in H2. rewrite Hu in H2. done.
  - destruct (Execute_store _ _ _ _ _ _ _ _ Hids Ex) as [H1 Hu].
    destruct (IH H1) as [H2 (xs & H3 & H4 & H5)]. split; [done|].
    unfold store_values. simpl. destruct (machine_id v =? kJourneyMachine) eqn:E.
    + exists (mkExecution g i (user_data v) ctx :: xs). rewrite H3, Hu. split_and!; [done| |by constructor].
      rewrite fmap_cons, H4. done.
    + exists xs. rewrite H3, Hu. done.
Qed.

Lemma group_step_drives e (g g' : group_t) :
  group_step env e g = Some g' -> drives (fun _ => True) (g_node env g) (g_node env g').
Proof.
  assert (Hp : forall mid v c r n, drives (MM := group_machines (UM := journey_um) env) (fun _ => True) n (OnPropose mid v c r n))
    by (intros; eapply drives_mono; [|apply OnPropose_drives]; done).
  destruct e as [m v c cb|v c cb|r|e| |now|now|now|]; cbn [group_step].
  - intros [= <-]. unfold Group_OnPropose. by destruct (Put _ _ _).
  - intros [= <-]. unfold ChangeMember, Group_OnPropose. by destruct (Put _ _ _).
  - unfold run_handler. destruct (_ !! _) as [[mid v c|]|]; [| |by intros [= <-]].
    + intros (-> & _)%deliver_node. apply Hp.
    + unfold TryBeMasterInLoop. cbv zeta. destruct (_ || _)%bool; [intros (-> & _)%deliver_node; apply Hp|].
      simpl. destruct (ProposeComplete _ _); [|done]. by intros [= <-].
  - destruct e; try (intros (-> & _)%deliver_node; apply handle_drives). by intros [= <-].
  - intros [= <-]. unfold run_callback. by destruct (callbacks (g_queue env g) !! g_called env g) as [[[] [[]]]|].
  - intros [= <-]. unfold Group_Sync. destruct (g_use_master env g); [|done].
    unfold TryBeMaster, arm_master. destruct (_ || _)%bool; [|done]. by destruct (Put _ _ _) as [q []].
  - intros [= <-]. unfold master_turn. destruct (g_waiting env g); [done|]. cbv zeta.
    destruct (pop_expired _ _) as [[u tl]|]; [|done].
    unfold TryBeMaster, arm_master. destruct (_ || _)%bool; [|done]. by destruct (Put _ _ _) as [q []].
  - intros [= <-]. unfold TryBeMaster_resume. by destruct (_ && _).
  - intros [= <-]. unfold RetireMaster. by destruct (_ && _).
Qed.

(** The instances of a service's groups. *)
Definition instances (s : service_t) : list gnode := g_node env <$> sgroups s.

Definition service_ok (s : service_t) : Prop :=
  forall gid n, instances s !! gid = Some n ->
    cf_group_id (config_ n) = Z.of_nat gid /\ mgr_ids (UM := journey_um) (mm_ n) = journey_ids.

(** What happened between two states of a service: [l] are the executions on the shared
    machine. *)
Definition history (s s' : service_t) (l : list execution) : Prop :=
  journey_equiv (sv_machine env s') (execute_all l (sv_machine env s)) /\
  length (instances s') = length (instances s) /\
  Forall (fun x => exists gid, ex_group x = Z.of_nat gid /\ (gid < length (instances s))%nat) l /\
  forall gid n n', instances s !! gid = Some n -> instances s' !! gid = Some n' ->
    exists k, out_ n' = out_ n ++ k /\ config_ n' = config_ n /\
      (mgr_ids (UM := journey_um) (mm_ n) = journey_ids -> mgr_ids (UM := journey_um) (mm_ n') = journey_ids) /\
      store_values (run_log k) = ex_value <$> of_group (Z.of_nat gid) l.

Lemma history_refl s s' :
  instances s' = instances s -> j_db (sv_machine env s') = j_db (sv_machine env s) -> history s s' [].
Proof.
  intros Hi Hd. split; [intros k; cbn; by rewrite Hd|]. rewrite Hi. split_and!; [done|constructor|].
  intros gid n n' H1 H2. rewrite H1 in H2. injection H2 as <-. exists []. by rewrite app_nil_r.
Qed.

Lemma history_trans s1 s2 s3 l1 l2 : history s1 s2 l1 -> history s2 s3 l2 -> history s1 s3 (l1 ++ l2).
Proof.
  intros (D1 & L1 & G1 & H1) (D2 & L2 & G2 & H2). split_and!; [|congruence| |].
  - unfold execute_all in *. rewrite foldl_app. etrans; [exact D2|]. by apply (execute_all_proper l2).
  - apply Forall_app. split; [done|]. by rewrite <- L1.
  - intros gid n n' Hn Hn'. destruct (lookup_lt_is_Some_2 (instances s2) gid) as [n1 Hn1].
    { rewrite L1. by eapply lookup_lt_Some. }
    destruct (H1 gid n n1 Hn Hn1) as (k1 & O1 & C1 & I1 & V1).
    destruct (H2 gid n1 n' Hn1 Hn') as (k2 & O2 & C2 & I2 & V2).
    exists (k1 ++ k2). rewrite O2, O1, app_assoc, C2, C1. split_and!; [done|done|auto|].
    unfold run_log, store_values, of_group in *. rewrite !omap_app, filter_app, fmap_app. by rewrite V1, V2.
Qed.

Lemma instances_insert s gid g' m d :
  instances (mkService env (sv_group_size env s) m
    (mkNodeImpl env (stop_ env (sv_node env s)) (options_ env (sv_node env s)) (loops_ env (sv_node env s))
       (<[gid := g']> (sgroups s))) d) = <[gid := g_node env g']> (instances s).
Proof. unfold instances. cbn. apply list_fmap_insert. Qed.

Lemma run_done_history done s s' : history s s' [] -> history s (run_done env done s') [].
Proof. unfold run_done. by destruct (done =? 0). Qed.

Lemma propose_history now micros u request response done s s' :
  Service_Propose env now micros u request response done s = Some s' -> history s s' [].
Proof.
  unfold Service_Propose. destruct (sv_group_size env s =? 0); [done|]. cbv zeta.
  set (s1 := with_machine env _ s). assert (I1 : history s s1 []) by by apply history_refl. clearbody s1.
  assert (Hw : forall f s2, history s s2 [] -> history s (with_machine env (update_response response f) s2) []).
  { intros f s2 H. apply (history_trans _ _ _ _ [] H). by apply history_refl. }
  destruct (Node_IsMaster env _ now (sv_node env s1)) as [[]|]; [| |done]; cbn [mbind option_bind].
  - case_decide.
    + destruct (Machine_Get _ _) as [ret v]. intros [= <-]. apply run_done_history. repeat split_if; auto.
    + unfold Node_Propose, change_group. destruct (_ !! _) as [g|] eqn:Hg; [|done]. cbn [mbind option_bind].
      destruct (Group_OnPropose env _ _ _ _ g) as [g' b] eqn:E. intros [= <-].
      assert (Hn : g_node env g' = g_node env g).
      { unfold Group_OnPropose in E. destruct (Put _ _ _). by injection E as <- <-. }
      assert (Hh : history s (mkService env (sv_group_size env s1) (sv_machine env s1)
        (mkNodeImpl env (stop_ env (sv_node env s1)) (options_ env (sv_node env s1)) (loops_ env (sv_node env s1))
           (<[Z.to_nat (Shard (sv_group_size env s) (rq_key request)) := g']> (sgroups s1))) (sv_done env s1)) []).
      { apply (history_trans _ _ _ _ [] I1), history_refl; [|done]. rewrite instances_insert, Hn.
        apply list_insert_id. unfold instances. by rewrite list_lookup_fmap, Hg. }
      destruct b; [exact Hh|]. by apply run_done_history.
  - destruct (Node_GetMaster env _ micros (sv_node env s1)) as [m|]; [|done]. cbn [mbind option_bind].
    destruct (in_group env _ _ _) as [version|]; [|done]. cbn [mbind option_bind]. intros [= <-].
    apply run_done_history. destruct m as [[]|]; auto.
Qed.

Lemma group_history gid e s s' :
  service_ok s -> Service_group env gid e s = Some s' -> exists l, history s s' l.
Proof.
  intros Hok. unfold Service_group. destruct (sgroups s !! gid) as [g|] eqn:Hg; [|done]. cbn [mbind option_bind].
  assert (Hn : instances s !! gid = Some (g_node env g)) by (unfold instances; by rewrite list_lookup_fmap, Hg).
  destruct (Hok gid _ Hn) as [Hgid Hids].
  set (g1 := load_machine env (sv_machine env s) g).
  destruct (group_step env e g1) as [g'|] eqn:E; [|done]. cbn [mbind option_bind]. intros [= <-].
  destruct (group_step_drives e g1 g' E) as [C (k & O & R)].
  destruct (mm_run_store _ _ _ _ _ R Hids) as [Hids' (xs & Hu & Hv & Hf)].
  change (config_ (g_node env g1)) with (config_ (g_node env g)) in *.
  change (out_ (g_node env g1)) with (out_ (g_node env g)) in *. rewrite Hgid in Hf.
  exists xs. set (s1 := mkService env _ _ _ _).
  assert (H : history s s1 xs).
  { split; [intros key; unfold s1; cbn [sv_machine]; unfold group_user; rewrite Hu; done|].
    unfold s1. rewrite instances_insert. split_and!; [by rewrite length_insert| |].
    { eapply Forall_impl; [exact Hf|]. intros x ->. exists gid. split; [done|]. by eapply lookup_lt_Some. }
    intros j n n' H1 H2. destruct (decide (j = gid)) as [->|Hne].
    - rewrite Hn in H1. injection H1 as <-. rewrite list_lookup_insert_eq in H2 by (by eapply lookup_lt_Some).
      injection H2 as <-. exists k. split_and!; [done|done|done|]. by rewrite of_group_all.
    - rewrite list_lookup_insert_ne in H2 by done. rewrite H1 in H2. injection H2 as <-.
      exists []. rewrite app_nil_r. split_and!; [done|done|done|].
      rewrite of_group_none; [done|]. eapply Forall_impl; [exact Hf|]. intros x -> Heq. lia. }
  destruct e; try exact H. unfold run_done. by destruct (_ =? _).
Qed.

Lemma history_ok s s' l : service_ok s -> history s s' l -> service_ok s'.
Proof.
  intros Hok (_ & L & _ & H) gid n' Hn'. destruct (lookup_lt_is_Some_2 (instances s) gid) as [n Hn].
  { rewrite <- L. by eapply lookup_lt_Some. }
  destruct (Hok gid n Hn) as [H1 H2], (H gid n n' Hn Hn') as (k & _ & -> & H3 & _). auto.
Qed.

Lemma service_history es s s' : service_ok s -> service_run env es s = Some s' -> exists l, history s s' l.
Proof.
  revert s. induction es as [|e es IH]; intros s Hok.
  - intros [= <-]. exists []. by apply history_refl.
  - cbn [service_run]. destruct (service_step env e s) as [s1|] eqn:E; [|done]. cbn [mbind option_bind]. intros Hr.
    assert (H1 : exists l, history s s1 l).
    { destruct e as [now micros u request response done|gid e]; cbn [service_step] in E.
      - exists []. apply (history_trans s (with_machine env (new_response response) s) s1 [] []).
        + by apply history_refl.
        + by eapply propose_history.
      - by eapply group_history. }
    destruct H1 as [l1 H1]. destruct (IH s1 (history_ok _ _ _ Hok H1) Hr) as [l2 H2].
    exists (l1 ++ l2). by eapply history_trans.
Qed.

(** The values of the store a group has executed between two states. *)
Definition group_values (gid : nat) (s s' : service_t) : list string :=
  match instances s !! gid, instances s' !! gid with
  | Some n, Some n' => store_values (run_log (drop (length (out_ n)) (out_ n')))
  | _, _ => []
  end.

(** The keys of the values belong to the group. *)
Definition group_sharded (group_size : Z) (gid : nat) (vs : list string) : Prop :=
  forall v k, v ∈ vs -> effect k v <> None -> Shard group_size k = Z.of_nat gid.

Lemma history_values s s' l gid :
  history s s' l -> group_values gid s s' = ex_value <$> of_group (Z.of_nat gid) l.
Proof.
  intros (_ & L & G & H). unfold group_values. destruct (instances s !! gid) as [n|] eqn:Hn.
  - destruct (lookup_lt_is_Some_2 (instances s') gid) as [n' Hn'].
    { rewrite L. by eapply lookup_lt_Some. }
    rewrite Hn'. destruct (H gid n n' Hn Hn') as (k & -> & _ & _ & V). by rewrite drop_app_length, V.
  - rewrite of_group_none; [done|]. eapply Forall_impl; [exact G|]. intros x (j & -> & Hj) E.
    apply Nat2Z.inj in E as ->. apply lookup_ge_None in Hn. lia.
Qed.

Lemma history_sharded group_size s s' l :
  history s s' l -> (forall gid, group_sharded group_size gid (group_values gid s s')) ->
  Forall (sharded group_size) l.
Proof.
  intros Hh HS'. apply Forall_forall. intros x Hx k Hk.
  pose proof Hh as (_ & _ & G & _). rewrite Forall_forall in G. destruct (G x Hx) as (gid & E & _).
  rewrite E. apply (HS' gid (ex_value x)); [|done]. rewrite (history_values _ _ _ _ Hh).
  apply list_elem_of_fmap. exists x. split; [done|]. by apply list_elem_of_filter.
Qed.

(** (C12) The nodes of the store agree.  Two nodes serve requests while their groups exchange
    messages and execute values, in any order, on the one database each node has.  If they
    started with the same data, every group has executed the same values on both, and the keys
    of these values belong to the group, then the two databases hold the same data, whatever
    the interleavings were; in particular a read gives the same answer on both. *)
Theorem journey_nodes_agree :
  forall (group_size : Z) (es1 es2 : list ServiceEvent) (s1 s2 t1 t2 : service_t),
  service_ok s1 -> service_ok s2 -> journey_equiv (sv_machine env s1) (sv_machine env s2) ->
  service_run env es1 s1 = Some t1 -> service_run env es2 s2 = Some t2 ->
  (forall gid, group_values gid s1 t1 = group_values gid s2 t2) ->
  (forall gid, group_sharded group_size gid (group_values gid s1 t1)) ->
  journey_equiv (sv_machine env t1) (sv_machine env t2) /\
  (forall k, Machine_Get k (sv_machine env t1) = Machine_Get k (sv_machine env t2)).
Proof.
  intros gs es1 es2 s1 s2 t1 t2 O1 O2 He R1 R2 HV HSh.
  destruct (service_history es1 s1 t1 O1 R1) as [l1 H1], (service_history es2 s2 t2 O2 R2) as [l2 H2].
  assert (E : journey_equiv (sv_machine env t1) (sv_machine env t2)).
  { etrans; [apply H1|]. symmetry. etrans; [apply H2|]. symmetry.
    apply (shard_interleavings gs); [by eapply history_sharded| | |done].
    - eapply history_sharded; [exact H2|]. intros gid. rewrite <- HV. apply HSh.
    - intros g. destruct (decide (0 <= g)) as [Hg|Hg].
      + rewrite <- (Z2Nat.id g), <- (history_values _ _ _ _ H1), <- (history_values _ _ _ _ H2) by done. apply HV.
      + destruct H1 as (_ & _ & G1 & _), H2 as (_ & _ & G2 & _).
        rewrite !of_group_none; [done|eapply Forall_impl; [exact G2|]|eapply Forall_impl; [exact G1|]];
          intros x (j & -> & _); lia. }
  split; [done|]. intros k. unfold Machine_Get, JourneyDB_Get. by rewrite (E k).
Qed.

End Histories.

End Service.
