(* ===== verification/JourneyClients.v ===== *)
(** The client of the key-value store: its calls end or it has read all its input, the
    assertion on the words of a command holds, and what a command sends; the addresses the
    client is redirected to are those the servers listen on. *)

From S2P Require Import Prelude Proto Util NodeState NodeModel JourneyModel JourneyPrograms MachinesModel.
From Stdlib Require Import Ascii.

#[local] Open Scope string_scope.
#[local] Open Scope Z_scope.

Section Clients.
Context {SU : StringUtil} {SUL : StringUtilLaws}.

(** * Reading lines *)

Lemma GetLine_shorter input c c' :
  GetLine_loop false input c = Running c' -> (length (cl_input c') < length input)%nat.
Proof.
  revert c. induction input as [|s input IH]; intros c; cbn [GetLine_loop]; [done|].
  case_decide; [done|]. destruct (command_words s) as [v|].
  - intros [= <-]. simpl. lia.
  - intros Hc%IH. simpl. lia.
Qed.

Lemma GetLine_server input c c' :
  GetLine_loop true input c = Running c' ->
  (length (cl_input c') < length input)%nat \/
  input = [] /\ cl_input c' = [] /\ server_ c' = "" /\ v_ c' = v_ c /\ channels_ c' = channels_ c.
Proof.
  destruct input as [|s input]; cbn [GetLine_loop].
  - intros [= <-]. by right.
  - case_decide; [done|]. intros [= <-]. left. simpl. lia.
Qed.

Lemma split_empty c : SplitStringUsing "" (String c "") = [].
Proof. by rewrite split_pieces. Qed.

(** ** The calls of the client *)

(** The calls a call makes are on shorter input, or on the same one for [Propose()]. *)
Lemma propose_words_ext f g c :
  (forall c', (length (cl_input c') <= length (cl_input c))%nat -> f true c' = g true c') ->
  (forall c', (length (cl_input c') < length (cl_input c))%nat \/ cl_input c' = [] /\ server_ c' = "" ->
     f false c' = g false c') ->
  propose_words f c = propose_words g c.
Proof.
  intros Ht Hf. unfold propose_words. destruct (CreateNewRequest (v_ c)) as [[r|]|]; [|by apply Ht|done].
  destruct (channels_ c !! server_ c); [done|]. destruct (connect r c); [done|].
  destruct (GetLine true _) as [c2|c2| |] eqn:E; try done. cbn [and_then]. apply Hf. unfold GetLine in E.
  apply GetLine_server in E. cbn [cl_input print] in E. tauto.
Qed.

Lemma at_end f c : cl_input c = [] -> client_Propose f true c = Endless.
Proof.
  intros Hi. destruct f as [|f]; [done|]. cbn [client_Propose]. unfold propose_body, GetLine. by rewrite Hi.
Qed.

(** The input has ended and there is no server to connect to. *)
Lemma ended_fuel f1 f2 c :
  cl_input c = [] -> server_ c = "" -> (1 <= f1)%nat -> (1 <= f2)%nat ->
  client_Propose f1 false c = client_Propose f2 false c.
Proof.
  assert (Hs : forall f c, cl_input c = [] -> server_ c = "" -> channels_ c !! "" = None ->
    CreateNewRequest (v_ c) <> None -> client_Propose f false c = Endless).
  { intros f. induction f as [|f IH]; intros c0 Hi Hs Hc Hv; [done|]. cbn [client_Propose].
    unfold propose_body. cbn [and_then]. unfold propose_words.
    destruct (CreateNewRequest (v_ c0)) as [[r|]|] eqn:Ev; [|by apply at_end|done].
    rewrite Hs, Hc. unfold connect. rewrite Hs, split_empty. unfold GetLine. cbn [cl_input print]. rewrite Hi.
    cbn [GetLine_loop and_then]. apply IH; try done. simpl. by rewrite Ev. }
  intros Hi Hsv H1 H2. destruct f1 as [|f1], f2 as [|f2]; try lia. cbn [client_Propose].
  unfold propose_body. cbn [and_then]. unfold propose_words.
  destruct (CreateNewRequest (v_ c)) as [[r|]|] eqn:Ev; [|by rewrite !at_end|done].
  destruct (channels_ c !! server_ c) eqn:Ec; [done|]. unfold connect. rewrite Hsv, split_empty.
  unfold GetLine. cbn [cl_input print]. rewrite Hi. cbn [GetLine_loop and_then].
  rewrite !Hs; simpl; rewrite ?Ev; try done; by rewrite <- Hsv.
Qed.

Lemma client_Propose_fuel f1 f2 (read : bool) c :
  (length (cl_input c) + (if read then 1 else 2) <= f1)%nat ->
  (length (cl_input c) + (if read then 1 else 2) <= f2)%nat ->
  client_Propose f1 read c = client_Propose f2 read c.
Proof.
  revert f2 read c. induction f1 as [|f1 IH]; intros f2 read c H1 H2; [destruct read; lia|].
  destruct f2 as [|f2]; [destruct read; lia|]. cbn [client_Propose].
  assert (Hk : forall c', (length (cl_input c') + (if read then 1 else 0) <= length (cl_input c))%nat ->
    propose_words (client_Propose f1) c' = propose_words (client_Propose f2) c').
  { intros c' Hl. apply propose_words_ext.
    - intros c2 H. apply IH; destruct read; lia.
    - intros c2 [H|[H Hs]]; [apply IH; destruct read; lia|]. apply ended_fuel; try done; destruct read; lia. }
  unfold propose_body. destruct read; cbn [and_then]; [|apply Hk; lia].
  destruct (GetLine false c) as [c1|c1| |] eqn:E; try done. cbn [and_then]. unfold GetLine in E.
  apply GetLine_shorter in E. apply Hk. lia.
Qed.

(** A [quit] in the input is read before the input ends. *)
Lemma GetLine_quit server input c :
  "quit" ∈ input ->
  match GetLine_loop server input c with
  | Running c' => "quit" ∈ cl_input c' /\ (length (cl_input c') < length input)%nat
  | Exited _ => True
  | _ => False
  end.
Proof.
  revert c. induction input as [|s input IH]; intros c Hq; [by apply elem_of_nil in Hq|].
  cbn [GetLine_loop]. case_decide as Hs; [done|]. apply elem_of_cons in Hq as [<-|Hq]; [done|].
  destruct server; [simpl; split; [done|lia]|]. destruct (command_words s); [simpl; split; [done|lia]|].
  specialize (IH (set_v [] (print ("invalid command!" +:+ newline) (print "> " c))) Hq).
  destruct (GetLine_loop false input _); try done. destruct IH. split; [done|]. simpl. lia.
Qed.

Lemma quit_ends f (read : bool) c :
  "quit" ∈ cl_input c -> (length (cl_input c) + (if read then 1 else 2) <= f)%nat ->
  client_Propose f read c <> Endless.
Proof.
  revert read c. induction f as [|f IH]; intros read c Hq Hf; [destruct read; lia|]. cbn [client_Propose].
  assert (Hk : forall c', "quit" ∈ cl_input c' ->
    (length (cl_input c') + (if read then 1 else 0) <= length (cl_input c))%nat ->
    propose_words (client_Propose f) c' <> Endless).
  { intros c' Hq' Hl. unfold propose_words. destruct (CreateNewRequest (v_ c')) as [[r|]|]; [|apply IH; [done|]|done].
    2: { simpl. destruct read; lia. }
    destruct (channels_ c' !! server_ c'); [done|].
    destruct (connect r c') as [o|] eqn:Ec.
    - unfold connect in Ec. destruct (SplitStringUsing _ _) as [|ip [|port []]]; try done.
      injection Ec as <-. by destruct (stoi port).
    - unfold GetLine. pose proof (GetLine_quit true _ (print (bad_server_text (server_ c')) c') Hq') as H.
      cbn [cl_input print]. destruct (GetLine_loop true (cl_input c') _); try done. destruct H.
      cbn [and_then]. apply IH; [done|]. destruct read; lia. }
  unfold propose_body. destruct read; cbn [and_then]; [|apply Hk; [done|lia]].
  unfold GetLine. pose proof (GetLine_quit false _ c Hq) as H.
  destruct (GetLine_loop false (cl_input c) c); try done. destruct H. cbn [and_then]. apply Hk; [done|lia].
Qed.

(** The functions of the client, which call each other instead of looping, come to an end as
    long as there is input: with the depth the model uses they satisfy the recursive
    equation of the code, so that no request, no wait for an event and no exit is cut off;
    and they call each other for ever only when the rest of the input has no [quit]. *)
Theorem client_terminates : forall (read : bool) (c : JourneyClient),
  Propose read c = propose_body Propose read c /\
  (Propose read c = Endless -> "quit" ∉ cl_input c).
Proof.
  intros read c. split; [|intros E Hq; revert E; apply quit_ends; [done|destruct read; lia]].
  unfold Propose at 1.
  rewrite (client_Propose_fuel _ (S (length (cl_input c) + 2))) by (destruct read; lia).
  cbn [client_Propose].
  assert (Hk : forall c', (length (cl_input c') <= length (cl_input c))%nat ->
    propose_words (client_Propose (length (cl_input c) + 2)) c' = propose_words Propose c').
  { intros c' Hl. unfold Propose. apply propose_words_ext; intros c2 H.
    - apply client_Propose_fuel; lia.
    - apply client_Propose_fuel; destruct H as [H|[E _]]; rewrite ?E; simpl; lia. }
  unfold propose_body. destruct read; cbn [and_then]; [|by apply Hk].
  destruct (GetLine false c) as [c1|c1| |] eqn:E; try done. cbn [and_then]. unfold GetLine in E.
  apply GetLine_shorter in E. apply Hk. lia.
Qed.

(** * Commands *)

Fixpoint has_char (c : ascii) (s : string) : bool :=
  match s with "" => false | String x s => Ascii.eqb x c || has_char c s end.

Lemma string_app_cons x s t : String x s +:+ t = String x (s +:+ t).
Proof. done. Qed.

Lemma string_app_nil t : "" +:+ t = t.
Proof. done. Qed.

Lemma find_char_app c w rest : has_char c w = false -> find_char c (w +:+ String c rest) = Some (String.length w).
Proof.
  induction w as [|x w IH]; intros H; rewrite ?string_app_nil, ?string_app_cons; cbn [find_char].
  - by rewrite Ascii.eqb_refl.
  - cbn [has_char] in H. apply orb_false_elim in H as [Hx Hw]. by rewrite Hx, IH.
Qed.

Lemma find_char_rest c s found :
  find_char c s = Some found ->
  exists t, String.substring found (String.length s - found) s = String c t.
Proof.
  revert found. induction s as [|x s IH]; intros found; [done|]. cbn [find_char].
  destruct (Ascii.eqb_spec x c) as [->|Hn].
  - intros [= <-]. exists s. cbn. by rewrite substring_all.
  - destruct (find_char c s) as [k|] eqn:E; [|done]. intros [= <-]. by apply IH.
Qed.

Lemma string_app_snoc p x s : (p +:+ String x "") +:+ s = p +:+ String x s.
Proof. induction p as [|c p IH]; [done|]. by rewrite !string_app_cons, IH. Qed.

Lemma pieces_run c s t p : has_char c s = false -> pieces c (s +:+ t) p = pieces c t (p +:+ s).
Proof.
  revert p. induction s as [|x s IH]; intros p H; [by rewrite string_app_empty|].
  cbn [has_char] in H. apply orb_false_elim in H as [Hx Hs]. rewrite string_app_cons. cbn [pieces]. rewrite Hx, IH by done.
  by rewrite string_app_snoc.
Qed.

Lemma pieces_nonempty c s p : p <> "" -> pieces c s p <> [].
Proof.
  revert p. induction s as [|x s IH]; intros p Hp; cbn [pieces]; unfold add_piece.
  - by rewrite decide_False.
  - destruct (Ascii.eqb x c); [by rewrite decide_False|]. apply IH. by destruct p.
Qed.

(** The commands of the client.  Whatever the user types, the assertion that a command
    has a key holds; and [put key:value], [get key] and [delete key] make the request of
    that kind for one and the same stored key, which is the key with the blank in
    front of it. *)
Theorem client_commands :
  (forall s v, command_words s = Some v -> CreateNewRequest v <> None) /\
  (forall key value, has_char ":" key = false -> has_char ":" value = false -> value <> "" ->
     CreateNewRequest <$> command_words ("put " +:+ key +:+ ":" +:+ value)
       = Some (Some (Some (mkRequest PROPOSE_TYPE_PUT (" " +:+ key) value)))) /\
  (forall key, has_char ":" key = false ->
     CreateNewRequest <$> command_words ("get " +:+ key)
       = Some (Some (Some (mkRequest PROPOSE_TYPE_GET (" " +:+ key) ""))) /\
     CreateNewRequest <$> command_words ("delete " +:+ key)
       = Some (Some (Some (mkRequest PROPOSE_TYPE_DELETE (" " +:+ key) "")))).
Proof.
  assert (Hw : forall w rest, has_char " " w = false ->
    command_words (w +:+ String " " rest) = Some (w :: pieces ":" (String " " rest) "")).
  { intros w rest H. unfold command_words. rewrite find_char_app by done. rewrite split_pieces. do 2 f_equal.
    - apply substring_app_l.
    - f_equal. rewrite substring_skip, string_length_app.
      replace (String.length w + String.length (String " " rest) - String.length w)%nat
        with (String.length (String " " rest)) by lia. apply substring_all. }
  assert (Hp : forall key t, has_char ":" key = false ->
    pieces ":" (String " " (key +:+ t)) "" = pieces ":" t (" " +:+ key))
    by (intros key t H; change (pieces ":" (String " " (key +:+ t)) "") with (pieces ":" (key +:+ t) " "); by rewrite pieces_run).
  assert (He : forall s, s +:+ "" = s) by apply string_app_empty.
  split_and!.
  - intros s v. unfold command_words. destruct (find_char " " s) as [found|] eqn:E; [|done].
    intros [= <-]. destruct (find_char_rest _ s found E) as [t ->]. rewrite split_pieces.
    pose proof (pieces_nonempty ":" t " " ltac:(done)) as H.
    change (pieces ":" (String " " t) "") with (pieces ":" t " "). by destruct (pieces ":" t " ").
  - intros key value Hk Hv Hne. change ("put " +:+ key +:+ ":" +:+ value) with ("put" +:+ String " " (key +:+ String ":" value)).
    rewrite Hw, Hp by done. change (pieces ":" (String ":" value) (" " +:+ key)) with (add_piece (" " +:+ key) (pieces ":" value "")).
    rewrite <- (He value) at 1. rewrite pieces_run by done. rewrite string_app_nil. cbn [pieces].
    unfold add_piece. rewrite !decide_False by done. done.
  - intros key Hk. change ("get " +:+ key) with ("get" +:+ String " " key).
    change ("delete " +:+ key) with ("delete" +:+ String " " key). rewrite !Hw by done.
    assert (Ep : pieces ":" (String " " key) "" = [" " +:+ key]) by (rewrite <- (He key) at 1; by rewrite Hp).
    by rewrite Ep.
Qed.

(** The service of a node listens where the client is redirected to for that node. *)
Lemma redirect_address {IN : Inet} argv cwd o db host port :
  server_main argv cwd = MStart o db host port ->
  service_address (m_host (my o)) (m_port (my o)) = host +:+ ":" +:+ pretty port.
Proof.
  unfold server_main. destruct argv as [|? [|arg1 [|arg2 []]]]; try done. destruct cwd as [path|]; [|done].
  unfold read_my. destruct (SplitStringUsing arg1 ":") as [|h [|p l]]; try done.
  intros [= <- _ <- <-]. unfold service_address. cbn [my three_groups m_host m_port member_at].
  do 3 f_equal. unfold wrap32. apply Z.mod_small. unfold wrap16.
  pose proof (Z.mod_pos_bound (atoi p) (2 ^ 16)). lia.
Qed.

End Clients.
