(* ===== verification/JourneyRuns.v ===== *)
(** Instances of the theorems on the key-value store and its client: a database of strings,
    a hash and a splitting function, and two nodes with two groups of one member each, which
    serve the same requests in different orders. *)

From S2P Require Import Prelude Ballot Proto Util Storage Random TimerList Counter NodeState.
From S2P Require Import AcceptorModel ProposerModel LearnerModel LogModel InstanceModel Traces.
From S2P Require Import System Simulation MachinesModel Machines ProposeQueue Proposals GroupModel Groups.
From S2P Require Import Reference MachineWitnesses TransferRuns Replication Contexts Runtime FileModel NodeModel.
From S2P Require Import JourneyModel JourneyPrograms Journey JourneyService JourneyClients.

(** * Instances *)

Definition string_apply (op : BatchOp) (m : gmap string string) : gmap string string :=
  match op with BatchPut k v => <[k := v]> m | BatchDelete k => delete k m end.

(** A database with the bytewise comparator. *)
Definition string_db : LevelDB := {|
  ldb := gmap string string;
  ldb_Put _ k v m := (<[k := v]> m, LOk);
  ldb_Delete _ k m := (delete k m, LOk);
  ldb_Write _ ops m := (foldl (fun m op => string_apply op m) m ops, LOk);
  ldb_Get k m := match m !! k with Some v => (LOk, v) | None => (LNotFound, ""%string) end;
  ldb_Keys m := (map_to_list m).*1;
|}.

#[local] Instance string_db_bytewise : @BytewiseLaws string_db.
Proof.
  split; cbn; intros sync k.
  - intros v db db' [= <-] k'. destruct (decide (k = k')) as [<-|H]; [by rewrite lookup_insert_eq|].
    by rewrite lookup_insert_ne.
  - intros db db' [= <-] k'. destruct (decide (k = k')) as [<-|H]; [by rewrite lookup_delete_eq|].
    by rewrite lookup_delete_ne.
Qed.

#[local] Instance string_db_reliable : @BytewiseReliable string_db.
Proof. by split. Qed.

#[local] Instance propose_type_countable : Countable ProposeType.
Proof.
  refine (inj_countable'
    (fun t => match t with PROPOSE_TYPE_PUT => inl 0 | PROPOSE_TYPE_GET => inl 1 | PROPOSE_TYPE_DELETE => inl 2
                | PROPOSE_TYPE_other n => inr n end)
    (fun x : Z + Z => match x with inl 0 => PROPOSE_TYPE_PUT | inl 1 => PROPOSE_TYPE_GET
                | inl _ => PROPOSE_TYPE_DELETE | inr n => PROPOSE_TYPE_other n end) _).
  by intros [].
Defined.

#[local] Instance request_eq_dec : EqDecision RequestMessage.
Proof. solve_decision. Defined.

#[local] Instance request_countable : Countable RequestMessage.
Proof.
  refine (inj_countable' (fun r => (rq_type r, rq_key r, rq_value r))
    (fun t : ProposeType * string * string => mkRequest t.1.1 t.1.2 t.2) _).
  by intros [].
Defined.

#[local] Instance request_codec : ProtoCodec RequestMessage := countable_codec RequestMessage_default.

(** The sum of the bytes. *)
#[local] Instance sum_hash : Hash := fun s => wrap32 (byte_sum s).

(** The pieces between occurrences of the first delimiter. *)
#[local] Instance split_first : StringUtil := fun s d =>
  match d with String c _ => pieces c s "" | "" => [s] end.
#[local] Instance split_first_laws : StringUtilLaws := fun _ _ => eq_refl.

(** * The database *)

Notation journey_um := (@journey_machines string_db request_codec).

Definition empty_store : JourneyDBMachine (JD := string_db) :=
  mkJourneyDBMachine (JD := string_db) (∅ : gmap string string) ∅.

Definition put (k v : string) : string := SerializeAsString (mkRequest PROPOSE_TYPE_PUT k v).

Definition run_put (g i : Z) (k v : string) : execution := mkExecution g i (put k v) 0.

(** The last value overwrites the first one; the node replays without it. *)
Lemma replay_is_harmless_witness :
  let l := [run_put 0 1 "a" "1"; run_put 0 2 "b" "2"] in
  let after := execute_all (JD := string_db) (l ++ [run_put 0 3 "a" "3"]) empty_store in
  Machine_Get "a" after = (0, "3"%string) /\
  Machine_Get "a" (execute_all l after) = (0, "1"%string) /\
  Machine_Get "a" (execute_all [run_put 0 3 "a" "3"] (execute_all l after)) = (0, "3"%string).
Proof.
  intros l after.
  destruct (replay_is_harmless (JD := string_db) l (run_put 0 3 "a" "3") empty_store) as (_ & H & _).
  assert (Ha : Machine_Get "a" after = (0, "3"%string)) by (vm_compute; reflexivity).
  split; [exact Ha|]. split; [vm_compute; reflexivity|].
  rewrite <- Ha. unfold after, Machine_Get, JourneyDB_Get. by rewrite (H "a"%string).
Defined.

(** * A service *)

Definition store_manager : manager (UM := journey_um) :=
  mkManager (UM := journey_um) (members_of [1]) MasterState_default (empty_store : @um journey_um) journey_ids
    100000 2 false false [] [] 0 0 false ∅.

(** The only member of its group. *)
Definition store_node (gid : Z) : node (MM := group_machines (UM := journey_um) good_env) :=
  (Instance_Recover (MM := group_machines (UM := journey_um) good_env)
    (new_node (MM := group_machines (UM := journey_um) good_env) (mkConfig 1 gid 1000 true 5 100000 None) 5 ∅
       (store_manager : mm (MachineManager := group_machines (UM := journey_um) good_env)) tt)).1.

Definition store_group (gid : Z) : group (UM := journey_um) good_env :=
  Group_new (UM := journey_um) good_env (store_node gid) true 10000 5.

Definition store_service : JourneyServiceImpl (JD := string_db) good_env :=
  mkService (JD := string_db) good_env 2 empty_store
    (mkNodeImpl (UM := journey_um) good_env false (mkOptions 1 0 1 1 1 1 (mkMember 1 "a" 1 "") [] None) []
       [store_group 0; store_group 1]) [].

(** A group makes its node the master, or handles the proposal that comes next. *)
Definition elect (gid : nat) : list ServiceEvent :=
  [SGroup gid (GSync 5); SGroup gid (GHandler 256); SGroup gid GCallback; SGroup gid (GMasterResume 6)].
Definition serve (gid : nat) (r : Z) : list ServiceEvent := [SGroup gid (GHandler r); SGroup gid GCallback].

Definition ask (t : ProposeType) (k v : string) (done : Z) : ServiceEvent :=
  SPropose 6 6000 (0, 0) (mkRequest t k v) (1000 + done) done.

(** Group 0 has the key b and group 1 the keys a and c. *)
Definition requests_1 : list ServiceEvent :=
  ask PROPOSE_TYPE_PUT "a" "0" 1 :: elect 0 ++ elect 1 ++
  [ask PROPOSE_TYPE_PUT "a" "1" 2; ask PROPOSE_TYPE_PUT "b" "2" 3] ++ serve 1 257 ++ serve 0 258 ++
  [ask PROPOSE_TYPE_GET "a" "" 4; ask PROPOSE_TYPE_DELETE "a" "" 5; ask PROPOSE_TYPE_PUT "c" "3" 6] ++
  serve 1 259 ++ serve 1 260.

(** The same updates, group 0 last. *)
Definition requests_2 : list ServiceEvent :=
  elect 1 ++ elect 0 ++
  [ask PROPOSE_TYPE_PUT "a" "1" 1; ask PROPOSE_TYPE_DELETE "a" "" 2; ask PROPOSE_TYPE_PUT "c" "3" 3] ++
  serve 1 257 ++ serve 1 258 ++ serve 1 259 ++ [ask PROPOSE_TYPE_PUT "b" "2" 4] ++ serve 0 260.

Definition is_service_event (e : ServiceEvent) : bool :=
  match e with SGroup _ (GPropose _ _ _ _) | SGroup _ (GChangeMember _ _ _) => false | _ => true end.

Definition is_quiescent (g : group (UM := journey_um) good_env) : bool :=
  last_finished (g_queue good_env g) && (g_called good_env g =? length (callbacks (g_queue good_env g)))%nat.

Definition answers (s : JourneyServiceImpl (JD := string_db) good_env) : list (Z * ResponseMessage) :=
  map_to_list (j_heap (sv_machine good_env s)).

Lemma store_timers gid : timers_ok (io_timers (store_node gid)).
Proof.
  constructor; [vm_compute; reflexivity|constructor|].
  intros v p. split; [intros H; vm_compute in H; by apply elem_of_nil in H|].
  intros (t & Ht & _). vm_compute in Ht. destruct p; discriminate Ht.
Qed.

Lemma store_group_started gid : started_group (JD := string_db) good_env (store_group gid).
Proof.
  exists (store_node gid), true, 10000, 5. split; [reflexivity|]. split; [reflexivity|].
  split; [apply store_timers|]. split; [reflexivity|]. split; reflexivity.
Qed.

Lemma store_started : started_service good_env store_service.
Proof.
  split; [|reflexivity]. apply Forall_cons. split; [exact (store_group_started 0)|].
  apply Forall_singleton. exact (store_group_started 1).
Qed.

Lemma store_ok : service_ok good_env store_service.
Proof.
  intros [|[|gid]] n H; [| |discriminate H]; injection H as <-; split; vm_compute; reflexivity.
Qed.

Lemma all_service_events es : forallb is_service_event es = true -> Forall service_event es.
Proof.
  intros H. apply Forall_forall. intros e He. rewrite forallb_forall in H.
  apply list_elem_of_In, H in He. by destruct e as [|? []].
Qed.

Lemma all_events_in k es :
  forallb (fun e => match e with SGroup gid _ => (gid <? k)%nat | _ => true end) es = true -> Forall (event_in k) es.
Proof.
  intros H. apply Forall_forall. intros e He. rewrite forallb_forall in H.
  apply list_elem_of_In, H in He. destruct e as [|gid ?]; [done|]. by apply Nat.ltb_lt.
Qed.

(** Six requests, of which two are answered at once. *)
Lemma requests_answered_once_witness :
  exists s, service_run good_env requests_1 store_service = Some s /\ sv_done good_env s ≡ₚ [1; 2; 3; 4; 5; 6].
Proof.
  destruct (requests_answered_once good_env 2 requests_1 store_service store_started) as (s & l & E & P & Hl);
    [split; reflexivity|lia|apply all_service_events; vm_compute; reflexivity
    |apply all_events_in; vm_compute; reflexivity|].
  destruct (evaluated (service_run good_env requests_1 store_service)
    (fun s => forallb is_quiescent (groups_ (UM := journey_um) good_env (sv_node good_env s)))) as (s' & E' & Q);
    [vm_compute; reflexivity|].
  rewrite E in E'. injection E' as <-. exists s. split; [exact E|].
  rewrite Hl, app_nil_r in P; [exact P|]. apply Forall_forall. intros g Hg. rewrite forallb_forall in Q.
  apply list_elem_of_In, Q, andb_true_iff in Hg as [H1 H2]. split; [exact H1|by apply Nat.eqb_eq].
Defined.

(** The values a group of the example executes, evaluated. *)
Definition values_of (gid : nat) (s : JourneyServiceImpl (JD := string_db) good_env) : list string :=
  group_values good_env gid store_service s.

Definition served (vs : nat -> list string) (s : JourneyServiceImpl (JD := string_db) good_env) : bool :=
  bool_decide (values_of 0 s = vs 0%nat) && bool_decide (values_of 1 s = vs 1%nat).

Definition served_values (gid : nat) : list string :=
  match gid with
  | 0%nat => [put "b" "2"]
  | 1%nat => [put "a" "1"; SerializeAsString (mkRequest PROPOSE_TYPE_DELETE "a" ""); put "c" "3"]
  | _ => []
  end.

Lemma served_ok s gid : served served_values s = true -> values_of gid s = served_values gid.
Proof.
  intros [H0 H1]%andb_true_iff. apply bool_decide_eq_true in H0, H1.
  destruct gid as [|[|gid]]; [exact H0|exact H1|reflexivity].
Qed.

Lemma parse_serialized (r : RequestMessage) : ParseFromString (SerializeAsString r) = (true, r).
Proof. apply (countable_codec_laws RequestMessage_default). Qed.

Lemma served_sharded gid : group_sharded 2 gid (served_values gid).
Proof.
  intros v k Hv He. apply effect_key in He. subst k.
  destruct gid as [|[|gid]]; cbn [served_values] in Hv;
    repeat (apply elem_of_cons in Hv as [->|Hv]; [by unfold put; rewrite parse_serialized|]); by apply elem_of_nil in Hv.
Qed.

(** The two nodes serve the same updates in different orders. *)
Lemma journey_nodes_agree_witness :
  exists s1 s2, service_run good_env requests_1 store_service = Some s1 /\
    service_run good_env requests_2 store_service = Some s2 /\
    Machine_Get "c" (sv_machine good_env s1) = (0, "3"%string) /\
    forall k, Machine_Get k (sv_machine good_env s1) = Machine_Get k (sv_machine good_env s2).
Proof.
  destruct (evaluated (service_run good_env requests_1 store_service) (fun s =>
    served served_values s && bool_decide (Machine_Get "c" (sv_machine good_env s) = (0, "3"%string))))
    as (s1 & E1 & H1); [vm_compute; reflexivity|].
  destruct (evaluated (service_run good_env requests_2 store_service) (served served_values))
    as (s2 & E2 & H2); [vm_compute; reflexivity|].
  apply andb_true_iff in H1 as [H1 Hc]. apply bool_decide_eq_true in Hc.
  exists s1, s2. split; [exact E1|]. split; [exact E2|]. split; [exact Hc|].
  destruct (journey_nodes_agree good_env 2 requests_1 requests_2 store_service store_service s1 s2
    store_ok store_ok (reflexivity _) E1 E2) as [_ H]; [| |exact H].
  - intros gid. exact (eq_trans (served_ok s1 gid H1) (eq_sym (served_ok s2 gid H2))).
  - intros gid. pose proof (served_ok s1 gid H1) as E. unfold values_of in E. rewrite E. apply served_sharded.
Defined.

(** * The client *)

Lemma client_commands_witness :
  CreateNewRequest <$> command_words "put color:red" = Some (Some (Some (mkRequest PROPOSE_TYPE_PUT " color" "red"))) /\
  CreateNewRequest <$> command_words "get color" = Some (Some (Some (mkRequest PROPOSE_TYPE_GET " color" ""))) /\
  (forall v, command_words "put " = Some v -> CreateNewRequest v <> None).
Proof.
  destruct client_commands as (H & Hput & Hget). split; [|split].
  - apply (Hput "color"%string "red"%string); [reflexivity|reflexivity|discriminate].
  - apply (Hget "color"%string). reflexivity.
  - apply H.
Defined.

(** A command without a blank, a command without a value and the end. *)
Lemma client_terminates_witness :
  let c := JourneyClient_new "10.0.0.1:8000" ["status"; "put color"; "quit"]%string in
  Propose true c = propose_body Propose true c /\ Propose true c <> Endless.
Proof.
  intros c. destruct (client_terminates true c) as [H1 H2]. split; [exact H1|].
  intros E. apply (H2 E). vm_compute. right. right. left.
Defined.
